(* ===== verification/_CoqProject ===== *)
-Q . S2P
Prelude.v
Machine.v
External.v
Simulation.v
Graphic.v
Font.v
Errors.v
FrameBuffer.v
Console.v
Gdt.v
Paging.v
PhysMem.v
FrameSet.v
Common.v
Bootloader.v
Pci.v
PciListing.v
Logger.v
Display.v
Ps2Controller.v
Ps2Keyboard.v
Ps2Mouse.v
Ps2.v
Ps2Embed.v
Apic.v
Acpi.v
Interrupts.v
Accesses.v
KernelMain.v
Running.v
Confined.v
Interleave.v
PowerOn.v
Unmapped.v
Cursor.v
Timer.v
