(* ===== verification/Prelude.v ===== *)
(** A verification development of maizono_os.

    maizono_os is a UEFI bootloader (src/bootloader), a kernel for x86-64
    (src/kernel) and a crate the two share (src/common).  The bootloader loads the
    kernel's ELF file, collects the frame buffer, the memory map and the ACPI root
    pointer, and jumps to the kernel.  The kernel sets up the display, the segments, the
    page tables, the list of PCI functions, the ACPI tables, the PS/2 controller, the
    APICs and the frame map, and halts; from then on it serves interrupts.

    * How the code is modelled

    The model is a shallow embedding.  A method is a computation in the state monad
    [M S A] of this file, over the state [S] it can reach: it returns ([Ret]), panics
    ([Panic], with the state it leaves, since the target aborts on panic and locks stay
    held) or never comes back ([Diverges]: a spin on a held lock, a page fault, or fuel that
    ran out).
    Integers are [Z] with their width written out: [+], [-] and [*] panic on overflow,
    as in the debug build ([uadd], [usub], [umul]); casts, shifts and [!] truncate
    ([as_u], [ushl], [unot]); an index outside an array panics ([index], [index_set]).
    [Result] is [result], [?] is [bind_try], [unwrap] and [expect] are [expect].
    [zoom] runs a component on its part of a larger state.

    The statics are behind locks of the [spin] crate, given by the classes of External.v
    ([with_try_lock] for [try_lock], [with_lock] for [lock]).  Port I/O, memory-mapped
    registers, MSRs and privileged instructions are accesses of an arbitrary [Device]
    (Machine.v), recorded in order; the frame buffer and the memory the bootloader writes
    are bytes by address.  From [paging::init] on, a store of a drawing reaches memory only
    where the page tables, from the one that the last write to CR3 names, map its address
    (Display.v, [KernelMain.translate]).

    * The files

    - Prelude: the monad, integers, arrays; the rules of total correctness ([wp]) and of
      runs that may panic ([runs]); tactics ([wp_step], [zlia]) and hint databases.
    - Machine: memory, devices, the log of accesses; [emits], what a run appends to it.
    - External: the classes of [spin::Mutex], [spin::Once], [arrayvec::ArrayVec], with
      their laws and a reference instance of each.
    - Simulation: [sim] (two runs step by step), [pres] and [pres_val] (what a run keeps
      however it ends).  Accesses: the kinds of accesses that each stage of the kernel makes to the
      machine, and so what each stage keeps of it.
    - Graphic: common/src/graphic.rs, common/src/error.rs.  Common: common/src/address.rs,
      array.rs, boot.rs, arrayvec.rs.
    - Font, FrameBuffer, Console, Cursor: kernel/src/graphic/ font.rs and char.rs,
      frame_buffer.rs, console.rs, mouse.rs.  Errors: error.rs and the error enums of the modules.
    - Logger: the interface through which the other modules print.  Display: the console under
      page tables, which implements it; so does a list of lines.
    - Gdt: gdt.rs.  Paging: paging.rs.  PhysMem: phys_mem_manager.rs, memory_map.rs.
      FrameSet: the frame manager as an abstract set of frames.
    - Pci: pci/mod.rs.  PciListing: the depth-first listing the scan implements.
    - Ps2Controller, Ps2Keyboard, Ps2Mouse, Ps2: ps2/ controller.rs, keyboard.rs,
      mouse.rs, mod.rs.  Ps2Embed: the same [init] inside a larger machine.
    - Apic: arch.rs.  Acpi: acpi.rs.  Interrupts: interrupts.rs.  Timer: timer.rs.
    - Bootloader: bootloader/src/main.rs, bootloader/src/kernel.rs.
    - KernelMain: kernel/src/main.rs, over the statics of all modules ([KernelState]).
      Running: the kernel that waits for interrupts, as a step relation.  Interleave: the
      end of [main], after [sti], with interrupts between and inside its statements.
      Confined: where the kernel's stores through raw pointers go, whatever happens.
      PowerOn: the bootloader and the kernel as one run.  Unmapped: a display that the page
      tables do not reach.

    In each file the program comes first, then its specification, the lemmas, the
    theorems, and witnesses, which apply the theorems to concrete inputs.  A definition
    has the name of the function it models; where two modules use one name, the type or
    the module is put in front ([FrameBuf_fill], [Console_init]).

    * What is proved

    - The whole: [kernel_boots], from the statics as loaded to the halt, on any machine
      with PCI configuration space, APICs, an 8042 with two ports in any state, and a
      display below 64 GiB; [power_on], from the firmware through the bootloader to that halt,
      with what the processor then maps; [display_beyond_faults], the end of the kernel on
      a display at or above 64 GiB;
      [kernel_without_rsdp], the panic path up to the screen; [panic_in_console_lost], the
      panic nobody sees; [main_with_interrupts], every interleaving of interrupts with the
      statements after [sti]; [kernel_serves], every sequence of interrupts after the
      start; [writes_stay_in_buffer] (the frame buffer and the APICs' registers), on any machine
      and down any error path.
    - Display: [print_refines] (the console implements a scrolling terminal, on the
      screen), [init_print_screen], and what each drawing method of the
      frame buffer does to every pixel and to every other byte.
    - Memory: [identity_map] (the processor's page walk under the tables [init] leaves),
      [init_gdt], [init_bitmap], [allocator_refines] (the bitmap
      answers any sequence of requests as a set of frames does), and the defect of [alloc]
      ([alloc_always_none]).
    - PCI: [scan_exact] (the list is the set of reachable functions), [scan_is_listing] (in
      depth-first order), [scan_terminates] (even on a cycle of bridges), address and base address registers.
    - PS/2: [init_handshake] (every byte obeys the status bits, on every machine),
      [init_8042] (on an 8042 in any state), [read_data_spec], and the outcome of the
      keyboard's reset for every sequence of answers.
    - ACPI, APICs, interrupts: [init_acpi], [init_programs_apics] (the exact sequence of
      writes), [init_redirections] (the table they leave), [handlers_acknowledge],
      [idt_coverage].
    - Bootloader: [load_elf_image], [load_elf_malformed], [boot_hands_over].

    * Fuel

    A loop without a bound in its text has fuel, and each has a theorem that enough fuel
    gives a result.  The polling loops of the PS/2 controller need one more than their
    limit of 1000, and have it built in.  The PCI scan needs one more than the capacity of
    the list, since each bus that is entered adds a function.  [alloc] needs one more than the
    number of managed frames.  The wait for the delivery of an interrupt needs as many
    steps as the machine takes to settle, an assumption on the machine ([settles]).

    * Not modelled

    - Interrupts at the granularity of instructions: between [sti] and the halt they come
      between the statements of [main], or inside one that holds the console
      (Interleave.v).  One inside the statement that fills the frame map is not a case of its
      own: no handler touches the map, and the map is all the statement touches.
    - Page faults other than at a store to the display: the ACPI tables and the boot information
      are read through classes, at any address; the registers of the APICs have 32-bit
      addresses, which the tables always map; the kernel's own code, stack and statics are
      where the linker put them.  Before [paging::init] the firmware's tables are taken to map
      the display.
    - The checks of alignment and of null that the debug build makes at a raw store.
    - An 8042 whose keyboard or mouse does not answer: [init_8042] assumes devices that
      acknowledge and pass their self tests; [init_handshake] and [keyboard_reset_outcome] do not.
    - What [core::fmt] makes of a panic or an error: its text is a parameter.  Log lines of
      the bootloader, which change no state the code reads.
    - The code of the crates ([uefi], [goblin], [acpi], [x86_64], [spin], [arrayvec]):
      classes of operations, with the laws they document where a theorem needs them.
    - The three functions timer.rs calls and the repository does not have (the file is in no
      module list): the class [TimerApi].
    - The assembly around the calls (the entry of an interrupt, [hlt]); of
      [switch_to_kernel_stack], only the two registers it loads are.
    - Module lists, build files. *)

From Stdlib Require Export ZArith Bool Lia.
From stdpp Require Export base numbers list strings gmap.

#[global] Open Scope Z_scope.

(** * Outcomes and the state monad of the modelled code *)

(** Why a run panicked.  The kernel is built with debug assertions, so an
    arithmetic overflow panics like a failed bounds check does. *)
Inductive panic_info : Type :=
  | ArithOverflow
  | IndexOutOfBounds
  | UnwrapFailed (what : string)
  | ExplicitPanic (what : string).

(** The outcome of a run.  A panic keeps the state it left behind: nothing is
    unwound (the target aborts on panic), so locks stay held.  [Diverges] is a
    run that spins on a lock for ever or that used up its fuel. *)
Inductive outcome (S A : Type) : Type :=
  | Ret (a : A) (s : S)
  | Panic (p : panic_info) (s : S)
  | Diverges.
Arguments Ret {S A} _ _.
Arguments Panic {S A} _ _.
Arguments Diverges {S A}.

Definition M (S A : Type) : Type := S -> outcome S A.

#[export] Instance M_ret S : MRet (M S) := fun A a s => Ret a s.
#[export] Instance M_bind S : MBind (M S) := fun A B k m s =>
  match m s with
  | Ret a s' => k a s'
  | Panic p s' => Panic p s'
  | Diverges => Diverges
  end.

Definition panic {S A} (p : panic_info) : M S A := fun s => Panic p s.
Definition diverge {S A} : M S A := fun _ => Diverges.
Definition get_st {S} : M S S := fun s => Ret s s.
Definition put_st {S} (s : S) : M S unit := fun _ => Ret tt s.
Definition modify {S} (f : S -> S) : M S unit := fun s => Ret tt (f s).
Definition gets {S A} (f : S -> A) : M S A := fun s => Ret (f s) s.

(** * Rust's [Result] *)

Inductive result (A E : Type) : Type :=
  | Ok (a : A)
  | Err (e : E).
Arguments Ok {A E} _.
Arguments Err {A E} _.

Definition is_ok {A E} (r : result A E) : bool :=
  match r with Ok _ => true | Err _ => false end.

(** The [?] operator, sequencing a fallible computation. *)
Definition bind_try {S A B E} (m : M S (result A E))
    (k : A -> M S (result B E)) : M S (result B E) :=
  r ← m; match r with Ok a => k a | Err e => mret (Err e) end.

(** [?] through a [From] conversion of the error type. *)
Definition map_err {S A E F} (f : E -> F) (m : M S (result A E)) :
    M S (result A F) :=
  r ← m; mret (match r with Ok a => Ok a | Err e => Err (f e) end).

(** [expect] and [unwrap]. *)
Definition expect {S A E} (what : string) (m : M S (result A E)) : M S A :=
  r ← m; match r with Ok a => mret a | Err _ => panic (UnwrapFailed what) end.

Notation "x '←?' m ; k" := (bind_try m (fun x => k))
  (at level 20, m at level 100, k at level 200, only parsing) : stdpp_scope.
Notation "m ';?' k" := (bind_try m (fun _ => k))
  (at level 100, k at level 200, right associativity, only parsing) : stdpp_scope.

(** * Loops *)

(** [for x in l { body }], without and with an early [return Err(_)]. *)
Fixpoint for_each {S A} (l : list A) (body : A -> M S unit) : M S unit :=
  match l with
  | [] => mret tt
  | x :: l' => body x ;; for_each l' body
  end.

Fixpoint try_for_each {S A E} (l : list A) (body : A -> M S (result unit E)) :
    M S (result unit E) :=
  match l with
  | [] => mret (Ok tt)
  | x :: l' => body x ;? try_for_each l' body
  end.

(** [l.iter().enumerate()]. *)
Definition enumerate {A} (l : list A) : list (Z * A) :=
  imap (fun i x => (Z.of_nat i, x)) l.

(** The half-open range [lo..hi]. *)
Definition range (lo hi : Z) : list Z := seqZ lo (hi - lo).
#[global] Arguments range : simpl never.

(** * Text: a [&str] is the list of its bytes *)

Definition bytes_of_string (s : string) : list Z :=
  map (fun c => Z.of_N (Ascii.N_of_ascii c)) (String.list_ascii_of_string s).

(** [str::as_ascii]. *)
Definition as_ascii (s : list Z) : option (list Z) :=
  if forallb (fun b => (0 <=? b) && (b <? 128)) s then Some s else None.

(** * Machine integers: an unsigned [w]-bit integer is a [Z] in [0, 2^w) *)

Definition in_range (w v : Z) : bool := (0 <=? v) && (v <? 2 ^ w).

(** [v as uN]: truncation. *)
Definition as_u (w v : Z) : Z := v mod 2 ^ w.

(** The arithmetic operators [+], [-], [*] with overflow checks. *)
Definition checked {S} (w v : Z) : M S Z :=
  if in_range w v then mret v else panic ArithOverflow.
Definition uadd {S} (w a b : Z) : M S Z := checked w (a + b).
Definition usub {S} (w a b : Z) : M S Z := checked w (a - b).
Definition umul {S} (w a b : Z) : M S Z := checked w (a * b).

(** [!v], [v << n] and [v >> n] at width [w]; the shifted-out bits are lost. *)
Definition unot (w v : Z) : Z := Z.ldiff (Z.ones w) v.
Definition ushl (w v n : Z) : Z := as_u w (Z.shiftl v n).
Definition ushr (v n : Z) : Z := Z.shiftr v n.

(** [u32::from_be_bytes] and [u32::swap_bytes] (the target is little endian,
    so [from_be] swaps). *)
Definition u32_from_be_bytes (b3 b2 b1 b0 : Z) : Z :=
  Z.lor (Z.shiftl b3 24) (Z.lor (Z.shiftl b2 16) (Z.lor (Z.shiftl b1 8) b0)).
Definition u32_byte (v i : Z) : Z := as_u 8 (Z.shiftr v (8 * i)).
Definition u32_swap_bytes (v : Z) : Z :=
  u32_from_be_bytes (u32_byte v 0) (u32_byte v 1) (u32_byte v 2) (u32_byte v 3).

#[global] Arguments u32_from_be_bytes : simpl never.
#[global] Arguments u32_byte : simpl never.
#[global] Arguments u32_swap_bytes : simpl never.
#[global] Arguments as_u : simpl never.
#[global] Arguments ushl : simpl never.
#[global] Arguments ushr : simpl never.
#[global] Arguments unot : simpl never.

(** * Arrays: indexing panics out of range *)

Definition index {S A} (l : list A) (i : Z) : M S A :=
  if i <? 0 then panic IndexOutOfBounds else
  match l !! Z.to_nat i with
  | Some x => mret x
  | None => panic IndexOutOfBounds
  end.

Definition index_set {S A} (l : list A) (i : Z) (x : A) : M S (list A) :=
  if (0 <=? i) && (i <? Z.of_nat (length l))
  then mret (<[Z.to_nat i := x]> l)
  else panic IndexOutOfBounds.

(** Running a component on its part of a larger state. *)
Definition zoom {S T A} (get : S -> T) (set : T -> S -> S) (m : M T A) : M S A :=
  fun s => match m (get s) with
           | Ret a t => Ret a (set t s)
           | Panic p t => Panic p (set t s)
           | Diverges => Diverges
           end.

(** * Total correctness

    [wp m Q s]: from [s], [m] returns (it neither panics nor diverges) and the
    value and the final state satisfy [Q]. *)

Definition wp {S A} (m : M S A) (Q : A -> S -> Prop) (s : S) : Prop :=
  match m s with Ret a s' => Q a s' | _ => False end.

(** [panics m p s]: from [s], [m] panics with [p]. *)
Definition panics {S A} (m : M S A) (p : panic_info) (s : S) : Prop :=
  exists s', m s = Panic p s'.

Section wp_rules.
Context {S : Type}.
Implicit Types (s : S).

Lemma wp_returns {A} (m : M S A) Q s :
  wp m Q s <-> exists a s', m s = Ret a s' /\ Q a s'.
Proof.
  unfold wp. destruct (m s) as [a s'|p s'|]; split; try done; [by eauto| | |];
    by intros (? & ? & E & ?); inversion E; subst.
Qed.

Lemma wp_returns_unit (m : M S unit) (Q : S -> Prop) s :
  wp m (fun _ s' => Q s') s -> exists s', m s = Ret tt s' /\ Q s'.
Proof. intros ([] & s' & E & HQ)%wp_returns. eauto. Qed.

Lemma wp_eq {A} (m : M S A) Q s a s' : m s = Ret a s' -> Q a s' -> wp m Q s.
Proof. unfold wp. by intros ->. Qed.

Lemma wp_ext {A} (m m' : M S A) Q s : (forall s, m s = m' s) -> wp m' Q s -> wp m Q s.
Proof. unfold wp. by intros ->. Qed.

Lemma wp_mono {A} (m : M S A) (Q Q' : A -> S -> Prop) s :
  wp m Q s -> (forall a s', Q a s' -> Q' a s') -> wp m Q' s.
Proof. unfold wp. destruct (m s); auto. Qed.

Lemma wp_ret {A} (a : A) Q s : Q a s -> wp (mret a) Q s.
Proof. done. Qed.

Lemma wp_bind {A B} (m : M S A) (k : A -> M S B) Q s :
  wp m (fun a s' => wp (k a) Q s') s -> wp (m ≫= k) Q s.
Proof. unfold wp, mbind, M_bind. by destruct (m s). Qed.

Lemma wp_bind_inv {A B} (m : M S A) (k : A -> M S B) Q s :
  wp (m ≫= k) Q s -> wp m (fun a s' => wp (k a) Q s') s.
Proof. unfold wp, mbind, M_bind. by destruct (m s). Qed.

Lemma wp_get_st (Q : S -> S -> Prop) s : Q s s -> wp get_st Q s.
Proof. done. Qed.

Lemma wp_put_st Q s s' : Q tt s' -> wp (put_st s') Q s.
Proof. done. Qed.

Lemma wp_modify Q f s : Q tt (f s) -> wp (modify f) Q s.
Proof. done. Qed.

Lemma wp_gets {A} (f : S -> A) Q s : Q (f s) s -> wp (gets f) Q s.
Proof. done. Qed.

Lemma wp_bind_try {A B E} (m : M S (result A E)) (k : A -> M S (result B E)) Q s :
  wp m (fun r s' => match r with
                    | Ok a => wp (k a) Q s'
                    | Err e => Q (Err e) s'
                    end) s ->
  wp (bind_try m k) Q s.
Proof.
  intros H. apply wp_bind. eapply wp_mono; [exact H|]. by intros [a|e] s'.
Qed.

Lemma wp_map_err {A E F} (f : E -> F) (m : M S (result A E)) Q s :
  wp m (fun r s' => Q (match r with Ok a => Ok a | Err e => Err (f e) end) s') s ->
  wp (map_err f m) Q s.
Proof. intros H. apply wp_bind. exact H. Qed.

Lemma wp_expect {A E} what (m : M S (result A E)) Q s :
  wp m (fun r s' => exists a, r = Ok a /\ Q a s') s -> wp (expect what m) Q s.
Proof.
  intros H. apply wp_bind. eapply wp_mono; [exact H|].
  by intros r s' (a & -> & HQ).
Qed.

Lemma wp_checked w v Q s : 0 <= v < 2 ^ w -> Q v s -> wp (checked w v) Q s.
Proof.
  intros Hv HQ. unfold checked, in_range.
  replace (0 <=? v) with true by lia. replace (v <? 2 ^ w) with true by lia.
  done.
Qed.

Lemma wp_index {A} (l : list A) i x Q s :
  0 <= i -> l !! Z.to_nat i = Some x -> Q x s -> wp (index l i) Q s.
Proof.
  intros Hi Hx HQ. unfold index. replace (i <? 0) with false by lia.
  by rewrite Hx.
Qed.

Lemma wp_index_set {A} (l : list A) i x Q s :
  0 <= i < Z.of_nat (length l) -> Q (<[Z.to_nat i := x]> l) s ->
  wp (index_set l i x) Q s.
Proof.
  intros Hi HQ. unfold index_set.
  replace (0 <=? i) with true by lia.
  by replace (i <? Z.of_nat (length l)) with true by lia.
Qed.

Lemma wp_zoom {T A} (get : S -> T) set (m : M T A) Q s :
  wp m (fun a t => Q a (set t s)) (get s) -> wp (zoom get set m) Q s.
Proof. unfold wp, zoom. by destruct (m (get s)). Qed.

(** Loop rules: [I] holds of the iterations that are left. *)
Lemma wp_for_each {A} (body : A -> M S unit) (I : list A -> S -> Prop) Q l s :
  I l s ->
  (forall x l' s, I (x :: l') s -> wp (body x) (fun _ s' => I l' s') s) ->
  (forall s, I [] s -> Q tt s) ->
  wp (for_each l body) Q s.
Proof.
  intros HI Hbody HQ. revert s HI. induction l as [|x l IH]; intros s HI; simpl.
  - by apply wp_ret, HQ.
  - apply wp_bind. eapply wp_mono; [by apply Hbody|]. intros a s' HI'. by apply IH.
Qed.

Lemma wp_try_for_each {A E} (body : A -> M S (result unit E))
    (I : list A -> S -> Prop) Q l s :
  I l s ->
  (forall x l' s, I (x :: l') s ->
     wp (body x) (fun r s' => r = Ok tt /\ I l' s') s) ->
  (forall s, I [] s -> Q (Ok tt) s) ->
  wp (try_for_each l body) Q s.
Proof.
  intros HI Hbody HQ. revert s HI. induction l as [|x l IH]; intros s HI; simpl.
  - by apply wp_ret, HQ.
  - apply wp_bind_try. eapply wp_mono; [by apply Hbody|].
    intros r s' [-> HI']. by apply IH.
Qed.

(** The same for a counted loop: [I] holds of the next index. *)
Lemma range_cons lo hi : lo < hi -> range lo hi = lo :: range (lo + 1) hi.
Proof.
  intros H. unfold range.
  rewrite seqZ_cons by lia. unfold Z.succ. f_equal; f_equal; lia.
Qed.

Lemma elem_of_range x lo hi : x ∈ range lo hi -> lo <= x < hi.
Proof. unfold range. rewrite elem_of_seqZ. lia. Qed.

Lemma range_nil lo hi : hi <= lo -> range lo hi = [].
Proof. intros H. unfold range. rewrite seqZ_nil; [done|lia]. Qed.

Lemma range_ind (P : Z -> Prop) lo hi :
  lo <= hi -> P hi -> (forall i, lo <= i < hi -> P (i + 1) -> P i) -> P lo.
Proof.
  intros Hle Hhi Hstep.
  cut (forall n : nat, forall i, lo <= i <= hi -> hi - i = Z.of_nat n -> P i).
  { intros H. apply (H (Z.to_nat (hi - lo))); lia. }
  induction n as [|n IH]; intros i Hi Hn.
  - by replace i with hi by lia.
  - apply Hstep; [lia|]. apply IH; lia.
Qed.

Lemma wp_for_range (body : Z -> M S unit) (I : Z -> S -> Prop) Q lo hi s :
  lo <= hi -> I lo s ->
  (forall i s, lo <= i < hi -> I i s -> wp (body i) (fun _ s' => I (i + 1) s') s) ->
  (forall s, I hi s -> Q tt s) ->
  wp (for_each (range lo hi) body) Q s.
Proof.
  intros Hle HI Hbody HQ. revert s HI.
  apply (range_ind (fun i => forall s, I i s ->
    wp (for_each (range i hi) body) Q s) lo hi Hle).
  - intros s HI. rewrite range_nil by lia. by apply wp_ret, HQ.
  - intros i Hi IH s HI. rewrite range_cons by lia. simpl.
    apply wp_bind. eapply wp_mono; [by apply Hbody|]. intros a s' HI'. by apply IH.
Qed.

(** A loop that panics at iteration [mid]. *)
Lemma for_range_panics (body : Z -> M S unit) (I : Z -> S -> Prop) p lo mid hi s :
  lo <= mid < hi -> I lo s ->
  (forall i s, lo <= i < mid -> I i s -> wp (body i) (fun _ s' => I (i + 1) s') s) ->
  (forall s, I mid s -> panics (body mid) p s) ->
  panics (for_each (range lo hi) body) p s.
Proof.
  intros Hmid HI Hbody Hp. revert s HI.
  apply (range_ind (fun i => forall s, I i s ->
    panics (for_each (range i hi) body) p s) lo mid); [lia| |].
  - intros s HI. rewrite range_cons by lia. simpl. destruct (Hp s HI) as [s' E].
    exists s'. unfold mbind, M_bind. by rewrite E.
  - intros i Hi IH s HI. rewrite range_cons by lia. simpl.
    destruct (proj1 (wp_returns _ _ _) (Hbody i s Hi HI)) as ([] & s1 & E & HI1).
    destruct (IH s1 HI1) as [s' E']. exists s'. unfold mbind, M_bind. by rewrite E.
Qed.

Lemma wp_try_for_range_gen {E} (body : Z -> M S (result unit E))
    (I : Z -> S -> Prop) (Q : result unit E -> S -> Prop) lo hi s :
  lo <= hi -> I lo s ->
  (forall i s, lo <= i < hi -> I i s ->
     wp (body i) (fun r s' => match r with
                              | Ok _ => I (i + 1) s'
                              | Err e => Q (Err e) s'
                              end) s) ->
  (forall s, I hi s -> Q (Ok tt) s) ->
  wp (try_for_each (range lo hi) body) Q s.
Proof.
  intros Hle HI Hbody HQ. revert s HI.
  apply (range_ind (fun i => forall s, I i s ->
    wp (try_for_each (range i hi) body) Q s) lo hi Hle).
  - intros s HI. rewrite range_nil by lia. by apply wp_ret, HQ.
  - intros i Hi IH s HI. rewrite range_cons by lia. simpl.
    apply wp_bind_try. eapply wp_mono; [by apply Hbody|].
    intros [[]|e] s' HI'; auto.
Qed.

Lemma wp_try_for_range {E} (body : Z -> M S (result unit E))
    (I : Z -> S -> Prop) Q lo hi s :
  lo <= hi -> I lo s ->
  (forall i s, lo <= i < hi -> I i s ->
     wp (body i) (fun r s' => r = Ok tt /\ I (i + 1) s') s) ->
  (forall s, I hi s -> Q (Ok tt) s) ->
  wp (try_for_each (range lo hi) body) Q s.
Proof.
  intros Hle HI Hbody HQ. apply (wp_try_for_range_gen _ I); [done..| |done].
  intros i s' Hi HI'. eapply wp_mono; [by apply Hbody|]. by intros r s'' [-> ?].
Qed.

(** Loops over [enumerate l]: [I] holds of the next index. *)
Lemma enumerate_drop_cons {A} (l : list A) i p rest :
  p :: rest = drop i (enumerate l) ->
  exists x, p = (Z.of_nat i, x) /\ l !! i = Some x /\
    rest = drop (Datatypes.S i) (enumerate l).
Proof.
  intros E.
  assert (Hlk : enumerate l !! i = Some p).
  { by rewrite <- (Nat.add_0_r i), <- lookup_drop, <- E. }
  unfold enumerate in Hlk. rewrite list_lookup_imap in Hlk.
  destruct (l !! i) as [x|]; simplify_eq/=. exists x. split; [done|]. split; [done|].
  rewrite <- Nat.add_1_r, <- drop_drop, <- E. done.
Qed.

Lemma enumerate_drop_nil {A} (l : list A) i :
  (i <= length l)%nat -> [] = drop i (enumerate l) -> i = length l.
Proof.
  intros Hi E. assert (Hlen : length (drop i (enumerate l)) = 0%nat) by (by rewrite <- E).
  rewrite length_drop in Hlen. unfold enumerate in Hlen. rewrite length_imap in Hlen.
  lia.
Qed.

Lemma wp_try_for_enumerate {A E} (l : list A)
    (body : Z * A -> M S (result unit E)) (I : Z -> S -> Prop) Q s :
  I 0 s ->
  (forall i x s, 0 <= i -> l !! Z.to_nat i = Some x -> I i s ->
     wp (body (i, x)) (fun r s' => r = Ok tt /\ I (i + 1) s') s) ->
  (forall s, I (Z.of_nat (length l)) s -> Q (Ok tt) s) ->
  wp (try_for_each (enumerate l) body) Q s.
Proof.
  intros HI Hbody HQ.
  apply (wp_try_for_each _ (fun rest s => exists i : nat, (i <= length l)%nat /\
    rest = drop i (enumerate l) /\ I (Z.of_nat i) s)).
  - exists 0%nat. split; [lia|done].
  - intros p rest s' (i & Hi & Erest & HIi).
    apply enumerate_drop_cons in Erest as (x & -> & El & ->).
    eapply wp_mono; [apply Hbody; [lia| |exact HIi]; by rewrite Nat2Z.id|].
    intros r s'' [-> HI']. split; [done|]. exists (Datatypes.S i).
    apply lookup_lt_Some in El. split; [lia|]. by rewrite Nat2Z.inj_succ.
  - intros s' (i & Hi & Erest & HIi). apply HQ.
    by rewrite <- (enumerate_drop_nil _ _ Hi Erest).
Qed.

Lemma wp_for_enumerate {A} (l : list A)
    (body : Z * A -> M S unit) (I : Z -> S -> Prop) Q s :
  I 0 s ->
  (forall i x s, 0 <= i -> l !! Z.to_nat i = Some x -> I i s ->
     wp (body (i, x)) (fun _ s' => I (i + 1) s') s) ->
  (forall s, I (Z.of_nat (length l)) s -> Q tt s) ->
  wp (for_each (enumerate l) body) Q s.
Proof.
  intros HI Hbody HQ.
  apply (wp_for_each _ (fun rest s => exists i : nat, (i <= length l)%nat /\
    rest = drop i (enumerate l) /\ I (Z.of_nat i) s)).
  - exists 0%nat. split; [lia|done].
  - intros p rest s' (i & Hi & Erest & HIi).
    apply enumerate_drop_cons in Erest as (x & -> & El & ->).
    eapply wp_mono; [apply Hbody; [lia| |exact HIi]; by rewrite Nat2Z.id|].
    intros r s'' HI'. exists (Datatypes.S i).
    apply lookup_lt_Some in El. split; [lia|]. by rewrite Nat2Z.inj_succ.
  - intros s' (i & Hi & Erest & HIi). apply HQ.
    by rewrite <- (enumerate_drop_nil _ _ Hi Erest).
Qed.
End wp_rules.

(** * Runs that may panic

    [runs m Q R s]: from [s], [m] does not diverge; it returns with [Q] or panics
    with [R]. *)
Definition runs {S A} (m : M S A) (Q : A -> S -> Prop) (R : panic_info -> S -> Prop)
    (s : S) : Prop :=
  match m s with Ret a s' => Q a s' | Panic p s' => R p s' | Diverges => False end.

Section runs_rules.
Context {S : Type}.
Implicit Types (s : S).

Lemma runs_mono {A} (m : M S A) (Q Q' : A -> S -> Prop) R s :
  runs m Q R s -> (forall a s', Q a s' -> Q' a s') -> runs m Q' R s.
Proof. unfold runs. destruct (m s); auto. Qed.

Lemma runs_wp {A} (m : M S A) Q R s : wp m Q s -> runs m Q R s.
Proof. unfold runs, wp. by destruct (m s). Qed.

Lemma runs_conj {A} (m : M S A) (Q Q' : A -> S -> Prop) R R' s :
  runs m Q R s -> runs m Q' R' s ->
  runs m (fun a s' => Q a s' /\ Q' a s') (fun p s' => R p s' /\ R' p s') s.
Proof. unfold runs. destruct (m s); auto. Qed.

Lemma runs_bind {A B} (m : M S A) (k : A -> M S B) Q R s :
  runs m (fun a s' => runs (k a) Q R s') R s -> runs (m ≫= k) Q R s.
Proof. unfold runs, mbind, M_bind. by destruct (m s). Qed.

Lemma runs_then {A B} (m : M S A) (k : A -> M S B) Q R s :
  wp m (fun a s' => runs (k a) Q R s') s -> runs (m ≫= k) Q R s.
Proof. intros H. by apply runs_bind, runs_wp. Qed.

Lemma runs_bind_try {A B E} (m : M S (result A E)) (k : A -> M S (result B E)) Q R s :
  runs m (fun r s' => match r with
                      | Ok a => runs (k a) Q R s'
                      | Err e => Q (Err e) s'
                      end) R s ->
  runs (bind_try m k) Q R s.
Proof.
  intros H. apply runs_bind. eapply runs_mono; [exact H|]. by intros [a|e] s'.
Qed.

Lemma runs_ret {A} (a : A) Q R s : Q a s -> runs (mret a) Q R s.
Proof. done. Qed.

Lemma runs_try_for_range {E} (body : Z -> M S (result unit E))
    (I : Z -> S -> Prop) Q R lo hi s :
  lo <= hi -> I lo s ->
  (forall i s, lo <= i < hi -> I i s ->
     runs (body i) (fun r s' => r = Ok tt /\ I (i + 1) s') R s) ->
  (forall s, I hi s -> Q (Ok tt) s) ->
  runs (try_for_each (range lo hi) body) Q R s.
Proof.
  intros Hle HI Hbody HQ. revert s HI.
  apply (range_ind (fun i => forall s, I i s ->
    runs (try_for_each (range i hi) body) Q R s) lo hi Hle).
  - intros s HI. rewrite range_nil by lia. by apply runs_ret, HQ.
  - intros i Hi IH s HI. rewrite range_cons by lia. simpl.
    apply runs_bind_try. eapply runs_mono; [by apply Hbody|].
    intros r s' [-> HI']. by apply IH.
Qed.
End runs_rules.

(** [M S] is a monad up to pointwise equality of computations. *)
Lemma bind_assoc {S A B C} (m : M S A) (k : A -> M S B) (k' : B -> M S C) s :
  ((m ≫= k) ≫= k') s = (m ≫= (fun a => k a ≫= k')) s.
Proof. unfold mbind, M_bind. by destruct (m s). Qed.

Lemma bind_ext {S A B} (m : M S A) (k k' : A -> M S B) s :
  (forall a s, k a s = k' a s) -> (m ≫= k) s = (m ≫= k') s.
Proof. intros Hk. unfold mbind, M_bind. destruct (m s); [apply Hk|done..]. Qed.

Lemma bind_ret_unit {S} (m : M S unit) s : (m ;; mret tt) s = m s.
Proof. unfold mbind, M_bind. by destruct (m s) as [[] s'|p s'|]. Qed.

(** Evaluating a computation to an equation, one bind at a time. *)
Lemma bind_Ret {S A B} (m : M S A) (k : A -> M S B) s a s' :
  m s = Ret a s' -> (m ≫= k) s = k a s'.
Proof. unfold mbind, M_bind. by intros ->. Qed.

Lemma bind_Panic {S A B} (m : M S A) (k : A -> M S B) s p s' :
  m s = Panic p s' -> (m ≫= k) s = Panic p s'.
Proof. unfold mbind, M_bind. by intros ->. Qed.

Lemma bind_Diverges {S A B} (m : M S A) (k : A -> M S B) s :
  m s = Diverges -> (m ≫= k) s = Diverges.
Proof. unfold mbind, M_bind. by intros ->. Qed.

Lemma bind_try_Ok {S A B E} (m : M S (result A E)) (k : A -> M S (result B E)) s a s' :
  m s = Ret (Ok a) s' -> bind_try m k s = k a s'.
Proof. intros Hm. unfold bind_try. by rewrite (bind_Ret _ _ _ _ _ Hm). Qed.

Lemma bind_try_Err {S A B E} (m : M S (result A E)) (k : A -> M S (result B E)) s e s' :
  m s = Ret (Err e) s' -> bind_try m k s = Ret (Err e) s'.
Proof. intros Hm. unfold bind_try. by rewrite (bind_Ret _ _ _ _ _ Hm). Qed.

Lemma bind_try_Panic {S A B E} (m : M S (result A E)) (k : A -> M S (result B E)) s p s' :
  m s = Panic p s' -> bind_try m k s = Panic p s'.
Proof. apply bind_Panic. Qed.

Lemma checked_Ret {S} w v (s : S) : 0 <= v < 2 ^ w -> checked w v s = Ret v s.
Proof.
  intros Hv. unfold checked, in_range.
  replace (0 <=? v) with true by lia. by replace (v <? 2 ^ w) with true by lia.
Qed.

(** Execute the checked operation, or the state access, at the head. *)
Ltac run_checked :=
  erewrite bind_Ret; cbv beta;
  [|first [reflexivity | unfold uadd, usub, umul; apply checked_Ret]].

Create HintDb wp discriminated.
#[export] Hint Resolve wp_ret wp_get_st wp_put_st wp_modify wp_gets : wp.

(** Linear arithmetic with division and modulo by constants. *)
Ltac zlia := Z.to_euclidean_division_equations; lia.

(** One symbolic-execution step. *)
Ltac wp_step :=
  lazymatch goal with
  | |- wp (mbind _ _) _ _ => apply wp_bind
  | |- wp (bind_try _ _) _ _ => apply wp_bind_try
  | |- wp (map_err _ _) _ _ => apply wp_map_err
  | |- wp (mret _) _ _ => apply wp_ret
  | |- wp get_st _ _ => apply wp_get_st
  | |- wp (put_st _) _ _ => apply wp_put_st
  | |- wp (modify _) _ _ => apply wp_modify
  | |- wp (gets _) _ _ => apply wp_gets
  | |- wp (zoom _ _ _) _ _ => apply wp_zoom
  | |- wp (uadd _ _ _) _ _ => apply wp_checked; [|]
  | |- wp (usub _ _ _) _ _ => apply wp_checked; [|]
  | |- wp (umul _ _ _) _ _ => apply wp_checked; [|]
  end.
Ltac wp_steps := repeat (wp_step; cbv beta).

(** * Bit-level reasoning *)

Lemma testbit_as_u w v i : 0 <= w ->
  Z.testbit (as_u w v) i = (i <? w) && Z.testbit v i.
Proof. apply Z.testbit_mod_pow2. Qed.

Lemma testbit_ushl w v n i : 0 <= w -> 0 <= i ->
  Z.testbit (ushl w v n) i = (i <? w) && Z.testbit v (i - n).
Proof. intros. unfold ushl. by rewrite testbit_as_u, Z.shiftl_spec. Qed.

Lemma testbit_ushr v n i : 0 <= i -> Z.testbit (ushr v n) i = Z.testbit v (i + n).
Proof. apply Z.shiftr_spec. Qed.

Lemma testbit_unot w v i : 0 <= w -> 0 <= i ->
  Z.testbit (unot w v) i = (i <? w) && negb (Z.testbit v i).
Proof.
  intros. unfold unot. rewrite Z.ldiff_spec, Z.testbit_ones_nonneg by lia. done.
Qed.

Lemma testbit_high w v i : 0 <= v < 2 ^ w -> w <= i -> Z.testbit v i = false.
Proof.
  intros Hv Hi. destruct (decide (0 <= w)).
  - replace v with (as_u w v) by (unfold as_u; apply Z.mod_small; lia).
    rewrite testbit_as_u by lia. by replace (i <? w) with false by lia.
  - rewrite Z.pow_neg_r in Hv by lia. lia.
Qed.

Lemma testbit_pow2 n i : 0 <= n -> Z.testbit (2 ^ n) i = (n =? i).
Proof. apply Z.pow2_bits_eqb. Qed.

Lemma as_u_range w v : 0 <= w -> 0 <= as_u w v < 2 ^ w.
Proof. intros. apply Z.mod_pos_bound. by apply Z.pow_pos_nonneg. Qed.

Lemma as_u_small w v : 0 <= v < 2 ^ w -> as_u w v = v.
Proof. apply Z.mod_small. Qed.

Lemma as_u_idemp w v : 0 <= w -> as_u w (as_u w v) = as_u w v.
Proof. intros. apply as_u_small, as_u_range. lia. Qed.

Lemma ushl_range w v n : 0 <= w -> 0 <= ushl w v n < 2 ^ w.
Proof. apply as_u_range. Qed.

Lemma bounded_bits w v : 0 <= w -> 0 <= v ->
  (forall i, w <= i -> Z.testbit v i = false) -> 0 <= v < 2 ^ w.
Proof. intros. by apply Z.bounded_iff_bits_nonneg'. Qed.

Lemma ushr_range w v n : 0 <= n -> 0 <= v < 2 ^ w -> 0 <= ushr v n < 2 ^ w.
Proof.
  intros Hn Hv. unfold ushr. rewrite Z.shiftr_div_pow2 by lia.
  assert (0 < 2 ^ n) by (by apply Z.pow_pos_nonneg).
  split; [apply Z.div_pos; lia|].
  apply Z.le_lt_trans with v; [|lia]. apply Z.div_le_upper_bound; nia.
Qed.

Lemma lor_range w a b : 0 <= w -> 0 <= a < 2 ^ w -> 0 <= b < 2 ^ w ->
  0 <= Z.lor a b < 2 ^ w.
Proof.
  intros Hw Ha Hb. apply bounded_bits; [lia|apply Z.lor_nonneg; lia|].
  intros i Hi. by rewrite Z.lor_spec, (testbit_high w a), (testbit_high w b).
Qed.

Lemma land_range_l w a b : 0 <= w -> 0 <= a < 2 ^ w -> 0 <= Z.land a b < 2 ^ w.
Proof.
  intros Hw Ha. apply bounded_bits; [lia|apply Z.land_nonneg; lia|].
  intros i Hi. by rewrite Z.land_spec, (testbit_high w a).
Qed.

Lemma land_range_r w a b : 0 <= w -> 0 <= b < 2 ^ w -> 0 <= Z.land a b < 2 ^ w.
Proof. intros. rewrite Z.land_comm. by apply land_range_l. Qed.

Lemma unot_range w v : 0 <= w -> 0 <= unot w v < 2 ^ w.
Proof.
  intros Hw. apply bounded_bits; [lia| |].
  - unfold unot. apply Z.ldiff_nonneg. left. rewrite Z.ones_equiv.
    assert (0 < 2 ^ w) by (by apply Z.pow_pos_nonneg). lia.
  - intros i Hi. rewrite testbit_unot by lia. by replace (i <? w) with false by lia.
Qed.

Lemma bits_eq w a b : 0 <= a < 2 ^ w -> 0 <= b < 2 ^ w ->
  (forall i, 0 <= i < w -> Z.testbit a i = Z.testbit b i) -> a = b.
Proof.
  intros Ha Hb H. apply Z.bits_inj'. intros i Hi.
  destruct (decide (i < w)); [by apply H|].
  by rewrite (testbit_high w a), (testbit_high w b) by lia.
Qed.

(** [v & (1 << k) != 0] tests bit [k]. *)
Lemma land_bit w v k : 0 <= k < w ->
  negb (Z.land v (ushl w 1 k) =? 0) = Z.testbit v k.
Proof.
  intros Hk.
  assert (E : ushl w 1 k = 2 ^ k).
  { unfold ushl. rewrite Z.shiftl_1_l. apply as_u_small. split; [lia|].
    apply Z.pow_lt_mono_r; lia. }
  rewrite E. destruct (Z.testbit v k) eqn:Eb.
  - replace (Z.land v (2 ^ k)) with (2 ^ k); [lia|].
    apply Z.bits_inj'. intros i Hi. rewrite Z.land_spec, testbit_pow2 by lia.
    destruct (Z.eqb_spec k i) as [<-|]; [by rewrite Eb|by rewrite andb_false_r].
  - replace (Z.land v (2 ^ k)) with 0; [done|].
    apply Z.bits_inj'. intros i Hi. rewrite Z.land_spec, testbit_pow2, Z.bits_0 by lia.
    destruct (Z.eqb_spec k i) as [<-|]; [by rewrite Eb|by rewrite andb_false_r].
Qed.

Lemma range_one f g : (f <=? g) && (g <? f + 1) = (g =? f).
Proof. lia. Qed.

(** Or-ing below the lowest set bit is an addition. *)
Lemma lor_add n k b : 0 <= n -> 0 <= b < 2 ^ n -> Z.lor (k * 2 ^ n) b = k * 2 ^ n + b.
Proof.
  intros Hn Hb. symmetry. apply Z.add_nocarry_lor, Z.bits_inj'. intros i Hi.
  rewrite Z.land_spec, Z.bits_0. destruct (decide (i < n)).
  - by rewrite Z.mul_pow2_bits_low by lia.
  - by rewrite (testbit_high n b), andb_false_r by lia.
Qed.

(** A field of [len] bits at bit [lo]. *)
Definition field (v lo len : Z) : Z := as_u len (Z.shiftr v lo).

Lemma testbit_field v lo len i : 0 <= lo -> 0 <= len -> 0 <= i ->
  Z.testbit (field v lo len) i = (i <? len) && Z.testbit v (i + lo).
Proof. intros. unfold field. by rewrite testbit_as_u, Z.shiftr_spec. Qed.

Lemma field_range v lo len : 0 <= len -> 0 <= field v lo len < 2 ^ len.
Proof. apply as_u_range. Qed.

Create HintDb zrange discriminated.
#[export] Hint Resolve as_u_range ushl_range ushr_range lor_range land_range_l
  land_range_r unot_range field_range : zrange.

#[export] Hint Rewrite Z.land_spec Z.lor_spec Z.lxor_spec Z.ldiff_spec : bits.
#[export] Hint Rewrite testbit_as_u testbit_ushl testbit_ushr testbit_unot
  testbit_field Z.shiftl_spec Z.shiftr_spec using lia : bits.

(** Decide an equality of booleans built from bits: rewrite with the bit
    lemmas, then split on the position [i]. *)
Ltac bits_norm := autorewrite with bits.

Ltac bits_cases :=
  repeat match goal with
  | |- context [Z.ltb ?a ?b] =>
      let H := fresh "Hlt" in destruct (Z.ltb_spec a b) as [H|H]; try lia
  | |- context [Z.testbit ?v ?j] =>
      rewrite (Z.testbit_neg_r v j) by lia
  end.

Ltac each_bit i n :=
  (* i is known to be in [0, n): one goal per value *)
  lazymatch n with
  | O => lia
  | S ?m =>
      destruct (decide (i = Z.of_nat m)) as [->|?]; [|each_bit i m]
  end.
