(* ===== verification/Machine.v ===== *)
(** The machine under the kernel: byte-addressed memory, and the devices
    reached through port I/O, memory-mapped registers and MSRs.

    A device is not code of the repository.  It is an arbitrary reactive
    machine (class [Device]); every access the kernel makes to it is appended,
    with the value read, to the log of the [Bus], so a theorem can speak of the
    exact sequence of accesses for every device. *)

From S2P Require Import Prelude.

(** * Memory: bytes by address; an absent byte was never written by the code *)

Definition store_u8 (m : gmap Z Z) (a v : Z) : gmap Z Z := <[a := as_u 8 v]> m.

(** x86-64 stores words little endian. *)
Definition store_u32 (m : gmap Z Z) (a v : Z) : gmap Z Z :=
  store_u8 (store_u8 (store_u8 (store_u8 m a (u32_byte v 0)) (a + 1) (u32_byte v 1))
    (a + 2) (u32_byte v 2)) (a + 3) (u32_byte v 3).

Definition load_u8 (m : gmap Z Z) (a : Z) : option Z := m !! a.

Definition load_u32 (m : gmap Z Z) (a : Z) : option Z :=
  b0 ← load_u8 m a; b1 ← load_u8 m (a + 1); b2 ← load_u8 m (a + 2);
  b3 ← load_u8 m (a + 3); Some (u32_from_be_bytes b3 b2 b1 b0).

(** The bytes [bs] written from [a] on. *)
Fixpoint store_bytes (m : gmap Z Z) (a : Z) (bs : list Z) : gmap Z Z :=
  match bs with
  | [] => m
  | b :: bs' => store_bytes (store_u8 m a b) (a + 1) bs'
  end.

(** * The bus *)

Inductive read_op : Type :=
  | In8 (port : Z)
  | In32 (port : Z)
  | Load32 (addr : Z)
  | Rdmsr (msr : Z).

Inductive write_op : Type :=
  | Out8 (port v : Z)
  | Out32 (port v : Z)
  | Store32 (addr v : Z)
  | Wrmsr (msr v : Z)
  | Lgdt (limit base : Z)
  | SetSegment (reg : string) (selector : Z)
  | SetCr3 (addr : Z)
  | Lidt
  | Sti.

Inductive io_event : Type :=
  | EvRead (op : read_op) (v : Z)
  | EvWrite (op : write_op).

#[export] Instance read_op_eq_dec : EqDecision read_op.
Proof. solve_decision. Defined.
#[export] Instance write_op_eq_dec : EqDecision write_op.
Proof. solve_decision. Defined.
#[export] Instance io_event_eq_dec : EqDecision io_event.
Proof. solve_decision. Defined.

Class Device (D : Type) := {
  dev_read : read_op -> D -> Z * D;
  dev_write : write_op -> D -> D
}.

Record Bus (D : Type) : Type := mkBus {
  bus_dev : D;
  bus_log : list io_event
}.
Arguments mkBus {D} _ _.
Arguments bus_dev {D} _.
Arguments bus_log {D} _.

(** The width of the value a read returns: the CPU keeps that many bits. *)
Definition read_width (op : read_op) : Z :=
  match op with In8 _ => 8 | In32 _ => 32 | Load32 _ => 32 | Rdmsr _ => 64 end.

Section bus.
Context {D : Type} `{Device D}.

Definition io_read (op : read_op) : M (Bus D) Z := fun b =>
  let '(v, d) := dev_read op (bus_dev b) in
  let v := as_u (read_width op) v in
  Ret v (mkBus d (bus_log b ++ [EvRead op v])).

Definition io_write (op : write_op) : M (Bus D) unit := fun b =>
  Ret tt (mkBus (dev_write op (bus_dev b)) (bus_log b ++ [EvWrite op])).

(** The writes of a log, in order. *)
Definition writes_of (l : list io_event) : list write_op :=
  omap (fun e => match e with EvWrite w => Some w | EvRead _ _ => None end) l.

Lemma wp_io_read op (Q : Z -> Bus D -> Prop) b :
  (forall v d, 0 <= v < 2 ^ read_width op ->
     v = as_u (read_width op) (dev_read op (bus_dev b)).1 ->
     d = (dev_read op (bus_dev b)).2 ->
     Q v (mkBus d (bus_log b ++ [EvRead op v]))) ->
  wp (io_read op) Q b.
Proof.
  intros HQ. unfold wp, io_read.
  destruct (dev_read op (bus_dev b)) as [v d] eqn:E. apply HQ; [|done|done].
  apply as_u_range. by destruct op.
Qed.

Lemma wp_io_write op (Q : unit -> Bus D -> Prop) b :
  Q tt (mkBus (dev_write op (bus_dev b)) (bus_log b ++ [EvWrite op])) ->
  wp (io_write op) Q b.
Proof. done. Qed.
End bus.

(** * Traces: what a run adds to the log, on every machine

    [emits P m]: from any state with [inv], [m] does not diverge, and what it appends
    to the log satisfies [P], even if it panics. *)
Section emits.
Context {S : Type} (log : S -> list io_event) (inv : S -> Prop) (P : list io_event -> Prop).

Definition emits {A} (m : M S A) : Prop := forall s, inv s ->
  match m s with
  | Ret _ s' => inv s' /\ exists l, log s' = log s ++ l /\ P l
  | Panic _ s' => exists l, log s' = log s ++ l /\ P l
  | Diverges => False
  end.

Hypothesis P_nil : P [].
Hypothesis P_app : forall l1 l2, P l1 -> P l2 -> P (l1 ++ l2).

Lemma emits_ret {A} (a : A) : emits (mret a).
Proof. intros s Hs. split; [done|]. exists []. by rewrite app_nil_r. Qed.

Lemma emits_panic {A} e : emits (panic e : M S A).
Proof. intros s Hs. exists []. by rewrite app_nil_r. Qed.

Lemma emits_bind {A B} (m : M S A) (k : A -> M S B) :
  emits m -> (forall a, emits (k a)) -> emits (m ≫= k).
Proof.
  intros Hm Hk s Hs. specialize (Hm s Hs). unfold mbind, M_bind.
  destruct (m s) as [a s1|e s1|]; [|done..].
  destruct Hm as (Hs1 & l1 & E1 & HP1). specialize (Hk a s1 Hs1).
  destruct (k a s1) as [b s2|e s2|]; [| |done].
  - destruct Hk as (Hs2 & l2 & E2 & HP2). split; [done|]. exists (l1 ++ l2).
    rewrite E2, E1, (assoc_L (++)). auto.
  - destruct Hk as (l2 & E2 & HP2). exists (l1 ++ l2). rewrite E2, E1, (assoc_L (++)). auto.
Qed.

Lemma emits_bind_try {A B E} (m : M S (result A E)) (k : A -> M S (result B E)) :
  emits m -> (forall a, emits (k a)) -> emits (bind_try m k).
Proof. intros Hm Hk. apply emits_bind; [done|]. intros [a|e]; [apply Hk|apply emits_ret]. Qed.

Lemma emits_map_err {A E F} (f : E -> F) (m : M S (result A E)) :
  emits m -> emits (map_err f m).
Proof. intros Hm. apply emits_bind; [done|]. intros r. apply emits_ret. Qed.

Lemma emits_expect {A E} what (m : M S (result A E)) : emits m -> emits (expect what m).
Proof.
  intros Hm. apply emits_bind; [done|]. intros [a|e]; [apply emits_ret|apply emits_panic].
Qed.

End emits.

(** A component on its part of the state. *)
Lemma emits_zoom {S T} (log : S -> list io_event) (log' : T -> list io_event)
    (inv : S -> Prop) (inv' : T -> Prop) (P : list io_event -> Prop)
    (get : S -> T) (set : T -> S -> S) {A} (m : M T A) :
  (forall s, inv s -> inv' (get s)) ->
  (forall s t, inv s -> inv' t -> inv (set t s)) ->
  (forall s, log s = log' (get s)) -> (forall s t, log (set t s) = log' t) ->
  emits log' inv' P m -> emits log inv P (zoom get set m).
Proof.
  intros Hget Hset Hlog Hlog' Hm s Hs. specialize (Hm (get s) (Hget s Hs)). unfold zoom.
  destruct (m (get s)) as [a t|e t|]; [|by rewrite Hlog', Hlog|done].
  destruct Hm as [Ht Hl]. rewrite Hlog', Hlog. auto.
Qed.

(** Symbolic execution through port and register writes. *)
Ltac io_step :=
  lazymatch goal with
  | |- wp (io_write _) _ _ => apply wp_io_write
  | |- _ => wp_step
  end.
Ltac io_steps := repeat (io_step; cbv beta).

Lemma writes_of_app l1 l2 : writes_of (l1 ++ l2) = writes_of l1 ++ writes_of l2.
Proof. apply omap_app. Qed.

(** * Lemmas on memory *)

Lemma u32_byte_range v i : 0 <= u32_byte v i < 2 ^ 8.
Proof. apply as_u_range. lia. Qed.

Lemma u32_from_be_bytes_range b3 b2 b1 b0 :
  0 <= b3 < 2 ^ 8 -> 0 <= b2 < 2 ^ 8 -> 0 <= b1 < 2 ^ 8 -> 0 <= b0 < 2 ^ 8 ->
  0 <= u32_from_be_bytes b3 b2 b1 b0 < 2 ^ 32.
Proof.
  intros. unfold u32_from_be_bytes. rewrite !Z.shiftl_mul_pow2 by lia.
  repeat apply lor_range; lia.
Qed.

Lemma testbit_u32_from_be_bytes b3 b2 b1 b0 i : 0 <= i ->
  Z.testbit (u32_from_be_bytes b3 b2 b1 b0) i =
    Z.testbit b3 (i - 24) || (Z.testbit b2 (i - 16) ||
      (Z.testbit b1 (i - 8) || Z.testbit b0 i)).
Proof. intros. unfold u32_from_be_bytes. bits_norm. done. Qed.

(** A word is its four bytes. *)
Lemma u32_bytes_join v :
  u32_from_be_bytes (u32_byte v 3) (u32_byte v 2) (u32_byte v 1) (u32_byte v 0)
  = as_u 32 v.
Proof.
  apply (bits_eq 32); [|by apply as_u_range|].
  - apply u32_from_be_bytes_range; apply u32_byte_range.
  - intros i Hi. rewrite testbit_u32_from_be_bytes by lia. unfold u32_byte.
    rewrite testbit_as_u by lia. bits_cases;
    repeat rewrite testbit_as_u by lia; bits_cases; simpl;
    rewrite ?Z.shiftr_spec by lia; rewrite ?orb_false_r; f_equal; lia.
Qed.

Lemma u32_byte_join b3 b2 b1 b0 i :
  0 <= b3 < 2 ^ 8 -> 0 <= b2 < 2 ^ 8 -> 0 <= b1 < 2 ^ 8 -> 0 <= b0 < 2 ^ 8 ->
  0 <= i < 4 ->
  u32_byte (u32_from_be_bytes b3 b2 b1 b0) i =
    if decide (i = 0) then b0 else if decide (i = 1) then b1 else
    if decide (i = 2) then b2 else b3.
Proof.
  intros H3 H2 H1 H0 Hi.
  assert (Hhi : forall b j, 0 <= b < 2 ^ 8 -> 8 <= j -> Z.testbit b j = false)
    by (intros; by apply (testbit_high 8)).
  apply (bits_eq 8); [apply u32_byte_range|repeat case_decide; done|].
  intros j Hj. unfold u32_byte. rewrite testbit_as_u, Z.shiftr_spec by lia.
  replace (j <? 8) with true by lia. rewrite testbit_u32_from_be_bytes by lia.
  simpl. repeat case_decide; try lia; subst; simpl;
    repeat match goal with
    | |- context [Z.testbit ?v ?j] =>
        first [rewrite (Z.testbit_neg_r v j) by lia | rewrite (Hhi v j) by lia]
    end; rewrite ?orb_false_r; simpl; f_equal; lia.
Qed.

Lemma u32_bytes_of_join b3 b2 b1 b0 :
  0 <= b3 < 2 ^ 8 -> 0 <= b2 < 2 ^ 8 -> 0 <= b1 < 2 ^ 8 -> 0 <= b0 < 2 ^ 8 ->
  u32_byte (u32_from_be_bytes b3 b2 b1 b0) 0 = b0 /\
  u32_byte (u32_from_be_bytes b3 b2 b1 b0) 1 = b1 /\
  u32_byte (u32_from_be_bytes b3 b2 b1 b0) 2 = b2 /\
  u32_byte (u32_from_be_bytes b3 b2 b1 b0) 3 = b3.
Proof. intros. by rewrite !u32_byte_join by lia. Qed.

Lemma lookup_store_u8 m a v b :
  store_u8 m a v !! b = if decide (a = b) then Some (as_u 8 v) else m !! b.
Proof. apply lookup_insert. Qed.

Lemma lookup_store_u32 m a v b :
  store_u32 m a v !! b =
    if decide (a <= b < a + 4) then Some (u32_byte v (b - a)) else m !! b.
Proof.
  unfold store_u32. rewrite !lookup_store_u8.
  repeat case_decide; try lia; f_equal;
    rewrite ?as_u_small by apply u32_byte_range; f_equal; lia.
Qed.

Lemma load_store_u32 m a v : load_u32 (store_u32 m a v) a = Some (as_u 32 v).
Proof.
  unfold load_u32, load_u8. rewrite !lookup_store_u32.
  repeat (case_decide; [|lia]). simpl.
  rewrite <- u32_bytes_join. do 2 f_equal; f_equal; lia.
Qed.

Lemma load_store_u32_ne m a v b :
  a + 4 <= b \/ b + 4 <= a -> load_u32 (store_u32 m a v) b = load_u32 m b.
Proof.
  intros Hab. unfold load_u32, load_u8. rewrite !lookup_store_u32.
  repeat (case_decide; [lia|]). done.
Qed.

Lemma lookup_store_bytes m a bs b :
  store_bytes m a bs !! b =
    if decide (a <= b < a + Z.of_nat (length bs))
    then as_u 8 <$> bs !! Z.to_nat (b - a) else m !! b.
Proof.
  revert m a. induction bs as [|x bs IH]; intros m a; simpl.
  - case_decide; [lia|done].
  - rewrite IH, lookup_store_u8.
    destruct (decide (a = b)) as [->|Hne].
    + repeat (case_decide; try lia). by rewrite Z.sub_diag.
    + case_decide; case_decide; try lia; [|done].
      by replace (Z.to_nat (b - a)) with (S (Z.to_nat (b - (a + 1)))) by lia.
Qed.
