(* ===== verification/External.v ===== *)
(** Interfaces of the crates the kernel calls: [spin] (Mutex, Once) and
    [arrayvec].  Their code is not part of the repository, so each is a type
    class of operations, with a second class of the laws its documentation
    states.  The reference instances at the end show that the laws can hold. *)

From S2P Require Import Prelude.

(** * [spin::Mutex]

    [mutex_try_lock] gives the guarded value and the locked mutex;
    [mutex_unlock] is the drop of the guard, with the value it leaves. *)
Class SpinMutex (mutex : Type -> Type) := {
  mutex_new : forall {T}, T -> mutex T;
  mutex_try_lock : forall {T}, mutex T -> option (T * mutex T);
  mutex_unlock : forall {T}, mutex T -> T -> mutex T
}.

Class SpinMutexLaws (mutex : Type -> Type) `{SpinMutex mutex} := {
  mutex_held : forall {T}, mutex T -> bool;
  mutex_data : forall {T}, mutex T -> T;
  mutex_new_held T (v : T) : mutex_held (mutex_new v) = false;
  mutex_new_data T (v : T) : mutex_data (mutex_new v) = v;
  mutex_try_lock_held T (m : mutex T) :
    mutex_held m = true -> mutex_try_lock m = None;
  mutex_try_lock_free T (m : mutex T) :
    mutex_held m = false ->
    exists m', mutex_try_lock m = Some (mutex_data m, m') /\ mutex_held m' = true;
  mutex_unlock_held T (m : mutex T) v : mutex_held (mutex_unlock m v) = false;
  mutex_unlock_data T (m : mutex T) v : mutex_data (mutex_unlock m v) = v
}.

#[export] Hint Rewrite @mutex_new_held @mutex_new_data @mutex_unlock_held
  @mutex_unlock_data using typeclasses eauto : mutex.

Section guards.
Context {mutex : Type -> Type} `{SpinMutexLaws mutex} {G T : Type}.
Context (get : G -> mutex T) (set : mutex T -> G -> G).

(** Run [body] with the guard of the mutex; [busy] is what happens when it is
    held.  A panic inside leaves the mutex locked. *)
Definition with_guard {A} (busy : M G A) (body : M (T * G) A) : M G A := fun g =>
  match mutex_try_lock (get g) with
  | None => busy g
  | Some (t, mx) =>
      match body (t, set mx g) with
      | Ret a (t', g') => Ret a (set (mutex_unlock (get g') t') g')
      | Panic p (_, g') => Panic p g'
      | Diverges => Diverges
      end
  end.

(** [try_lock().ok_or(e)?] and [lock()], which spins while the mutex is held. *)
Definition with_try_lock {A E} (e : E) (body : M (T * G) (result A E)) :
    M G (result A E) := with_guard (mret (Err e)) body.
Definition with_lock {A} (body : M (T * G) A) : M G A := with_guard diverge body.

Lemma wp_with_guard {A} (busy : M G A) body Q g :
  mutex_held (get g) = false ->
  (forall mx, mutex_held mx = true ->
    wp body (fun a s => Q a (set (mutex_unlock (get s.2) s.1) s.2))
      (mutex_data (get g), set mx g)) ->
  wp (with_guard busy body) Q g.
Proof.
  intros Hfree Hbody. destruct (mutex_try_lock_free _ _ Hfree) as (mx & E & Hmx).
  specialize (Hbody mx Hmx). unfold wp, with_guard in *. rewrite E.
  destruct (body _) as [a [t' g']|p [t' g']|]; done.
Qed.

Lemma with_guard_busy {A} (busy : M G A) body g :
  mutex_held (get g) = true -> with_guard busy body g = busy g.
Proof. intros Hheld. unfold with_guard. by rewrite mutex_try_lock_held. Qed.

End guards.

(** * [spin::Once]: the first initialiser wins *)
Class SpinOnce (once : Type -> Type) := {
  once_new : forall {T}, once T;
  once_call : forall {T}, once T -> T -> once T;
  once_get : forall {T}, once T -> option T
}.

Class SpinOnceLaws (once : Type -> Type) `{SpinOnce once} := {
  once_get_new T : once_get (once_new : once T) = None;
  once_get_call T (o : once T) v :
    once_get (once_call o v) =
      match once_get o with Some w => Some w | None => Some v end
}.

(** * [arrayvec::ArrayVec]: [push] panics when the vector is full *)
Class ArrayVecApi (arrayvec : Type -> Type) := {
  av_new : forall {T}, Z -> arrayvec T;
  av_push : forall {T}, arrayvec T -> T -> option (arrayvec T);
  av_elems : forall {T}, arrayvec T -> list T
}.

Class ArrayVecLaws (arrayvec : Type -> Type) `{ArrayVecApi arrayvec} := {
  av_cap : forall {T}, arrayvec T -> Z;
  av_new_cap T cap : av_cap (av_new cap : arrayvec T) = cap;
  av_new_elems T cap : av_elems (av_new cap : arrayvec T) = [];
  av_push_full T (v : arrayvec T) x :
    av_cap v <= Z.of_nat (length (av_elems v)) -> av_push v x = None;
  av_push_room T (v : arrayvec T) x :
    Z.of_nat (length (av_elems v)) < av_cap v ->
    exists v', av_push v x = Some v' /\
      av_elems v' = av_elems v ++ [x] /\ av_cap v' = av_cap v
}.

(** * Reference instances *)

Record spin_lock (T : Type) : Type := SpinLock { sl_held : bool; sl_data : T }.
Arguments SpinLock {T} _ _.
Arguments sl_held {T} _.
Arguments sl_data {T} _.

#[export] Instance spin_lock_mutex : SpinMutex spin_lock := {|
  mutex_new T v := SpinLock false v;
  mutex_try_lock T m :=
    if sl_held m then None else Some (sl_data m, SpinLock true (sl_data m));
  mutex_unlock T m v := SpinLock false v
|}.

#[export] Instance spin_lock_laws : SpinMutexLaws spin_lock.
Proof.
  refine {| mutex_held T m := sl_held m; mutex_data T m := sl_data m |};
    simpl; try done.
  - by intros T m ->.
  - intros T m ->. eauto.
Defined.

#[export] Instance option_once : SpinOnce option := {|
  once_new T := None;
  once_call T o v := match o with Some w => Some w | None => Some v end;
  once_get T o := o
|}.

#[export] Instance option_once_laws : SpinOnceLaws option.
Proof. by split. Defined.

Record capped (T : Type) : Type := Capped { cp_cap : Z; cp_elems : list T }.
Arguments Capped {T} _ _.
Arguments cp_cap {T} _.
Arguments cp_elems {T} _.

#[export] Instance capped_arrayvec : ArrayVecApi capped := {|
  av_new T cap := Capped cap [];
  av_push T v x :=
    if Z.of_nat (length (cp_elems v)) <? cp_cap v
    then Some (Capped (cp_cap v) (cp_elems v ++ [x])) else None;
  av_elems T v := cp_elems v
|}.

#[export] Instance capped_arrayvec_laws : ArrayVecLaws capped.
Proof.
  refine {| av_cap T v := cp_cap v |}; simpl; try done.
  - intros T v x Hfull. case_match; [lia|done].
  - intros T v x Hroom. replace (_ <? _) with true by lia. eauto.
Defined.
