(* ===== verification/Simulation.v ===== *)
(** Two program logics beside total correctness: [sim] relates two runs step by
    step, and [pres] says what a run keeps however it ends. *)

From S2P Require Import Prelude Machine External.

(** * Simulation: two runs with the same outcome in related states *)
Definition sim {S T A} (R : S -> T -> Prop) (m1 : M S A) (m2 : M T A) : Prop :=
  forall s t, R s t ->
  match m1 s, m2 t with
  | Ret a s', Ret b t' => a = b /\ R s' t'
  | Panic p s', Panic q t' => p = q /\ R s' t'
  | Diverges, Diverges => True
  | _, _ => False
  end.

Section sim_rules.
Context {S T : Type} (R : S -> T -> Prop).

Lemma sim_ret {A} (a : A) : sim R (mret a) (mret a).
Proof. by intros s t Hst. Qed.

Lemma sim_panic {A} p : sim R (panic p : M S A) (panic p).
Proof. by intros s t Hst. Qed.

Lemma sim_diverge {A} : sim R (diverge : M S A) diverge.
Proof. by intros s t Hst. Qed.

Lemma sim_checked w v : sim R (checked w v) (checked w v).
Proof. unfold checked. case_match; [apply sim_ret|apply sim_panic]. Qed.

Lemma sim_bind {A B} (m1 : M S A) m2 (k1 : A -> M S B) k2 :
  sim R m1 m2 -> (forall a, sim R (k1 a) (k2 a)) -> sim R (m1 ≫= k1) (m2 ≫= k2).
Proof.
  intros Hm Hk s t Hst. specialize (Hm s t Hst). unfold mbind, M_bind.
  destruct (m1 s) as [a s'|p s'|], (m2 t) as [b t'|q t'|]; try done.
  destruct Hm as [-> Hst']. by apply Hk.
Qed.

Lemma sim_bind_try {A B E} (m1 : M S (result A E)) m2 (k1 : A -> M S (result B E)) k2 :
  sim R m1 m2 -> (forall a, sim R (k1 a) (k2 a)) -> sim R (bind_try m1 k1) (bind_try m2 k2).
Proof. intros Hm Hk. apply sim_bind; [done|]. intros [a|e]; [apply Hk|apply sim_ret]. Qed.

Lemma sim_map_err {A E F} (f : E -> F) (m1 : M S (result A E)) m2 :
  sim R m1 m2 -> sim R (map_err f m1) (map_err f m2).
Proof. intros Hm. apply sim_bind; [done|]. intros r. apply sim_ret. Qed.

Lemma sim_expect {A E} what (m1 : M S (result A E)) m2 :
  sim R m1 m2 -> sim R (expect what m1) (expect what m2).
Proof. intros Hm. apply sim_bind; [done|]. intros [a|e]; [apply sim_ret|apply sim_panic]. Qed.
End sim_rules.

Lemma sim_refl {S A} (m : M S A) : sim eq m m.
Proof. intros s t <-. by destruct (m s). Qed.

(** The same program on both sides: what it reads of the state must agree. *)
Section sim_same.
Context {S T : Type} (R : S -> T -> Prop).

Lemma sim_gets {A} (f : S -> A) g : (forall s t, R s t -> f s = g t) -> sim R (gets f) (gets g).
Proof. intros Hf s t Hst. split; [by apply Hf|done]. Qed.

Lemma sim_modify f g : (forall s t, R s t -> R (f s) (g t)) -> sim R (modify f) (modify g).
Proof. intros Hf s t Hst. split; [done|by apply Hf]. Qed.

Lemma sim_index {A} (l : list A) i : sim R (index l i) (index l i).
Proof. unfold index. repeat case_match; first [apply sim_ret|apply sim_panic]. Qed.

Lemma sim_index_set {A} (l : list A) i x : sim R (index_set l i x) (index_set l i x).
Proof. unfold index_set. case_match; first [apply sim_ret|apply sim_panic]. Qed.

Lemma sim_for_each {A} (l : list A) (body1 : A -> M S unit) body2 :
  (forall x, sim R (body1 x) (body2 x)) -> sim R (for_each l body1) (for_each l body2).
Proof.
  intros Hb. induction l as [|x l IH]; [apply sim_ret|]. apply sim_bind; [done|]. by intros _.
Qed.

Lemma sim_try_for_each {A E} (l : list A) (body1 : A -> M S (result unit E)) body2 :
  (forall x, sim R (body1 x) (body2 x)) -> sim R (try_for_each l body1) (try_for_each l body2).
Proof.
  intros Hb. induction l as [|x l IH]; [apply sim_ret|]. apply sim_bind_try; [done|]. by intros _.
Qed.
End sim_same.

(** Under a lock whose mutexes agree. *)
Lemma sim_with_guard {G T A} {mutex : Type -> Type} `{SpinMutex mutex} (R : G -> G -> Prop)
    (get : G -> mutex T) set (busy : M G A) body :
  (forall g h, R g h -> get g = get h) -> (forall mx g h, R g h -> R (set mx g) (set mx h)) ->
  sim R busy busy -> sim (fun p q => p.1 = q.1 /\ R p.2 q.2) body body ->
  sim R (with_guard get set busy body) (with_guard get set busy body).
Proof.
  intros Hget Hset Hbusy Hbody g h Hgh. unfold with_guard. rewrite (Hget _ _ Hgh).
  destruct (mutex_try_lock (get h)) as [[t mx]|]; [|by apply Hbusy].
  specialize (Hbody (t, set mx g) (t, set mx h) (conj eq_refl (Hset _ _ _ Hgh))).
  destruct (body (t, set mx g)) as [a [t' g']|p [t' g']|],
    (body (t, set mx h)) as [b [u' h']|q [u' h']|]; try done; cbn [fst snd] in Hbody.
  - destruct Hbody as (-> & -> & Hr). split; [done|]. rewrite (Hget _ _ Hr). by apply Hset.
  - by destruct Hbody as (-> & _ & Hr).
Qed.

Lemma sim_zoom {S T S' T'} (R : S -> T -> Prop) (R' : S' -> T' -> Prop)
    (get1 : S -> S') set1 (get2 : T -> T') set2 {A} (m1 : M S' A) m2 :
  (forall s t, R s t -> R' (get1 s) (get2 t)) ->
  (forall s t s' t', R s t -> R' s' t' -> R (set1 s' s) (set2 t' t)) ->
  sim R' m1 m2 -> sim R (zoom get1 set1 m1) (zoom get2 set2 m2).
Proof.
  intros Hget Hset Hm s t Hst. specialize (Hm _ _ (Hget _ _ Hst)). unfold zoom.
  destruct (m1 (get1 s)) as [a s'|p s'|], (m2 (get2 t)) as [b t'|q t'|]; try done;
    destruct Hm as [-> Hst']; auto.
Qed.

Ltac sim_same_step :=
  lazymatch goal with
  | |- sim _ (mbind _ _) _ => apply sim_bind; [|intros ?]
  | |- sim _ (bind_try _ _) _ => apply sim_bind_try; [|intros ?]
  | |- sim _ (map_err _ _) _ => apply sim_map_err
  | |- sim _ (expect _ _) _ => apply sim_expect
  | |- sim _ (mret _) _ => apply sim_ret
  | |- sim _ (panic _) _ => apply sim_panic
  | |- sim _ (checked _ _) _ => apply sim_checked
  | |- sim _ (uadd _ _ _) _ => apply sim_checked
  | |- sim _ (usub _ _ _) _ => apply sim_checked
  | |- sim _ (umul _ _ _) _ => apply sim_checked
  | |- sim _ (index _ _) _ => apply sim_index
  | |- sim _ (index_set _ _ _) _ => apply sim_index_set
  | |- sim _ (for_each _ _) _ => apply sim_for_each; intros ?
  | |- sim _ (try_for_each _ _) _ => apply sim_try_for_each; intros ?
  | |- sim _ (if _ then _ else _) _ => case_match
  | |- sim _ (match _ with _ => _ end) _ => case_match
  end.

(** * What a run keeps, however it ends *)
Definition pres {S A} (I : S -> Prop) (m : M S A) : Prop := forall s, I s ->
  match m s with Ret _ s' | Panic _ s' => I s' | Diverges => True end.

(** Every run keeps nothing. *)
Lemma pres_any {S A} (m : M S A) : pres (fun _ => True) m.
Proof. intros s _. by destruct (m s). Qed.

Section pres_rules.
Context {S : Type} (I : S -> Prop).

Lemma pres_ret {A} (a : A) : pres I (mret a).
Proof. by intros s. Qed.
Lemma pres_panic {A} p : pres I (panic p : M S A).
Proof. by intros s. Qed.
Lemma pres_diverge {A} : pres I (diverge : M S A).
Proof. by intros s. Qed.
Lemma pres_get_st : pres I get_st.
Proof. by intros s. Qed.
Lemma pres_gets {A} (f : S -> A) : pres I (gets f).
Proof. by intros s. Qed.
Lemma pres_checked w v : pres I (checked w v).
Proof. unfold checked. case_match; [apply pres_ret|apply pres_panic]. Qed.
Lemma pres_index {A} (l : list A) i : pres I (index l i).
Proof. unfold index. repeat case_match; first [apply pres_ret|apply pres_panic]. Qed.
Lemma pres_index_set {A} (l : list A) i x : pres I (index_set l i x).
Proof. unfold index_set. repeat case_match; first [apply pres_ret|apply pres_panic]. Qed.

Lemma pres_bind {A B} (m : M S A) (k : A -> M S B) :
  pres I m -> (forall a, pres I (k a)) -> pres I (m ≫= k).
Proof.
  intros Hm Hk s Hs. specialize (Hm s Hs). unfold mbind, M_bind.
  destruct (m s) as [a s'|p s'|]; [|done..]. by apply Hk.
Qed.

Lemma pres_bind_try {A B E} (m : M S (result A E)) (k : A -> M S (result B E)) :
  pres I m -> (forall a, pres I (k a)) -> pres I (bind_try m k).
Proof. intros Hm Hk. apply pres_bind; [done|]. intros [a|e]; [apply Hk|apply pres_ret]. Qed.

Lemma pres_for_each {A} (l : list A) (body : A -> M S unit) :
  (forall x, pres I (body x)) -> pres I (for_each l body).
Proof.
  intros Hb. induction l as [|x l IH]; [apply pres_ret|]. apply pres_bind; [done|]. by intros _.
Qed.

Lemma pres_try_for_each {A E} (l : list A) (body : A -> M S (result unit E)) :
  (forall x, pres I (body x)) -> pres I (try_for_each l body).
Proof.
  intros Hb. induction l as [|x l IH]; [apply pres_ret|]. apply pres_bind_try; [done|]. by intros _.
Qed.

Lemma pres_expect {A E} what (m : M S (result A E)) : pres I m -> pres I (expect what m).
Proof. intros Hm. apply pres_bind; [done|]. intros [a|e]; [apply pres_ret|apply pres_panic]. Qed.

Lemma pres_modify f : (forall s, I s -> I (f s)) -> pres I (modify f).
Proof. intros Hf s Hs. by apply Hf. Qed.

Lemma pres_wp {A} (m : M S A) (Q : A -> S -> Prop) s :
  pres I m -> I s -> wp m Q s -> wp m (fun a s' => Q a s' /\ I s') s.
Proof. intros Hm Hs. specialize (Hm s Hs). unfold wp. by destruct (m s). Qed.

Lemma pres_runs {A} (m : M S A) (Q : A -> S -> Prop) R s :
  pres I m -> I s -> runs m Q R s ->
  runs m (fun a s' => Q a s' /\ I s') (fun e s' => R e s' /\ I s') s.
Proof. intros Hm Hs. specialize (Hm s Hs). unfold runs. by destruct (m s). Qed.
End pres_rules.

(** ** The same with a property of the returned value *)
Definition pres_val {S A} (I : S -> Prop) (P : A -> Prop) (m : M S A) : Prop := forall s, I s ->
  match m s with Ret a s' => I s' /\ P a | Panic _ s' => I s' | Diverges => True end.

Section pres_val_rules.
Context {S : Type} (I : S -> Prop).

Lemma val_checked_eq w v : pres_val I (fun r => r = v /\ 0 <= v < 2 ^ w) (checked w v).
Proof.
  intros s Hs. unfold checked, in_range. destruct ((0 <=? v) && (v <? 2 ^ w)) eqn:E; [|exact Hs].
  split; [exact Hs|]. split; [done|lia].
Qed.

Lemma val_bind_pres {A B} (P : A -> Prop) (m : M S A) (k : A -> M S B) :
  pres_val I P m -> (forall a, P a -> pres I (k a)) -> pres I (m ≫= k).
Proof.
  intros Hm Hk s Hs. specialize (Hm s Hs). unfold mbind, M_bind.
  destruct (m s) as [a s'|p s'|]; [|done..]. destruct Hm as [? ?]. by apply Hk.
Qed.
End pres_val_rules.

Lemma pres_zoom {S T A} (I : S -> Prop) (J : T -> Prop) (get : S -> T) set (m : M T A) :
  (forall s, I s -> J (get s)) -> (forall s t, I s -> J t -> I (set t s)) ->
  pres J m -> pres I (zoom get set m).
Proof.
  intros Hget Hset Hm s Hs. specialize (Hm _ (Hget s Hs)). unfold zoom.
  destruct (m (get s)); auto.
Qed.

Ltac pres_step :=
  lazymatch goal with
  | |- pres _ (mbind _ _) => apply pres_bind; [|intros ?]
  | |- pres _ (bind_try _ _) => apply pres_bind_try; [|intros ?]
  | |- pres _ (mret _) => apply pres_ret
  | |- pres _ (panic _) => apply pres_panic
  | |- pres _ diverge => apply pres_diverge
  | |- pres _ get_st => apply pres_get_st
  | |- pres _ (gets _) => apply pres_gets
  | |- pres _ (checked _ _) => apply pres_checked
  | |- pres _ (uadd _ _ _) => apply pres_checked
  | |- pres _ (usub _ _ _) => apply pres_checked
  | |- pres _ (umul _ _ _) => apply pres_checked
  | |- pres _ (expect _ _) => apply pres_expect
  | |- pres _ (index _ _) => apply pres_index
  | |- pres _ (index_set _ _ _) => apply pres_index_set
  | |- pres _ (for_each _ _) => apply pres_for_each; intros ?
  | |- pres _ (try_for_each _ _) => apply pres_try_for_each; intros ?
  | |- pres _ (if _ then _ else _) => case_match
  | |- pres _ (match _ with _ => _ end) => case_match
  end.

(** ** The primitives of the machine and of locks *)

Lemma pres_with_guard {G T A} {mutex : Type -> Type} `{SpinMutex mutex} (I : G -> Prop)
    (get : G -> mutex T) set (busy : M G A) (body : M (T * G) A) :
  (forall g mx, I g -> I (set mx g)) -> pres I busy ->
  pres (fun p => I p.2) body -> pres I (with_guard get set busy body).
Proof.
  intros Hset Hbusy Hbody g Hg. unfold with_guard.
  destruct (mutex_try_lock (get g)) as [[t mx]|]; [|by apply Hbusy].
  specialize (Hbody (t, set mx g) (Hset _ _ Hg)).
  destruct (body _) as [a [t' g']|p [t' g']|]; simpl in *; auto.
Qed.

Section machine.
Context {D : Type} `{Device D} (I : D -> Prop).
Notation on_dev := (fun b : Bus D => I (bus_dev b)).

Lemma pres_io_write op :
  (forall d, I d -> I (dev_write op d)) -> pres on_dev (io_write op).
Proof. intros Hop b Hb. by apply Hop. Qed.

Lemma pres_io_read op :
  (forall d, I d -> I (dev_read op d).2) -> pres on_dev (io_read op).
Proof.
  intros Hop b Hb. unfold io_read. specialize (Hop _ Hb).
  by destruct (dev_read op (bus_dev b)).
Qed.
End machine.

(** The guarded section, for runs that may panic. *)
Lemma runs_with_guard {G T A} {mutex : Type -> Type} `{SpinMutexLaws mutex}
    (get : G -> mutex T) set (busy : M G A) body Q R g :
  mutex_held (get g) = false ->
  (forall mx, mutex_held mx = true ->
    runs body (fun a s => Q a (set (mutex_unlock (get s.2) s.1) s.2)) (fun p s => R p s.2)
      (mutex_data (get g), set mx g)) ->
  runs (with_guard get set busy body) Q R g.
Proof.
  intros Hfree Hbody. destruct (mutex_try_lock_free _ _ Hfree) as (mx & E & Hmx).
  specialize (Hbody mx Hmx). unfold runs, with_guard in *. rewrite E.
  destruct (body _) as [a [t' g']|p [t' g']|]; done.
Qed.

Lemma runs_zoom {S T A} (get : S -> T) set (m : M T A) Q R s :
  runs m (fun a t => Q a (set t s)) (fun p t => R p (set t s)) (get s) ->
  runs (zoom get set m) Q R s.
Proof. unfold runs, zoom. by destruct (m (get s)). Qed.
