(* ===== verification/Graphic.v ===== *)
(** The [graphic] and [error] modules of the [common] crate: pixel formats,
    the graphics information handed from the bootloader to the kernel, and the
    32-bit pixel and colour encodings. *)

From S2P Require Import Prelude Machine.

Module Graphic.

(** * Errors (common/src/graphic.rs, common/src/error.rs) *)

Inductive GraphicError : Type := UnsupportedPixelFormat.

Definition GraphicError_msg (e : GraphicError) : string :=
  match e with UnsupportedPixelFormat => "Unsupported pixel format." end.

Inductive Error : Type := Error_GraphicError (e : GraphicError).

Definition Error_msg (e : Error) : string :=
  match e with Error_GraphicError graphic_err => GraphicError_msg graphic_err end.

Definition Error_from (e : GraphicError) : Error := Error_GraphicError e.

(** * Pixel formats *)

Inductive PixelFormat : Type := Rgb | Bgr.

#[export] Instance PixelFormat_eq_dec : EqDecision PixelFormat.
Proof. solve_decision. Defined.

(** The pixel formats of the [uefi] crate's graphics output protocol: two of
    its values are named by the code. *)
Class GopPixelFormat (F : Type) := {
  gop_eq_dec :: EqDecision F;
  gop_Rgb : F;
  gop_Bgr : F
}.

Section gop.
Context {F : Type} `{GopPixelFormat F}.

(** What the protocol's accessors return. *)
Record GraphicsOutput : Type := {
  resolution : Z * Z;
  mode_stride : Z;
  mode_pixel_format : F;
  frame_buffer_ptr : Z;
  frame_buffer_size : Z
}.

Definition from_gop_pixel_format_type (pixel_format : F) : result PixelFormat Error :=
  if decide (pixel_format = gop_Bgr) then Ok Bgr
  else if decide (pixel_format = gop_Rgb) then Ok Rgb
  else Err (Error_from UnsupportedPixelFormat).

Record GraphicInfo : Type := {
  gi_width : Z;
  gi_height : Z;
  gi_stride : Z;
  gi_bytes_per_pixel : Z;
  gi_pixel_format : PixelFormat;
  gi_frame_buffer_addr : Z;
  gi_size : Z
}.

Definition from_gop (gop : GraphicsOutput) : result GraphicInfo Error :=
  let '(width, height) := resolution gop in
  let stride := mode_stride gop in
  let bytes_per_pixel := 4 in
  match from_gop_pixel_format_type (mode_pixel_format gop) with
  | Err e => Err e
  | Ok pixel_format =>
      let frame_buffer_addr := frame_buffer_ptr gop in
      let size := frame_buffer_size gop in
      Ok {| gi_width := width; gi_height := height; gi_stride := stride;
            gi_bytes_per_pixel := bytes_per_pixel; gi_pixel_format := pixel_format;
            gi_frame_buffer_addr := frame_buffer_addr; gi_size := size |}
  end.
End gop.
Arguments GraphicsOutput : clear implicits.

(** * Pixels and colours: newtypes over [u32] *)

Definition Pixel : Type := Z.
Definition RgbColor : Type := Z.

Definition Pixel_new : Pixel := 0x00000000.
Definition Pixel_rgb (r g b : Z) : Pixel := u32_from_be_bytes r g b 0x0.
Definition Pixel_get (p : Pixel) : Z := p.

Definition Pixel_bgr (p : Pixel) : Pixel :=
  let r := as_u 8 (ushr (Z.land p 0xff000000) 0x18) in
  let g := as_u 8 (ushr (Z.land p 0xff0000) 0x10) in
  let b := as_u 8 (ushr (Z.land p 0xff00) 0x8) in
  u32_from_be_bytes b g r 0.

Definition Pixel_le (p : Pixel) : Z := u32_swap_bytes p.
Definition Pixel_from_u32 (value : Z) : Pixel := value.
Definition Pixel_from_RgbColor (value : RgbColor) : Pixel := Z.land value 0xFFFFFF00.

Definition RgbColor_new : RgbColor := 0x00000000.
Definition RgbColor_rgb (r g b : Z) : RgbColor := u32_from_be_bytes r g b 0x00.
Definition RgbColor_get (c : RgbColor) : Z := c.

Definition RgbColor_to_bgr (c : RgbColor) : RgbColor :=
  let r := as_u 8 (ushr (Z.land c 0xff000000) 0x18) in
  let g := as_u 8 (ushr (Z.land c 0xff0000) 0x10) in
  let b := as_u 8 (ushr (Z.land c 0xff00) 0x8) in
  u32_from_be_bytes b g r 0.

Definition RgbColor_from_u32 (value : Z) : RgbColor := value.
Definition RgbColor_from_Pixel (value : Pixel) : RgbColor := Z.land value 0xFFFFFF00.

(** * Lemmas *)

Definition u8 (v : Z) : Prop := 0 <= v < 2 ^ 8.

(** The three channels of a word, most significant byte first. *)
Lemma masked_byte v i : 0 <= i < 4 ->
  as_u 8 (ushr (Z.land v (Z.shiftl 0xff (8 * i))) (8 * i)) = u32_byte v i.
Proof.
  intros Hi. apply (bits_eq 8); [by apply as_u_range|apply u32_byte_range|].
  intros j Hj. unfold u32_byte. bits_norm.
  replace (j + 8 * i - 8 * i) with j by lia.
  replace (Z.testbit 0xff j) with true; [by rewrite andb_true_r|].
  change 0xff with (Z.ones 8). by rewrite Z.ones_spec_low.
Qed.

Lemma bgr_channels v :
  Pixel_bgr v = u32_from_be_bytes (u32_byte v 1) (u32_byte v 2) (u32_byte v 3) 0.
Proof.
  unfold Pixel_bgr. f_equal.
  - apply (masked_byte v 1); lia.
  - apply (masked_byte v 2); lia.
  - apply (masked_byte v 3); lia.
Qed.

(** Dropping the reserved byte. *)
Lemma land_reserved v :
  Z.land v 0xFFFFFF00 =
    u32_from_be_bytes (u32_byte v 3) (u32_byte v 2) (u32_byte v 1) 0.
Proof.
  apply (bits_eq 32).
  - apply land_range_r; lia.
  - apply u32_from_be_bytes_range; try apply u32_byte_range; lia.
  - intros i Hi. rewrite testbit_u32_from_be_bytes by lia. unfold u32_byte.
    change 0xFFFFFF00 with (Z.ldiff (Z.ones 32) (Z.ones 8)).
    rewrite Z.land_spec, Z.ldiff_spec, !Z.testbit_ones_nonneg by lia.
    rewrite !testbit_as_u, Z.testbit_0_l by lia.
    bits_cases; simpl; rewrite ?Z.shiftr_spec by lia;
      rewrite ?andb_true_r, ?andb_false_r, ?orb_false_r; try done; f_equal; lia.
Qed.

Lemma Pixel_le_range p : 0 <= Pixel_le p < 2 ^ 32.
Proof.
  unfold Pixel_le, u32_swap_bytes.
  apply u32_from_be_bytes_range; apply u32_byte_range.
Qed.

(** The byte order of the word that is stored. *)
Lemma Pixel_le_bytes p :
  map (u32_byte (Pixel_le p)) [0; 1; 2; 3] =
    [u32_byte p 3; u32_byte p 2; u32_byte p 1; u32_byte p 0].
Proof.
  simpl. unfold Pixel_le, u32_swap_bytes.
  destruct (u32_bytes_of_join (u32_byte p 0) (u32_byte p 1) (u32_byte p 2)
    (u32_byte p 3)) as (-> & -> & -> & ->); try apply u32_byte_range. done.
Qed.

Lemma Pixel_rgb_bytes r g b : u8 r -> u8 g -> u8 b ->
  u32_byte (Pixel_rgb r g b) 0 = 0 /\ u32_byte (Pixel_rgb r g b) 1 = b /\
  u32_byte (Pixel_rgb r g b) 2 = g /\ u32_byte (Pixel_rgb r g b) 3 = r.
Proof. unfold u8, Pixel_rgb. intros. apply u32_bytes_of_join; lia. Qed.

Lemma from_RgbColor_rgb r g b : u8 r -> u8 g -> u8 b ->
  Pixel_from_RgbColor (RgbColor_rgb r g b) = Pixel_rgb r g b.
Proof.
  intros Hr Hg Hb. unfold Pixel_from_RgbColor, RgbColor_rgb. rewrite land_reserved.
  fold (Pixel_rgb r g b).
  by destruct (Pixel_rgb_bytes r g b Hr Hg Hb) as (_ & -> & -> & ->).
Qed.

(** * Properties *)

(** the four bytes a colour ends up as in memory are [r, g, b, 0] for an RGB
    frame buffer and [b, g, r, 0] for a BGR one. *)
Theorem color_bytes r g b : u8 r -> u8 g -> u8 b ->
  map (u32_byte (Pixel_le (Pixel_from_RgbColor (RgbColor_rgb r g b)))) [0; 1; 2; 3]
    = [r; g; b; 0] /\
  map (u32_byte (Pixel_le (Pixel_bgr (Pixel_from_RgbColor (RgbColor_rgb r g b)))))
    [0; 1; 2; 3] = [b; g; r; 0].
Proof.
  intros Hr Hg Hb. rewrite from_RgbColor_rgb, !Pixel_le_bytes, bgr_channels by done.
  destruct (Pixel_rgb_bytes r g b Hr Hg Hb) as (-> & -> & -> & ->).
  unfold u8 in *.
  destruct (u32_bytes_of_join b g r 0) as (-> & -> & -> & ->); [lia..|done].
Qed.

Lemma color_bytes_witness :
  u8 0x3c /\ u8 0x38 /\ u8 0x36 /\
  map (u32_byte (Pixel_le (Pixel_from_RgbColor (RgbColor_rgb 0x3c 0x38 0x36))))
    [0; 1; 2; 3] = [0x3c; 0x38; 0x36; 0].
Proof.
  assert (H : u8 0x3c /\ u8 0x38 /\ u8 0x36) by (unfold u8; lia).
  destruct H as (H1 & H2 & H3). split; [done|]. split; [done|]. split; [done|].
  apply (color_bytes 0x3c 0x38 0x36 H1 H2 H3).
Defined.

(** [bgr] swaps the red and blue channels and clears the reserved byte;
    applied twice it is the conversion that drops the reserved byte. *)
Theorem bgr_involutive p :
  Pixel_bgr (Pixel_bgr p) = Pixel_from_RgbColor p.
Proof.
  unfold Pixel_from_RgbColor. rewrite land_reserved, (bgr_channels (Pixel_bgr p)).
  rewrite bgr_channels.
  destruct (u32_bytes_of_join (u32_byte p 1) (u32_byte p 2) (u32_byte p 3) 0)
    as (_ & -> & -> & ->); try apply u32_byte_range; [lia|done].
Qed.

(** [from_gop] accepts exactly the RGB and BGR formats, and the information
    it builds always says four bytes per pixel. *)
Theorem from_gop_spec {F} `{GopPixelFormat F} (gop : GraphicsOutput F) :
  match from_gop gop with
  | Ok info =>
      gi_bytes_per_pixel info = 4 /\
      (gi_width info, gi_height info) = resolution gop /\
      gi_stride info = mode_stride gop /\
      gi_frame_buffer_addr info = frame_buffer_ptr gop /\
      (mode_pixel_format gop = gop_Bgr /\ gi_pixel_format info = Bgr \/
       mode_pixel_format gop <> gop_Bgr /\ mode_pixel_format gop = gop_Rgb /\
       gi_pixel_format info = Rgb)
  | Err e =>
      e = Error_GraphicError UnsupportedPixelFormat /\
      mode_pixel_format gop <> gop_Bgr /\ mode_pixel_format gop <> gop_Rgb
  end.
Proof.
  unfold from_gop, from_gop_pixel_format_type, Error_from.
  destruct (resolution gop) as [w h].
  repeat case_decide; simpl; auto 10.
Qed.

End Graphic.
