(* ===== verification/Font.v ===== *)
(** The bitmap font (kernel/src/graphic/font.rs) and the character code type: one glyph of sixteen rows of
    eight pixels per byte value, the most significant bit leftmost. *)

From S2P Require Import Prelude.

Module Font.

Definition CHARACTER_WIDTH : Z := 8.
Definition CHARACTER_HEIGHT : Z := 16.

(** [AsciiChar] (kernel/src/graphic/char.rs): a character code. *)
Record AsciiChar : Type := { code : Z }.
Definition AsciiChar_new (code : Z) : AsciiChar := {| code := code |}.

(** The table in two halves, of the byte values below 128 and from 128 on. *)
Definition U8_FONT_ASCII : list (list Z) := [
  [213; 213; 0; 193; 0; 193; 193; 0; 193; 0; 193; 193; 0; 193; 0; 213];
  [0; 0; 0; 126; 66; 66; 66; 66; 66; 66; 126; 0; 0; 0; 0; 0];
  [0; 0; 0; 126; 66; 66; 66; 66; 66; 66; 126; 0; 0; 0; 0; 0];
  [0; 0; 0; 126; 66; 66; 66; 66; 66; 66; 126; 0; 0; 0; 0; 0];
  [0; 0; 0; 126; 66; 66; 66; 66; 66; 66; 126; 0; 0; 0; 0; 0];
  [0; 0; 0; 126; 66; 66; 66; 66; 66; 66; 126; 0; 0; 0; 0; 0];
  [0; 0; 0; 126; 66; 66; 66; 66; 66; 66; 126; 0; 0; 0; 0; 0];
  [0; 0; 0; 126; 66; 66; 66; 66; 66; 66; 126; 0; 0; 0; 0; 0];
  [0; 0; 0; 126; 66; 66; 66; 66; 66; 66; 126; 0; 0; 0; 0; 0];
  [0; 0; 0; 0; 0; 0; 0; 0; 0; 0; 0; 0; 0; 0; 0; 0];
  [0; 0; 0; 126; 66; 66; 66; 66; 66; 66; 126; 0; 0; 0; 0; 0];
  [0; 0; 0; 126; 66; 66; 66; 66; 66; 66; 126; 0; 0; 0; 0; 0];
  [0; 0; 0; 126; 66; 66; 66; 66; 66; 66; 126; 0; 0; 0; 0; 0];
  [0; 0; 0; 126; 66; 66; 66; 66; 66; 66; 126; 0; 0; 0; 0; 0];
  [16; 16; 16; 16; 16; 16; 16; 240; 0; 0; 0; 0; 0; 0; 0; 0];
  [16; 16; 16; 16; 16; 16; 16; 31; 0; 0; 0; 0; 0; 0; 0; 0];
  [0; 0; 0; 0; 0; 0; 0; 31; 16; 16; 16; 16; 16; 16; 16; 16];
  [0; 0; 0; 0; 0; 0; 0; 240; 16; 16; 16; 16; 16; 16; 16; 16];
  [0; 0; 0; 0; 0; 0; 0; 255; 0; 0; 0; 0; 0; 0; 0; 0];
  [16; 16; 16; 16; 16; 16; 16; 16; 16; 16; 16; 16; 16; 16; 16; 16];
  [16; 16; 16; 16; 16; 16; 16; 240; 16; 16; 16; 16; 16; 16; 16; 16];
  [16; 16; 16; 16; 16; 16; 16; 255; 0; 0; 0; 0; 0; 0; 0; 0];
  [16; 16; 16; 16; 16; 16; 16; 31; 16; 16; 16; 16; 16; 16; 16; 16];
  [0; 0; 0; 0; 0; 0; 0; 255; 16; 16; 16; 16; 16; 16; 16; 16];
  [16; 16; 16; 16; 16; 16; 16; 255; 16; 16; 16; 16; 16; 16; 16; 16];
  [170; 85; 170; 85; 170; 85; 170; 85; 170; 85; 170; 85; 170; 85; 170; 85];
  [0; 0; 0; 0; 0; 8; 8; 126; 24; 126; 16; 16; 0; 0; 0; 0];
  [0; 0; 0; 0; 0; 6; 24; 96; 24; 6; 0; 126; 0; 0; 0; 0];
  [0; 0; 0; 0; 0; 126; 36; 36; 36; 36; 36; 36; 0; 0; 0; 0];
  [0; 0; 0; 0; 0; 96; 24; 6; 24; 96; 0; 126; 0; 0; 0; 0];
  [0; 0; 0; 24; 36; 32; 32; 120; 32; 32; 64; 126; 0; 0; 0; 0];
  [0; 0; 0; 0; 0; 0; 0; 0; 60; 0; 0; 0; 0; 0; 0; 0];
  [0; 0; 0; 0; 0; 0; 0; 0; 0; 0; 0; 0; 0; 0; 0; 0];
  [0; 0; 16; 16; 16; 16; 16; 16; 0; 0; 16; 16; 0; 0; 0; 0];
  [0; 36; 36; 36; 0; 0; 0; 0; 0; 0; 0; 0; 0; 0; 0; 0];
  [0; 0; 0; 0; 36; 36; 126; 36; 36; 126; 36; 36; 0; 0; 0; 0];
  [0; 0; 16; 56; 84; 80; 80; 56; 20; 20; 84; 56; 16; 0; 0; 0];
  [0; 0; 0; 96; 146; 148; 104; 16; 44; 82; 146; 12; 0; 0; 0; 0];
  [0; 0; 24; 36; 36; 40; 16; 42; 68; 68; 68; 58; 0; 0; 0; 0];
  [0; 16; 16; 16; 0; 0; 0; 0; 0; 0; 0; 0; 0; 0; 0; 0];
  [0; 8; 16; 16; 32; 32; 32; 32; 32; 32; 32; 16; 16; 8; 0; 0];
  [0; 32; 16; 16; 8; 8; 8; 8; 8; 8; 8; 16; 16; 32; 0; 0];
  [0; 0; 0; 0; 0; 36; 24; 126; 24; 36; 0; 0; 0; 0; 0; 0];
  [0; 0; 0; 0; 0; 16; 16; 124; 16; 16; 0; 0; 0; 0; 0; 0];
  [0; 0; 0; 0; 0; 0; 0; 0; 0; 0; 24; 24; 16; 48; 0; 0];
  [0; 0; 0; 0; 0; 0; 0; 126; 0; 0; 0; 0; 0; 0; 0; 0];
  [0; 0; 0; 0; 0; 0; 0; 0; 0; 0; 24; 24; 0; 0; 0; 0];
  [0; 2; 2; 4; 4; 8; 8; 16; 16; 32; 32; 64; 64; 0; 0; 0];
  [0; 0; 0; 60; 66; 70; 74; 82; 98; 66; 66; 60; 0; 0; 0; 0];
  [0; 0; 0; 8; 24; 40; 8; 8; 8; 8; 8; 62; 0; 0; 0; 0];
  [0; 0; 0; 60; 66; 2; 4; 8; 16; 32; 64; 126; 0; 0; 0; 0];
  [0; 0; 0; 60; 66; 2; 2; 28; 2; 2; 66; 60; 0; 0; 0; 0];
  [0; 0; 0; 4; 12; 20; 36; 68; 126; 4; 4; 4; 0; 0; 0; 0];
  [0; 0; 0; 126; 64; 64; 64; 124; 2; 2; 66; 60; 0; 0; 0; 0];
  [0; 0; 0; 28; 32; 64; 64; 124; 66; 66; 66; 60; 0; 0; 0; 0];
  [0; 0; 0; 126; 2; 2; 4; 4; 8; 8; 16; 16; 0; 0; 0; 0];
  [0; 0; 0; 60; 66; 66; 66; 60; 66; 66; 66; 60; 0; 0; 0; 0];
  [0; 0; 0; 60; 66; 66; 66; 62; 2; 2; 4; 56; 0; 0; 0; 0];
  [0; 0; 0; 0; 0; 24; 24; 0; 0; 0; 24; 24; 0; 0; 0; 0];
  [0; 0; 0; 0; 0; 24; 24; 0; 0; 0; 24; 24; 16; 48; 0; 0];
  [0; 0; 0; 2; 4; 8; 16; 32; 16; 8; 4; 2; 0; 0; 0; 0];
  [0; 0; 0; 0; 0; 0; 126; 0; 126; 0; 0; 0; 0; 0; 0; 0];
  [0; 0; 0; 64; 32; 16; 8; 4; 8; 16; 32; 64; 0; 0; 0; 0];
  [0; 0; 60; 66; 2; 2; 12; 16; 16; 0; 16; 16; 0; 0; 0; 0];
  [0; 0; 0; 60; 66; 66; 78; 82; 82; 78; 64; 62; 0; 0; 0; 0];
  [0; 0; 0; 24; 24; 36; 36; 60; 66; 66; 66; 66; 0; 0; 0; 0];
  [0; 0; 0; 124; 66; 66; 66; 124; 66; 66; 66; 124; 0; 0; 0; 0];
  [0; 0; 0; 60; 66; 64; 64; 64; 64; 64; 66; 60; 0; 0; 0; 0];
  [0; 0; 0; 120; 68; 66; 66; 66; 66; 66; 68; 120; 0; 0; 0; 0];
  [0; 0; 0; 126; 64; 64; 64; 124; 64; 64; 64; 126; 0; 0; 0; 0];
  [0; 0; 0; 126; 64; 64; 64; 124; 64; 64; 64; 64; 0; 0; 0; 0];
  [0; 0; 0; 60; 66; 64; 64; 78; 66; 66; 66; 60; 0; 0; 0; 0];
  [0; 0; 0; 66; 66; 66; 66; 126; 66; 66; 66; 66; 0; 0; 0; 0];
  [0; 0; 0; 62; 8; 8; 8; 8; 8; 8; 8; 62; 0; 0; 0; 0];
  [0; 0; 0; 30; 2; 2; 2; 2; 2; 66; 66; 60; 0; 0; 0; 0];
  [0; 0; 0; 66; 66; 68; 72; 120; 68; 68; 66; 66; 0; 0; 0; 0];
  [0; 0; 0; 64; 64; 64; 64; 64; 64; 64; 64; 126; 0; 0; 0; 0];
  [0; 0; 0; 66; 102; 90; 90; 66; 66; 66; 66; 66; 0; 0; 0; 0];
  [0; 0; 0; 66; 98; 82; 74; 70; 66; 66; 66; 66; 0; 0; 0; 0];
  [0; 0; 0; 60; 66; 66; 66; 66; 66; 66; 66; 60; 0; 0; 0; 0];
  [0; 0; 0; 124; 66; 66; 66; 124; 64; 64; 64; 64; 0; 0; 0; 0];
  [0; 0; 0; 60; 66; 66; 66; 66; 66; 66; 68; 58; 2; 0; 0; 0];
  [0; 0; 0; 124; 66; 66; 66; 124; 68; 66; 66; 66; 0; 0; 0; 0];
  [0; 0; 0; 60; 66; 64; 64; 60; 2; 2; 66; 60; 0; 0; 0; 0];
  [0; 0; 0; 124; 16; 16; 16; 16; 16; 16; 16; 16; 0; 0; 0; 0];
  [0; 0; 0; 66; 66; 66; 66; 66; 66; 66; 66; 60; 0; 0; 0; 0];
  [0; 0; 0; 68; 68; 68; 68; 40; 40; 40; 16; 16; 0; 0; 0; 0];
  [0; 0; 0; 130; 130; 130; 146; 84; 84; 108; 40; 40; 0; 0; 0; 0];
  [0; 0; 0; 66; 66; 36; 36; 24; 36; 36; 66; 66; 0; 0; 0; 0];
  [0; 0; 0; 130; 130; 130; 68; 40; 16; 16; 16; 16; 0; 0; 0; 0];
  [0; 0; 0; 126; 4; 8; 16; 16; 32; 32; 64; 126; 0; 0; 0; 0];
  [0; 60; 32; 32; 32; 32; 32; 32; 32; 32; 32; 32; 32; 60; 0; 0];
  [0; 64; 64; 32; 32; 16; 16; 8; 8; 4; 4; 2; 2; 0; 0; 0];
  [0; 60; 4; 4; 4; 4; 4; 4; 4; 4; 4; 4; 4; 60; 0; 0];
  [0; 0; 16; 16; 40; 40; 68; 68; 0; 0; 0; 0; 0; 0; 0; 0];
  [0; 0; 0; 0; 0; 0; 0; 0; 0; 0; 0; 0; 255; 0; 0; 0];
  [0; 24; 8; 4; 0; 0; 0; 0; 0; 0; 0; 0; 0; 0; 0; 0];
  [0; 0; 0; 0; 0; 60; 2; 2; 62; 66; 66; 62; 0; 0; 0; 0];
  [0; 0; 64; 64; 64; 124; 66; 66; 66; 66; 66; 124; 0; 0; 0; 0];
  [0; 0; 0; 0; 0; 60; 66; 64; 64; 64; 66; 60; 0; 0; 0; 0];
  [0; 0; 2; 2; 2; 62; 66; 66; 66; 66; 66; 62; 0; 0; 0; 0];
  [0; 0; 0; 0; 0; 60; 66; 66; 126; 64; 66; 60; 0; 0; 0; 0];
  [0; 0; 14; 16; 16; 60; 16; 16; 16; 16; 16; 16; 0; 0; 0; 0];
  [0; 0; 0; 0; 0; 62; 66; 66; 66; 66; 66; 62; 2; 2; 2; 60];
  [0; 0; 64; 64; 64; 124; 66; 66; 66; 66; 66; 66; 0; 0; 0; 0];
  [0; 8; 8; 0; 0; 24; 8; 8; 8; 8; 8; 28; 0; 0; 0; 0];
  [0; 8; 8; 0; 0; 56; 8; 8; 8; 8; 8; 8; 8; 112; 0; 0];
  [0; 0; 64; 64; 64; 66; 68; 72; 120; 68; 68; 66; 0; 0; 0; 0];
  [0; 0; 24; 8; 8; 8; 8; 8; 8; 8; 8; 12; 0; 0; 0; 0];
  [0; 0; 0; 0; 0; 236; 146; 146; 146; 146; 146; 146; 0; 0; 0; 0];
  [0; 0; 0; 0; 0; 124; 66; 66; 66; 66; 66; 66; 0; 0; 0; 0];
  [0; 0; 0; 0; 0; 60; 66; 66; 66; 66; 66; 60; 0; 0; 0; 0];
  [0; 0; 0; 0; 0; 124; 66; 66; 66; 66; 66; 124; 64; 64; 64; 64];
  [0; 0; 0; 0; 0; 62; 66; 66; 66; 66; 66; 62; 2; 2; 2; 2];
  [0; 0; 0; 0; 0; 92; 98; 64; 64; 64; 64; 64; 0; 0; 0; 0];
  [0; 0; 0; 0; 0; 60; 66; 64; 60; 2; 66; 60; 0; 0; 0; 0];
  [0; 0; 32; 32; 32; 120; 32; 32; 32; 32; 32; 30; 0; 0; 0; 0];
  [0; 0; 0; 0; 0; 66; 66; 66; 66; 66; 66; 62; 0; 0; 0; 0];
  [0; 0; 0; 0; 0; 68; 68; 68; 40; 40; 16; 16; 0; 0; 0; 0];
  [0; 0; 0; 0; 0; 130; 130; 146; 84; 84; 108; 40; 0; 0; 0; 0];
  [0; 0; 0; 0; 0; 66; 36; 36; 24; 36; 36; 66; 0; 0; 0; 0];
  [0; 0; 0; 0; 0; 66; 66; 66; 66; 66; 66; 62; 2; 2; 2; 60];
  [0; 0; 0; 0; 0; 126; 4; 8; 16; 32; 64; 126; 0; 0; 0; 0];
  [0; 12; 16; 16; 16; 16; 16; 224; 16; 16; 16; 16; 16; 12; 0; 0];
  [0; 16; 16; 16; 16; 16; 16; 16; 16; 16; 16; 16; 16; 16; 0; 0];
  [0; 96; 16; 16; 16; 16; 16; 14; 16; 16; 16; 16; 16; 96; 0; 0];
  [0; 0; 0; 0; 0; 0; 0; 50; 76; 0; 0; 0; 0; 0; 0; 0];
  [0; 0; 0; 0; 0; 0; 0; 0; 0; 0; 0; 0; 0; 0; 0; 0]].

Definition U8_FONT_HIGH : list (list Z) := [
  [0; 0; 0; 0; 0; 28; 34; 120; 32; 120; 34; 28; 0; 0; 0; 0];
  [0; 0; 0; 0; 0; 0; 0; 0; 0; 0; 0; 0; 0; 0; 0; 0];
  [0; 0; 0; 0; 0; 0; 0; 0; 0; 0; 24; 8; 8; 16; 0; 0];
  [0; 12; 16; 16; 16; 60; 16; 16; 16; 16; 16; 16; 16; 96; 0; 0];
  [0; 0; 0; 0; 0; 0; 0; 0; 0; 0; 108; 36; 36; 72; 0; 0];
  [0; 0; 0; 0; 0; 0; 0; 0; 0; 0; 0; 84; 0; 0; 0; 0];
  [0; 16; 16; 16; 124; 16; 16; 16; 16; 16; 16; 16; 0; 0; 0; 0];
  [0; 16; 16; 16; 124; 16; 16; 16; 124; 16; 16; 16; 0; 0; 0; 0];
  [0; 16; 40; 68; 0; 0; 0; 0; 0; 0; 0; 0; 0; 0; 0; 0];
  [0; 0; 0; 0; 72; 72; 16; 16; 32; 32; 84; 84; 0; 0; 0; 0];
  [0; 36; 24; 60; 66; 64; 64; 60; 2; 2; 66; 60; 0; 0; 0; 0];
  [0; 0; 0; 0; 0; 0; 16; 32; 64; 32; 16; 0; 0; 0; 0; 0];
  [0; 0; 0; 62; 72; 72; 72; 76; 72; 72; 72; 62; 0; 0; 0; 0];
  [0; 0; 0; 0; 0; 0; 0; 0; 0; 0; 0; 0; 0; 0; 0; 0];
  [0; 36; 24; 126; 4; 8; 16; 16; 32; 32; 64; 126; 0; 0; 0; 0];
  [0; 0; 0; 0; 0; 0; 0; 0; 0; 0; 0; 0; 0; 0; 0; 0];
  [0; 0; 0; 0; 0; 0; 0; 0; 0; 0; 0; 0; 0; 0; 0; 0];
  [0; 8; 16; 16; 24; 0; 0; 0; 0; 0; 0; 0; 0; 0; 0; 0];
  [0; 24; 8; 8; 16; 0; 0; 0; 0; 0; 0; 0; 0; 0; 0; 0];
  [0; 18; 36; 36; 54; 0; 0; 0; 0; 0; 0; 0; 0; 0; 0; 0];
  [0; 108; 36; 36; 72; 0; 0; 0; 0; 0; 0; 0; 0; 0; 0; 0];
  [0; 0; 0; 0; 0; 0; 16; 56; 124; 56; 16; 0; 0; 0; 0; 0];
  [0; 0; 0; 0; 0; 0; 0; 0; 126; 0; 0; 0; 0; 0; 0; 0];
  [0; 0; 0; 0; 0; 0; 0; 0; 255; 0; 0; 0; 0; 0; 0; 0];
  [0; 0; 0; 52; 88; 0; 0; 0; 0; 0; 0; 0; 0; 0; 0; 0];
  [0; 0; 0; 122; 46; 42; 42; 0; 0; 0; 0; 0; 0; 0; 0; 0];
  [0; 0; 36; 24; 0; 60; 66; 64; 60; 2; 66; 60; 0; 0; 0; 0];
  [0; 0; 0; 0; 0; 0; 64; 32; 16; 32; 64; 0; 0; 0; 0; 0];
  [0; 0; 0; 0; 0; 108; 146; 146; 158; 144; 146; 108; 0; 0; 0; 0];
  [0; 0; 0; 0; 0; 0; 0; 0; 0; 0; 0; 0; 0; 0; 0; 0];
  [0; 0; 36; 24; 0; 126; 4; 8; 16; 32; 64; 126; 0; 0; 0; 0];
  [0; 40; 40; 130; 130; 130; 68; 40; 16; 16; 16; 16; 0; 0; 0; 0];
  [0; 0; 0; 0; 0; 0; 0; 0; 0; 0; 0; 0; 0; 0; 0; 0];
  [0; 0; 0; 0; 16; 16; 0; 0; 16; 16; 16; 16; 16; 16; 0; 0];
  [0; 0; 0; 0; 16; 56; 84; 80; 80; 80; 84; 56; 16; 0; 0; 0];
  [0; 0; 0; 24; 36; 32; 32; 120; 32; 32; 32; 94; 0; 0; 0; 0];
  [0; 0; 0; 0; 0; 66; 60; 36; 36; 60; 66; 0; 0; 0; 0; 0];
  [0; 0; 130; 130; 130; 68; 40; 16; 124; 16; 124; 16; 0; 0; 0; 0];
  [0; 16; 16; 16; 16; 16; 0; 0; 0; 0; 16; 16; 16; 16; 16; 0];
  [0; 0; 60; 66; 32; 88; 68; 66; 34; 26; 4; 66; 60; 0; 0; 0];
  [0; 102; 102; 0; 0; 0; 0; 0; 0; 0; 0; 0; 0; 0; 0; 0];
  [0; 0; 0; 60; 66; 74; 82; 82; 82; 74; 66; 60; 0; 0; 0; 0];
  [0; 0; 0; 48; 8; 56; 72; 72; 56; 0; 0; 0; 0; 0; 0; 0];
  [0; 0; 0; 0; 0; 0; 18; 36; 72; 36; 18; 0; 0; 0; 0; 0];
  [0; 0; 0; 0; 0; 0; 0; 60; 4; 4; 4; 0; 0; 0; 0; 0];
  [0; 0; 0; 0; 0; 0; 0; 0; 0; 0; 0; 0; 0; 0; 0; 0];
  [0; 0; 0; 60; 66; 90; 86; 90; 86; 86; 66; 60; 0; 0; 0; 0];
  [255; 0; 0; 0; 0; 0; 0; 0; 0; 0; 0; 0; 0; 0; 0; 0];
  [0; 0; 0; 56; 68; 68; 68; 56; 0; 0; 0; 0; 0; 0; 0; 0];
  [0; 0; 0; 0; 16; 16; 124; 16; 16; 0; 124; 0; 0; 0; 0; 0];
  [0; 0; 112; 8; 16; 32; 64; 120; 0; 0; 0; 0; 0; 0; 0; 0];
  [0; 0; 112; 8; 48; 8; 8; 112; 0; 0; 0; 0; 0; 0; 0; 0];
  [0; 24; 16; 32; 0; 0; 0; 0; 0; 0; 0; 0; 0; 0; 0; 0];
  [0; 0; 0; 0; 0; 36; 36; 36; 36; 36; 52; 40; 32; 32; 64; 0];
  [0; 0; 0; 62; 116; 116; 116; 52; 20; 20; 20; 20; 20; 20; 0; 0];
  [0; 0; 0; 0; 0; 0; 16; 56; 16; 0; 0; 0; 0; 0; 0; 0];
  [0; 0; 0; 0; 0; 0; 0; 0; 0; 0; 0; 8; 4; 56; 0; 0];
  [0; 0; 32; 96; 32; 32; 32; 112; 0; 0; 0; 0; 0; 0; 0; 0];
  [0; 0; 0; 48; 72; 72; 72; 72; 48; 0; 0; 0; 0; 0; 0; 0];
  [0; 0; 0; 0; 0; 0; 72; 36; 18; 36; 72; 0; 0; 0; 0; 0];
  [0; 2; 34; 100; 36; 40; 8; 16; 18; 38; 46; 66; 66; 0; 0; 0];
  [0; 2; 34; 100; 36; 40; 8; 16; 20; 42; 34; 68; 78; 0; 0; 0];
  [0; 2; 98; 36; 68; 40; 104; 16; 18; 38; 46; 66; 66; 0; 0; 0];
  [0; 0; 0; 0; 8; 8; 0; 8; 8; 48; 64; 64; 66; 60; 0; 0];
  [0; 16; 8; 0; 24; 36; 36; 36; 60; 66; 66; 66; 0; 0; 0; 0];
  [0; 8; 16; 0; 24; 36; 36; 36; 60; 66; 66; 66; 0; 0; 0; 0];
  [0; 24; 36; 0; 24; 36; 36; 36; 60; 66; 66; 66; 0; 0; 0; 0];
  [0; 26; 44; 0; 24; 36; 36; 36; 60; 66; 66; 66; 0; 0; 0; 0];
  [0; 36; 36; 0; 24; 36; 36; 36; 60; 66; 66; 66; 0; 0; 0; 0];
  [0; 24; 36; 24; 24; 36; 36; 60; 66; 66; 66; 66; 0; 0; 0; 0];
  [0; 0; 0; 14; 24; 40; 40; 78; 120; 72; 72; 78; 0; 0; 0; 0];
  [0; 0; 0; 60; 66; 64; 64; 64; 64; 64; 66; 60; 16; 16; 32; 0];
  [0; 16; 8; 0; 126; 64; 64; 124; 64; 64; 64; 126; 0; 0; 0; 0];
  [0; 8; 16; 0; 126; 64; 64; 124; 64; 64; 64; 126; 0; 0; 0; 0];
  [0; 24; 36; 0; 126; 64; 64; 124; 64; 64; 64; 126; 0; 0; 0; 0];
  [0; 36; 36; 0; 126; 64; 64; 124; 64; 64; 64; 126; 0; 0; 0; 0];
  [0; 16; 8; 0; 124; 16; 16; 16; 16; 16; 16; 124; 0; 0; 0; 0];
  [0; 8; 16; 0; 124; 16; 16; 16; 16; 16; 16; 124; 0; 0; 0; 0];
  [0; 16; 40; 0; 124; 16; 16; 16; 16; 16; 16; 124; 0; 0; 0; 0];
  [0; 36; 36; 0; 124; 16; 16; 16; 16; 16; 16; 124; 0; 0; 0; 0];
  [0; 0; 0; 0; 60; 34; 34; 114; 34; 34; 34; 60; 0; 0; 0; 0];
  [0; 26; 44; 0; 66; 98; 82; 74; 70; 66; 66; 66; 0; 0; 0; 0];
  [0; 16; 8; 0; 60; 66; 66; 66; 66; 66; 66; 60; 0; 0; 0; 0];
  [0; 8; 16; 0; 60; 66; 66; 66; 66; 66; 66; 60; 0; 0; 0; 0];
  [0; 24; 36; 0; 60; 66; 66; 66; 66; 66; 66; 60; 0; 0; 0; 0];
  [0; 26; 44; 0; 60; 66; 66; 66; 66; 66; 66; 60; 0; 0; 0; 0];
  [0; 36; 36; 0; 60; 66; 66; 66; 66; 66; 66; 60; 0; 0; 0; 0];
  [0; 0; 0; 0; 0; 0; 66; 36; 24; 36; 66; 0; 0; 0; 0; 0];
  [0; 0; 2; 60; 70; 74; 74; 82; 82; 82; 98; 60; 64; 0; 0; 0];
  [0; 16; 8; 0; 66; 66; 66; 66; 66; 66; 66; 60; 0; 0; 0; 0];
  [0; 8; 16; 0; 66; 66; 66; 66; 66; 66; 66; 60; 0; 0; 0; 0];
  [0; 24; 36; 0; 66; 66; 66; 66; 66; 66; 66; 60; 0; 0; 0; 0];
  [0; 36; 36; 0; 66; 66; 66; 66; 66; 66; 66; 60; 0; 0; 0; 0];
  [0; 8; 16; 130; 130; 130; 68; 40; 16; 16; 16; 16; 0; 0; 0; 0];
  [0; 0; 0; 0; 64; 64; 120; 68; 68; 120; 64; 64; 0; 0; 0; 0];
  [0; 0; 0; 56; 68; 68; 88; 70; 66; 66; 66; 92; 0; 0; 0; 0];
  [0; 24; 8; 4; 0; 60; 2; 2; 62; 66; 66; 62; 0; 0; 0; 0];
  [0; 12; 8; 16; 0; 60; 2; 2; 62; 66; 66; 62; 0; 0; 0; 0];
  [0; 8; 20; 34; 0; 60; 2; 2; 62; 66; 66; 62; 0; 0; 0; 0];
  [0; 26; 44; 0; 0; 60; 2; 2; 62; 66; 66; 62; 0; 0; 0; 0];
  [0; 36; 36; 0; 0; 60; 2; 2; 62; 66; 66; 62; 0; 0; 0; 0];
  [0; 8; 20; 8; 0; 60; 2; 2; 62; 66; 66; 62; 0; 0; 0; 0];
  [0; 0; 0; 0; 0; 124; 18; 18; 126; 80; 82; 44; 0; 0; 0; 0];
  [0; 0; 0; 0; 0; 60; 66; 64; 64; 64; 66; 60; 8; 8; 8; 16];
  [0; 24; 8; 4; 0; 60; 66; 66; 126; 64; 66; 60; 0; 0; 0; 0];
  [0; 12; 8; 16; 0; 60; 66; 66; 126; 64; 66; 60; 0; 0; 0; 0];
  [0; 8; 20; 34; 0; 60; 66; 66; 126; 64; 66; 60; 0; 0; 0; 0];
  [0; 36; 36; 0; 0; 60; 66; 66; 126; 64; 66; 60; 0; 0; 0; 0];
  [0; 24; 8; 4; 0; 24; 8; 8; 8; 8; 8; 28; 0; 0; 0; 0];
  [0; 12; 8; 16; 0; 24; 8; 8; 8; 8; 8; 28; 0; 0; 0; 0];
  [0; 8; 20; 34; 0; 24; 8; 8; 8; 8; 8; 28; 0; 0; 0; 0];
  [0; 36; 36; 0; 0; 24; 8; 8; 8; 8; 8; 28; 0; 0; 0; 0];
  [0; 52; 8; 20; 2; 2; 62; 66; 66; 66; 66; 60; 0; 0; 0; 0];
  [0; 26; 44; 0; 0; 124; 66; 66; 66; 66; 66; 66; 0; 0; 0; 0];
  [0; 24; 8; 4; 0; 60; 66; 66; 66; 66; 66; 60; 0; 0; 0; 0];
  [0; 12; 8; 16; 0; 60; 66; 66; 66; 66; 66; 60; 0; 0; 0; 0];
  [0; 8; 20; 34; 0; 60; 66; 66; 66; 66; 66; 60; 0; 0; 0; 0];
  [0; 26; 44; 0; 0; 60; 66; 66; 66; 66; 66; 60; 0; 0; 0; 0];
  [0; 36; 36; 0; 0; 60; 66; 66; 66; 66; 66; 60; 0; 0; 0; 0];
  [0; 0; 0; 0; 0; 16; 0; 124; 0; 16; 0; 0; 0; 0; 0; 0];
  [0; 0; 0; 0; 2; 60; 70; 74; 82; 82; 98; 60; 64; 0; 0; 0];
  [0; 24; 8; 4; 0; 66; 66; 66; 66; 66; 66; 62; 0; 0; 0; 0];
  [0; 12; 8; 16; 0; 66; 66; 66; 66; 66; 66; 62; 0; 0; 0; 0];
  [0; 8; 20; 34; 0; 66; 66; 66; 66; 66; 66; 62; 0; 0; 0; 0];
  [0; 36; 36; 0; 0; 66; 66; 66; 66; 66; 66; 62; 0; 0; 0; 0];
  [0; 12; 8; 16; 0; 66; 66; 66; 66; 66; 66; 62; 2; 2; 2; 60];
  [0; 0; 64; 64; 64; 120; 68; 68; 68; 68; 68; 120; 64; 64; 64; 0];
  [0; 0; 36; 36; 0; 66; 66; 66; 66; 66; 66; 62; 2; 2; 2; 60]].

Definition U8_FONT : list (list Z) := U8_FONT_ASCII ++ U8_FONT_HIGH.

Definition GARBLED_FONT : list Z := nth 0 U8_FONT [].

(** Every glyph is sixteen bytes. *)
Definition glyph_ok (g : list Z) : bool :=
  (Z.of_nat (length g) =? CHARACTER_HEIGHT) && forallb (in_range 8) g.

(** the table has one glyph of [CHARACTER_HEIGHT] bytes for each of the 256
    byte values, so an [ascii::Char] always has a glyph of its own. *)
Theorem font_table_ok :
  Z.of_nat (length U8_FONT) = 256 /\ Forall (fun g => glyph_ok g = true) U8_FONT.
Proof.
  split; [reflexivity|]. apply List.Forall_forall, List.forallb_forall. reflexivity.
Qed.

End Font.
