(* ===== verification/Errors.v ===== *)
(** The kernel's error types (kernel/src/error.rs and the error enums of its
    modules) and the [From] conversions [?] applies. *)

From S2P Require Import Prelude.

Module Errors.

(** kernel/src/graphic/frame_buffer.rs *)
Inductive FrameBufferError : Type :=
  | UnsupportedPixelFormatError
  | NotInitializedError
  | OutsideBufferError
  | FrameBufferLockError
  | UnsupportedCharacterError.

(** kernel/src/graphic/console.rs *)
Inductive ConsoleError : Type :=
  | UninitializedError
  | ConsoleLockError
  | LineLengthOverflow.

(** kernel/src/pci/error.rs *)
Inductive PciError : Type :=
  | DeviceCapacityError
  | PciUninitializedError
  | DeviceLockError
  | BaseAddressRegisterIndexOutOfRangeError.

(** kernel/src/error.rs *)
Inductive Error : Type :=
  | Error_FrameBufferError (err : FrameBufferError)
  | Error_ConsoleError (err : ConsoleError)
  | Error_PciError (err : PciError).

Definition from_FrameBufferError (err : FrameBufferError) : Error :=
  Error_FrameBufferError err.
Definition from_ConsoleError (err : ConsoleError) : Error := Error_ConsoleError err.
Definition from_PciError (err : PciError) : Error := Error_PciError err.

#[export] Instance FrameBufferError_eq_dec : EqDecision FrameBufferError.
Proof. solve_decision. Defined.
#[export] Instance ConsoleError_eq_dec : EqDecision ConsoleError.
Proof. solve_decision. Defined.
#[export] Instance PciError_eq_dec : EqDecision PciError.
Proof. solve_decision. Defined.
#[export] Instance Error_eq_dec : EqDecision Error.
Proof. solve_decision. Defined.

End Errors.
