(* ===== verification/FrameBuffer.v ===== *)
(** The frame buffer (kernel/src/graphic/frame_buffer.rs): its state, the
    drawing methods of [FrameBuf], and the module's functions, which take the
    lock of the global [FRAME_BUF]. *)

From S2P Require Import Prelude Machine External Graphic Font Errors.

Module FrameBuffer.
Import Graphic Font Errors.

(** * State *)

(** The field [write_pixel] of the code holds one of two functions. *)
Inductive PixelWriter : Type := write_pixel_rgb_fn | write_pixel_bgr_fn.

Record FrameBuf : Type := {
  width : Z;
  height : Z;
  bytes_per_pixel : Z;
  stride : Z;
  pixel_format : PixelFormat;
  framebuf_addr : Z;
  framebuf_size : Z;
  pixel_writer : PixelWriter
}.

(** What a method of [FrameBuf] works on: [self] and memory. *)
Record Screen : Type := mkScreen { scr_fb : FrameBuf; scr_mem : gmap Z Z }.

Definition FrameBuf_new : FrameBuf := {|
  width := 0; height := 0; bytes_per_pixel := 0; stride := 0;
  pixel_format := Bgr; framebuf_addr := 0; framebuf_size := 0;
  pixel_writer := write_pixel_bgr_fn
|}.

(** * Methods *)

Definition is_inside_buffer (self : FrameBuf) (x y : Z) : bool :=
  negb ((width self <=? x) || (height self <=? y)).

(** [*pixel_ref = v] through a raw pointer. *)
Definition write_volatile_u32 (addr v : Z) : M Screen unit :=
  modify (fun s => mkScreen (scr_fb s) (store_u32 (scr_mem s) addr v)).

Definition write_pixel_rgb (x y : Z) (pixel : Pixel) : M Screen (result unit Error) :=
  self ← gets scr_fb;
  if negb (is_inside_buffer self x y) then
    mret (Err (from_FrameBufferError OutsideBufferError))
  else
    row ← umul 64 y (width self);
    pos ← uadd 64 row x;
    offset ← umul 64 pos (bytes_per_pixel self);
    pixel_ref ← uadd 64 (framebuf_addr self) offset;
    write_volatile_u32 pixel_ref (Pixel_le pixel) ;;
    mret (Ok tt).

Definition write_pixel_bgr (x y : Z) (pixel : Pixel) : M Screen (result unit Error) :=
  self ← gets scr_fb;
  if negb (is_inside_buffer self x y) then
    mret (Err (from_FrameBufferError OutsideBufferError))
  else
    row ← umul 64 y (width self);
    pos ← uadd 64 row x;
    offset ← umul 64 pos (bytes_per_pixel self);
    pixel_ref ← uadd 64 (framebuf_addr self) offset;
    let pixel := Pixel_bgr pixel in
    write_volatile_u32 pixel_ref (Pixel_le pixel) ;;
    mret (Ok tt).

Definition FrameBuf_write_pixel (x y : Z) (pixel : Pixel) :
    M Screen (result unit Error) :=
  self ← gets scr_fb;
  match pixel_writer self with
  | write_pixel_rgb_fn => write_pixel_rgb x y pixel
  | write_pixel_bgr_fn => write_pixel_bgr x y pixel
  end.

Definition FrameBuf_fill (color : RgbColor) : M Screen (result unit Error) :=
  self ← gets scr_fb;
  try_for_each (range 0 (width self)) (fun x =>
    self ← gets scr_fb;
    try_for_each (range 0 (height self)) (fun y =>
      FrameBuf_write_pixel x y (Pixel_from_RgbColor color))).

Definition FrameBuf_init (graphic_info : GraphicInfo) (bg_color : RgbColor) :
    M Screen (result unit Error) :=
  modify (fun s => mkScreen {|
    width := gi_width graphic_info;
    height := gi_height graphic_info;
    bytes_per_pixel := gi_bytes_per_pixel graphic_info;
    stride := gi_stride graphic_info;
    pixel_format := gi_pixel_format graphic_info;
    framebuf_addr := gi_frame_buffer_addr graphic_info;
    framebuf_size := gi_size graphic_info;
    pixel_writer := match gi_pixel_format graphic_info with
                    | Rgb => write_pixel_rgb_fn
                    | Bgr => write_pixel_bgr_fn
                    end |} (scr_mem s)) ;;
  FrameBuf_fill bg_color ;?
  mret (Ok tt).

Definition FrameBuf_fill_rect (x y width height : Z) (color : RgbColor) :
    M Screen (result unit Error) :=
  x_end ← uadd 64 x width;
  try_for_each (range x x_end) (fun x_inner =>
    y_end ← uadd 64 y height;
    try_for_each (range y y_end) (fun y_inner =>
      FrameBuf_write_pixel x_inner y_inner (Pixel_from_RgbColor color))) ;?
  mret (Ok tt).

Definition FrameBuf_draw_rect (x y width height : Z) (color : RgbColor) :
    M Screen (result unit Error) :=
  x_end ← uadd 64 x width;
  try_for_each (range x x_end) (fun x_inner =>
    FrameBuf_write_pixel x_inner y (Pixel_from_RgbColor color) ;?
    y_end ← uadd 64 y height;
    y_last ← usub 64 y_end 1;
    FrameBuf_write_pixel x_inner y_last (Pixel_from_RgbColor color)) ;?
  y_end ← uadd 64 y height;
  try_for_each (range y y_end) (fun y_inner =>
    FrameBuf_write_pixel x y_inner (Pixel_from_RgbColor color) ;?
    x_end ← uadd 64 x width;
    x_last ← usub 64 x_end 1;
    FrameBuf_write_pixel x_last y_inner (Pixel_from_RgbColor color)) ;?
  mret (Ok tt).

(** The glyph of a character: [U8_FONT[c]], or the garbled one. *)
Definition glyph_of (ascii : Z) : list Z :=
  let glyph_index := ascii in
  if Z.of_nat (length U8_FONT) <=? glyph_index then GARBLED_FONT
  else nth (Z.to_nat glyph_index) U8_FONT [].

Definition FrameBuf_write_char (x y : Z) (ascii : Z) (fg : RgbColor) :
    M Screen (result unit Error) :=
  let glyph := glyph_of ascii in
  try_for_each (enumerate glyph) (fun '(dy, row) =>
    try_for_each (range 0 CHARACTER_WIDTH) (fun dx =>
      sh ← usub 64 7 dx;
      if Z.land (ushr row sh) 1 =? 1 then
        px ← uadd 64 x dx;
        py ← uadd 64 y dy;
        FrameBuf_write_pixel px py (Pixel_from_RgbColor fg)
      else mret (Ok tt))) ;?
  mret (Ok tt).

Definition FrameBuf_write_string (x y : Z) (data : list Z) (fg : RgbColor) :
    M Screen (result unit Error) :=
  match as_ascii data with
  | None => panic (UnwrapFailed "non ascii string is given.")
  | Some chars =>
      try_for_each (enumerate chars) (fun '(i, c) =>
        col ← umul 64 i CHARACTER_WIDTH;
        col ← umul 64 col 2;
        px ← uadd 64 x col;
        FrameBuf_write_char px y c fg) ;?
      mret (Ok tt)
  end.

(** * The module's functions, on the locked global *)

Section global.
Context {mutex : Type -> Type} `{SpinMutex mutex}.

Record FbState : Type := mkFbState {
  FRAME_BUF : mutex FrameBuf;
  fb_mem : gmap Z Z
}.

Definition set_FRAME_BUF (m : mutex FrameBuf) (g : FbState) : FbState :=
  mkFbState m (fb_mem g).

(** The guard dereferences to the [FrameBuf]; memory is shared. *)
Definition on_screen {A} (m : M Screen A) : M (FrameBuf * FbState) A :=
  zoom (fun p => mkScreen p.1 (fb_mem p.2))
       (fun s p => (scr_fb s, mkFbState (FRAME_BUF p.2) (scr_mem s))) m.

(** [frame_buf()?.method(..)?; Ok(())]: the guard lives for the statement. *)
Definition frame_buf {A} (m : M Screen (result A Error)) : M FbState (result A Error) :=
  with_try_lock FRAME_BUF set_FRAME_BUF (from_FrameBufferError FrameBufferLockError)
    (on_screen m).

Definition write_pixel (x y : Z) (pixel : Pixel) : M FbState (result unit Error) :=
  frame_buf (FrameBuf_write_pixel x y pixel).
Definition write_char (x y c : Z) (fg : RgbColor) : M FbState (result unit Error) :=
  frame_buf (FrameBuf_write_char x y c fg).
Definition fill (color : RgbColor) : M FbState (result unit Error) :=
  frame_buf (FrameBuf_fill color).
Definition fill_rect (x y width height : Z) (color : RgbColor) :
    M FbState (result unit Error) :=
  frame_buf (FrameBuf_fill_rect x y width height color).
Definition draw_rect (x y width height : Z) (color : RgbColor) :
    M FbState (result unit Error) :=
  frame_buf (FrameBuf_draw_rect x y width height color).
Definition get_width : M FbState (result Z Error) :=
  frame_buf (gets (fun s => Ok (width (scr_fb s)))).
Definition get_height : M FbState (result Z Error) :=
  frame_buf (gets (fun s => Ok (height (scr_fb s)))).
End global.
Arguments FbState : clear implicits.

(** * Abstract view: a screen is a function from coordinates to words *)

(** A frame buffer whose pixels are distinct words inside the address space. *)
Record fb_wf (fb : FrameBuf) : Prop := {
  wf_bpp : bytes_per_pixel fb = 4;
  wf_width : 0 <= width fb < 2 ^ 64;
  wf_height : 0 <= height fb < 2 ^ 64;
  wf_addr : 0 <= framebuf_addr fb;
  wf_fits : framebuf_addr fb + 4 * (width fb * height fb) < 2 ^ 64
}.

Definition inside (fb : FrameBuf) (x y : Z) : Prop :=
  0 <= x < width fb /\ 0 <= y < height fb.

Definition pixel_addr (fb : FrameBuf) (x y : Z) : Z :=
  framebuf_addr fb + (y * width fb + x) * bytes_per_pixel fb.

(** The word a pixel is stored as, by the format of the frame buffer. *)
Definition encode (fb : FrameBuf) (p : Pixel) : Z :=
  match pixel_writer fb with
  | write_pixel_rgb_fn => Pixel_le p
  | write_pixel_bgr_fn => Pixel_le (Pixel_bgr p)
  end.

Definition color_word (fb : FrameBuf) (c : RgbColor) : Z :=
  encode fb (Pixel_from_RgbColor c).

Definition pixel_at (s : Screen) (x y : Z) : option Z :=
  load_u32 (scr_mem s) (pixel_addr (scr_fb s) x y).

(** [painted s s' P v]: [s'] is [s] with the word [v] at the pixels of [P], and
    no byte outside the frame buffer changed. *)
Record painted (s s' : Screen) (P : Z -> Z -> bool) (v : Z) : Prop := {
  painted_fb : scr_fb s' = scr_fb s;
  painted_pixels x y : inside (scr_fb s) x y ->
    pixel_at s' x y = if P x y then Some v else pixel_at s x y;
  painted_frame a :
    ~ framebuf_addr (scr_fb s) <= a <
        framebuf_addr (scr_fb s) + 4 * (width (scr_fb s) * height (scr_fb s)) ->
    scr_mem s' !! a = scr_mem s !! a
}.

Definition in_rect (x y w h : Z) (x' y' : Z) : bool :=
  (x <=? x') && (x' <? x + w) && (y <=? y') && (y' <? y + h).

(** The pixel [(dx, dy)] of a glyph is set. *)
Definition glyph_bit (c dx dy : Z) : bool :=
  Z.testbit (nth (Z.to_nat dy) (glyph_of c) 0) (7 - dx).

Definition in_glyph (x y c : Z) (x' y' : Z) : bool :=
  in_rect x y CHARACTER_WIDTH CHARACTER_HEIGHT x' y' && glyph_bit c (x' - x) (y' - y).

(** * Lemmas *)

Lemma encode_range fb p : 0 <= encode fb p < 2 ^ 32.
Proof. unfold encode. destruct (pixel_writer fb); apply Pixel_le_range. Qed.

Lemma is_inside_true fb x y : inside fb x y -> is_inside_buffer fb x y = true.
Proof. unfold inside, is_inside_buffer. lia. Qed.

Lemma is_inside_false fb x y :
  width fb <= x \/ height fb <= y -> is_inside_buffer fb x y = false.
Proof. unfold is_inside_buffer. lia. Qed.

(** The linear index of a pixel. *)
Lemma pixel_index_bounds w h x y : 0 <= x < w -> 0 <= y < h ->
  0 <= y * w + x < w * h.
Proof. nia. Qed.

Lemma pixel_index_inj w x y x' y' : 0 <= x < w -> 0 <= x' < w ->
  y * w + x = y' * w + x' -> x = x' /\ y = y'.
Proof.
  intros Hx Hx' E. assert (y = y').
  { transitivity ((y * w + x) / w); [apply (Z.div_unique_pos _ w y x); lia|].
    symmetry. apply (Z.div_unique_pos _ w y' x'); lia. }
  subst. lia.
Qed.

Lemma pixel_addr_disjoint fb x y x' y' :
  fb_wf fb -> inside fb x y -> inside fb x' y' -> ~ (x' = x /\ y' = y) ->
  pixel_addr fb x y + 4 <= pixel_addr fb x' y' \/
  pixel_addr fb x' y' + 4 <= pixel_addr fb x y.
Proof.
  intros Hwf [Hx Hy] [Hx' Hy'] Hne. unfold pixel_addr. rewrite (wf_bpp _ Hwf).
  destruct (decide (y * width fb + x = y' * width fb + x')) as [E|E]; [|lia].
  apply pixel_index_inj in E; lia.
Qed.

Lemma pixel_addr_bounds fb x y : fb_wf fb -> inside fb x y ->
  framebuf_addr fb <= pixel_addr fb x y /\
  pixel_addr fb x y + 4 <= framebuf_addr fb + 4 * (width fb * height fb).
Proof.
  intros Hwf [Hx Hy]. unfold pixel_addr. rewrite (wf_bpp _ Hwf).
  pose proof (pixel_index_bounds _ _ _ _ Hx Hy). lia.
Qed.

Lemma write_pixel_inside x y p s :
  fb_wf (scr_fb s) -> inside (scr_fb s) x y ->
  FrameBuf_write_pixel x y p s =
    Ret (Ok tt) (mkScreen (scr_fb s)
      (store_u32 (scr_mem s) (pixel_addr (scr_fb s) x y) (encode (scr_fb s) p))).
Proof.
  intros Hwf Hin. pose proof (pixel_addr_bounds _ _ _ Hwf Hin) as Ha.
  unfold FrameBuf_write_pixel, encode, pixel_addr in *.
  pose proof (is_inside_true _ _ _ Hin) as Hins.
  destruct Hin as [Hx Hy]. pose proof (pixel_index_bounds _ _ _ _ Hx Hy).
  pose proof (wf_addr _ Hwf). pose proof (wf_fits _ Hwf).
  assert (0 <= y * width (scr_fb s)) by nia. rewrite (wf_bpp _ Hwf) in *.
  run_checked.
  destruct (pixel_writer (scr_fb s)); unfold write_pixel_rgb, write_pixel_bgr;
    run_checked; rewrite Hins; change (negb true) with false; cbv iota;
    do 4 (run_checked; rewrite ?(wf_bpp _ Hwf); [|lia]); reflexivity.
Qed.

Lemma write_pixel_outside x y p s :
  width (scr_fb s) <= x \/ height (scr_fb s) <= y ->
  FrameBuf_write_pixel x y p s =
    Ret (Err (from_FrameBufferError OutsideBufferError)) s.
Proof.
  intros Hout. pose proof (is_inside_false _ _ _ Hout) as E.
  unfold FrameBuf_write_pixel, mbind, M_bind, gets.
  destruct (pixel_writer (scr_fb s)); unfold write_pixel_rgb, write_pixel_bgr,
    mbind, M_bind, gets; by rewrite E.
Qed.

Lemma painted_refl s v : painted s s (fun _ _ => false) v.
Proof. by split. Qed.

Lemma painted_ext s s' P P' v :
  (forall x y, inside (scr_fb s) x y -> P x y = P' x y) ->
  painted s s' P v -> painted s s' P' v.
Proof.
  intros HP [Hfb Hpx Hfr]. split; [done| |done].
  intros x y Hin. by rewrite Hpx, HP.
Qed.

(** One more pixel. *)
Lemma painted_write s0 s P v x y p :
  fb_wf (scr_fb s0) -> inside (scr_fb s0) x y -> v = encode (scr_fb s0) p ->
  painted s0 s P v ->
  wp (FrameBuf_write_pixel x y p)
    (fun r s' => r = Ok tt /\
       painted s0 s' (fun x' y' => P x' y' || ((x' =? x) && (y' =? y))) v) s.
Proof.
  intros Hwf Hin -> [Hfb Hpx Hfr]. eapply wp_eq.
  { apply write_pixel_inside; by rewrite Hfb. }
  split; [done|]. rewrite Hfb. split; simpl; [done| |].
  - intros x' y' Hin'. rewrite <- (orb_comm (_ && _)).
    destruct ((x' =? x) && (y' =? y)) eqn:E; simpl.
    + replace x' with x by lia. replace y' with y by lia.
      unfold pixel_at. simpl. rewrite load_store_u32.
      f_equal. apply as_u_small, encode_range.
    + rewrite <- (Hpx x' y' Hin'). unfold pixel_at. simpl. rewrite Hfb.
      apply load_store_u32_ne. apply pixel_addr_disjoint; auto. lia.
  - intros a Ha. pose proof (pixel_addr_bounds _ _ _ Hwf Hin).
    rewrite lookup_store_u32. case_decide; [lia|]. by apply Hfr.
Qed.

(** Two descriptions of the painted pixels agree. *)
Ltac paint_cases :=
  unfold in_rect, CHARACTER_WIDTH, CHARACTER_HEIGHT in *;
  repeat match goal with
  | |- context [glyph_bit ?c ?a ?b] => destruct (glyph_bit c a b); simpl
  | |- context [?P ?a ?b] => is_var P; destruct (P a b); simpl
  end; first [reflexivity | lia].

Ltac painted_by H := eapply painted_ext; [|exact H]; intros ? ? [? ?]; paint_cases.

(** A column of pixels, then a rectangle. *)
Lemma painted_column s0 s P v x y h c :
  fb_wf (scr_fb s0) -> 0 <= x < width (scr_fb s0) -> 0 <= y -> 0 <= h ->
  y + h <= height (scr_fb s0) -> v = color_word (scr_fb s0) c ->
  painted s0 s P v ->
  wp (try_for_each (range y (y + h)) (fun y_inner =>
        FrameBuf_write_pixel x y_inner (Pixel_from_RgbColor c)))
    (fun r s' => r = Ok tt /\
       painted s0 s' (fun x' y' => P x' y' || in_rect x y 1 h x' y') v) s.
Proof.
  intros Hwf Hx Hy Hh Hyh Hv HP.
  apply (wp_try_for_range _ (fun j s => painted s0 s
    (fun x' y' => P x' y' || in_rect x y 1 (j - y) x' y') v)); [lia| | |].
  - painted_by HP.
  - intros j s' Hj HPj. eapply wp_mono.
    { eapply (painted_write s0); [done| |exact Hv|exact HPj]. split; lia. }
    intros r s'' [-> HP']. split; [done|].
    painted_by HP'.
  - intros s' HPj. split; [done|].
    painted_by HPj.
Qed.

Lemma painted_rect s0 s P v x y w h c :
  fb_wf (scr_fb s0) -> 0 <= x -> 0 <= y -> 0 <= w -> 0 <= h ->
  x + w <= width (scr_fb s0) -> y + h <= height (scr_fb s0) ->
  v = color_word (scr_fb s0) c -> painted s0 s P v ->
  wp (FrameBuf_fill_rect x y w h c)
    (fun r s' => r = Ok tt /\
       painted s0 s' (fun x' y' => P x' y' || in_rect x y w h x' y') v) s.
Proof.
  intros Hwf Hx Hy Hw Hh Hxw Hyh Hv HP.
  pose proof (wf_width _ Hwf). pose proof (wf_height _ Hwf).
  unfold FrameBuf_fill_rect. wp_steps; [lia|].
  apply (wp_try_for_range _ (fun i s => painted s0 s
    (fun x' y' => P x' y' || in_rect x y (i - x) h x' y') v)); [lia| | |].
  - painted_by HP.
  - intros i s' Hi HPi. wp_steps; [lia|].
    eapply wp_mono; [eapply (painted_column s0); [..|exact Hv|exact HPi]; (done || lia)|].
    intros r s'' [-> HP']. split; [done|].
    painted_by HP'.
  - intros s' HPi. wp_steps. split; [done|].
    painted_by HPi.
Qed.

Lemma painted_fill s0 s P v c :
  fb_wf (scr_fb s0) -> v = color_word (scr_fb s0) c -> painted s0 s P v ->
  wp (FrameBuf_fill c)
    (fun r s' => r = Ok tt /\ painted s0 s' (fun _ _ => true) v) s.
Proof.
  intros Hwf Hv HP. pose proof (wf_width _ Hwf). pose proof (wf_height _ Hwf).
  pose proof (painted_fb _ _ _ _ HP) as Hfb.
  unfold FrameBuf_fill. wp_steps. rewrite Hfb.
  apply (wp_try_for_range _ (fun i s => painted s0 s
    (fun x' y' => P x' y' || in_rect 0 0 i (height (scr_fb s0)) x' y') v)); [lia| | |].
  - painted_by HP.
  - intros i s' Hi HPi. wp_steps. rewrite (painted_fb _ _ _ _ HPi).
    eapply wp_mono.
    { eapply (painted_column s0 _ _ _ i 0 (height (scr_fb s0)));
        [..|exact Hv|exact HPi]; (done || lia). }
    intros r s'' [-> HP']. split; [done|].
    painted_by HP'.
  - intros s' HPi. split; [done|].
    painted_by HPi.
Qed.

(** ** Glyphs *)

Lemma glyph_of_length c : Z.of_nat (length (glyph_of c)) = CHARACTER_HEIGHT.
Proof.
  assert (Hall : Forall (fun g => Z.of_nat (length g) = CHARACTER_HEIGHT) U8_FONT).
  { apply List.Forall_forall. intros g Hg.
    assert (forallb (fun g => Z.of_nat (length g) =? CHARACTER_HEIGHT) U8_FONT = true)
      as Hb by reflexivity.
    rewrite List.forallb_forall in Hb. apply Z.eqb_eq. by apply Hb. }
  unfold glyph_of. case_match; [reflexivity|].
  rewrite List.Forall_forall in Hall. apply Hall.
  destruct (decide (Z.to_nat c < length U8_FONT)%nat) as [Hlt|Hge].
  - by apply nth_In.
  - destruct (decide (c < 0)) as [Hneg|Hneg]; [|lia].
    replace (Z.to_nat c) with 0%nat by lia. apply nth_In. apply Nat.ltb_lt. reflexivity.
Qed.

Lemma row_bit row dx : 0 <= dx < 8 ->
  (Z.land (ushr row (7 - dx)) 1 =? 1) = Z.testbit row (7 - dx).
Proof.
  intros Hdx. change 1 with (Z.ones 1) at 1. rewrite Z.land_ones by lia.
  change (2 ^ 1) with 2. rewrite <- Z.bit0_mod. unfold ushr.
  rewrite Z.shiftr_spec, Z.add_0_l by lia. by destruct (Z.testbit row (7 - dx)).
Qed.

(** The pixels of a glyph above row [dy], and those of row [dy] left of [dx]. *)
Definition glyph_rows (x y c dy : Z) (x' y' : Z) : bool :=
  in_rect x y CHARACTER_WIDTH dy x' y' && glyph_bit c (x' - x) (y' - y).

(** The next pixel of a row, set or clear. *)
Lemma glyph_step s0 s P P0 v x y c dx dy :
  (forall x' y', P0 x' y' = P x' y' || glyph_rows x y c dy x' y' ||
     (in_rect x (y + dy) dx 1 x' y' && glyph_bit c (x' - x) (y' - y)) ||
     ((x' =? x + dx) && (y' =? y + dy) && glyph_bit c dx dy)) ->
  0 <= dx < 8 -> painted s0 s P0 v ->
  painted s0 s (fun x' y' => P x' y' || glyph_rows x y c dy x' y' ||
     (in_rect x (y + dy) (dx + 1) 1 x' y' && glyph_bit c (x' - x) (y' - y))) v.
Proof.
  intros HP0 Hdx HP. eapply painted_ext; [|exact HP]. intros x' y' _. rewrite HP0.
  unfold glyph_rows.
  destruct (decide (x' = x + dx /\ y' = y + dy)) as [[-> ->]|Hne].
  - replace (x + dx - x) with dx by lia. replace (y + dy - y) with dy by lia.
    paint_cases.
  - replace ((x' =? x + dx) && (y' =? y + dy)) with false by lia. paint_cases.
Qed.

Lemma painted_write_char s0 s P v x y c fg :
  fb_wf (scr_fb s0) -> 0 <= x -> 0 <= y ->
  x + CHARACTER_WIDTH <= width (scr_fb s0) ->
  y + CHARACTER_HEIGHT <= height (scr_fb s0) ->
  v = color_word (scr_fb s0) fg -> painted s0 s P v ->
  wp (FrameBuf_write_char x y c fg)
    (fun r s' => r = Ok tt /\
       painted s0 s' (fun x' y' => P x' y' || in_glyph x y c x' y') v) s.
Proof.
  intros Hwf Hx Hy Hxw Hyh Hv HP. unfold CHARACTER_WIDTH, CHARACTER_HEIGHT in *.
  pose proof (wf_width _ Hwf). pose proof (wf_height _ Hwf).
  unfold FrameBuf_write_char. wp_steps.
  apply (wp_try_for_enumerate _ _ (fun dy s => painted s0 s
    (fun x' y' => P x' y' || glyph_rows x y c dy x' y') v)).
  - unfold glyph_rows. painted_by HP.
  - intros dy row s1 Hdy Hrow HP1.
    assert (Hdy' : dy < 16).
    { apply lookup_lt_Some in Hrow. pose proof (glyph_of_length c) as Hl.
      unfold CHARACTER_HEIGHT in Hl. lia. }
    apply (wp_try_for_range _ (fun dx s => painted s0 s
      (fun x' y' => P x' y' || glyph_rows x y c dy x' y' ||
         (in_rect x (y + dy) dx 1 x' y' && glyph_bit c (x' - x) (y' - y))) v));
      [done| | |].
    + unfold glyph_rows in *. painted_by HP1.
    + intros dx s2 Hdx HP2. unfold CHARACTER_WIDTH in Hdx. wp_steps; [lia|].
      rewrite row_bit by lia.
      assert (Hbit : glyph_bit c dx dy = Z.testbit row (7 - dx)).
      { unfold glyph_bit. f_equal. by apply nth_lookup_Some. }
      destruct (Z.testbit row (7 - dx)) eqn:Eb.
      * wp_steps; [lia..|]. eapply wp_mono.
        { eapply (painted_write s0); [done| |exact Hv|exact HP2]. split; lia. }
        intros r s3 [-> HP3]. split; [done|].
        eapply glyph_step; [|lia|exact HP3]. intros x' y'. simpl.
        by rewrite Hbit, andb_true_r.
      * wp_steps. split; [done|].
        eapply glyph_step; [|lia|exact HP2]. intros x' y'. simpl.
        by rewrite Hbit, andb_false_r, orb_false_r.
    + intros s2 HP2. split; [done|]. unfold glyph_rows in *. painted_by HP2.
  - intros s1 HP1. wp_steps. split; [done|]. rewrite glyph_of_length in HP1.
    exact HP1.
Qed.

(** * Properties *)

(** C27: writing a pixel whose column and row are below the frame buffer's width and
    height changes that pixel to the encoded colour and nothing else; for any other
    it is an [OutsideBufferError] that changes nothing. *)
Theorem write_pixel_spec s x y p :
  fb_wf (scr_fb s) -> 0 <= x -> 0 <= y ->
  (x < width (scr_fb s) /\ y < height (scr_fb s) ->
    exists s', FrameBuf_write_pixel x y p s = Ret (Ok tt) s' /\
      painted s s' (fun x' y' => (x' =? x) && (y' =? y)) (encode (scr_fb s) p)) /\
  (width (scr_fb s) <= x \/ height (scr_fb s) <= y ->
    FrameBuf_write_pixel x y p s =
      Ret (Err (Error_FrameBufferError OutsideBufferError)) s).
Proof.
  intros Hwf Hx Hy. split; [intros [Hxw Hyh]|apply write_pixel_outside].
  destruct (proj1 (wp_returns _ _ _) (painted_write s s _ _ x y p Hwf
    ltac:(unfold inside; lia) eq_refl (painted_refl s _))) as (r & s' & Er & -> & HP).
  exists s'. split; [exact Er|]. painted_by HP.
Qed.

(** A 16x32 BGR frame buffer, for the witnesses. *)
Definition small_fb : FrameBuf := {|
  width := 16; height := 32; bytes_per_pixel := 4; stride := 16; pixel_format := Bgr;
  framebuf_addr := 0x80000000; framebuf_size := 2048;
  pixel_writer := write_pixel_bgr_fn
|}.
Definition small_screen : Screen := mkScreen small_fb ∅.

Lemma small_fb_wf : fb_wf small_fb.
Proof. split; simpl; lia. Qed.

Lemma write_pixel_spec_witness :
  exists s', FrameBuf_write_pixel 1 1 0xfbf1c700 small_screen = Ret (Ok tt) s' /\
    pixel_at s' 1 1 = Some 0xfbf1c7 /\
    FrameBuf_write_pixel 16 1 0xfbf1c700 small_screen =
      Ret (Err (Error_FrameBufferError OutsideBufferError)) small_screen.
Proof.
  destruct (write_pixel_spec small_screen 1 1 0xfbf1c700 small_fb_wf
    ltac:(done) ltac:(done)) as [Hin _].
  destruct (write_pixel_spec small_screen 16 1 0xfbf1c700 small_fb_wf
    ltac:(done) ltac:(done)) as [_ Hout].
  destruct (Hin ltac:(simpl; lia)) as (s' & E & HP).
  exists s'. split; [exact E|]. split; [|apply Hout; simpl; lia].
  rewrite (painted_pixels _ _ _ _ HP); [done|]. unfold inside; simpl; lia.
Defined.

(** C24: a rectangle inside the frame buffer is filled: it and only it takes the
    colour. *)
Theorem fill_rect_spec s x y w h c :
  fb_wf (scr_fb s) -> 0 <= x -> 0 <= y -> 0 <= w -> 0 <= h ->
  x + w <= width (scr_fb s) -> y + h <= height (scr_fb s) ->
  exists s', FrameBuf_fill_rect x y w h c s = Ret (Ok tt) s' /\
    painted s s' (in_rect x y w h) (color_word (scr_fb s) c).
Proof.
  intros Hwf Hx Hy Hw Hh Hxw Hyh.
  destruct (proj1 (wp_returns _ _ _) (painted_rect s s _ _ x y w h c Hwf Hx Hy Hw Hh
    Hxw Hyh eq_refl (painted_refl s _))) as (r & s' & Er & -> & HP).
  exists s'. split; [exact Er|]. painted_by HP.
Qed.

Lemma fill_rect_spec_witness :
  exists s', FrameBuf_fill_rect 0 0 2 2 0x28282800 small_screen = Ret (Ok tt) s' /\
    pixel_at s' 1 0 = Some 0x282828.
Proof.
  destruct (fill_rect_spec small_screen 0 0 2 2 0x28282800 small_fb_wf) as (s' & E & HP);
    [simpl; lia..|].
  exists s'. split; [exact E|]. rewrite (painted_pixels _ _ _ _ HP); [done|].
  unfold inside; simpl; lia.
Defined.

(** A column that leaves the frame buffer stops at its first outside pixel. *)
Lemma column_outside s0 s P v x y h c :
  fb_wf (scr_fb s0) -> 0 <= x -> 0 <= y -> 0 < h ->
  v = color_word (scr_fb s0) c -> painted s0 s P v ->
  (forall x' y', P x' y' = true -> x' < x) ->
  wp (try_for_each (range y (y + h)) (fun y_inner =>
        FrameBuf_write_pixel x y_inner (Pixel_from_RgbColor c)))
    (fun r s' => exists P', painted s0 s' P' v /\
       (forall x' y', P' x' y' = true ->
          P x' y' = true \/ in_rect x y 1 h x' y' = true) /\
       match r with
       | Ok _ => x < width (scr_fb s0) /\ y + h <= height (scr_fb s0)
       | Err e => e = Error_FrameBufferError OutsideBufferError /\
           (width (scr_fb s0) <= x \/ height (scr_fb s0) < y + h)
       end) s.
Proof.
  intros Hwf Hx Hy Hh Hv HP HPx.
  apply (wp_try_for_range_gen _ (fun j s => (exists P', painted s0 s P' v /\
    (forall x' y', P' x' y' = true -> P x' y' = true \/ in_rect x y 1 h x' y' = true)) /\
    (j = y \/ x < width (scr_fb s0) /\ j <= height (scr_fb s0)))); [lia| | |].
  - split; [|lia]. exists P. auto.
  - intros j s' Hj [(P' & HP' & Hsub) Hside].
    destruct (is_inside_buffer (scr_fb s0) x j) eqn:E; unfold is_inside_buffer in E.
    + eapply wp_mono.
      { eapply (painted_write s0); [done| |exact Hv|exact HP']. split; lia. }
      intros r s'' [-> HP'']. split; [|lia]. eexists. split; [exact HP''|].
      intros x' y' H. apply orb_true_iff in H as [H|H]; [by apply Hsub|].
      right. unfold in_rect. lia.
    + eapply wp_eq; [apply write_pixel_outside|].
      { rewrite (painted_fb _ _ _ _ HP'). lia. }
      exists P'. split; [done|]. split; [done|]. split; [done|]. lia.
  - intros s' [(P' & HP' & Hsub) Hside]. exists P'. split; [done|]. split; [done|]. lia.
Qed.

(** a rectangle that leaves the frame buffer is an [OutsideBufferError], and
    whatever was drawn before it lies inside the rectangle. *)
Theorem fill_rect_outside s x y w h c :
  fb_wf (scr_fb s) -> 0 <= x -> 0 <= y -> 0 < w -> 0 < h ->
  x + w < 2 ^ 64 -> y + h < 2 ^ 64 ->
  width (scr_fb s) < x + w \/ height (scr_fb s) < y + h ->
  exists s' P,
    FrameBuf_fill_rect x y w h c s =
      Ret (Err (Error_FrameBufferError OutsideBufferError)) s' /\
    painted s s' P (color_word (scr_fb s) c) /\
    forall x' y', P x' y' = true -> in_rect x y w h x' y' = true.
Proof.
  intros Hwf Hx Hy Hw Hh Hxw Hyh Hout. set (v := color_word (scr_fb s) c).
  assert (H : wp (FrameBuf_fill_rect x y w h c) (fun r s' =>
    r = Err (Error_FrameBufferError OutsideBufferError) /\
    exists P, painted s s' P v /\
      forall x' y', P x' y' = true -> in_rect x y w h x' y' = true) s).
  { unfold FrameBuf_fill_rect. wp_steps; [lia|].
    apply (wp_try_for_range_gen _ (fun i s1 => (exists P, painted s s1 P v /\
      (forall x' y', P x' y' = true ->
         in_rect x y w h x' y' = true /\ x' < i)) /\
      (i = x \/ i <= width (scr_fb s) /\ y + h <= height (scr_fb s)))); [lia| | |].
    - split; [|lia]. exists (fun _ _ => false). split; [apply painted_refl|done].
    - intros i s1 Hi [(P & HP & Hsub) Hside]. wp_steps; [lia|].
      eapply wp_mono.
      { eapply (column_outside s s1 P v i y h c); auto; try lia.
        intros x' y' HPx. by apply Hsub in HPx as [_ ?]. }
      intros [[]|e] s2 (P' & HP' & Hsub' & Hr).
      + split; [|lia]. exists P'. split; [done|]. intros x' y' H.
        apply Hsub' in H as [H|H]; [|unfold in_rect in *; lia].
        apply Hsub in H as [? ?]. split; [done|lia].
      + destruct Hr as [-> Hr]. split; [done|]. exists P'. split; [done|].
        intros x' y' H. apply Hsub' in H as [H|H]; [by apply Hsub in H as [? _]|].
        unfold in_rect in *. lia.
    - intros s1 [_ Hside]. lia. }
  apply wp_returns in H as (r & s' & E & -> & P & HP & Hsub). eauto 10.
Qed.

Lemma fill_rect_outside_witness :
  exists s' P, FrameBuf_fill_rect 0 0 17 1 0x28282800 small_screen =
      Ret (Err (Error_FrameBufferError OutsideBufferError)) s' /\
    painted small_screen s' P (color_word small_fb 0x28282800) /\
    forall x' y', P x' y' = true -> in_rect 0 0 17 1 x' y' = true.
Proof.
  apply (fill_rect_outside small_screen 0 0 17 1 0x28282800 small_fb_wf);
    simpl; lia.
Defined.

(** C26: a character is drawn as its glyph: the pixels of the set bits, and only
    they, take the foreground colour. *)
Theorem write_char_spec s x y c fg :
  fb_wf (scr_fb s) -> 0 <= x -> 0 <= y ->
  x + CHARACTER_WIDTH <= width (scr_fb s) ->
  y + CHARACTER_HEIGHT <= height (scr_fb s) ->
  exists s', FrameBuf_write_char x y c fg s = Ret (Ok tt) s' /\
    painted s s' (in_glyph x y c) (color_word (scr_fb s) fg).
Proof.
  intros Hwf Hx Hy Hxw Hyh.
  destruct (proj1 (wp_returns _ _ _) (painted_write_char s s _ _ x y c fg Hwf Hx Hy
    Hxw Hyh eq_refl (painted_refl s _))) as (r & s' & Er & -> & HP).
  exists s'. split; [exact Er|]. exact HP.
Qed.

(** The letter A of the font has its apex at column 3 of row 3. *)
Lemma write_char_spec_witness :
  glyph_bit 65 3 3 = true /\
  exists s', FrameBuf_write_char 4 0 65 0xebdbb200 small_screen = Ret (Ok tt) s' /\
    pixel_at s' 7 3 = Some 0xebdbb2.
Proof.
  assert (Hbit : glyph_bit 65 3 3 = true) by reflexivity. split; [done|].
  destruct (write_char_spec small_screen 4 0 65 0xebdbb200 small_fb_wf) as (s' & E & HP);
    [unfold CHARACTER_WIDTH, CHARACTER_HEIGHT; simpl; lia..|].
  exists s'. split; [exact E|]. rewrite (painted_pixels _ _ _ _ HP).
  - unfold in_glyph. change (glyph_bit 65 (7 - 4) (3 - 0)) with (glyph_bit 65 3 3).
    rewrite Hbit. reflexivity.
  - unfold inside; simpl; lia.
Defined.

(** Graphics information that describes a frame buffer inside the address space. *)
Record gi_ok (gi : GraphicInfo) : Prop := {
  gi_bpp : gi_bytes_per_pixel gi = 4;
  gi_w : 0 <= gi_width gi < 2 ^ 64;
  gi_h : 0 <= gi_height gi < 2 ^ 64;
  gi_addr : 0 <= gi_frame_buffer_addr gi;
  gi_fits : gi_frame_buffer_addr gi + 4 * (gi_width gi * gi_height gi) < 2 ^ 64
}.

(** The frame buffer that the graphics information describes. *)
Definition buffer_of (gi : GraphicInfo) : FrameBuf := {|
  width := gi_width gi; height := gi_height gi; bytes_per_pixel := gi_bytes_per_pixel gi;
  stride := gi_stride gi; pixel_format := gi_pixel_format gi;
  framebuf_addr := gi_frame_buffer_addr gi; framebuf_size := gi_size gi;
  pixel_writer := if decide (gi_pixel_format gi = Rgb) then write_pixel_rgb_fn
                  else write_pixel_bgr_fn
|}.

Lemma buffer_of_wf gi : gi_ok gi -> fb_wf (buffer_of gi).
Proof. intros [? ? ? ? ?]. by split. Qed.

(** The whole frame buffer in one colour. *)
Lemma wp_FrameBuf_init gi bg s (Q : result unit Error -> Screen -> Prop) :
  gi_ok gi ->
  (forall s', scr_fb s' = buffer_of gi ->
    painted (mkScreen (buffer_of gi) (scr_mem s)) s' (fun _ _ => true)
      (color_word (buffer_of gi) bg) -> Q (Ok tt) s') ->
  wp (FrameBuf_init gi bg) Q s.
Proof.
  intros Hgi HQ. unfold FrameBuf_init. wp_steps.
  assert (E : match gi_pixel_format gi with Rgb => write_pixel_rgb_fn | Bgr => write_pixel_bgr_fn end
    = pixel_writer (buffer_of gi)) by (cbn; by destruct (gi_pixel_format gi)).
  rewrite E. set (s1 := mkScreen (buffer_of gi) (scr_mem s)).
  eapply wp_mono; [apply (painted_fill s1 s1 _ _ bg (buffer_of_wf gi Hgi) eq_refl (painted_refl _ _))|].
  intros r s' [-> HP]. wp_steps. apply HQ; [apply (painted_fb _ _ _ _ HP)|exact HP].
Qed.

(** C28: [init] takes over every field of the graphics information, selects the writer
    of its pixel format, and leaves every pixel of the frame buffer it describes in the
    background colour and every byte outside it alone. *)
Theorem init_spec gi bg s :
  gi_ok gi ->
  exists s' fb, FrameBuf_init gi bg s = Ret (Ok tt) s' /\ scr_fb s' = fb /\
    (width fb, height fb, stride fb, bytes_per_pixel fb) =
      (gi_width gi, gi_height gi, gi_stride gi, gi_bytes_per_pixel gi) /\
    (framebuf_addr fb, framebuf_size fb, pixel_format fb) =
      (gi_frame_buffer_addr gi, gi_size gi, gi_pixel_format gi) /\
    pixel_writer fb = (if decide (gi_pixel_format gi = Rgb) then write_pixel_rgb_fn
      else write_pixel_bgr_fn) /\
    (forall x y, 0 <= x < gi_width gi -> 0 <= y < gi_height gi ->
      load_u32 (scr_mem s') (gi_frame_buffer_addr gi + 4 * (y * gi_width gi + x)) =
        Some (color_word fb bg)) /\
    (forall a, ~ gi_frame_buffer_addr gi <= a <
        gi_frame_buffer_addr gi + 4 * (gi_width gi * gi_height gi) ->
      scr_mem s' !! a = scr_mem s !! a).
Proof.
  intros Hgi.
  assert (Hw : wp (FrameBuf_init gi bg) (fun r s' => r = Ok tt /\ scr_fb s' = buffer_of gi /\
    painted (mkScreen (buffer_of gi) (scr_mem s)) s' (fun _ _ => true)
      (color_word (buffer_of gi) bg)) s) by (apply wp_FrameBuf_init; auto).
  apply wp_returns in Hw as (r & s' & E & -> & Efb & HP).
  exists s', (buffer_of gi). split; [exact E|]. split; [exact Efb|]. do 3 (split; [done|]). split.
  - intros x y Hx Hy. rewrite <- (painted_pixels _ _ _ _ HP x y) by done.
    unfold pixel_at, pixel_addr. rewrite Efb. cbn [buffer_of framebuf_addr width bytes_per_pixel].
    rewrite (gi_bpp _ Hgi). f_equal. lia.
  - intros a Ha. by apply (painted_frame _ _ _ _ HP).
Qed.

Definition small_info : GraphicInfo := {|
  gi_width := 4; gi_height := 2; gi_stride := 4; gi_bytes_per_pixel := 4;
  gi_pixel_format := Rgb; gi_frame_buffer_addr := 0x80000000; gi_size := 32
|}.

Lemma init_spec_witness :
  exists s', FrameBuf_init small_info 0x28282800 (mkScreen FrameBuf_new ∅)
      = Ret (Ok tt) s' /\
    framebuf_addr (scr_fb s') = 0x80000000 /\
    load_u32 (scr_mem s') 0x8000001c = Some 0x282828.
Proof.
  destruct (init_spec small_info 0x28282800 (mkScreen FrameBuf_new ∅))
    as (s' & fb & E & <- & _ & Ha & Hw & Hpx & _); [split; simpl; lia|].
  exists s'. split; [exact E|]. split; [exact (f_equal (fun t => t.1.1) Ha)|].
  etransitivity; [apply (Hpx 3 1); simpl; lia|]. unfold color_word, encode. by rewrite Hw.
Defined.

(** Where the graphics mode puts a pixel: scan lines are [stride] pixels apart. *)
Definition scan_line_addr (fb : FrameBuf) (x y : Z) : Z :=
  framebuf_addr fb + (y * stride fb + x) * bytes_per_pixel fb.

(** C38: pixels land where the graphics mode puts them exactly when the scan line
    is as long as the visible width: the code ignores [stride]. *)
Theorem write_pixel_ignores_stride fb :
  fb_wf fb -> 0 < width fb -> 1 < height fb ->
  (forall s x y p, scr_fb s = fb -> inside fb x y ->
     exists s', FrameBuf_write_pixel x y p s = Ret (Ok tt) s' /\
       load_u32 (scr_mem s') (scan_line_addr fb x y) = Some (encode fb p)) <->
  stride fb = width fb.
Proof.
  intros Hwf Hw Hh. split.
  - intros H. destruct (H (mkScreen fb ∅) 0 1 0 eq_refl ltac:(unfold inside; lia))
      as (s' & E & Hload).
    rewrite (write_pixel_inside 0 1 0 (mkScreen fb ∅) Hwf ltac:(unfold inside; simpl; lia))
      in E. injection E as <-. cbn [scr_fb scr_mem] in Hload.
    unfold scan_line_addr, pixel_addr in Hload. rewrite (wf_bpp _ Hwf) in Hload.
    destruct (decide (stride fb = width fb)) as [?|Hne]; [done|exfalso].
    rewrite load_store_u32_ne in Hload by lia. done.
  - intros Hst s x y p Hfb Hin. subst fb.
    eexists. split; [apply write_pixel_inside; done|]. cbn [scr_mem].
    unfold scan_line_addr. rewrite Hst. rewrite load_store_u32.
    f_equal. apply as_u_small, encode_range.
Qed.

(** A mode with 16 visible pixels on scan lines of 20. *)
Definition padded_fb : FrameBuf := {|
  width := 16; height := 32; bytes_per_pixel := 4; stride := 20; pixel_format := Bgr;
  framebuf_addr := 0x80000000; framebuf_size := 2560;
  pixel_writer := write_pixel_bgr_fn
|}.

Lemma write_pixel_ignores_stride_witness :
  ~ (forall s x y p, scr_fb s = padded_fb -> inside padded_fb x y ->
     exists s', FrameBuf_write_pixel x y p s = Ret (Ok tt) s' /\
       load_u32 (scr_mem s') (scan_line_addr padded_fb x y) = Some (encode padded_fb p)).
Proof.
  intros H. apply write_pixel_ignores_stride in H; simpl in *; [done|split; simpl; lia|lia..].
Defined.

Section locked.
Context {mutex : Type -> Type} `{SpinMutexLaws mutex}.
Implicit Types (g : FbState mutex).

(** What running a method on the unlocked global amounts to. *)
Lemma wp_frame_buf {A} (m : M Screen (result A Error)) Q g :
  mutex_held (FRAME_BUF g) = false ->
  wp m (fun r s => forall g', mutex_held (FRAME_BUF g') = false ->
          mutex_data (FRAME_BUF g') = scr_fb s -> fb_mem g' = scr_mem s -> Q r g')
    (mkScreen (mutex_data (FRAME_BUF g)) (fb_mem g)) ->
  wp (frame_buf m) Q g.
Proof.
  intros Hfree Hm. apply wp_with_guard; [done|]. intros mx Hmx.
  unfold on_screen. apply wp_zoom. eapply wp_mono; [exact Hm|].
  intros r s HQ. apply HQ; simpl; by autorewrite with mutex.
Qed.

(** while the global frame buffer is locked every drawing function fails with
    [FrameBufferLockError] and changes nothing; when it is free the function
    does what the method does and frees the lock again. *)
Theorem frame_buf_lock {A} (m : M Screen (result A Error)) g :
  if mutex_held (FRAME_BUF g) then
    frame_buf m g = Ret (Err (Error_FrameBufferError FrameBufferLockError)) g
  else
    match m (mkScreen (mutex_data (FRAME_BUF g)) (fb_mem g)) with
    | Ret r s => exists g', frame_buf m g = Ret r g' /\
        mutex_held (FRAME_BUF g') = false /\
        mutex_data (FRAME_BUF g') = scr_fb s /\ fb_mem g' = scr_mem s
    | Panic p s => exists g', frame_buf m g = Panic p g' /\
        mutex_held (FRAME_BUF g') = true /\ fb_mem g' = scr_mem s
    | Diverges => frame_buf m g = Diverges
    end.
Proof.
  destruct (mutex_held (FRAME_BUF g)) eqn:E.
  - unfold frame_buf, with_try_lock. by rewrite with_guard_busy.
  - destruct (mutex_try_lock_free _ _ E) as (mx & El & Hmx).
    unfold frame_buf, with_try_lock, with_guard, on_screen, zoom. rewrite El. simpl.
    destruct (m _) as [r s|p s|]; simpl; [|by eauto|done].
    eexists. split; [done|]. simpl. by autorewrite with mutex.
Qed.
End locked.

End FrameBuffer.
