(* ===== verification/Console.v ===== *)
(** The text console (kernel/src/graphic/console.rs): the line buffer, the
    methods of [Console], which draw through the global frame buffer, and the
    global console with the [kprint!] and [kprintln!] macros. *)

From S2P Require Import Prelude Machine External Graphic Font Errors FrameBuffer.

Module Console.
Import Graphic Font Errors FrameBuffer.

Definition ROWS : Z := 25.
Definition COLUMNS : Z := 150.

(** * Lines *)

Record Line : Type := mkLine { chars : list Z; line_length : Z }.

Definition Line_new (CAP : Z) (chars : list Z) (length : Z) : result Line Error :=
  if CAP <? length then Err (from_ConsoleError LineLengthOverflow)
  else Ok (mkLine chars length).

Definition Line_null (CAP : Z) : Line := mkLine (replicate (Z.to_nat CAP) 0) 0.

Definition Line_push (CAP : Z) (char : Z) : M Line (result unit Error) :=
  self ← get_st;
  if line_length self =? CAP then mret (Err (from_ConsoleError LineLengthOverflow))
  else
    chars' ← index_set (chars self) (line_length self) char;
    length' ← uadd 64 (line_length self) 1;
    put_st (mkLine chars' length') ;;
    mret (Ok tt).

(** * The console *)

Record Console : Type := mkConsole {
  buffer : list Line;
  bg_color : RgbColor;
  fg_color : RgbColor;
  cursor_row : Z;
  cursor_column : Z
}.

Definition Console_new_empty : Console := {|
  buffer := replicate (Z.to_nat ROWS) (Line_null COLUMNS);
  bg_color := RgbColor_rgb 0x28 0x28 0x28;
  fg_color := RgbColor_rgb 0x28 0x28 0x28;
  cursor_row := 0;
  cursor_column := 0
|}.

Section methods.
Context {mutex : Type -> Type} `{SpinMutex mutex}.

(** A method works on [self] and on the globals of the frame buffer module. *)
Notation CM := (M (Console * FbState mutex)).

Definition on_fb {A} (m : M (FbState mutex) A) : CM A :=
  zoom snd (fun g p => (p.1, g)) m.
Definition self : CM Console := gets fst.
Definition set_self (c : Console) : CM unit := modify (fun p => (c, p.2)).

Definition set_buffer (b : list Line) (c : Console) : Console :=
  mkConsole b (bg_color c) (fg_color c) (cursor_row c) (cursor_column c).
Definition set_cursor_row (r : Z) (c : Console) : Console :=
  mkConsole (buffer c) (bg_color c) (fg_color c) r (cursor_column c).
Definition set_cursor_column (k : Z) (c : Console) : Console :=
  mkConsole (buffer c) (bg_color c) (fg_color c) (cursor_row c) k.

Definition Console_init (bg_color fg_color : RgbColor) : CM (result unit Error) :=
  on_fb (fill_rect 0 0 (COLUMNS * CHARACTER_WIDTH) (ROWS * CHARACTER_HEIGHT) bg_color) ;?
  set_self {|
    buffer := replicate (Z.to_nat ROWS) (Line_null COLUMNS);
    bg_color := bg_color;
    fg_color := fg_color;
    cursor_row := 0;
    cursor_column := 0
  |} ;;
  mret (Ok tt).

(** [line.chars[0..line.length]]. *)
Definition line_slice (line : Line) : CM (list Z) :=
  if (0 <=? line_length line) && (line_length line <=? Z.of_nat (length (chars line)))
  then mret (take (Z.to_nat (line_length line)) (chars line))
  else panic IndexOutOfBounds.

(** The body of the redraw loop: move the line up and draw it. *)
Definition redraw_row (row : Z) : CM unit :=
  c ← self;
  next ← index (buffer c) (row + 1);
  buffer' ← index_set (buffer c) row next;
  set_self (set_buffer buffer' c) ;;
  c ← self;
  line ← index (buffer c) row;
  text ← line_slice line;
  for_each (enumerate text) (fun '(i, ch) =>
    px ← umul 64 CHARACTER_WIDTH i;
    py ← umul 64 CHARACTER_HEIGHT row;
    c ← self;
    expect "write_char" (on_fb (write_char px py ch (fg_color c)))).

Definition Console_new_line : CM unit :=
  c ← self;
  set_self (set_cursor_column 0 c) ;;
  c ← self;
  if cursor_row c <? ROWS - 1 then
    row ← uadd 64 (cursor_row c) 1;
    set_self (set_cursor_row row c)
  else
    expect "Failed to fill up the console."
      (on_fb (fill_rect 0 0 (COLUMNS * CHARACTER_WIDTH) (ROWS * CHARACTER_HEIGHT)
                (bg_color c))) ;;
    for_each (range 0 (ROWS - 1)) redraw_row ;;
    c ← self;
    (* *self.buffer.last_mut().expect(..) = null *)
    buffer' ← index_set (buffer c) (Z.of_nat (length (buffer c)) - 1) (Line_null COLUMNS);
    set_self (set_buffer buffer' c).

Definition LineFeed : Z := 10.

(** One character of [print]. *)
Definition print_char (ch : Z) : CM unit :=
  c ← self;
  if ch =? LineFeed then Console_new_line
  else if cursor_column c <? COLUMNS - 1 then
    px ← umul 64 CHARACTER_WIDTH (cursor_column c);
    py ← umul 64 CHARACTER_HEIGHT (cursor_row c);
    expect "write_char" (on_fb (write_char px py ch (fg_color c))) ;;
    c ← self;
    line ← index (buffer c) (cursor_row c);
    (* self.buffer[self.cursor_row].push(ch).unwrap() *)
    line' ← zoom (fun _ => line) (fun _ p => p)
              (expect "push" (Line_push COLUMNS ch) ;; get_st);
    buffer' ← index_set (buffer c) (cursor_row c) line';
    set_self (set_buffer buffer' c) ;;
    c ← self;
    column ← uadd 64 (cursor_column c) 1;
    set_self (set_cursor_column column c)
  else mret tt.

Definition Console_print (s : list Z) : CM unit :=
  match as_ascii s with
  | None => panic (UnwrapFailed "Non ascii character is given.")
  | Some cs => for_each cs print_char
  end.

Definition Console_println (s : list Z) : CM unit :=
  Console_print s ;; Console_new_line.

(** [fmt::Write]: each piece of a formatted message goes through [write_str]. *)
Definition Console_write_str (s : list Z) : CM (result unit Error) :=
  Console_print s ;; mret (Ok tt).

Definition Console_write_fmt (pieces : list (list Z)) : CM (result unit Error) :=
  try_for_each pieces Console_write_str.

(** * The global console *)

Record Gfx : Type := mkGfx {
  CONSOLE : mutex Console;
  gfx_fb : FbState mutex
}.

Definition set_CONSOLE (m : mutex Console) (g : Gfx) : Gfx := mkGfx m (gfx_fb g).

Definition on_console {A} (m : CM A) : M (Console * Gfx) A :=
  zoom (fun p => (p.1, gfx_fb p.2)) (fun q p => (q.1, mkGfx (CONSOLE p.2) q.2)) m.

(** [console()?.method(..)]. *)
Definition console {A} (m : CM (result A Error)) : M Gfx (result A Error) :=
  with_try_lock CONSOLE set_CONSOLE (from_ConsoleError ConsoleLockError) (on_console m).

Definition print (s : list Z) : M Gfx (result unit Error) :=
  console (Console_print s ;; mret (Ok tt)).
Definition println (s : list Z) : M Gfx (result unit Error) :=
  console (Console_println s ;; mret (Ok tt)).

(** [kprint!]: [console().unwrap().write_fmt(..).unwrap()]. *)
Definition kprint (pieces : list (list Z)) : M Gfx unit :=
  expect "kprint!" (console (Console_write_fmt pieces)).

(** [kprintln!]: its two statements, each of which takes and drops the console. *)
Definition fmt_section (pieces : list (list Z)) : M Gfx unit :=
  expect "kprintln!" (console (Console_write_fmt pieces)).
Definition newline_section : M Gfx unit := expect "kprintln!" (println (bytes_of_string "")).
Definition kprintln (pieces : list (list Z)) : M Gfx unit := fmt_section pieces ;; newline_section.
End methods.
Arguments Gfx : clear implicits.

(** * Specification: a scrolling terminal

    The terminal is the list of all the lines printed so far, the last one being
    written; the console shows the last [ROWS] of them. *)

Definition LINE_MAX : Z := COLUMNS - 1.

Definition term_put (hist : list (list Z)) (ch : Z) : list (list Z) :=
  if ch =? LineFeed then hist ++ [[]]
  else match last hist with
       | Some l =>
           if Z.of_nat (length l) <? LINE_MAX
           then removelast hist ++ [l ++ [ch]] else hist
       | None => hist
       end.

Definition term_print (hist : list (list Z)) (s : list Z) : list (list Z) :=
  foldl term_put hist s.

(** The lines of a text, each cut at [LINE_MAX] characters. *)
Fixpoint split_lines (s : list Z) : list (list Z) :=
  match s with
  | [] => [[]]
  | ch :: s' =>
      if ch =? LineFeed then [] :: split_lines s'
      else match split_lines s' with
           | l :: ls => (ch :: l) :: ls
           | [] => [[ch]]
           end
  end.
Definition cut_line (l : list Z) : list Z := take (Z.to_nat LINE_MAX) l.

(** The lines that are visible, and the screenful they fill. *)
Definition visible (hist : list (list Z)) : list (list Z) :=
  drop (length hist - Z.to_nat ROWS) hist.
Definition screenful (hist : list (list Z)) : list (list Z) :=
  visible hist ++ replicate (Z.to_nat ROWS - length (visible hist)) [].

(** The text of the buffer. *)
Definition line_text (l : Line) : list Z := take (Z.to_nat (line_length l)) (chars l).
Definition console_text (c : Console) : list (list Z) := line_text <$> buffer c.

Definition line_wf (l : Line) : Prop :=
  Z.of_nat (length (chars l)) = COLUMNS /\ 0 <= line_length l <= LINE_MAX.

(** [shows c hist]: the console [c] represents the terminal [hist]. *)
Record shows (c : Console) (hist : list (list Z)) : Prop := {
  shows_rows : Z.of_nat (length (buffer c)) = ROWS;
  shows_wf : Forall line_wf (buffer c);
  shows_nonempty : hist <> [];
  shows_text : console_text c = screenful hist;
  shows_row : cursor_row c = Z.of_nat (length (visible hist)) - 1;
  shows_column l : last hist = Some l -> cursor_column c = Z.of_nat (length l)
}.

(** The pixel of a text: the glyph bit of the cell the pixel is in. *)
Definition text_pixel (text : list (list Z)) (x y : Z) : bool :=
  match text !! Z.to_nat (y / CHARACTER_HEIGHT) with
  | Some line =>
      match line !! Z.to_nat (x / CHARACTER_WIDTH) with
      | Some ch => glyph_bit ch (x mod CHARACTER_WIDTH) (y mod CHARACTER_HEIGHT)
      | None => false
      end
  | None => false
  end.

Definition console_area : Z -> Z -> bool :=
  in_rect 0 0 (COLUMNS * CHARACTER_WIDTH) (ROWS * CHARACTER_HEIGHT).

(** The console fits on the frame buffer. *)
Definition fits (fb : FrameBuf) : Prop :=
  COLUMNS * CHARACTER_WIDTH <= width fb /\ ROWS * CHARACTER_HEIGHT <= height fb.

(** [rendered s c]: the console area of the screen is the picture of [c]. *)
Definition rendered (s : Screen) (c : Console) : Prop :=
  forall x y, inside (scr_fb s) x y -> console_area x y = true ->
    pixel_at s x y = Some (color_word (scr_fb s)
      (if text_pixel (console_text c) x y then fg_color c else bg_color c)).

(** Nothing outside the console area differs. *)
Record same_outside (s s' : Screen) : Prop := {
  same_fb : scr_fb s' = scr_fb s;
  same_pixels x y : inside (scr_fb s) x y -> console_area x y = false ->
    pixel_at s' x y = pixel_at s x y
}.

(** * Lemmas on the terminal *)

Lemma last_removelast {A} (l : list A) x :
  last l = Some x -> l = removelast l ++ [x].
Proof.
  intros Hl. apply last_Some in Hl as [l' ->]. by rewrite removelast_last.
Qed.

Lemma length_visible hist :
  length (visible hist) = Nat.min (length hist) (Z.to_nat ROWS).
Proof. unfold visible. rewrite length_drop. lia. Qed.

(** Replacing the last line replaces the cursor line of the screen. *)
Lemma screenful_put hist l l' :
  last hist = Some l ->
  screenful (removelast hist ++ [l']) =
    <[(length (visible hist) - 1)%nat := l']> (screenful hist).
Proof.
  intros Hl. pose proof (last_removelast _ _ Hl) as E.
  set (h := removelast hist) in *.
  unfold screenful, visible. rewrite E, !length_app. simpl.
  set (n := (length h + 1 - Z.to_nat ROWS)%nat).
  assert (Hn : (n <= length h)%nat) by (unfold n, ROWS; lia).
  rewrite !drop_app_le by lia. rewrite !length_app, length_drop. simpl.
  rewrite <- !(assoc_L (++)).
  rewrite insert_app_r_alt by (rewrite length_drop; lia).
  rewrite length_drop. replace (_ - _ - _)%nat with 0%nat by lia. done.
Qed.

(** A new line when the screen is not full, and when it is. *)
Lemma screenful_newline hist :
  (length hist < Z.to_nat ROWS)%nat -> screenful (hist ++ [[]]) = screenful hist.
Proof.
  intros Hlt. unfold screenful, visible. rewrite !length_app. simpl.
  replace (length hist + 1 - Z.to_nat ROWS)%nat with 0%nat by lia.
  replace (length hist - Z.to_nat ROWS)%nat with 0%nat by lia.
  rewrite !drop_0, length_app, <- (assoc_L (++)). simpl. f_equal.
  replace (Z.to_nat ROWS - length hist)%nat
    with (S (Z.to_nat ROWS - (length hist + 1)))%nat by lia. done.
Qed.

Lemma screenful_scroll hist :
  (Z.to_nat ROWS <= length hist)%nat ->
  screenful (hist ++ [[]]) = tail (screenful hist) ++ [[]].
Proof.
  intros Hge. unfold screenful, visible. rewrite !length_app, !length_drop. simpl.
  set (n := (length hist - Z.to_nat ROWS)%nat).
  replace (length hist + 1 - Z.to_nat ROWS)%nat with (S n) by (unfold n; lia).
  rewrite drop_app_le by (unfold n, ROWS in *; lia).
  rewrite length_app. simpl.
  replace (Z.to_nat ROWS - (length hist + 1 - S n))%nat with 0%nat
    by (unfold n, ROWS in *; lia).
  replace (Z.to_nat ROWS - (length hist - n))%nat with 0%nat
    by (unfold n, ROWS in *; lia).
  simpl. rewrite !app_nil_r. rewrite <- Nat.add_1_r, <- drop_drop.
  by destruct (drop n hist).
Qed.

(** The cursor line of the screen is the last line. *)
Lemma screenful_last hist l :
  last hist = Some l -> screenful hist !! (length (visible hist) - 1)%nat = Some l.
Proof.
  intros Hl. pose proof (last_removelast _ _ Hl) as E.
  unfold screenful, visible. rewrite E, !length_app. simpl.
  set (h := removelast hist) in *.
  set (n := (length h + 1 - Z.to_nat ROWS)%nat).
  assert (Hn : (n <= length h)%nat) by (unfold n, ROWS; lia).
  rewrite drop_app_le by lia. rewrite length_app, length_drop. simpl.
  rewrite lookup_app_l by (rewrite length_app, length_drop; simpl; lia).
  rewrite lookup_app_r by (rewrite length_drop; lia).
  rewrite length_drop. replace (_ - _ - _)%nat with 0%nat by lia. done.
Qed.

(** One row of the scroll as a list operation. *)
Lemma shift_row {A} (l : list A) r x :
  l !! S r = Some x ->
  <[r := x]> (take r (tail l) ++ drop r l) = take (S r) (tail l) ++ drop (S r) l.
Proof.
  intros Hx. pose proof (lookup_lt_Some _ _ _ Hx) as Hlt.
  assert (Htl : length (tail l) = (length l - 1)%nat) by (destruct l; simpl; lia).
  assert (Hxt : tail l !! r = Some x) by (by destruct l).
  rewrite insert_app_r_alt by (rewrite length_take; lia).
  rewrite length_take. replace (r - r `min` length (tail l))%nat with 0%nat by lia.
  rewrite (take_S_r _ _ _ Hxt), <- (assoc_L (++)). f_equal.
  destruct (drop r l) as [|y l'] eqn:E.
  { apply (f_equal length) in E. rewrite length_drop in E. simpl in E. lia. }
  simpl. by rewrite <- Nat.add_1_r, <- drop_drop, E.
Qed.

Lemma lookup_shifted {A} (l : list A) r i :
  (r < length l)%nat -> (r <= i)%nat ->
  (take r (tail l) ++ drop r l) !! i = l !! i.
Proof.
  intros Hr Hi.
  assert (Htl : length (tail l) = (length l - 1)%nat) by (destruct l; simpl; lia).
  assert (Hlt : length (take r (tail l)) = r) by (rewrite length_take; lia).
  rewrite lookup_app_r by lia. rewrite Hlt, lookup_drop. f_equal. lia.
Qed.

(** * Lemmas on the picture of a text *)

Lemma in_glyph_cell i r ch x y :
  0 <= x -> 0 <= y ->
  in_glyph (CHARACTER_WIDTH * i) (CHARACTER_HEIGHT * r) ch x y =
    (x / CHARACTER_WIDTH =? i) && (y / CHARACTER_HEIGHT =? r) &&
      glyph_bit ch (x mod CHARACTER_WIDTH) (y mod CHARACTER_HEIGHT).
Proof.
  intros Hx Hy. unfold in_glyph, in_rect, CHARACTER_WIDTH, CHARACTER_HEIGHT.
  destruct (decide (x / 8 = i /\ y / 16 = r)) as [[<- <-]|Hne].
  - rewrite !Z.eqb_refl. rewrite (Z.mod_eq x 8), (Z.mod_eq y 16) by lia.
    replace ((8 * (x / 8) <=? x) && _ && _ && _) with true; [done|].
    symmetry. Z.div_mod_to_equations. lia.
  - transitivity false; [|symmetry]; apply andb_false_iff; left;
      Z.div_mod_to_equations; lia.
Qed.

(** Appending a character to a line adds its glyph. *)
Lemma text_pixel_insert text r l ch x y :
  0 <= x -> 0 <= y -> text !! r = Some l ->
  text_pixel (<[r := l ++ [ch]]> text) x y =
    text_pixel text x y ||
    in_glyph (CHARACTER_WIDTH * Z.of_nat (length l)) (CHARACTER_HEIGHT * Z.of_nat r)
      ch x y.
Proof.
  intros Hx Hy Hl. rewrite in_glyph_cell by lia. unfold text_pixel.
  assert (Hy16 : 0 <= y / CHARACTER_HEIGHT) by (apply Z.div_pos; unfold CHARACTER_HEIGHT; lia).
  assert (Hx8 : 0 <= x / CHARACTER_WIDTH) by (apply Z.div_pos; unfold CHARACTER_WIDTH; lia).
  destruct (decide (Z.to_nat (y / CHARACTER_HEIGHT) = r)) as [E|Hne].
  - rewrite E, list_lookup_insert_eq, Hl by (by eapply lookup_lt_Some).
    replace (y / CHARACTER_HEIGHT =? Z.of_nat r) with true by lia.
    rewrite lookup_app. destruct (l !! Z.to_nat (x / CHARACTER_WIDTH)) eqn:El.
    + apply lookup_lt_Some in El.
      replace (x / CHARACTER_WIDTH =? Z.of_nat (length l)) with false by lia.
      by rewrite orb_false_r.
    + apply lookup_ge_None in El.
      destruct (decide (x / CHARACTER_WIDTH = Z.of_nat (length l))) as [Ex|Hx'].
      * rewrite Ex, Nat2Z.id, Nat.sub_diag, Z.eqb_refl. done.
      * replace (x / CHARACTER_WIDTH =? Z.of_nat (length l)) with false by lia.
        rewrite list_lookup_singleton.
        destruct (Z.to_nat (x / CHARACTER_WIDTH) - length l)%nat eqn:E'; [lia|done].
  - rewrite list_lookup_insert_ne by done.
    replace (y / CHARACTER_HEIGHT =? Z.of_nat r) with false by lia.
    by rewrite andb_false_r, orb_false_r.
Qed.

(** Empty lines show nothing. *)
Lemma text_pixel_app_empty text n x y :
  text_pixel (text ++ replicate n []) x y = text_pixel text x y.
Proof.
  unfold text_pixel. rewrite lookup_app.
  destruct (text !! _); [done|].
  destruct (replicate n [] !! _) as [l|] eqn:E; [|done].
  apply lookup_replicate in E as [-> _]. done.
Qed.

Lemma text_pixel_snoc_char rows l ch x y :
  0 <= x -> 0 <= y ->
  text_pixel (rows ++ [l ++ [ch]]) x y =
    text_pixel (rows ++ [l]) x y ||
    in_glyph (CHARACTER_WIDTH * Z.of_nat (length l))
      (CHARACTER_HEIGHT * Z.of_nat (length rows)) ch x y.
Proof.
  intros Hx Hy. rewrite <- (text_pixel_insert (rows ++ [l]) (length rows) l ch) by
    (done || by rewrite lookup_app_r, Nat.sub_diag).
  by rewrite insert_app_r_alt, Nat.sub_diag by lia.
Qed.

(** The picture of a screenful stays inside the console area. *)
Lemma text_pixel_area text x y :
  Z.of_nat (length text) <= ROWS ->
  Forall (fun l => Z.of_nat (length l) <= COLUMNS) text ->
  0 <= x -> 0 <= y -> text_pixel text x y = true -> console_area x y = true.
Proof.
  intros Hrows Hcols Hx Hy. unfold text_pixel.
  destruct (text !! _) as [l|] eqn:El; [|done].
  destruct (l !! _) as [ch|] eqn:Ech; [|done]. intros _.
  pose proof (lookup_lt_Some _ _ _ El). pose proof (lookup_lt_Some _ _ _ Ech).
  eapply Forall_lookup_1 in Hcols; [|exact El]. simpl in Hcols.
  unfold console_area, in_rect, ROWS, COLUMNS, CHARACTER_WIDTH, CHARACTER_HEIGHT in *.
  assert (x / 8 < 150) by lia. assert (y / 16 < 25) by lia.
  assert (x < 150 * 8) by (Z.div_mod_to_equations; lia).
  assert (y < 25 * 16) by (Z.div_mod_to_equations; lia). lia.
Qed.

(** * Drawing through the lock *)

Section drawing.
Context {mutex : Type -> Type} `{SpinMutexLaws mutex}.
Implicit Types (g : FbState mutex) (c : Console).

Definition screen_of g : Screen := mkScreen (mutex_data (FRAME_BUF g)) (fb_mem g).
Definition fb_free g : Prop := mutex_held (FRAME_BUF g) = false.
Arguments screen_of : simpl never.
Arguments fb_free : simpl never.

Lemma wp_on_fb {A} (m : M Screen (result A Error)) what c g (Q : A -> _ -> Prop) :
  fb_free g ->
  wp m (fun r s => exists a, r = Ok a /\
      forall g', fb_free g' -> screen_of g' = s -> Q a (c, g')) (screen_of g) ->
  wp (expect what (on_fb (frame_buf m))) Q (c, g).
Proof.
  intros Hfree Hm. apply wp_expect, wp_zoom, wp_frame_buf; [done|].
  eapply wp_mono; [exact Hm|]. intros r s (a & -> & HQ) g' Hfree' Hd Hm'.
  exists a. split; [done|]. apply HQ; [done|]. unfold screen_of.
  rewrite Hd, Hm'. by destruct s.
Qed.

Lemma wp_write_cell what s0 P v c g i r ch fg (Q : unit -> _ -> Prop) :
  fb_free g -> fb_wf (scr_fb s0) -> fits (scr_fb s0) ->
  0 <= i < COLUMNS -> 0 <= r < ROWS ->
  v = color_word (scr_fb s0) fg -> painted s0 (screen_of g) P v ->
  (forall g', fb_free g' ->
     painted s0 (screen_of g') (fun x y => P x y ||
       in_glyph (CHARACTER_WIDTH * i) (CHARACTER_HEIGHT * r) ch x y) v ->
     Q tt (c, g')) ->
  wp (expect what (on_fb
        (write_char (CHARACTER_WIDTH * i) (CHARACTER_HEIGHT * r) ch fg))) Q (c, g).
Proof.
  unfold fits, COLUMNS, ROWS. intros Hfree Hwf [Hfw Hfh] Hi Hr Hv HP HQ.
  apply wp_on_fb; [done|]. eapply wp_mono.
  { eapply (painted_write_char s0); [..|exact Hv|exact HP];
      unfold CHARACTER_WIDTH, CHARACTER_HEIGHT in *; (done || lia). }
  intros u s [-> HP']. exists tt. split; [done|]. intros g' Hfree' <-. by apply HQ.
Qed.

Lemma wp_line_slice (Q : list Z -> Console * FbState mutex -> Prop) line p :
  line_wf line -> Q (line_text line) p -> wp (line_slice line) Q p.
Proof.
  unfold line_wf, LINE_MAX, COLUMNS. intros [Hc Hl] HQ. unfold line_slice.
  replace ((0 <=? line_length line) && _) with true by lia. by apply wp_ret.
Qed.

Lemma length_line_text line : line_wf line ->
  Z.of_nat (length (line_text line)) = line_length line.
Proof.
  unfold line_wf, LINE_MAX, COLUMNS. intros [Hc Hl]. unfold line_text.
  rewrite length_take. lia.
Qed.

(** One row of the scroll: the line moves up and is drawn in its new row. *)
Lemma wp_redraw_row s0 v rows c g r next (Q : unit -> _ -> Prop) :
  fb_free g -> fb_wf (scr_fb s0) -> fits (scr_fb s0) ->
  0 <= r < ROWS - 1 -> Z.of_nat (length (buffer c)) = ROWS ->
  buffer c !! Z.to_nat (r + 1) = Some next -> line_wf next ->
  Z.of_nat (length rows) = r ->
  v = color_word (scr_fb s0) (fg_color c) ->
  painted s0 (screen_of g) (text_pixel rows) v ->
  (forall g', fb_free g' ->
     painted s0 (screen_of g') (text_pixel (rows ++ [line_text next])) v ->
     Q tt (set_buffer (<[Z.to_nat r := next]> (buffer c)) c, g')) ->
  wp (redraw_row r) Q (c, g).
Proof.
  unfold ROWS. intros Hfree Hwf Hfits Hr Hlen Hnext Hnwf Hrows Hv HP HQ.
  unfold redraw_row, self, set_self. wp_steps. simpl.
  eapply wp_index; [lia|exact Hnext|]. wp_steps.
  apply wp_index_set; [lia|]. wp_steps.
  eapply wp_index; [lia| |].
  { simpl. apply list_lookup_insert_eq. lia. }
  wp_steps. apply wp_line_slice; [done|].
  apply (wp_for_enumerate _ _ (fun i p =>
    p.1 = set_buffer (<[Z.to_nat r := next]> (buffer c)) c /\ fb_free p.2 /\
    painted s0 (screen_of p.2)
      (text_pixel (rows ++ [take (Z.to_nat i) (line_text next)])) v)).
  - split; [done|]. split; [done|]. eapply painted_ext; [|exact HP].
    intros x y _. symmetry. apply (text_pixel_app_empty rows 1).
  - intros i ch [c' g'] Hi Hch (Hc' & Hfree' & HP'). simpl in Hc'. subst c'.
    assert (Hi150 : i < LINE_MAX).
    { apply lookup_lt_Some in Hch. pose proof (length_line_text _ Hnwf).
      unfold line_wf in Hnwf. lia. }
    unfold LINE_MAX, COLUMNS in Hi150. unfold CHARACTER_WIDTH, CHARACTER_HEIGHT.
    wp_steps; [lia..|]. simpl.
    eapply wp_write_cell; [done|done|done|unfold COLUMNS; lia|unfold ROWS; lia
      |exact Hv|exact HP'|].
    intros g'' Hfree'' HP''. split; [done|]. split; [done|].
    eapply painted_ext; [|exact HP'']. intros x y [[Hx _] [Hy _]]. simpl.
    replace (Z.to_nat (i + 1)) with (S (Z.to_nat i)) by lia.
    rewrite (take_S_r _ _ _ Hch), text_pixel_snoc_char by done.
    assert (Z.of_nat (length (take (Z.to_nat i) (line_text next))) = i) as ->.
    { apply lookup_lt_Some in Hch. rewrite length_take. lia. }
    by rewrite Hrows.
  - intros [c' g'] (Hc' & Hfree' & HP'). simpl in Hc'. subst c'. apply HQ; [done|].
    by rewrite Nat2Z.id, firstn_all in HP'.
Qed.

(** ** The invariant *)

(** The state of a console that shows [hist] on a frame buffer [fb]. *)
Record con_inv (fb : FrameBuf) (p : Console * FbState mutex) (hist : list (list Z)) :
    Prop := {
  inv_free : fb_free p.2;
  inv_fb : scr_fb (screen_of p.2) = fb;
  inv_shows : shows p.1 hist;
  inv_rendered : rendered (screen_of p.2) p.1
}.

(** What printing leaves alone. *)
Record con_frame (p p' : Console * FbState mutex) : Prop := {
  frame_fg : fg_color p'.1 = fg_color p.1;
  frame_bg : bg_color p'.1 = bg_color p.1;
  frame_outside : same_outside (screen_of p.2) (screen_of p'.2)
}.

Lemma con_frame_refl p : con_frame p p.
Proof. by repeat split. Qed.

Lemma con_frame_trans p1 p2 p3 : con_frame p1 p2 -> con_frame p2 p3 -> con_frame p1 p3.
Proof.
  intros [H1 H2 [H3 H4]] [H5 H6 [H7 H8]]. split; [congruence|congruence|].
  split; [congruence|]. intros x y Hin Harea. rewrite H8, H4; [done..| |done].
  by rewrite H3.
Qed.

Lemma shows_lines c hist l : shows c hist -> l ∈ console_text c ->
  Z.of_nat (length l) <= LINE_MAX.
Proof.
  intros Hs Hl. apply list_elem_of_fmap in Hl as (line & -> & Hin).
  pose proof (shows_wf _ _ Hs) as Hwf.
  eapply Forall_forall in Hwf; [|exact Hin]. rewrite length_line_text by done.
  unfold line_wf in Hwf. lia.
Qed.

(** Painting in the foreground colour renders the text with those pixels. *)
Lemma rendered_painted s s' c c' P :
  rendered s c -> fg_color c' = fg_color c -> bg_color c' = bg_color c ->
  painted s s' P (color_word (scr_fb s) (fg_color c)) ->
  (forall x y, 0 <= x -> 0 <= y ->
     text_pixel (console_text c') x y = text_pixel (console_text c) x y || P x y) ->
  rendered s' c'.
Proof.
  intros Hr Hfg Hbg HP Htext x y Hin Harea.
  rewrite (painted_fb _ _ _ _ HP) in *. destruct Hin as [Hx Hy].
  rewrite (painted_pixels _ _ _ _ HP), Htext, Hfg, Hbg by (done || lia).
  destruct (P x y); [by rewrite orb_true_r|]. rewrite orb_false_r. by apply Hr.
Qed.

Lemma same_outside_painted s s' P v :
  painted s s' P v ->
  (forall x y, inside (scr_fb s) x y -> P x y = true -> console_area x y = true) ->
  same_outside s s'.
Proof.
  intros HP Hsub. split; [apply HP|]. intros x y Hin Harea.
  rewrite (painted_pixels _ _ _ _ HP) by done.
  destruct (P x y) eqn:E; [|done]. by rewrite Hsub in Harea.
Qed.

Lemma same_outside_trans s1 s2 s3 :
  same_outside s1 s2 -> same_outside s2 s3 -> same_outside s1 s3.
Proof.
  intros [H1 H2] [H3 H4]. split; [congruence|]. intros x y Hin Harea.
  rewrite H4, H2; [done..| |done]. by rewrite H1.
Qed.

(** ** The cursor moves down *)
Lemma wp_new_line_down fb p hist (Q : unit -> _ -> Prop) :
  con_inv fb p hist -> (length hist < Z.to_nat ROWS)%nat ->
  (forall p', con_inv fb p' (hist ++ [[]]) -> con_frame p p' -> Q tt p') ->
  wp Console_new_line Q p.
Proof.
  destruct p as [c g]. intros [Hfree Hfb Hs Hr] Hlt HQ. simpl in *.
  pose proof (shows_row _ _ Hs) as Hrow. rewrite length_visible in Hrow.
  assert (length hist <> 0%nat).
  { pose proof (shows_nonempty _ _ Hs). destruct hist; simpl; [done|lia]. }
  unfold ROWS in Hlt. unfold Console_new_line, self, set_self. wp_steps. simpl.
  replace (cursor_row c <? ROWS - 1) with true by (unfold ROWS in *; lia).
  wp_steps; [unfold ROWS in *; lia|]. apply HQ; [|done]. split; simpl; [done|done| |done].
  destruct Hs as [Hlen Hwf Hne Htext _ _]. split; simpl; [done|done| | | |].
  - by destruct hist.
  - unfold console_text in *. simpl. rewrite screenful_newline by (unfold ROWS; lia).
    exact Htext.
  - rewrite length_visible, length_app, Hrow. unfold ROWS. simpl. lia.
  - intros l. rewrite last_snoc. by intros [= <-].
Qed.

(** The console area repainted in one colour. *)
Lemma wp_clear what c g bg (Q : unit -> _ -> Prop) :
  fb_free g -> fb_wf (scr_fb (screen_of g)) -> fits (scr_fb (screen_of g)) ->
  (forall g', fb_free g' ->
     painted (screen_of g) (screen_of g') console_area
       (color_word (scr_fb (screen_of g)) bg) -> Q tt (c, g')) ->
  wp (expect what (on_fb (fill_rect 0 0 (COLUMNS * CHARACTER_WIDTH)
        (ROWS * CHARACTER_HEIGHT) bg))) Q (c, g).
Proof.
  intros Hfree Hwf [Hfw Hfh] HQ. apply wp_on_fb; [done|]. eapply wp_mono.
  { eapply (painted_rect (screen_of g) _ (fun _ _ => false)); [exact Hwf|unfold COLUMNS, ROWS, CHARACTER_WIDTH, CHARACTER_HEIGHT in *; lia..
      |reflexivity|apply painted_refl]. }
  intros r s [-> HP]. exists tt. split; [done|]. intros g' Hfree' <-.
  apply HQ; [done|]. exact HP.
Qed.

(** The redraw loop moves the text up by one row. *)
Lemma wp_redraw s1 c g v (Q : unit -> _ -> Prop) :
  fb_free g -> fb_wf (scr_fb s1) -> fits (scr_fb s1) -> screen_of g = s1 ->
  Z.of_nat (length (buffer c)) = ROWS -> Forall line_wf (buffer c) ->
  v = color_word (scr_fb s1) (fg_color c) ->
  (forall g' b, fb_free g' ->
     painted s1 (screen_of g') (text_pixel (tail (console_text c))) v ->
     b = tail (buffer c) ++ drop (Z.to_nat (ROWS - 1)) (buffer c) ->
     Q tt (set_buffer b c, g')) ->
  wp (for_each (range 0 (ROWS - 1)) redraw_row) Q (c, g).
Proof.
  intros Hfree Hwf Hfits Hs1 Hlen Hlwf Hv HQ.
  assert (Htl : length (tail (buffer c)) = Z.to_nat (ROWS - 1)).
  { unfold ROWS in *. destruct (buffer c); simpl in *; lia. }
  apply (wp_for_range _ (fun r p =>
    p.1 = set_buffer (take (Z.to_nat r) (tail (buffer c)) ++
                      drop (Z.to_nat r) (buffer c)) c /\ fb_free p.2 /\
    painted s1 (screen_of p.2)
      (text_pixel (take (Z.to_nat r) (tail (console_text c)))) v));
    [unfold ROWS; lia| | |].
  - split; [simpl; by destruct c|]. split; [done|]. simpl. rewrite Hs1.
    exact (painted_refl s1 v).
  - intros r [c' g'] Hr (Hc' & Hfree' & HP'). simpl in Hc'. subst c'.
    unfold ROWS in *.
    destruct (lookup_lt_is_Some_2 (buffer c) (S (Z.to_nat r)) ltac:(lia)) as [next Hnext].
    eapply (wp_redraw_row s1 v _ _ _ _ next); [done|done|done|unfold ROWS; lia| | | | | |
      exact HP'|]; simpl.
    + rewrite length_app, length_take, length_drop. unfold ROWS. lia.
    + rewrite lookup_shifted by lia. by replace (Z.to_nat (r + 1)) with (S (Z.to_nat r)) by lia.
    + by eapply Forall_lookup_1 in Hlwf; [|exact Hnext].
    + unfold console_text. rewrite length_take. rewrite <- fmap_tail, length_fmap. lia.
    + exact Hv.
    + intros g'' Hfree'' HP''.
      replace (Z.to_nat (r + 1)) with (S (Z.to_nat r)) by lia. split; [|split; [done|]].
      * unfold set_buffer. simpl. by rewrite shift_row.
      * erewrite take_S_r; [exact HP''|]. unfold console_text.
        rewrite <- fmap_tail, list_lookup_fmap.
        replace (tail (buffer c) !! Z.to_nat r) with (Some next); [done|].
        by destruct (buffer c).
  - intros [c' g'] (Hc' & Hfree' & HP'). simpl in Hc'. subst c'.
    rewrite (take_ge (tail (buffer c))) by lia. apply HQ; [done| |done].
    cbn [snd] in HP'. rewrite take_ge in HP'; [done|]. unfold console_text.
    rewrite <- fmap_tail, length_fmap. lia.
Qed.

(** ** The screen scrolls *)
Lemma scrolled_buffer b : Z.of_nat (length b) = ROWS -> Forall line_wf b ->
  let b' := <[Z.to_nat (ROWS - 1) := Line_null COLUMNS]>
              (tail b ++ drop (Z.to_nat (ROWS - 1)) b) in
  Z.of_nat (length b') = ROWS /\ Forall line_wf b' /\
  line_text <$> b' = tail (line_text <$> b) ++ [[]].
Proof.
  intros Hlen Hwf b'. unfold ROWS in *.
  assert (Htl : length (tail b) = 24%nat) by (destruct b; simpl in *; lia).
  assert (Hdrop : exists l, drop (Z.to_nat (25 - 1)) b = [l]).
  { destruct (drop _ b) as [|l [|l' k]] eqn:E; apply (f_equal length) in E;
      rewrite length_drop in E; simpl in E; [lia|eauto|lia]. }
  destruct Hdrop as [l Hdrop].
  assert (Hb' : b' = tail b ++ [Line_null COLUMNS]).
  { unfold b'. rewrite Hdrop, insert_app_r_alt by lia.
    by replace (Z.to_nat (25 - 1) - length (tail b))%nat with 0%nat by lia. }
  rewrite Hb'. split; [|split].
  - rewrite length_app. simpl. lia.
  - apply Forall_app. split; [by apply Forall_tail|]. constructor; [|constructor].
    split; [unfold COLUMNS; reflexivity|]. simpl. unfold LINE_MAX, COLUMNS. lia.
  - by rewrite fmap_app, fmap_tail.
Qed.

Lemma wp_new_line_scroll fb p hist (Q : unit -> _ -> Prop) :
  fb_wf fb -> fits fb -> con_inv fb p hist -> (Z.to_nat ROWS <= length hist)%nat ->
  (forall p', con_inv fb p' (hist ++ [[]]) -> con_frame p p' -> Q tt p') ->
  wp Console_new_line Q p.
Proof.
  destruct p as [c g]. intros Hwf Hfits [Hfree Hfb Hs Hr] Hge HQ. cbn [fst snd] in *.
  pose proof (shows_row _ _ Hs) as Hrow. rewrite length_visible in Hrow.
  unfold Console_new_line, self, set_self. wp_steps. simpl.
  replace (cursor_row c <? ROWS - 1) with false by (unfold ROWS in *; lia).
  set (c0 := set_cursor_column 0 c). wp_step.
  apply wp_clear; [done|by rewrite Hfb|by rewrite Hfb|]. intros g1 Hfree1 HP1.
  assert (Hfb1 : scr_fb (screen_of g1) = fb) by (by rewrite (painted_fb _ _ _ _ HP1)).
  destruct (scrolled_buffer (buffer c) (shows_rows _ _ Hs) (shows_wf _ _ Hs))
    as (Hlen' & Hwf' & Htext').
  wp_step. eapply (wp_redraw (screen_of g1));
    [done|by rewrite Hfb1|by rewrite Hfb1|done|apply Hs|apply Hs|reflexivity|].
  intros g2 b Hfree2 HP2 ->. wp_steps. simpl.
  assert (Hlb : Z.of_nat (length (tail (buffer c) ++ drop (Z.to_nat (ROWS - 1)) (buffer c))) - 1
    = ROWS - 1) by (rewrite length_insert in Hlen'; lia).
  rewrite Hlb. apply wp_index_set; [unfold ROWS in *; lia|]. wp_steps.
  set (c' := set_buffer _ _).
  assert (Htext : console_text c' = tail (console_text c) ++ [[]]) by exact Htext'.
  apply HQ.
  - split; cbn [fst snd]; [done|by rewrite (painted_fb _ _ _ _ HP2)| |].
    + split; [done|done|by destruct hist| | |].
      * rewrite Htext, (shows_text _ _ Hs). by rewrite screenful_scroll.
      * simpl. rewrite length_visible, length_app, Hrow. unfold ROWS in *. simpl. lia.
      * intros l. rewrite last_snoc. by intros [= <-].
    + intros x y Hin Harea. rewrite (painted_fb _ _ _ _ HP2) in *.
      rewrite Htext, (text_pixel_app_empty _ 1), (painted_pixels _ _ _ _ HP2) by done.
      change (console_text c0) with (console_text c).
      destruct (text_pixel _ x y); [done|]. rewrite (painted_fb _ _ _ _ HP1) in *.
      by rewrite (painted_pixels _ _ _ _ HP1), Harea by done.
  - split; [done|done|]. cbn [fst snd]. eapply same_outside_trans.
    + eapply same_outside_painted; [exact HP1|auto].
    + eapply same_outside_painted; [exact HP2|]. intros x y [Hx Hy].
      apply text_pixel_area; [| |lia|lia].
      * rewrite <- (shows_rows _ _ Hs). unfold c0, console_text. simpl.
        rewrite <- fmap_tail, length_fmap. destruct (buffer c); simpl; lia.
      * apply Forall_tail, Forall_forall. intros l Hl.
        pose proof (shows_lines c hist l Hs Hl). unfold LINE_MAX in *. lia.
Qed.

Lemma wp_new_line fb p hist (Q : unit -> _ -> Prop) :
  fb_wf fb -> fits fb -> con_inv fb p hist ->
  (forall p', con_inv fb p' (hist ++ [[]]) -> con_frame p p' -> Q tt p') ->
  wp Console_new_line Q p.
Proof.
  intros. destruct (decide (length hist < Z.to_nat ROWS)%nat).
  - by eapply wp_new_line_down.
  - eapply wp_new_line_scroll; eauto. lia.
Qed.

(** ** One character *)

(** [push] on a line with room. *)
Lemma wp_Line_push (Q : result unit Error -> Line -> Prop) line ch :
  line_wf line -> line_length line < LINE_MAX ->
  (forall line', line_wf line' -> line_text line' = line_text line ++ [ch] ->
     Q (Ok tt) line') ->
  wp (Line_push COLUMNS ch) Q line.
Proof.
  intros Hwf Hlt HQ. pose proof Hwf as [Hc Hl].
  unfold LINE_MAX, COLUMNS in *. unfold Line_push. wp_steps.
  replace (line_length line =? 150) with false by lia. wp_step.
  apply wp_index_set; [lia|]. wp_steps; [lia|]. apply HQ.
  - split; simpl; [by rewrite length_insert|unfold LINE_MAX, COLUMNS; lia].
  - unfold line_text. simpl.
    replace (Z.to_nat (line_length line + 1)) with (S (Z.to_nat (line_length line))) by lia.
    erewrite take_S_r; [|apply list_lookup_insert_eq; lia].
    by rewrite take_insert_ge by lia.
Qed.

(** The line the cursor is in. *)
Lemma cursor_line c hist l : shows c hist -> last hist = Some l ->
  exists k line, cursor_row c = Z.of_nat k /\ (k < Z.to_nat ROWS)%nat /\
    k = (length (visible hist) - 1)%nat /\ buffer c !! k = Some line /\
    line_wf line /\ line_text line = l /\ console_text c !! k = Some l /\
    cursor_column c = line_length line.
Proof.
  intros Hs Hl. pose proof (screenful_last _ _ Hl) as Hk.
  set (k := (length (visible hist) - 1)%nat) in *.
  rewrite <- (shows_text _ _ Hs) in Hk. pose proof Hk as Htext.
  unfold console_text in Hk. rewrite list_lookup_fmap in Hk.
  destruct (buffer c !! k) as [line|] eqn:Eline; [|done]. injection Hk as Elt.
  pose proof (shows_row _ _ Hs) as Hrow.
  assert (length hist <> 0%nat).
  { pose proof (shows_nonempty _ _ Hs). destruct hist; simpl; [done|lia]. }
  pose proof (length_visible hist) as Hvis. unfold ROWS in *.
  pose proof (shows_wf _ _ Hs) as Hwf.
  eapply Forall_lookup_1 in Hwf as Hlwf; [|exact Eline].
  exists k, line. repeat (split; [first [done|lia]|]).
  rewrite (shows_column _ _ Hs _ Hl), <- Elt. by apply length_line_text.
Qed.

(** The last line grows by a character. *)
Lemma shows_put c hist l ch line' k :
  shows c hist -> last hist = Some l -> cursor_row c = Z.of_nat k ->
  k = (length (visible hist) - 1)%nat -> line_wf line' -> line_text line' = l ++ [ch] ->
  shows (set_cursor_column (cursor_column c + 1)
      (set_buffer (<[Z.to_nat (cursor_row c) := line']> (buffer c)) c))
    (removelast hist ++ [l ++ [ch]]).
Proof.
  intros Hs Hl Hrow Ek Hwf' Elt'. pose proof (shows_rows _ _ Hs) as Hrows.
  split; cbn [cursor_row cursor_column set_cursor_column set_buffer buffer].
  - by rewrite length_insert.
  - by apply Forall_insert; [apply Hs|].
  - intros E. by apply app_nil in E as [_ ?].
  - unfold console_text. cbn [buffer set_cursor_column set_buffer].
    rewrite list_fmap_insert, Hrow, Nat2Z.id, Elt', (screenful_put _ _ _ Hl), <- Ek.
    f_equal. exact (shows_text _ _ Hs).
  - rewrite Hrow, length_visible, length_app. simpl.
    rewrite (last_removelast _ _ Hl), length_visible, length_app in Ek. simpl in Ek.
    unfold ROWS in *. lia.
  - intros l0. rewrite last_snoc. intros [= <-].
    rewrite length_app, (shows_column _ _ Hs _ Hl). simpl. lia.
Qed.

Lemma wp_put fb p hist l ch (Q : unit -> _ -> Prop) :
  fb_wf fb -> fits fb -> con_inv fb p hist -> ch <> LineFeed ->
  last hist = Some l -> Z.of_nat (length l) < LINE_MAX ->
  (forall p', con_inv fb p' (removelast hist ++ [l ++ [ch]]) -> con_frame p p' ->
     Q tt p') ->
  wp (print_char ch) Q p.
Proof.
  destruct p as [c g]. intros Hwf Hfits [Hfree Hfb Hs Hr] Hch Hl Hlen HQ.
  cbn [fst snd] in *.
  destruct (cursor_line _ _ _ Hs Hl)
    as (k & line & Hrow & Hk & Ek & Eline & Hlwf & Elt & Etext & Hcol).
  assert (Hll : line_length line = Z.of_nat (length l))
    by (rewrite <- Elt; symmetry; by apply length_line_text).
  unfold ROWS, LINE_MAX, COLUMNS in Hk, Hlen.
  unfold print_char, self, set_self. wp_step. apply wp_gets. cbn [fst].
  replace (ch =? LineFeed) with false by lia.
  replace (cursor_column c <? COLUMNS - 1) with true by (unfold COLUMNS; lia).
  unfold CHARACTER_WIDTH, CHARACTER_HEIGHT. wp_steps; [lia..|].
  eapply (wp_write_cell _ (screen_of g)); [done|by rewrite Hfb|by rewrite Hfb
    |unfold COLUMNS; lia|unfold ROWS; lia|reflexivity|apply painted_refl|].
  intros g' Hfree' HP. simpl in HP. wp_steps. cbn [fst snd].
  eapply wp_index; [lia|rewrite Hrow, Nat2Z.id; exact Eline|]. wp_steps.
  apply wp_expect, wp_Line_push; [done|unfold LINE_MAX, COLUMNS; lia|].
  intros line' Hlwf' Elt'. exists tt. split; [done|]. wp_steps.
  pose proof (shows_rows _ _ Hs) as Hrows. unfold ROWS in Hrows.
  apply wp_index_set; [lia|]. wp_steps; cbn [fst snd cursor_column set_buffer]; [lia|].
  set (c' := set_cursor_column _ _).
  assert (Htext' : console_text c' = <[k := l ++ [ch]]> (console_text c)).
  { unfold c', console_text. simpl. rewrite list_fmap_insert, Hrow, Nat2Z.id.
    by rewrite Elt', Elt. }
  assert (Hpx : forall x y, 0 <= x -> 0 <= y -> text_pixel (console_text c') x y =
    text_pixel (console_text c) x y ||
    in_glyph (CHARACTER_WIDTH * cursor_column c) (CHARACTER_HEIGHT * cursor_row c) ch x y).
  { intros x y Hx Hy. rewrite Htext', (text_pixel_insert _ _ l) by done.
    by rewrite Hcol, Hll, Hrow. }
  apply HQ.
  - split; cbn [fst snd]; [done|by rewrite (painted_fb _ _ _ _ HP)| |].
    + apply (shows_put c hist l ch line' k); [done..|by rewrite Elt', Elt].
    + eapply rendered_painted; [exact Hr|done|done|exact HP|]. exact Hpx.
  - split; [done|done|]. cbn [fst snd]. eapply same_outside_painted; [exact HP|].
    intros x y [Hx Hy]. simpl. unfold in_glyph, in_rect, console_area, in_rect,
      CHARACTER_WIDTH, CHARACTER_HEIGHT, COLUMNS, ROWS. lia.
Qed.

Lemma wp_print_char fb p hist ch (Q : unit -> _ -> Prop) :
  fb_wf fb -> fits fb -> con_inv fb p hist ->
  (forall p', con_inv fb p' (term_put hist ch) -> con_frame p p' -> Q tt p') ->
  wp (print_char ch) Q p.
Proof.
  intros Hwf Hfits Hinv HQ. unfold term_put in HQ.
  destruct (ch =? LineFeed) eqn:Elf.
  { unfold print_char, self. wp_step. apply wp_gets. rewrite Elf.
    by eapply wp_new_line. }
  destruct (last hist) as [l|] eqn:El.
  2: { apply last_None in El. pose proof (shows_nonempty _ _ (inv_shows _ _ _ Hinv)).
       done. }
  destruct (Z.of_nat (length l) <? LINE_MAX) eqn:Elen.
  { eapply wp_put; [done..|lia|exact El|lia|done]. }
  unfold print_char, self. wp_step. apply wp_gets. rewrite Elf.
  rewrite (shows_column _ _ (inv_shows _ _ _ Hinv) _ El).
  replace (Z.of_nat (length l) <? COLUMNS - 1) with false
    by (unfold LINE_MAX in *; lia).
  apply wp_ret. by apply HQ, con_frame_refl.
Qed.

Definition is_ascii (s : list Z) : Prop := Forall (fun b => 0 <= b < 128) s.

Lemma as_ascii_Some s : is_ascii s -> as_ascii s = Some s.
Proof.
  intros Hs. unfold as_ascii. replace (forallb _ s) with true; [done|].
  symmetry. apply forallb_forall. intros b Hb.
  eapply List.Forall_forall in Hs; [|exact Hb]. lia.
Qed.

Lemma wp_print fb p hist s (Q : unit -> _ -> Prop) :
  fb_wf fb -> fits fb -> con_inv fb p hist -> is_ascii s ->
  (forall p', con_inv fb p' (term_print hist s) -> con_frame p p' -> Q tt p') ->
  wp (Console_print s) Q p.
Proof.
  intros Hwf Hfits Hinv Hs HQ. unfold Console_print. rewrite as_ascii_Some by done.
  apply (wp_for_each _ (fun rest p' => exists hist', con_inv fb p' hist' /\
    con_frame p p' /\ term_print hist' rest = term_print hist s)).
  - exists hist. split; [done|]. split; [apply con_frame_refl|done].
  - intros ch rest p' (hist' & Hinv' & Hfr & E).
    eapply wp_print_char; [done|done|exact Hinv'|]. intros p'' Hinv'' Hfr'.
    exists (term_put hist' ch). split; [done|]. split; [|done].
    by eapply con_frame_trans.
  - intros p' (hist' & Hinv' & Hfr & E). simpl in E. subst hist'. by apply HQ.
Qed.

Lemma wp_write_fmt fb p hist pieces (Q : result unit Error -> _ -> Prop) :
  fb_wf fb -> fits fb -> con_inv fb p hist -> Forall is_ascii pieces ->
  (forall p', con_inv fb p' (term_print hist (concat pieces)) -> con_frame p p' ->
     Q (Ok tt) p') ->
  wp (Console_write_fmt pieces) Q p.
Proof.
  intros Hwf Hfits Hinv Hs HQ.
  apply (wp_try_for_each _ (fun rest p' => exists hist', con_inv fb p' hist' /\
    con_frame p p' /\ Forall is_ascii rest /\
    term_print hist' (concat rest) = term_print hist (concat pieces))).
  - exists hist. split; [done|]. split; [apply con_frame_refl|done].
  - intros x rest p' (hist' & Hinv' & Hfr & Hrest & E).
    apply Forall_cons in Hrest as [Hx Hrest].
    unfold Console_write_str. wp_step. eapply wp_print; [done|done|exact Hinv'|done|].
    intros p'' Hinv'' Hfr'. wp_step. split; [done|].
    exists (term_print hist' x). split; [done|]. split; [by eapply con_frame_trans|].
    split; [done|]. rewrite <- E. simpl. unfold term_print. by rewrite foldl_app.
  - intros p' (hist' & Hinv' & Hfr & _ & E). simpl in E. subst hist'. by apply HQ.
Qed.

Lemma split_lines_cons s : exists x xs, split_lines s = x :: xs.
Proof. destruct s; simpl; [eauto|]. repeat case_match; eauto. Qed.

(** The terminal after a text is its cut lines. *)
Lemma term_print_lines s : forall h l,
  term_print (h ++ [cut_line l]) s =
    h ++ map cut_line (match split_lines s with
                       | x :: xs => (l ++ x) :: xs
                       | [] => [l]
                       end).
Proof.
  induction s as [|ch s IH]; intros h l; simpl.
  { by rewrite app_nil_r. }
  unfold term_put. rewrite last_snoc, removelast_last.
  destruct (ch =? LineFeed).
  - pose proof (IH (h ++ [cut_line l]) []) as E. change (cut_line []) with (@nil Z) in E.
    unfold term_print in *. simpl. rewrite E, <- (assoc_L (++)), app_nil_r. simpl.
    by destruct (split_lines_cons s) as (x & xs & ->).
  - transitivity (term_print (h ++ [cut_line (l ++ [ch])]) s).
    + f_equal. unfold cut_line, LINE_MAX, COLUMNS. rewrite length_take.
      destruct (Z.ltb_spec (Z.of_nat (Z.to_nat (150 - 1) `min` length l)) (150 - 1)).
      * by rewrite (take_ge l), (take_ge (l ++ [ch])) by (rewrite ?length_app; simpl; lia).
      * by rewrite take_app_le by lia.
    + rewrite IH. f_equal.
      destruct (split_lines_cons s) as (x & xs & ->). by rewrite <- (assoc_L (++)).
Qed.

Lemma term_print_fresh s : term_print [[]] s = map cut_line (split_lines s).
Proof.
  pose proof (term_print_lines s [] []) as E. simpl app in E.
  change (cut_line []) with (@nil Z) in E. rewrite E.
  by destruct (split_lines_cons s) as (x & xs & ->).
Qed.

(** The empty console. *)
Lemma wp_init g bg fg c (Q : result unit Error -> _ -> Prop) :
  fb_free g -> fb_wf (scr_fb (screen_of g)) -> fits (scr_fb (screen_of g)) ->
  (forall p', con_inv (scr_fb (screen_of g)) p' [[]] ->
     fg_color p'.1 = fg -> bg_color p'.1 = bg ->
     same_outside (screen_of g) (screen_of p'.2) -> Q (Ok tt) p') ->
  wp (Console_init bg fg) Q (c, g).
Proof.
  intros Hfree Hwf Hfits HQ. unfold Console_init. wp_step.
  destruct Hfits as [Hfw Hfh]. apply wp_zoom. apply wp_frame_buf; [done|].
  eapply wp_mono.
  { eapply (painted_rect (screen_of g) _ (fun _ _ => false)); [exact Hwf|unfold COLUMNS, ROWS, CHARACTER_WIDTH, CHARACTER_HEIGHT in *; lia..
      |reflexivity|apply painted_refl]. }
  intros r s [-> HP] g' Hfree' Hd Hm. unfold set_self. wp_steps. cbn [snd].
  assert (Hscr : screen_of g' = s) by (unfold screen_of; rewrite Hd, Hm; by destruct s).
  rewrite <- Hscr in HP. apply HQ; cbn [fst snd]; [|done|done|].
  - split; cbn [fst snd]; [done|apply HP| |].
    + split; [done| |done|done|done|]; cbn [buffer].
      * apply Forall_replicate. split; [done|]. unfold LINE_MAX, COLUMNS. simpl. lia.
      * by intros l [= <-].
    + intros x y Hin Harea. rewrite (painted_fb _ _ _ _ HP) in *.
      rewrite (painted_pixels _ _ _ _ HP) by done.
      change (in_rect _ _ _ _ x y) with (console_area x y). rewrite Harea. simpl orb.
      replace (text_pixel _ x y) with false; [done|].
      symmetry. apply (text_pixel_app_empty [] 25).
  - eapply same_outside_painted; [exact HP|]. done.
Qed.

(** * Properties *)

(** C5: printing refines the terminal.  On a frame buffer the console fits on,
    [print] of any ASCII text returns, the line buffer shows the last [ROWS]
    lines of everything printed, the screen is the picture of the line buffer,
    and nothing outside the console area changes. *)
Theorem print_refines fb p hist s :
  fb_wf fb -> fits fb -> con_inv fb p hist -> is_ascii s ->
  exists p', Console_print s p = Ret tt p' /\
    con_inv fb p' (term_print hist s) /\ con_frame p p'.
Proof.
  intros Hwf Hfits Hinv Hs.
  assert (Hwp : wp (Console_print s) (fun _ p' => con_inv fb p' (term_print hist s) /\
    con_frame p p') p) by (eapply wp_print; eauto).
  apply wp_returns in Hwp as ([] & p' & E & ? & ?). eauto.
Qed.

(** C29: from [init] on, what the screen shows after a text is that text: the
    pixels of the console area are the picture, in the two colours of [init], of
    the last [ROWS] lines of the text cut at [COLUMNS - 1] characters. *)
Theorem init_print_screen g c bg fg s :
  fb_free g -> fb_wf (scr_fb (screen_of g)) -> fits (scr_fb (screen_of g)) ->
  is_ascii s ->
  exists p1 p2,
    Console_init bg fg (c, g) = Ret (Ok tt) p1 /\ Console_print s p1 = Ret tt p2 /\
    console_text p2.1 = screenful (map cut_line (split_lines s)) /\
    forall x y, inside (scr_fb (screen_of g)) x y -> console_area x y = true ->
      pixel_at (screen_of p2.2) x y = Some (color_word (scr_fb (screen_of g))
        (if text_pixel (screenful (map cut_line (split_lines s))) x y
         then fg else bg)).
Proof.
  intros Hfree Hwf Hfits Hs. set (fb := scr_fb (screen_of g)) in *.
  assert (Hwp : wp (Console_init bg fg) (fun r p' => r = Ok tt /\
    con_inv fb p' [[]] /\ fg_color p'.1 = fg /\ bg_color p'.1 = bg) (c, g))
    by (eapply wp_init; eauto).
  apply wp_returns in Hwp as (r & p1 & E1 & -> & Hinv1 & Hfg & Hbg).
  assert (Hwp : wp (Console_print s) (fun _ p' => con_inv fb p' (term_print [[]] s) /\
    con_frame p1 p') p1) by (eapply wp_print; eauto).
  apply wp_returns in Hwp as ([] & p2 & E2 & Hinv2 & [Hfg2 Hbg2 _]).
  rewrite term_print_fresh in Hinv2. destruct Hinv2 as [_ Hfb2 Hs2 Hr2].
  exists p1, p2. split; [exact E1|]. split; [exact E2|]. split; [apply Hs2|].
  intros x y Hin Harea. rewrite <- Hfb2 in Hin. rewrite (Hr2 x y Hin Harea).
  rewrite (shows_text _ _ Hs2), Hfb2, Hfg2, Hbg2, Hfg, Hbg. done.
Qed.

(** on a frame buffer smaller than the console [init] is an
    [OutsideBufferError]; the console is left as it was. *)
Theorem init_too_small g c bg fg :
  fb_free g -> fb_wf (scr_fb (screen_of g)) -> ~ fits (scr_fb (screen_of g)) ->
  exists g', Console_init bg fg (c, g) =
    Ret (Err (Error_FrameBufferError OutsideBufferError)) (c, g').
Proof.
  intros Hfree Hwf Hfits.
  destruct (fill_rect_outside (screen_of g) 0 0 (COLUMNS * CHARACTER_WIDTH)
    (ROWS * CHARACTER_HEIGHT) bg) as (s' & P & E & _); [done|..];
    [unfold fits, COLUMNS, ROWS, CHARACTER_WIDTH, CHARACTER_HEIGHT in *; lia..|].
  pose proof (frame_buf_lock (FrameBuf_fill_rect 0 0 (COLUMNS * CHARACTER_WIDTH)
    (ROWS * CHARACTER_HEIGHT) bg) g) as Hl.
  unfold fb_free in Hfree. rewrite Hfree in Hl. unfold screen_of in E. rewrite E in Hl.
  destruct Hl as (g' & Eg & _). exists g'. unfold Console_init.
  erewrite bind_try_Err; [reflexivity|]. unfold on_fb, zoom, fill_rect. simpl snd.
  by rewrite Eg.
Qed.

(** ** The global console *)

Implicit Types (G : Gfx mutex).

Definition con_free G : Prop := mutex_held (CONSOLE G) = false.
Definition con_of G : Console * FbState mutex := (mutex_data (CONSOLE G), gfx_fb G).

Lemma wp_console {A} (m : M (Console * FbState mutex) (result A Error)) what Q G :
  con_free G ->
  wp m (fun r p => exists a, r = Ok a /\
     forall G', con_free G' -> con_of G' = p -> Q a G') (con_of G) ->
  wp (expect what (console m)) Q G.
Proof.
  intros Hfree Hm. apply wp_expect, wp_with_guard; [done|]. intros mx Hmx.
  apply wp_zoom. eapply wp_mono; [exact Hm|]. intros r [c g] (a & -> & HQ).
  exists a. split; [done|]. unfold con_free, con_of in HQ. apply HQ; simpl;
    by autorewrite with mutex.
Qed.

(** The kernel's console: initialised, with both locks free. *)
Record gfx_inv (fb : FrameBuf) G (hist : list (list Z)) : Prop := {
  gfx_free : con_free G;
  gfx_con : con_inv fb (con_of G) hist
}.

(** The two sections of [kprintln!] that hold the console. *)
Lemma wp_fmt_section what fb G hist pieces (Q : unit -> _ -> Prop) :
  fb_wf fb -> fits fb -> gfx_inv fb G hist -> Forall is_ascii pieces ->
  (forall G', gfx_inv fb G' (term_print hist (concat pieces)) -> Q tt G') ->
  wp (expect what (console (Console_write_fmt pieces))) Q G.
Proof.
  intros Hwf Hfits [Hfree Hinv] Hp HQ.
  apply wp_console; [done|]. eapply wp_write_fmt; [done|done|exact Hinv|done|].
  intros p1 Hinv1 _. exists tt. split; [done|]. intros G1 Hfree1 <-. by apply HQ.
Qed.

Lemma wp_newline_section what fb G hist (Q : unit -> _ -> Prop) :
  fb_wf fb -> fits fb -> gfx_inv fb G hist ->
  (forall G', gfx_inv fb G' (term_print hist [LineFeed]) -> Q tt G') ->
  wp (expect what (println (bytes_of_string EmptyString))) Q G.
Proof.
  intros Hwf Hfits [Hfree Hinv] HQ.
  apply wp_console; [done|]. unfold Console_println. wp_steps.
  eapply wp_print; [done|done|exact Hinv|by constructor|]. intros p2 Hinv2 _.
  eapply wp_new_line; [done|done|exact Hinv2|]. intros p3 Hinv3 _. wp_step.
  exists tt. split; [done|]. intros G3 Hfree3 <-. by apply HQ.
Qed.

Lemma wp_kprintln fb G hist pieces (Q : unit -> _ -> Prop) :
  fb_wf fb -> fits fb -> gfx_inv fb G hist -> Forall is_ascii pieces ->
  (forall G', gfx_inv fb G' (term_print hist (concat pieces ++ [LineFeed])) ->
     Q tt G') ->
  wp (kprintln pieces) Q G.
Proof.
  intros Hwf Hfits Hinv Hp HQ. unfold kprintln. wp_step.
  eapply wp_fmt_section; [done|done|exact Hinv|done|]. intros G1 Hinv1.
  eapply wp_newline_section; [done|done|exact Hinv1|]. intros G2 Hinv2. apply HQ.
  unfold term_print in *. rewrite foldl_app. exact Hinv2.
Qed.

(** [kprintln!] prints its message and a line feed and leaves both locks free. *)
Theorem kprintln_spec fb G hist pieces :
  fb_wf fb -> fits fb -> gfx_inv fb G hist -> Forall is_ascii pieces ->
  exists G', kprintln pieces G = Ret tt G' /\
    gfx_inv fb G' (term_print hist (concat pieces ++ [LineFeed])).
Proof.
  intros Hwf Hfits Hinv Hp.
  assert (Hwp : wp (kprintln pieces) (fun _ G' =>
    gfx_inv fb G' (term_print hist (concat pieces ++ [LineFeed]))) G)
    by (eapply wp_kprintln; eauto).
  apply wp_returns in Hwp as ([] & G' & E & ?). eauto.
Qed.

Lemma kprintln_held G pieces :
  mutex_held (CONSOLE G) = true ->
  kprintln pieces G = Panic (UnwrapFailed "kprintln!") G.
Proof.
  intros Hheld. unfold kprintln. apply bind_Panic. unfold fmt_section, expect.
  assert (E : console (Console_write_fmt pieces) G =
    Ret (Err (from_ConsoleError ConsoleLockError)) G) by (by apply with_guard_busy).
  by rewrite (bind_Ret _ _ _ _ _ E).
Qed.

(** while the console is locked - in an interrupt taken inside [kprintln!], or
    in the panic handler after a panic inside it - [kprintln!] panics, and the
    console stays locked. *)
Theorem kprintln_locked G pieces :
  mutex_held (CONSOLE G) = true ->
  kprintln pieces G = Panic (UnwrapFailed "kprintln!") G.
Proof. apply kprintln_held. Qed.
End drawing.

(** * Witnesses: the 1280x800 mode of debug.txt, with the reference mutex *)

Definition qemu_fb : FrameBuf := {|
  width := 1280; height := 800; bytes_per_pixel := 4; stride := 1280;
  pixel_format := Bgr; framebuf_addr := 0x80000000; framebuf_size := 0x3e8000;
  pixel_writer := write_pixel_bgr_fn
|}.
Definition qemu_state : FbState spin_lock := mkFbState (SpinLock false qemu_fb) ∅.

Lemma qemu_fb_wf : fb_wf qemu_fb.
Proof. split; simpl; lia. Qed.

Lemma qemu_fits : fits qemu_fb.
Proof.
  unfold fits, COLUMNS, ROWS, CHARACTER_WIDTH, CHARACTER_HEIGHT. simpl. lia.
Qed.

Lemma qemu_free : fb_free qemu_state.
Proof. reflexivity. Qed.

Definition hello : list Z := bytes_of_string "hello".

Lemma hello_ascii : is_ascii hello.
Proof. unfold is_ascii, hello. simpl. repeat constructor; lia. Qed.

(** An initialised console. *)
Lemma qemu_console : exists p, con_inv (mutex := spin_lock) qemu_fb p [[]].
Proof.
  assert (H : wp (Console_init 0x3c383600 0xebdbb200) (fun _ p => con_inv qemu_fb p [[]])
    (Console_new_empty, qemu_state)).
  { eapply wp_init; [done|exact qemu_fb_wf|exact qemu_fits|]. auto. }
  destruct (proj1 (wp_returns _ _ _) H) as (_ & p & _ & Hp). exists p. exact Hp.
Qed.

Lemma print_refines_witness :
  exists p p' : Console * FbState spin_lock,
    con_inv qemu_fb p [[]] /\ Console_print hello p = Ret tt p' /\
    con_inv qemu_fb p' [hello] /\ con_frame p p'.
Proof.
  destruct qemu_console as [p Hp].
  destruct (print_refines qemu_fb p [[]] hello qemu_fb_wf qemu_fits Hp hello_ascii)
    as (p' & E & Hinv & Hfr).
  exists p, p'. auto.
Defined.

Lemma init_print_screen_witness :
  exists p1 p2 : Console * FbState spin_lock,
    Console_init 0x3c383600 0xebdbb200 (Console_new_empty, qemu_state) = Ret (Ok tt) p1 /\
    Console_print hello p1 = Ret tt p2 /\
    console_text p2.1 = screenful [hello].
Proof.
  destruct (init_print_screen qemu_state Console_new_empty 0x3c383600 0xebdbb200 hello
    qemu_free qemu_fb_wf qemu_fits hello_ascii) as (p1 & p2 & E1 & E2 & Ht & _).
  exists p1, p2. split; [exact E1|]. split; [exact E2|]. exact Ht.
Defined.

(** 1024x768 is too narrow for 150 columns of 8 pixels. *)
Definition xga_fb : FrameBuf := {|
  width := 1024; height := 768; bytes_per_pixel := 4; stride := 1024;
  pixel_format := Bgr; framebuf_addr := 0x80000000; framebuf_size := 0x300000;
  pixel_writer := write_pixel_bgr_fn
|}.

Lemma init_too_small_witness :
  exists g', Console_init 0x3c383600 0xebdbb200
      (Console_new_empty, mkFbState (SpinLock false xga_fb) ∅) =
    Ret (Err (Error_FrameBufferError OutsideBufferError)) (Console_new_empty, g').
Proof.
  apply (init_too_small (mkFbState (SpinLock false xga_fb) ∅) Console_new_empty
    0x3c383600 0xebdbb200).
  - reflexivity.
  - split; simpl; lia.
  - unfold fits, COLUMNS, ROWS, CHARACTER_WIDTH, CHARACTER_HEIGHT. simpl. lia.
Defined.

Lemma kprintln_spec_witness :
  exists G G' : Gfx spin_lock, gfx_inv qemu_fb G [[]] /\
    kprintln [hello] G = Ret tt G' /\ gfx_inv qemu_fb G' [hello; []].
Proof.
  destruct qemu_console as [[c g] Hp].
  assert (HG : gfx_inv qemu_fb (mkGfx (SpinLock false c) g) [[]]) by (split; done).
  destruct (kprintln_spec qemu_fb _ _ [hello] qemu_fb_wf qemu_fits HG) as (G' & E & Hinv).
  { constructor; [exact hello_ascii|constructor]. }
  exists (mkGfx (SpinLock false c) g), G'. auto.
Defined.

Lemma kprintln_locked_witness :
  kprintln [hello] (mkGfx (SpinLock true Console_new_empty) qemu_state) =
    Panic (UnwrapFailed "kprintln!") (mkGfx (SpinLock true Console_new_empty) qemu_state).
Proof. apply kprintln_locked. reflexivity. Defined.

End Console.
