(* ===== verification/Gdt.v ===== *)
(** The global descriptor table (kernel/src/gdt.rs): the bit-field setters of a
    segment descriptor, the table [init] builds, and the segment reloads. *)

From S2P Require Import Prelude Machine External.

Module Gdt.

(** * Segment descriptors: a newtype over [u64] *)

Definition SegmentDescriptor : Type := Z.
Definition SegmentDescriptor_new : SegmentDescriptor := 0.

Inductive DescriptorType : Type :=
  | Upper8Bytes | LDT | TSSAvailable | TSSBusy | CallGate | InterruptGate | TrapGate
  | ReadWrite | ExecuteRead.

Definition DescriptorType_get (t : DescriptorType) : Z :=
  match t with
  | Upper8Bytes => 0
  | LDT => 2
  | TSSAvailable => 9
  | TSSBusy => 11
  | CallGate => 12
  | InterruptGate => 14
  | TrapGate => 15
  | ReadWrite => 2
  | ExecuteRead => 10
  end.

(** Each setter clears its field and ors the value in; a value wider than the
    field is not masked. *)
Definition set_limit_low (v : SegmentDescriptor) (value : Z) : SegmentDescriptor :=
  Z.lor (Z.land v (unot 64 0xffff)) value.
Definition set_base_low (v : SegmentDescriptor) (value : Z) : SegmentDescriptor :=
  Z.lor (Z.land v (unot 64 (ushl 64 0xffff 16))) (ushl 64 value 16).
Definition set_base_middle (v : SegmentDescriptor) (value : Z) : SegmentDescriptor :=
  Z.lor (Z.land v (unot 64 (ushl 64 0xff 32))) (ushl 64 value 32).
Definition set_descriptor_type (v : SegmentDescriptor) (value : DescriptorType) :
    SegmentDescriptor :=
  Z.lor (Z.land v (unot 64 (ushl 64 0xf 40))) (ushl 64 (DescriptorType_get value) 40).
Definition set_system_segment (v : SegmentDescriptor) (value : bool) : SegmentDescriptor :=
  Z.lor (Z.land v (unot 64 (ushl 64 1 44)))
    (if value then ushl 64 1 44 else ushl 64 0 44).
Definition set_descriptor_privilege_level (v : SegmentDescriptor) (value : Z) :
    SegmentDescriptor :=
  Z.lor (Z.land v (unot 64 (ushl 64 3 45))) (ushl 64 value 45).
Definition set_present (v : SegmentDescriptor) (value : bool) : SegmentDescriptor :=
  Z.lor (Z.land v (unot 64 (ushl 64 1 47)))
    (if value then ushl 64 1 47 else ushl 64 0 47).
Definition set_limit_high (v : SegmentDescriptor) (value : Z) : SegmentDescriptor :=
  Z.lor (Z.land v (unot 64 (ushl 64 0xf 48))) (ushl 64 value 48).
Definition set_available (v : SegmentDescriptor) (value : bool) : SegmentDescriptor :=
  Z.lor (Z.land v (unot 64 (ushl 64 1 52)))
    (if value then ushl 64 1 52 else ushl 64 0 52).
Definition set_long_mode (v : SegmentDescriptor) (value : bool) : SegmentDescriptor :=
  Z.lor (Z.land v (unot 64 (ushl 64 1 53)))
    (if value then ushl 64 1 53 else ushl 64 0 53).
Definition set_default_operation_size (v : SegmentDescriptor) (value : bool) :
    SegmentDescriptor :=
  Z.lor (Z.land v (unot 64 (ushl 64 1 54)))
    (if value then ushl 64 1 54 else ushl 64 0 54).
Definition granularity (v : SegmentDescriptor) (value : bool) : SegmentDescriptor :=
  Z.lor (Z.land v (unot 64 (ushl 64 1 55)))
    (if value then ushl 64 1 55 else ushl 64 0 55).
Definition set_base_high (v : SegmentDescriptor) (value : Z) : SegmentDescriptor :=
  Z.lor (Z.land v (unot 64 (ushl 64 0xff 56))) (ushl 64 value 56).

Definition set_code_segment (v : SegmentDescriptor) (descriptor_type : DescriptorType)
    (descriptor_privilege_level base limit : Z) : SegmentDescriptor :=
  let v := 0 in
  let v := set_base_low v (as_u 16 (Z.land base 0xffff)) in
  let v := set_base_middle v (as_u 8 (Z.land (ushr base 16) 0xff)) in
  let v := set_base_high v (as_u 8 (Z.land (ushr base 24) 0xff)) in
  let v := set_limit_low v (as_u 16 (Z.land limit 0xffff)) in
  let v := set_limit_high v (as_u 8 (Z.land (ushr limit 16) 0xff)) in
  let v := set_descriptor_type v descriptor_type in
  let v := set_system_segment v true in
  let v := set_descriptor_privilege_level v descriptor_privilege_level in
  let v := set_present v true in
  let v := set_available v false in
  let v := set_long_mode v true in
  let v := set_default_operation_size v false in
  granularity v true.

Definition set_data_segment (v : SegmentDescriptor) (descriptor_type : DescriptorType)
    (descriptor_privilege_level base limit : Z) : SegmentDescriptor :=
  let v := set_code_segment v descriptor_type descriptor_privilege_level base limit in
  let v := set_long_mode v true in
  set_default_operation_size v true.

(** * Loading the table *)

(** [SegmentSelector::new] of the [x86_64] crate; [Ring0] is 0. *)
Class SelectorApi := { selector_new : Z -> Z -> Z }.

(** What the crate documents: the index, and the requested privilege level in
    the two low bits. *)
Class SelectorLaws `{SelectorApi} := {
  selector_index i rpl : 0 <= i < 2 ^ 13 -> 0 <= rpl < 4 ->
    selector_new i rpl / 8 = i;
  selector_rpl i rpl : 0 <= i < 2 ^ 13 -> 0 <= rpl < 4 ->
    selector_new i rpl mod 4 = rpl
}.

#[export] Instance selector_reference : SelectorApi :=
  {| selector_new i rpl := Z.lor (Z.shiftl i 3) rpl |}.

Section init.
Context {mutex : Type -> Type} `{SpinMutexLaws mutex} {D : Type} `{Device D}.
Context `{SelectorApi}.

(** The static [GDT], at [gdt_addr], and the machine. *)
Record GdtState : Type := mkGdtState {
  GDT : mutex (list SegmentDescriptor);
  gdt_bus : Bus D
}.
Definition set_GDT (m : mutex (list SegmentDescriptor)) (g : GdtState) : GdtState :=
  mkGdtState m (gdt_bus g).

Definition Ring0 : Z := 0.
Definition size_of_Gdt : Z := 3 * 8.

(** Inside the lock: the guarded table and the rest of the state. *)
Notation GM := (M (list SegmentDescriptor * GdtState)).

Definition gdt_io {A} (m : M (Bus D) A) : GM A :=
  zoom (fun p => gdt_bus p.2) (fun b p => (p.1, mkGdtState (GDT p.2) b)) m.
Definition set_reg (reg : string) (selector : Z) : GM unit :=
  gdt_io (io_write (SetSegment reg selector)).
Definition load_gdt (limit offset : Z) : GM unit :=
  gdt_io (io_write (Lgdt limit offset)).

(** [gdt[i] = f(gdt[i])]. *)
Definition update_entry (i : Z) (f : SegmentDescriptor -> SegmentDescriptor) : GM unit :=
  zoom fst (fun t p => (t, p.2))
    (gdt ← get_st; v ← index gdt i; gdt' ← index_set gdt i (f v); put_st gdt').

Definition init (gdt_addr : Z) : M GdtState unit :=
  with_lock GDT set_GDT (
    update_entry 0 (fun _ => 0) ;;
    update_entry 1 (fun v => set_code_segment v ExecuteRead 0 0 0xfffff) ;;
    update_entry 2 (fun v => set_data_segment v ReadWrite 0 0 0xfffff) ;;
    limit ← usub 16 (as_u 16 size_of_Gdt) 1;
    load_gdt limit gdt_addr ;;
    set_reg "DS" (selector_new 0 Ring0) ;;
    set_reg "ES" (selector_new 0 Ring0) ;;
    set_reg "FS" (selector_new 0 Ring0) ;;
    set_reg "GS" (selector_new 0 Ring0) ;;
    set_reg "CS" (selector_new 1 Ring0) ;;
    set_reg "SS" (selector_new 2 Ring0)).
End init.
Arguments GdtState : clear implicits.

(** * Specification: a descriptor as the processor reads it *)

Record segment : Type := mkSegment {
  seg_base : Z;
  seg_limit : Z;
  seg_type : Z;
  seg_code_or_data : bool;
  seg_dpl : Z;
  seg_present : bool;
  seg_available : bool;
  seg_long : bool;
  seg_default_size : bool;
  seg_granularity : bool
}.

Definition decode (v : SegmentDescriptor) : segment := {|
  seg_base := Z.lor (field v 16 24) (Z.shiftl (field v 56 8) 24);
  seg_limit := Z.lor (field v 0 16) (Z.shiftl (field v 48 4) 16);
  seg_type := field v 40 4;
  seg_code_or_data := Z.testbit v 44;
  seg_dpl := field v 45 2;
  seg_present := Z.testbit v 47;
  seg_available := Z.testbit v 52;
  seg_long := Z.testbit v 53;
  seg_default_size := Z.testbit v 54;
  seg_granularity := Z.testbit v 55
|}.

(** * Lemmas *)

(** Every setter writes [value] into the [len] bits at [lo]. *)
Definition insert_field (v lo len value : Z) : Z :=
  Z.lor (Z.land v (unot 64 (ushl 64 (Z.ones len) lo))) (ushl 64 value lo).

Lemma testbit_insert_field v lo len value i :
  0 <= lo -> 0 <= len -> 0 <= i < 64 ->
  Z.testbit (insert_field v lo len value) i =
    if (lo <=? i) && (i <? lo + len) then Z.testbit value (i - lo)
    else Z.testbit v i || Z.testbit value (i - lo).
Proof.
  intros Hlo Hlen Hi. unfold insert_field. bits_norm.
  replace (i <? 64) with true by lia. simpl.
  destruct (Z.leb_spec lo i); simpl.
  - rewrite Z.testbit_ones_nonneg by lia.
    replace (i - lo <? len) with (i <? lo + len) by lia.
    destruct (i <? lo + len); simpl; rewrite ?andb_false_r, ?andb_true_r; done.
  - rewrite !(Z.testbit_neg_r _ (i - lo)) by lia. by rewrite andb_true_r.
Qed.

Lemma insert_flag v lo (b : bool) :
  Z.lor (Z.land v (unot 64 (ushl 64 1 lo))) (if b then ushl 64 1 lo else ushl 64 0 lo)
  = insert_field v lo 1 (Z.b2z b).
Proof. by destruct b. Qed.

Lemma set_limit_low_field v x : 0 <= x < 2 ^ 16 ->
  set_limit_low v x = insert_field v 0 16 x.
Proof.
  intros Hx. unfold set_limit_low, insert_field. f_equal.
  unfold ushl. rewrite Z.shiftl_0_r, as_u_small; [done|lia].
Qed.

Lemma seg_limit_low_range limit : 0 <= as_u 16 (Z.land limit 0xffff) < 2 ^ 16.
Proof. by apply as_u_range. Qed.

(** Bits of the truncated parts of [base] and [limit]. *)
Lemma testbit_part w v n i : 0 <= w -> 0 <= n -> 0 <= i ->
  Z.testbit (as_u w (Z.land (ushr v n) (Z.ones w))) i = (i <? w) && Z.testbit v (i + n).
Proof.
  intros. bits_norm. rewrite Z.testbit_ones_nonneg by lia.
  by destruct (i <? w); rewrite ?andb_true_r, ?andb_false_r.
Qed.

Lemma get_bits t i : 4 <= i -> Z.testbit (DescriptorType_get t) i = false.
Proof. intros Hi. apply (testbit_high 4); [destruct t; simpl; lia|done]. Qed.

(** The descriptor bit by bit; the excess of the unmasked high limit is
    overwritten by the flags that are set after it. *)
Definition segment_bit (t : DescriptorType) (dpl base limit : Z) (db : bool) (i : Z) :
    bool :=
  if i <? 16 then Z.testbit limit i
  else if i <? 40 then Z.testbit base (i - 16)
  else if i <? 44 then Z.testbit (DescriptorType_get t) (i - 40)
  else if i <? 45 then true
  else if i <? 47 then Z.testbit dpl (i - 45)
  else if i <? 48 then true
  else if i <? 52 then Z.testbit limit (i - 32)
  else if i <? 53 then false
  else if i <? 54 then true
  else if i <? 55 then db
  else if i <? 56 then true
  else Z.testbit base (i - 32).

Lemma set_system_segment_field v b : set_system_segment v b = insert_field v 44 1 (Z.b2z b).
Proof. apply insert_flag. Qed.
Lemma set_present_field v b : set_present v b = insert_field v 47 1 (Z.b2z b).
Proof. apply insert_flag. Qed.
Lemma set_available_field v b : set_available v b = insert_field v 52 1 (Z.b2z b).
Proof. apply insert_flag. Qed.
Lemma set_long_mode_field v b : set_long_mode v b = insert_field v 53 1 (Z.b2z b).
Proof. apply insert_flag. Qed.
Lemma set_default_operation_size_field v b : set_default_operation_size v b = insert_field v 54 1 (Z.b2z b).
Proof. apply insert_flag. Qed.
Lemma granularity_field v b : granularity v b = insert_field v 55 1 (Z.b2z b).
Proof. apply insert_flag. Qed.
Lemma set_base_low_field v x : set_base_low v x = insert_field v 16 16 x.
Proof. done. Qed.
Lemma set_base_middle_field v x : set_base_middle v x = insert_field v 32 8 x.
Proof. done. Qed.
Lemma set_base_high_field v x : set_base_high v x = insert_field v 56 8 x.
Proof. done. Qed.
Lemma set_limit_high_field v x : set_limit_high v x = insert_field v 48 4 x.
Proof. done. Qed.
Lemma set_descriptor_privilege_level_field v x : set_descriptor_privilege_level v x = insert_field v 45 2 x.
Proof. done. Qed.
Lemma set_descriptor_type_field v t :
  set_descriptor_type v t = insert_field v 40 4 (DescriptorType_get t).
Proof. done. Qed.

Create HintDb gdt discriminated.
#[local] Hint Rewrite set_system_segment_field set_present_field set_available_field
  set_long_mode_field set_default_operation_size_field granularity_field : gdt.
#[local] Hint Rewrite set_base_low_field set_base_middle_field set_base_high_field
  set_limit_high_field set_descriptor_privilege_level_field set_descriptor_type_field : gdt.
#[local] Hint Rewrite set_limit_low_field using apply seg_limit_low_range : gdt.

(** [set_code_segment] as a sequence of field writes. *)
Lemma code_segment_fields v t dpl base limit :
  set_code_segment v t dpl base limit =
    foldl (fun v '(lo, len, x) => insert_field v lo len x) 0 [
      (16, 16, as_u 16 (Z.land (ushr base 0) (Z.ones 16)));
      (32, 8, as_u 8 (Z.land (ushr base 16) (Z.ones 8)));
      (56, 8, as_u 8 (Z.land (ushr base 24) (Z.ones 8)));
      (0, 16, as_u 16 (Z.land (ushr limit 0) (Z.ones 16)));
      (48, 4, as_u 8 (Z.land (ushr limit 16) (Z.ones 8)));
      (40, 4, DescriptorType_get t); (44, 1, 1); (45, 2, dpl); (47, 1, 1);
      (52, 1, 0); (53, 1, 1); (54, 1, 0); (55, 1, 1)].
Proof.
  unfold set_code_segment. autorewrite with gdt. simpl foldl. simpl Z.b2z.
  change 0xffff with (Z.ones 16). change 0xff with (Z.ones 8). unfold ushr. rewrite !Z.shiftr_0_r.
  reflexivity.
Qed.

(** Simplify the bits of a sequence of field writes where the position of [i]
    relative to the fields is known. *)
Ltac field_step i :=
  match goal with
  | |- context [(?a <=? i) && (i <? ?b)] =>
      first [replace ((a <=? i) && (i <? b)) with true by lia
            |replace ((a <=? i) && (i <? b)) with false by lia]
  | |- context [Z.testbit ?x ?j] => rewrite (Z.testbit_neg_r x j) by lia
  | |- context [Z.testbit ?x ?j] => rewrite (testbit_high 1 x j) by lia
  | |- context [Z.testbit (as_u _ _) _] => rewrite testbit_part by lia
  | |- context [?a <? ?b] =>
      first [replace (a <? b) with true by lia|replace (a <? b) with false by lia]
  | |- context [Z.testbit ?x ?j] => rewrite (testbit_high 2 x j) by lia
  | |- context [Z.testbit (DescriptorType_get ?t) ?j] => rewrite (get_bits t j) by lia
  end; cbv beta iota; rewrite ?orb_false_r, ?andb_false_l, ?andb_true_l.

Lemma code_segment_bits v t dpl base limit i :
  0 <= dpl < 4 -> 0 <= i < 64 ->
  Z.testbit (set_code_segment v t dpl base limit) i = segment_bit t dpl base limit false i.
Proof.
  intros Hdpl Hi.
  rewrite code_segment_fields. simpl foldl.
  rewrite !testbit_insert_field by lia. unfold segment_bit.
  destruct (decide (i < 32)); repeat match goal with
  | |- _ = (if i <? ?b then _ else _) => destruct (Z.ltb_spec i b)
  end; try lia.
  all: repeat field_step i; try (f_equal; lia).
  all: match goal with |- Z.testbit _ ?j = _ => by replace j with 0 by lia end.
Qed.

Lemma data_segment_bits v t dpl base limit i :
  0 <= dpl < 4 -> 0 <= i < 64 ->
  Z.testbit (set_data_segment v t dpl base limit) i = segment_bit t dpl base limit true i.
Proof.
  intros Hdpl Hi. unfold set_data_segment. autorewrite with gdt.
  rewrite !testbit_insert_field, code_segment_bits by lia. unfold segment_bit.
  destruct (decide (i = 53)) as [->|]; [done|].
  destruct (decide (i = 54)) as [->|]; [done|].
  simpl Z.b2z. destruct (decide (i < 53)); repeat field_step i.
  all: repeat (case_match; try lia); done.
Qed.

(** A word with these bits reads back as the arguments. *)
Lemma decode_segment_bits v t dpl base limit db :
  0 <= dpl < 4 -> 0 <= base < 2 ^ 32 ->
  (forall i, 0 <= i < 64 -> Z.testbit v i = segment_bit t dpl base limit db i) ->
  decode v = mkSegment base (as_u 20 limit) (DescriptorType_get t) true dpl true
    false true db true.
Proof.
  intros Hdpl Hbase Hv. unfold decode. rewrite !Hv by lia.
  assert (Ht : 0 <= DescriptorType_get t < 2 ^ 4) by (destruct t; simpl; lia).
  assert (Hf : forall lo len j, 0 <= j -> 0 <= lo -> 0 <= len -> lo + len <= 64 ->
    Z.testbit (field v lo len) j = (j <? len) && segment_bit t dpl base limit db (j + lo)).
  { intros. rewrite testbit_field by lia. destruct (Z.ltb_spec j len); [|done].
    by rewrite Hv by lia. }
  assert (Hneg : forall x lo len j, j < 0 -> Z.testbit (field x lo len) j = false)
    by (intros; by apply Z.testbit_neg_r).
  f_equal; try done; apply Z.bits_inj'; intros j Hj;
    rewrite ?Z.lor_spec, ?Z.shiftl_spec by lia.
  - destruct (decide (j < 24)); [|destruct (decide (j < 32))].
    + rewrite (Hneg _ _ _ (j - 24)), Hf by lia. unfold segment_bit.
      repeat field_step j. f_equal; lia.
    + rewrite !Hf by lia. unfold segment_bit. repeat field_step j. simpl. f_equal; lia.
    + rewrite !Hf, (testbit_high 32 base j) by lia. by repeat field_step j.
  - rewrite testbit_as_u by lia.
    destruct (decide (j < 16)); [|destruct (decide (j < 20))].
    + rewrite (Hneg _ _ _ (j - 16)), Hf by lia. unfold segment_bit.
      repeat field_step j. f_equal; lia.
    + rewrite !Hf by lia. unfold segment_bit. repeat field_step j. simpl. f_equal; lia.
    + rewrite !Hf by lia. by repeat field_step j.
  - rewrite Hf by lia. destruct (decide (j < 4)).
    + unfold segment_bit. repeat field_step j. simpl. f_equal; lia.
    + by repeat field_step j.
  - rewrite Hf by lia. destruct (decide (j < 2)).
    + unfold segment_bit. repeat field_step j. simpl. f_equal; lia.
    + by repeat field_step j.
Qed.

(** * Properties *)

(** the processor reads back from the descriptor [set_code_segment] builds the
    base, the low 20 bits of the limit, the type and the privilege level given,
    in a present 64-bit segment with page granularity, although the setters do
    not mask their values. *)
Theorem code_segment_decode v t dpl base limit :
  0 <= dpl < 4 -> 0 <= base < 2 ^ 32 ->
  decode (set_code_segment v t dpl base limit) =
    mkSegment base (as_u 20 limit) (DescriptorType_get t) true dpl true
      false true false true.
Proof.
  intros Hdpl Hbase. apply decode_segment_bits; [done..|].
  intros i Hi. by apply code_segment_bits.
Qed.

Lemma code_segment_decode_witness :
  decode (set_code_segment 0 ExecuteRead 3 0xdeadbeef 0x12345678) =
    mkSegment 0xdeadbeef 0x45678 10 true 3 true false true false true.
Proof. apply (code_segment_decode 0 ExecuteRead 3 0xdeadbeef 0x12345678); lia. Defined.

(** [set_data_segment] differs only in the default-size bit; the long-mode bit,
    which is reserved in a data segment, is set as well. *)
Theorem data_segment_decode v t dpl base limit :
  0 <= dpl < 4 -> 0 <= base < 2 ^ 32 ->
  decode (set_data_segment v t dpl base limit) =
    mkSegment base (as_u 20 limit) (DescriptorType_get t) true dpl true
      false true true true.
Proof.
  intros Hdpl Hbase. apply decode_segment_bits; [done..|].
  intros i Hi. by apply data_segment_bits.
Qed.

Lemma data_segment_decode_witness :
  decode (set_data_segment 0 ReadWrite 0 0 0xfffff) =
    mkSegment 0 0xfffff 2 true 0 true false true true true.
Proof. apply (data_segment_decode 0 ReadWrite 0 0 0xfffff); lia. Defined.

Section properties.
Context {mutex : Type -> Type} `{SpinMutexLaws mutex} {D : Type} `{Device D}.
Context `{SelectorApi}.
Implicit Types g : GdtState mutex D.

Lemma wp_update_entry i f t v g (Q : unit -> _ -> Prop) :
  0 <= i -> t !! Z.to_nat i = Some v -> Q tt (<[Z.to_nat i := f v]> t, g) ->
  wp (update_entry i f) Q (t, g).
Proof.
  intros Hi Hv HQ. unfold update_entry. wp_steps. eapply wp_index; [done..|].
  wp_step. apply wp_index_set; [|by wp_step].
  apply lookup_lt_Some in Hv. simpl. lia.
Qed.

Lemma wp_init_gdt gdt_addr g (gdt : list SegmentDescriptor) (Q : unit -> GdtState mutex D -> Prop) :
  mutex_held (GDT g) = false -> mutex_data (GDT g) = gdt -> length gdt = 3%nat ->
  (forall g', mutex_held (GDT g') = false ->
    map decode (mutex_data (GDT g')) = [
      mkSegment 0 0 0 false 0 false false false false false;
      mkSegment 0 0xfffff 10 true 0 true false true false true;
      mkSegment 0 0xfffff 2 true 0 true false true true true] ->
    bus_log (gdt_bus g') = bus_log (gdt_bus g) ++ map EvWrite [
      Lgdt 23 gdt_addr;
      SetSegment "DS" (selector_new 0 0); SetSegment "ES" (selector_new 0 0);
      SetSegment "FS" (selector_new 0 0); SetSegment "GS" (selector_new 0 0);
      SetSegment "CS" (selector_new 1 0); SetSegment "SS" (selector_new 2 0)] -> Q tt g') ->
  wp (init gdt_addr) Q g.
Proof.
  intros Hfree Hdata Hlen HQ.
  apply wp_with_guard; [done|]. intros mx Hmx. rewrite Hdata.
  destruct gdt as [|d0 [|d1 [|d2 [|]]]]; try discriminate Hlen.
  do 3 (wp_step; eapply wp_update_entry; [lia|reflexivity|]; simpl insert).
  match goal with |- wp _ _ (?t, _) => remember t as table eqn:Htable end.
  wp_step. wp_step; [split; by vm_compute|].
  unfold load_gdt, set_reg, gdt_io. io_steps.
  apply HQ; simpl; rewrite ?mutex_unlock_held, ?mutex_unlock_data; [done| |].
  - subst table. simpl map. by rewrite code_segment_decode, data_segment_decode by lia.
  - by rewrite <- !(assoc_L (++)).
Qed.

(** C18: [init] leaves in the table a null, a kernel code and a kernel data
    descriptor, hands the processor its address and its size less one, and loads
    the null selector into DS, ES, FS and GS and the two others into CS and SS, in
    this order; the lock is free again. *)
Theorem init_gdt gdt_addr g (gdt : list SegmentDescriptor) :
  mutex_held (GDT g) = false -> mutex_data (GDT g) = gdt -> length gdt = 3%nat ->
  exists g', init gdt_addr g = Ret tt g' /\
    mutex_held (GDT g') = false /\
    map decode (mutex_data (GDT g')) = [
      mkSegment 0 0 0 false 0 false false false false false;
      mkSegment 0 0xfffff 10 true 0 true false true false true;
      mkSegment 0 0xfffff 2 true 0 true false true true true] /\
    bus_log (gdt_bus g') = bus_log (gdt_bus g) ++ map EvWrite [
      Lgdt 23 gdt_addr;
      SetSegment "DS" (selector_new 0 0); SetSegment "ES" (selector_new 0 0);
      SetSegment "FS" (selector_new 0 0); SetSegment "GS" (selector_new 0 0);
      SetSegment "CS" (selector_new 1 0); SetSegment "SS" (selector_new 2 0)].
Proof. intros Hf Hd Hl. apply wp_returns_unit. eapply wp_init_gdt; eauto. Qed.
End properties.

Definition boot_gdt : GdtState spin_lock unit :=
  mkGdtState (SpinLock false [0; 0; 0]) (mkBus tt []).

#[local] Instance null_device : Device unit :=
  {| dev_read _ d := (0, d); dev_write _ d := d |}.

Lemma init_gdt_witness :
  exists g', init 0x1000 boot_gdt = Ret tt g' /\
    mutex_data (GDT g') = [0; 0x00af9a000000ffff; 0x00ef92000000ffff] /\
    map decode (mutex_data (GDT g')) = [
      mkSegment 0 0 0 false 0 false false false false false;
      mkSegment 0 0xfffff 10 true 0 true false true false true;
      mkSegment 0 0xfffff 2 true 0 true false true true true].
Proof.
  destruct (init_gdt 0x1000 boot_gdt [0; 0; 0])
    as (g' & E & _ & Hd & _); [reflexivity..|].
  exists g'. split; [exact E|]. split; [|exact Hd].
  vm_compute in E. injection E as <-. reflexivity.
Defined.

End Gdt.
