(* ===== verification/Paging.v ===== *)
(** The boot page tables (kernel/src/paging.rs): the loop of [init] that fills
    the three static tables, and the translation the processor derives from
    them. *)

From S2P Require Import Prelude Machine External.

Module Paging.

(** * State *)

Definition PAGE_SIZE_4K : Z := 1024 * 4.
Definition PAGE_SIZE_2M : Z := 1024 * 1024 * 2.
Definition PAGE_SIZE_1G : Z := 1024 * 1024 * 1024 * 1.
Definition NUMBER_OF_PAGE_DIR : Z := 64.

Definition PageMapLevel4Table : Type := list Z.
Definition PageMapLevel4Table_new : PageMapLevel4Table := replicate 512 0.
Definition PageDirectoryPointerTable : Type := list Z.
Definition PageDirectoryPointerTable_new : PageDirectoryPointerTable := replicate 512 0.
Definition PageDirectory : Type := list (list Z).
Definition PageDirectory_new : PageDirectory :=
  replicate (Z.to_nat NUMBER_OF_PAGE_DIR) (replicate 512 0).

Definition len {A} (l : list A) : Z := Z.of_nat (length l).

(** Where the linker puts the three statics. *)
Record table_addrs : Type := mkTableAddrs {
  pml4_addr : Z;
  pdpt_addr : Z;
  pd_addr : Z
}.

Section init.
Context {mutex : Type -> Type} `{SpinMutexLaws mutex} {D : Type} `{Device D}.

Record PagingState : Type := mkPagingState {
  PAGE_MAP_LEVEL4_TABLE : mutex PageMapLevel4Table;
  PAGE_DIR_PTR_TABLE : mutex PageDirectoryPointerTable;
  PAGE_DIR : mutex PageDirectory;
  pg_bus : Bus D
}.

Definition set_PML4 (m : mutex PageMapLevel4Table) (g : PagingState) : PagingState :=
  mkPagingState m (PAGE_DIR_PTR_TABLE g) (PAGE_DIR g) (pg_bus g).
Definition set_PDPT (m : mutex PageDirectoryPointerTable) (g : PagingState) :
    PagingState :=
  mkPagingState (PAGE_MAP_LEVEL4_TABLE g) m (PAGE_DIR g) (pg_bus g).
Definition set_PD (m : mutex PageDirectory) (g : PagingState) : PagingState :=
  mkPagingState (PAGE_MAP_LEVEL4_TABLE g) (PAGE_DIR_PTR_TABLE g) m (pg_bus g).
Definition set_bus (b : Bus D) (g : PagingState) : PagingState :=
  mkPagingState (PAGE_MAP_LEVEL4_TABLE g) (PAGE_DIR_PTR_TABLE g) (PAGE_DIR g) b.

(** The three guarded tables. *)
Record Tables : Type := mkTables {
  page_map_level4_table : list Z;
  page_dir_ptr_table : list Z;
  page_dir : list (list Z)
}.

Definition write_pml4 (i v : Z) : M Tables unit :=
  t ← get_st; l ← index_set (page_map_level4_table t) i v;
  put_st (mkTables l (page_dir_ptr_table t) (page_dir t)).
Definition write_pdpt (i v : Z) : M Tables unit :=
  t ← get_st; l ← index_set (page_dir_ptr_table t) i v;
  put_st (mkTables (page_map_level4_table t) l (page_dir t)).
Definition write_pd (i j v : Z) : M Tables unit :=
  t ← get_st;
  row ← index (page_dir t) i;
  row ← index_set row j v;
  l ← index_set (page_dir t) i row;
  put_st (mkTables (page_map_level4_table t) (page_dir_ptr_table t) l).

(** [page_dir.len_inner()]. *)
Definition len_inner : M Tables Z :=
  t ← get_st; row ← index (page_dir t) 0; mret (len row).

(** [page_dir[i].as_ptr()]. *)
Definition page_dir_as_ptr (a : table_addrs) (i : Z) : M Tables Z :=
  t ← get_st; row ← index (page_dir t) i; mret (pd_addr a + i * PAGE_SIZE_4K).

(** The assignments of [init], on the guarded tables. *)
Definition fill_tables (a : table_addrs) : M Tables unit :=
  write_pml4 0 (Z.lor (pdpt_addr a) 0x003) ;;
  t ← get_st;
  for_each (range 0 (len (page_dir t))) (fun i =>
    pd ← page_dir_as_ptr a i;
    write_pdpt i (Z.lor pd 0x003) ;;
    n ← len_inner;
    for_each (range 0 n) (fun j =>
      gib ← umul 64 i PAGE_SIZE_1G;
      mib ← umul 64 j PAGE_SIZE_2M;
      frame ← uadd 64 gib mib;
      write_pd i j (Z.lor frame 0x083))).

Definition init (a : table_addrs) : M PagingState unit :=
  with_lock PAGE_MAP_LEVEL4_TABLE set_PML4 (
  with_lock (fun p => PAGE_DIR_PTR_TABLE p.2) (fun m p => (p.1, set_PDPT m p.2)) (
  with_lock (fun p => PAGE_DIR p.2.2) (fun m p => (p.1, (p.2.1, set_PD m p.2.2))) (
    zoom (fun '(pd, (pdpt, (pml4, _))) => mkTables pml4 pdpt pd)
         (fun t '(_, (_, (_, g))) =>
            (page_dir t, (page_dir_ptr_table t, (page_map_level4_table t, g))))
      (fill_tables a) ;;
    zoom (fun '(_, (_, (_, g))) => pg_bus g)
         (fun b '(pd, (pdpt, (pml4, g))) => (pd, (pdpt, (pml4, set_bus b g))))
      (io_write (SetCr3 (pml4_addr a)))))).
End init.
Arguments PagingState : clear implicits.

(** * Specification: the four-level page walk of the processor *)

Definition entry_present (e : Z) : bool := Z.testbit e 0.
Definition entry_writable (e : Z) : bool := Z.testbit e 1.
Definition entry_large (e : Z) : bool := Z.testbit e 7.

(** Bits 12 to 51 of an entry, and the part of them a page of [2^n] bytes uses. *)
Definition entry_base (n e : Z) : Z := field e n (52 - n) * 2 ^ n.

Definition table_index (va level : Z) : Z := field va (12 + 9 * level) 9.

(** [walk read cr3 va]: the physical address, if [va] is mapped writable. *)
Definition walk (read : Z -> option Z) (cr3 va : Z) : option Z :=
  e4 ← read (cr3 + 8 * table_index va 3);
  if negb (entry_present e4 && entry_writable e4) then None else
  e3 ← read (entry_base 12 e4 + 8 * table_index va 2);
  if negb (entry_present e3 && entry_writable e3) then None else
  if entry_large e3 then Some (entry_base 30 e3 + field va 0 30) else
  e2 ← read (entry_base 12 e3 + 8 * table_index va 1);
  if negb (entry_present e2 && entry_writable e2) then None else
  if entry_large e2 then Some (entry_base 21 e2 + field va 0 21) else
  e1 ← read (entry_base 12 e2 + 8 * table_index va 0);
  if negb (entry_present e1 && entry_writable e1) then None else
  Some (entry_base 12 e1 + field va 0 12).

(** The quadword at a physical address inside one of the tables. *)
Definition entry_of (l : list Z) (base a : Z) : option Z :=
  if (base <=? a) && (a <? base + 8 * len l) && ((a - base) mod 8 =? 0)
  then l !! Z.to_nat ((a - base) / 8) else None.

Definition read_tables (a : table_addrs) (t : Tables) (pa : Z) : option Z :=
  match entry_of (page_map_level4_table t) (pml4_addr a) pa with
  | Some e => Some e
  | None =>
      match entry_of (page_dir_ptr_table t) (pdpt_addr a) pa with
      | Some e => Some e
      | None => entry_of (concat (page_dir t)) (pd_addr a) pa
      end
  end.

(** The statics are page aligned, below the physical limit and disjoint. *)
Record addrs_ok (a : table_addrs) : Prop := {
  ao_pml4 : 0 <= pml4_addr a /\ pml4_addr a mod PAGE_SIZE_4K = 0;
  ao_pdpt : 0 <= pdpt_addr a < 2 ^ 52 - 2 ^ 12 /\ pdpt_addr a mod PAGE_SIZE_4K = 0;
  ao_pd : 0 <= pd_addr a < 2 ^ 52 - 2 ^ 18 /\ pd_addr a mod PAGE_SIZE_4K = 0;
  ao_disjoint_1 : pml4_addr a + 2 ^ 12 <= pdpt_addr a \/ pdpt_addr a + 2 ^ 12 <= pml4_addr a;
  ao_disjoint_2 : pml4_addr a + 2 ^ 12 <= pd_addr a \/ pd_addr a + 2 ^ 18 <= pml4_addr a;
  ao_disjoint_3 : pdpt_addr a + 2 ^ 12 <= pd_addr a \/ pd_addr a + 2 ^ 18 <= pdpt_addr a
}.

(** The tables [init] is meant to build. *)
Definition pdpt_entry (a : table_addrs) (i : Z) : Z := Z.lor (pd_addr a + i * PAGE_SIZE_4K) 3.
Definition pd_entry (i j : Z) : Z := Z.lor (i * PAGE_SIZE_1G + j * PAGE_SIZE_2M) 0x83.

Record identity_tables (a : table_addrs) (t : Tables) : Prop := {
  it_pml4 : page_map_level4_table t = Z.lor (pdpt_addr a) 3 :: replicate 511 0;
  it_pdpt_len : length (page_dir_ptr_table t) = 512%nat;
  it_pdpt i : 0 <= i < 512 ->
    page_dir_ptr_table t !! Z.to_nat i = Some (if i <? 64 then pdpt_entry a i else 0);
  it_pd_len : length (page_dir t) = 64%nat;
  it_pd i : 0 <= i < 64 -> exists row,
    page_dir t !! Z.to_nat i = Some row /\ length row = 512%nat /\
    forall j, 0 <= j < 512 -> row !! Z.to_nat j = Some (pd_entry i j)
}.

(** * Lemmas *)

Lemma entry_flags n k b i : 0 <= n -> 0 <= i < n ->
  Z.testbit (Z.lor (k * 2 ^ n) b) i = Z.testbit b i.
Proof. intros. by rewrite Z.lor_spec, Z.mul_pow2_bits_low by lia. Qed.

Lemma entry_base_lor n k b : 0 <= n <= 52 -> 0 <= b < 2 ^ n -> 0 <= k < 2 ^ (52 - n) ->
  entry_base n (Z.lor (k * 2 ^ n) b) = k * 2 ^ n.
Proof.
  intros Hn Hb Hk. unfold entry_base, field.
  rewrite lor_add, Z.shiftr_div_pow2, Z.div_add_l, (Z.div_small b) by lia.
  by rewrite Z.add_0_r, as_u_small.
Qed.

Lemma field_div v lo n : 0 <= lo -> field v lo n = (v / 2 ^ lo) mod 2 ^ n.
Proof. intros. unfold field, as_u. by rewrite Z.shiftr_div_pow2. Qed.

Lemma entry_of_hit l base k e : 0 <= k -> l !! Z.to_nat k = Some e ->
  entry_of l base (base + 8 * k) = Some e.
Proof.
  intros Hk He. pose proof (lookup_lt_Some _ _ _ He). unfold entry_of, len.
  replace (base + 8 * k - base) with (k * 8) by lia.
  rewrite Z.mod_mul, Z.div_mul by lia.
  replace (base <=? base + 8 * k) with true by lia.
  by replace (base + 8 * k <? base + 8 * Z.of_nat (length l)) with true by lia.
Qed.

Lemma entry_of_miss l base a : a < base \/ base + 8 * len l <= a -> entry_of l base a = None.
Proof. intros H. unfold entry_of. case_match; [lia|done]. Qed.

Lemma concat_lookup (ls : list (list Z)) n i j row :
  Forall (fun r => length r = n) ls -> ls !! i = Some row -> (j < n)%nat ->
  concat ls !! (i * n + j)%nat = row !! j.
Proof.
  revert i. induction ls as [|r ls IH]; intros i HF Hrow Hj; [done|].
  apply Forall_cons in HF as [Hr HF]. destruct i as [|i]; simplify_eq/=.
  - by rewrite lookup_app_l by lia.
  - rewrite lookup_app_r by lia. rewrite <- (IH i) by done. f_equal. lia.
Qed.

Section fill.
Implicit Types t : Tables.

Lemma wp_write_pd i j v row t (Q : unit -> Tables -> Prop) :
  0 <= i -> page_dir t !! Z.to_nat i = Some row -> 0 <= j < len row ->
  Q tt (mkTables (page_map_level4_table t) (page_dir_ptr_table t)
          (<[Z.to_nat i := <[Z.to_nat j := v]> row]> (page_dir t))) ->
  wp (write_pd i j v) Q t.
Proof.
  intros Hi Hrow Hj HQ. unfold write_pd. wp_steps. eapply wp_index; [done..|]. wp_step.
  apply wp_index_set; [done|]. wp_step. apply wp_index_set; [|by wp_step].
  apply lookup_lt_Some in Hrow. lia.
Qed.

(** Row [i] is filled up to [j]; the rest is as in [t1]. *)
Record row_inv (t1 : Tables) (i j : Z) t : Prop := {
  ri_pml4 : page_map_level4_table t = page_map_level4_table t1;
  ri_pdpt : page_dir_ptr_table t = page_dir_ptr_table t1;
  ri_len : length (page_dir t) = length (page_dir t1);
  ri_other k : k <> Z.to_nat i -> page_dir t !! k = page_dir t1 !! k;
  ri_row : exists row, page_dir t !! Z.to_nat i = Some row /\ length row = 512%nat /\
    forall j', 0 <= j' < j -> row !! Z.to_nat j' = Some (pd_entry i j')
}.

Lemma wp_fill_row t1 i t (Q : unit -> Tables -> Prop) :
  0 <= i < 64 -> row_inv t1 i 0 t ->
  (forall t', row_inv t1 i 512 t' -> Q tt t') ->
  wp (for_each (range 0 512) (fun j =>
      gib ← umul 64 i PAGE_SIZE_1G;
      mib ← umul 64 j PAGE_SIZE_2M;
      frame ← uadd 64 gib mib;
      write_pd i j (Z.lor frame 0x083))) Q t.
Proof.
  intros Hi Hinv HQ. apply (wp_for_range _ (row_inv t1 i)); [lia|done| |done].
  intros j t' Hj [H1 H2 H3 H4 (row & Hrow & Hlen & Hent)].
  unfold PAGE_SIZE_1G, PAGE_SIZE_2M.
  repeat (wp_step; wp_step; [lia|]; cbv beta).
  eapply wp_write_pd; [lia|exact Hrow|unfold len; lia|].
  pose proof (lookup_lt_Some _ _ _ Hrow) as Hlt.
  split; simpl; [done|done|by rewrite length_insert| |].
  - intros k Hk. rewrite list_lookup_insert_ne by done. by apply H4.
  - eexists. rewrite list_lookup_insert_eq by done. split; [done|].
    rewrite length_insert. split; [done|]. intros j' Hj'.
    destruct (decide (j' = j)) as [->|].
    + by rewrite list_lookup_insert_eq by lia.
    + rewrite list_lookup_insert_ne by lia. apply Hent. lia.
Qed.

(** The first [i] rows, and the pointers to them, are filled. *)
Record fill_inv (a : table_addrs) (i : Z) t : Prop := {
  fi_pml4 : page_map_level4_table t = Z.lor (pdpt_addr a) 3 :: replicate 511 0;
  fi_pdpt_len : length (page_dir_ptr_table t) = 512%nat;
  fi_pdpt k : 0 <= k < 512 ->
    page_dir_ptr_table t !! Z.to_nat k = Some (if k <? i then pdpt_entry a k else 0);
  fi_pd_len : length (page_dir t) = 64%nat;
  fi_pd k : 0 <= k < 64 -> exists row,
    page_dir t !! Z.to_nat k = Some row /\ length row = 512%nat /\
    forall j, 0 <= j < 512 -> k < i -> row !! Z.to_nat j = Some (pd_entry k j)
}.

Lemma fill_inv_start a :
  fill_inv a 0 (mkTables (Z.lor (pdpt_addr a) 3 :: replicate 511 0)
    PageDirectoryPointerTable_new PageDirectory_new).
Proof.
  split; simpl; [done..| |done|].
  - intros k Hk. replace (k <? 0) with false by lia. apply lookup_replicate_2. lia.
  - intros k Hk. exists (replicate 512 0). split.
    { apply lookup_replicate_2. unfold NUMBER_OF_PAGE_DIR. lia. }
    split; [done|]. intros. lia.
Qed.

Lemma fill_inv_pdpt a i t : fill_inv a i t -> 0 <= i < 64 ->
  row_inv (mkTables (page_map_level4_table t)
    (<[Z.to_nat i := pdpt_entry a i]> (page_dir_ptr_table t)) (page_dir t)) i 0
   (mkTables (page_map_level4_table t)
    (<[Z.to_nat i := pdpt_entry a i]> (page_dir_ptr_table t)) (page_dir t)).
Proof.
  intros [_ _ _ _ Hpd] Hi. split; try done. simpl.
  destruct (Hpd i ltac:(lia)) as (row & Hrow & Hlen & _).
  exists row. split; [done|]. split; [done|]. lia.
Qed.

Lemma fill_inv_step a i t t' : fill_inv a i t -> 0 <= i < 64 ->
  row_inv (mkTables (page_map_level4_table t)
    (<[Z.to_nat i := pdpt_entry a i]> (page_dir_ptr_table t)) (page_dir t)) i 512 t' ->
  fill_inv a (i + 1) t'.
Proof.
  intros [H1 H2 H3 H4 H5] Hi [R1 R2 R3 R4 (row & Hrow & Hlen & Hent)].
  cbn [page_map_level4_table page_dir_ptr_table page_dir] in *.
  split; [congruence|by rewrite R2, length_insert| |congruence|].
  - intros k Hk. rewrite R2. destruct (decide (k = i)) as [->|].
    + rewrite list_lookup_insert_eq by lia. by replace (i <? i + 1) with true by lia.
    + rewrite list_lookup_insert_ne, H3 by lia.
      by replace (k <? i + 1) with (k <? i) by lia.
  - intros k Hk. destruct (decide (k = i)) as [->|].
    + exists row. auto.
    + destruct (H5 k Hk) as (r & Hr & Hl & He). exists r.
      rewrite R4 by lia. split; [done|]. split; [done|]. intros j Hj Hki.
      apply He; lia.
Qed.

Lemma fill_inv_final a t : fill_inv a 64 t -> identity_tables a t.
Proof.
  intros [H1 H2 H3 H4 H5]. split; try done. intros i Hi.
  destruct (H5 i Hi) as (row & ? & ? & He). exists row. split; [done|]. split; [done|].
  intros j Hj. apply He; lia.
Qed.

Lemma wp_fill_tables a (Q : unit -> Tables -> Prop) :
  addrs_ok a ->
  (forall t, identity_tables a t -> Q tt t) ->
  wp (fill_tables a) Q (mkTables PageMapLevel4Table_new PageDirectoryPointerTable_new
    PageDirectory_new).
Proof.
  intros Ha HQ. unfold fill_tables. wp_step. unfold write_pml4. wp_steps.
  apply wp_index_set; [simpl; lia|]. wp_steps. simpl insert.
  apply (wp_for_range _ (fill_inv a)); [unfold len; simpl; lia|apply fill_inv_start| |].
  - intros i t Hi Hinv. change (len _) with 64 in Hi. wp_step. unfold page_dir_as_ptr.
    destruct (fi_pd _ _ _ Hinv i Hi) as (row & Hrow & Hlen & _). wp_steps.
    eapply wp_index; [lia|exact Hrow|]. wp_steps. unfold write_pdpt. wp_steps.
    apply wp_index_set; [rewrite (fi_pdpt_len _ _ _ Hinv); lia|]. wp_steps.
    unfold len_inner. wp_steps.
    destruct (fi_pd _ _ _ Hinv 0 ltac:(lia)) as (row0 & Hrow0 & Hlen0 & _).
    eapply wp_index; [lia|exact Hrow0|]. wp_steps. unfold len. rewrite Hlen0.
    eapply wp_fill_row; [lia|by apply fill_inv_pdpt|].
    intros t' Hrow'. eapply fill_inv_step; [exact Hinv|lia|exact Hrow'].
  - intros t Hinv. by apply HQ, fill_inv_final.
Qed.
End fill.

Section walk.
Context (a : table_addrs) (t : Tables).
Hypothesis Ha : addrs_ok a.
Hypothesis Ht : identity_tables a t.

Lemma pml4_len : len (page_map_level4_table t) = 512.
Proof. unfold len. by rewrite (it_pml4 _ _ Ht). Qed.

Lemma pdpt_len : len (page_dir_ptr_table t) = 512.
Proof. unfold len. by rewrite (it_pdpt_len _ _ Ht). Qed.

Lemma pd_rows : Forall (fun r : list Z => length r = 512%nat) (page_dir t).
Proof.
  apply Forall_lookup. intros i r Hr.
  pose proof (lookup_lt_Some _ _ _ Hr) as Hlt. rewrite (it_pd_len _ _ Ht) in Hlt.
  destruct (it_pd _ _ Ht (Z.of_nat i) ltac:(lia)) as (row & Hrow & Hl & _).
  rewrite Nat2Z.id in Hrow. congruence.
Qed.

Lemma read_pml4 k : 0 <= k < 512 ->
  read_tables a t (pml4_addr a + 8 * k) =
    Some (if k =? 0 then Z.lor (pdpt_addr a) 3 else 0).
Proof.
  intros Hk. unfold read_tables. erewrite entry_of_hit; [done|lia|].
  rewrite (it_pml4 _ _ Ht). destruct (Z.eqb_spec k 0) as [->|]; [done|].
  replace (Z.to_nat k) with (S (Z.to_nat (k - 1))) by lia.
  change (replicate 511 0 !! Z.to_nat (k - 1) = Some 0).
  apply lookup_replicate_2. lia.
Qed.

Lemma read_pdpt k : 0 <= k < 512 ->
  read_tables a t (pdpt_addr a + 8 * k) = Some (if k <? 64 then pdpt_entry a k else 0).
Proof.
  intros Hk. unfold read_tables. destruct Ha as [_ _ _ D1 _ _].
  rewrite (entry_of_miss (page_map_level4_table t)) by (rewrite pml4_len; lia).
  by rewrite (entry_of_hit _ _ k _ ltac:(lia) (it_pdpt _ _ Ht k Hk)).
Qed.

Lemma read_pd i j : 0 <= i < 64 -> 0 <= j < 512 ->
  read_tables a t (pd_addr a + i * PAGE_SIZE_4K + 8 * j) = Some (pd_entry i j).
Proof.
  intros Hi Hj. unfold read_tables, PAGE_SIZE_4K. destruct Ha as [_ _ _ _ D2 D3].
  rewrite (entry_of_miss (page_map_level4_table t)) by (rewrite pml4_len; lia).
  rewrite (entry_of_miss (page_dir_ptr_table t)) by (rewrite pdpt_len; lia).
  replace (pd_addr a + i * (1024 * 4) + 8 * j) with (pd_addr a + 8 * (i * 512 + j)) by lia.
  apply entry_of_hit; [lia|].
  destruct (it_pd _ _ Ht i Hi) as (row & Hrow & Hl & He).
  replace (Z.to_nat (i * 512 + j)) with (Z.to_nat i * 512 + Z.to_nat j)%nat by lia.
  rewrite (concat_lookup _ _ _ _ row pd_rows Hrow) by lia. by apply He.
Qed.

(** The entries that point to a table. *)
Lemma pml4_entry_0 :
  entry_present (Z.lor (pdpt_addr a) 3) = true /\
  entry_writable (Z.lor (pdpt_addr a) 3) = true /\
  entry_base 12 (Z.lor (pdpt_addr a) 3) = pdpt_addr a.
Proof.
  destruct Ha as [_ [Hr Hal] _ _ _ _]. change PAGE_SIZE_4K with 4096 in Hal.
  replace (pdpt_addr a) with (pdpt_addr a / 4096 * 2 ^ 12) by zlia.
  unfold entry_present, entry_writable.
  by rewrite !entry_flags, entry_base_lor by zlia.
Qed.

Lemma pdpt_entry_flags i : 0 <= i < 64 ->
  entry_present (pdpt_entry a i) = true /\ entry_writable (pdpt_entry a i) = true /\
  entry_large (pdpt_entry a i) = false /\
  entry_base 12 (pdpt_entry a i) = pd_addr a + i * PAGE_SIZE_4K.
Proof.
  intros Hi. destruct Ha as [_ _ [Hr Hal] _ _ _]. unfold pdpt_entry.
  change PAGE_SIZE_4K with 4096 in *.
  replace (pd_addr a + i * 4096) with ((pd_addr a / 4096 + i) * 2 ^ 12) by zlia.
  unfold entry_present, entry_writable, entry_large.
  by rewrite !entry_flags, entry_base_lor by zlia.
Qed.

Lemma pd_entry_flags i j : 0 <= i < 64 -> 0 <= j < 512 ->
  entry_present (pd_entry i j) = true /\ entry_writable (pd_entry i j) = true /\
  entry_large (pd_entry i j) = true /\
  entry_base 21 (pd_entry i j) = i * PAGE_SIZE_1G + j * PAGE_SIZE_2M.
Proof.
  intros Hi Hj. unfold pd_entry, PAGE_SIZE_1G, PAGE_SIZE_2M.
  replace (i * (1024 * 1024 * 1024 * 1) + j * (1024 * 1024 * 2))
    with ((i * 512 + j) * 2 ^ 21) by lia.
  unfold entry_present, entry_writable, entry_large.
  by rewrite !entry_flags, entry_base_lor by zlia.
Qed.
End walk.

Lemma table_index_range va level : 0 <= table_index va level < 512.
Proof. apply (field_range va _ 9). lia. Qed.

Lemma table_index_div va level : 0 <= level ->
  table_index va level = (va / 2 ^ (12 + 9 * level)) mod 512.
Proof. intros. unfold table_index. rewrite field_div by lia. done. Qed.

(** * Properties *)

Section properties.
Context {mutex : Type -> Type} `{SpinMutexLaws mutex} {D : Type} `{Device D}.
Implicit Types g : PagingState mutex D.

Definition tables_of g : Tables :=
  mkTables (mutex_data (PAGE_MAP_LEVEL4_TABLE g)) (mutex_data (PAGE_DIR_PTR_TABLE g))
    (mutex_data (PAGE_DIR g)).
Definition all_free g : Prop :=
  mutex_held (PAGE_MAP_LEVEL4_TABLE g) = false /\
  mutex_held (PAGE_DIR_PTR_TABLE g) = false /\ mutex_held (PAGE_DIR g) = false.

Lemma wp_init_tables a g (Q : unit -> PagingState mutex D -> Prop) :
  addrs_ok a -> all_free g ->
  tables_of g = mkTables PageMapLevel4Table_new PageDirectoryPointerTable_new
    PageDirectory_new ->
  (forall g', all_free g' -> identity_tables a (tables_of g') ->
    bus_log (pg_bus g') = bus_log (pg_bus g) ++ [EvWrite (SetCr3 (pml4_addr a))] -> Q tt g') ->
  wp (init a) Q g.
Proof.
  intros Ha (F1 & F2 & F3) Ht HQ.
  unfold tables_of in Ht. injection Ht as E1 E2 E3.
  apply wp_with_guard; [done|]. intros m1 Hm1.
  apply wp_with_guard; [done|]. intros m2 Hm2.
  apply wp_with_guard; [done|]. intros m3 Hm3.
  cbn [snd set_PML4 set_PDPT PAGE_MAP_LEVEL4_TABLE PAGE_DIR_PTR_TABLE PAGE_DIR].
  rewrite E1, E2, E3.
  wp_step. wp_step. apply wp_fill_tables; [done|]. intros t Hid. io_steps.
  apply HQ; unfold all_free, tables_of; simpl; autorewrite with mutex; [done|by destruct t|done].
Qed.

(** Below 64 GiB the walk gives the address back, above it stops at an absent entry. *)
Lemma walk_identity a t va :
  addrs_ok a -> identity_tables a t -> 0 <= va < 64 * 2 ^ 30 ->
  walk (read_tables a t) (pml4_addr a) va = Some va.
Proof.
  intros Ha Ht Hva. unfold walk.
  assert (Hi3 : table_index va 3 = 0) by (rewrite table_index_div by lia; simpl; zlia).
  assert (Hi2 : table_index va 2 = va / 2 ^ 30) by (rewrite table_index_div by lia; simpl; zlia).
  rewrite (read_pml4 a t Ht), Hi3 by lia. simpl.
  destruct (pml4_entry_0 a Ha) as (-> & -> & ->). simpl.
  rewrite (read_pdpt a t Ha Ht), Hi2 by apply table_index_range. simpl.
  replace (va / 2 ^ 30 <? 64) with true by zlia.
  destruct (pdpt_entry_flags a Ha (va / 2 ^ 30)) as (-> & -> & -> & ->); [zlia|]. simpl.
  rewrite (read_pd a t Ha Ht) by (try apply table_index_range; zlia). simpl.
  destruct (pd_entry_flags (va / 2 ^ 30) (table_index va 1)) as (-> & -> & -> & ->);
    [zlia|apply table_index_range|]. simpl.
  rewrite table_index_div, field_div by lia. unfold PAGE_SIZE_1G, PAGE_SIZE_2M.
  f_equal. change (12 + 9 * 1) with 21. rewrite Z.div_1_r. zlia.
Qed.

Lemma walk_unmapped a t va :
  addrs_ok a -> identity_tables a t -> 64 * 2 ^ 30 <= va < 2 ^ 48 ->
  walk (read_tables a t) (pml4_addr a) va = None.
Proof.
  intros Ha Ht Hva. unfold walk.
  rewrite (read_pml4 a t Ht) by apply table_index_range. cbn [mbind option_bind].
  destruct (Z.eqb_spec (table_index va 3) 0) as [E|]; [|reflexivity].
  destruct (pml4_entry_0 a Ha) as (-> & -> & ->). cbn [negb andb].
  rewrite (read_pdpt a t Ha Ht) by apply table_index_range. cbn [mbind option_bind].
  rewrite table_index_div in E by lia.
  replace (table_index va 2 <? 64) with false
    by (rewrite table_index_div by lia; simpl; zlia).
  reflexivity.
Qed.
(** [init] terminates without a panic, fills the tables with the identity
    mapping, loads CR3 with the address of the top table, as its only access to
    the machine, and releases the three locks. *)
Theorem init_tables a g :
  addrs_ok a -> all_free g ->
  tables_of g = mkTables PageMapLevel4Table_new PageDirectoryPointerTable_new
    PageDirectory_new ->
  exists g', init a g = Ret tt g' /\ all_free g' /\ identity_tables a (tables_of g') /\
    bus_log (pg_bus g') = bus_log (pg_bus g) ++ [EvWrite (SetCr3 (pml4_addr a))].
Proof. intros Ha Hf Ht. apply wp_returns_unit. apply wp_init_tables; auto. Qed.

(** C6: [init] returns with CR3 at the top table and the locks free, and under the tables
    it leaves in memory the processor's page walk maps every address below 64 GiB to
    itself, present and writable, and no other address of the lower half. *)
Theorem identity_map a g :
  addrs_ok a -> all_free g ->
  tables_of g = mkTables PageMapLevel4Table_new PageDirectoryPointerTable_new
    PageDirectory_new ->
  exists g', init a g = Ret tt g' /\ all_free g' /\
    last (bus_log (pg_bus g')) = Some (EvWrite (SetCr3 (pml4_addr a))) /\
    forall va, 0 <= va < 2 ^ 48 ->
      walk (read_tables a (tables_of g')) (pml4_addr a) va =
        if va <? 64 * 2 ^ 30 then Some va else None.
Proof.
  intros Ha Hf Ht. apply wp_returns_unit. apply wp_init_tables; [done..|].
  intros g' Hf' Hid Hlog. split; [done|]. split; [by rewrite Hlog, last_snoc|].
  intros va Hva. destruct (Z.ltb_spec va (64 * 2 ^ 30)).
  - apply walk_identity; [done..|lia].
  - apply walk_unmapped; [done..|lia].
Qed.
End properties.

(** * Witnesses *)

Definition boot_addrs : table_addrs := mkTableAddrs 0x200000 0x201000 0x202000.

Lemma boot_addrs_ok : addrs_ok boot_addrs.
Proof. split; change PAGE_SIZE_4K with 4096; simpl; zlia. Qed.

#[local] Instance null_device : Device unit :=
  {| dev_read _ d := (0, d); dev_write _ d := d |}.

Definition boot_paging : PagingState spin_lock unit :=
  mkPagingState (SpinLock false PageMapLevel4Table_new)
    (SpinLock false PageDirectoryPointerTable_new) (SpinLock false PageDirectory_new)
    (mkBus tt []).

Lemma init_tables_witness :
  addrs_ok boot_addrs /\
  exists g', init boot_addrs boot_paging = Ret tt g' /\
    identity_tables boot_addrs (tables_of g') /\
    bus_log (pg_bus g') = [EvWrite (SetCr3 0x200000)].
Proof.
  split; [exact boot_addrs_ok|].
  destruct (init_tables boot_addrs boot_paging boot_addrs_ok)
    as (g' & E & _ & Hid & Hlog); [by repeat split|done|].
  exists g'. split; [exact E|]. split; [exact Hid|exact Hlog].
Defined.

Lemma identity_map_witness :
  exists g', init boot_addrs boot_paging = Ret tt g' /\
    walk (read_tables boot_addrs (tables_of g')) 0x200000 0xfee00020 = Some 0xfee00020 /\
    walk (read_tables boot_addrs (tables_of g')) 0x200000 0x1000000000 = None.
Proof.
  destruct (identity_map boot_addrs boot_paging boot_addrs_ok)
    as (g' & E & _ & _ & Hw); [by repeat split|done|].
  exists g'. split; [exact E|]. split; [apply (Hw 0xfee00020)|apply (Hw 0x1000000000)]; lia.
Defined.
End Paging.
