(* ===== verification/PhysMem.v ===== *)
(** The physical frame allocator (kernel/src/phys_mem_manager.rs) and the
    memory-type test it uses (kernel/src/memory_map.rs). *)

From S2P Require Import Prelude Machine External.

Module PhysMem.

(** * The memory map of the [uefi] crate *)

(** [MemoryType] is an open enumeration; the code names three of its values. *)
Class MemoryTypeApi (T : Type) := {
  memory_type_eq_dec :: EqDecision T;
  BOOT_SERVICES_CODE : T;
  BOOT_SERVICES_DATA : T;
  CONVENTIONAL : T
}.

(** The values of the UEFI specification. *)
#[export] Instance memory_type_reference : MemoryTypeApi Z := {|
  BOOT_SERVICES_CODE := 3; BOOT_SERVICES_DATA := 4; CONVENTIONAL := 7
|}.

Record MemoryDescriptor (T : Type) : Type := mkDesc {
  ty : T;
  phys_start : Z;
  page_count : Z
}.
Arguments mkDesc {T} _ _ _.
Arguments ty {T} _.
Arguments phys_start {T} _.
Arguments page_count {T} _.

Definition UEFI_PAGE_SIZE : Z := 1024 * 4.

Definition is_available {T} `{MemoryTypeApi T} (memory_type : T) : bool :=
  bool_decide (memory_type = BOOT_SERVICES_CODE) ||
  bool_decide (memory_type = BOOT_SERVICES_DATA) ||
  bool_decide (memory_type = CONVENTIONAL).

(** * The bitmap *)

Definition BYTES_PER_FRAME : Z := 4 * 1024.
Definition FRAME_SIZE : Z := 4 * 1024.
Definition MAX_PHYSICAL_MEMORY_BYTES : Z := 128 * 1024 * 1024 * 1024.
Definition FRAME_COUNT : Z := MAX_PHYSICAL_MEMORY_BYTES / FRAME_SIZE.
Definition size_of_MapLine : Z := 8.
Definition BITS_PER_MAP_LINE : Z := 8 * size_of_MapLine.
Definition MAP_LINE_COUNT : Z := FRAME_COUNT / BITS_PER_MAP_LINE.

(** A newtype over [usize]. *)
Definition FrameID : Type := Z.

Record BitmapMemoryManager : Type := mkManager {
  alloc_map : list Z;
  begin : FrameID;
  end_ : FrameID
}.

Definition BitmapMemoryManager_new : BitmapMemoryManager :=
  mkManager (replicate (Z.to_nat MAP_LINE_COUNT) 0) 0 FRAME_COUNT.

Notation BM := (M BitmapMemoryManager).

Definition set_memory_range (range_begin range_end : FrameID) : BM unit :=
  modify (fun self => mkManager (alloc_map self) range_begin range_end).

Definition set_bit (frame_id : FrameID) (allocated : bool) : BM unit :=
  self ← get_st;
  let line_index := frame_id / BITS_PER_MAP_LINE in
  let bit_index := frame_id mod BITS_PER_MAP_LINE in
  line ← index (alloc_map self) line_index;
  lines ← index_set (alloc_map self) line_index
    (if allocated then Z.lor line (ushl 64 1 bit_index)
     else Z.land line (unot 64 (ushl 64 1 bit_index)));
  put_st (mkManager lines (begin self) (end_ self)).

Definition get_bit (frame_id : FrameID) : BM bool :=
  self ← get_st;
  let line_index := frame_id / BITS_PER_MAP_LINE in
  let bit_index := frame_id mod BITS_PER_MAP_LINE in
  line ← index (alloc_map self) line_index;
  mret (negb (Z.land line (ushl 64 1 bit_index) =? 0)).

Definition mark_allocated (first_frame_id : FrameID) (count : Z) : BM unit :=
  for_each (range 0 count) (fun i =>
    frame ← uadd 64 first_frame_id i;
    set_bit frame true).

Definition free (first_frame_id : FrameID) (number_of_frame : Z) : BM unit :=
  for_each (range 0 number_of_frame) (fun i =>
    frame ← uadd 64 first_frame_id i;
    set_bit frame false).

(** How an iteration of the loop of [alloc] leaves its inner loop. *)
Inductive scan_exit : Type := ScanReturnNone | ScanDone.

(** [for _ in i..number_of_frame]: the loop variable is not used. *)
Fixpoint alloc_scan (l : list Z) (start_frame_id i : Z) : BM scan_exit :=
  match l with
  | [] => mret ScanDone
  | _ :: l' =>
      self ← get_st;
      frame ← uadd 64 start_frame_id i;
      if end_ self <=? frame then mret ScanReturnNone
      else
        allocated ← get_bit frame;
        if (allocated : bool) then mret ScanDone else alloc_scan l' start_frame_id i
  end.

(** The [loop] of [alloc]; [fuel] bounds its iterations. *)
Fixpoint alloc_loop (fuel : nat) (number_of_frame start_frame_id : Z) :
    BM (option FrameID) :=
  match fuel with
  | O => diverge
  | S fuel =>
      let i := 0 in
      exit ← alloc_scan (range i number_of_frame) start_frame_id i;
      match exit with
      | ScanReturnNone => mret None
      | ScanDone =>
          if i =? number_of_frame then
            mark_allocated start_frame_id number_of_frame ;;
            mret (Some start_frame_id)
          else
            step ← uadd 64 i 1;
            start_frame_id ← uadd 64 start_frame_id step;
            alloc_loop fuel number_of_frame start_frame_id
      end
  end.

Definition alloc (fuel : nat) (number_of_frame : Z) : BM (option FrameID) :=
  self ← get_st; alloc_loop fuel number_of_frame (begin self).

(** * Initialisation from the memory map *)

Section init.
Context {T : Type} `{MemoryTypeApi T}.

(** One iteration of the loop of [init]: the new [last_available_end]. *)
Definition init_step (last_available_end : Z) (desc : MemoryDescriptor T) : BM Z :=
  bytes ← umul 64 (page_count desc) UEFI_PAGE_SIZE;
  phys_end ← uadd 64 (phys_start desc) bytes;
  (if last_available_end <? phys_start desc then
     gap ← usub 64 (phys_start desc) last_available_end;
     mark_allocated (last_available_end / BYTES_PER_FRAME) (gap / BYTES_PER_FRAME)
   else mret tt) ;;
  if is_available (ty desc) then mret phys_end
  else
    bytes ← umul 64 (page_count desc) UEFI_PAGE_SIZE;
    mark_allocated (phys_start desc / BYTES_PER_FRAME) (bytes / BYTES_PER_FRAME) ;;
    mret last_available_end.

Fixpoint init_loop (last_available_end : Z) (memory_map : list (MemoryDescriptor T)) :
    BM Z :=
  match memory_map with
  | [] => mret last_available_end
  | desc :: rest =>
      last_available_end ← init_step last_available_end desc;
      init_loop last_available_end rest
  end.

Definition init (memory_map : list (MemoryDescriptor T)) : BM unit :=
  last_available_end ← init_loop 0 memory_map;
  set_memory_range 1 (last_available_end / BYTES_PER_FRAME).
End init.

(** * The global manager *)

Section global.
Context {mutex : Type -> Type} `{SpinMutex mutex}.

(** [mem_manager().method(..)]. *)
Definition mem_manager {A} (m : BM A) : M (mutex BitmapMemoryManager) A :=
  with_lock (fun g => g) (fun mx _ => mx)
    (zoom fst (fun t p => (t, p.2)) m).
End global.

(** * Specification *)

(** The allocation bit of a frame. *)
Definition frame_bit (m : BitmapMemoryManager) (f : Z) : option bool :=
  (fun line => Z.testbit line (f mod 64)) <$> alloc_map m !! Z.to_nat (f / 64).

Record wf (m : BitmapMemoryManager) : Prop := {
  wf_len : Z.of_nat (length (alloc_map m)) = MAP_LINE_COUNT;
  wf_lines : Forall (fun line => 0 <= line < 2 ^ 64) (alloc_map m)
}.

(** [m'] is [m] with the bits of the frames [lo..hi] set to [b]. *)
Record filled (b : bool) (lo hi : Z) (m m' : BitmapMemoryManager) : Prop := {
  fl_wf : wf m';
  fl_begin : begin m' = begin m;
  fl_end : end_ m' = end_ m;
  fl_bit f : 0 <= f ->
    frame_bit m' f = if (lo <=? f) && (f <? hi) then Some b else frame_bit m f
}.

(** * Lemmas *)

Lemma frame_count : FRAME_COUNT = 2 ^ 25.
Proof. reflexivity. Qed.

Lemma map_line_count : MAP_LINE_COUNT = 2 ^ 19.
Proof. reflexivity. Qed.

Lemma bits_per_map_line : BITS_PER_MAP_LINE = 64.
Proof. reflexivity. Qed.

Lemma wf_lookup m f : wf m -> 0 <= f < FRAME_COUNT ->
  exists line, alloc_map m !! Z.to_nat (f / 64) = Some line /\ 0 <= line < 2 ^ 64.
Proof.
  intros [Hlen Hlines] Hf. rewrite frame_count in Hf. rewrite map_line_count in Hlen.
  destruct (lookup_lt_is_Some_2 (alloc_map m) (Z.to_nat (f / 64))) as [line E]; [zlia|].
  exists line. split; [done|]. rewrite Forall_lookup in Hlines. eauto.
Qed.

Lemma wf_lookup_out m f : wf m -> FRAME_COUNT <= f ->
  alloc_map m !! Z.to_nat (f / 64) = None.
Proof.
  intros [Hlen _] Hf. rewrite frame_count in Hf. rewrite map_line_count in Hlen.
  apply lookup_ge_None. zlia.
Qed.

(** The word [set_bit] writes. *)
Definition set_line (line k : Z) (b : bool) : Z :=
  if b then Z.lor line (ushl 64 1 k) else Z.land line (unot 64 (ushl 64 1 k)).

Lemma set_line_range line k b : 0 <= line < 2 ^ 64 -> 0 <= set_line line k b < 2 ^ 64.
Proof.
  intros. unfold set_line.
  destruct b; [apply lor_range; [lia|done|by apply ushl_range]|by apply land_range_l].
Qed.

Lemma testbit_set_line line k b i : 0 <= k < 64 -> 0 <= i < 64 ->
  Z.testbit (set_line line k b) i = if i =? k then b else Z.testbit line i.
Proof.
  intros Hk Hi. unfold set_line.
  assert (H1 : Z.testbit 1 (i - k) = (i =? k)).
  { destruct (Z.eqb_spec i k) as [->|]; [by rewrite Z.sub_diag|].
    destruct (decide (i < k)); [by apply Z.testbit_neg_r; lia|].
    apply (testbit_high 1); lia. }
  destruct b; bits_norm; rewrite H1; replace (i <? 64) with true by lia;
    by destruct (i =? k); simpl; rewrite ?orb_true_r, ?orb_false_r, ?andb_true_r, ?andb_false_r.
Qed.

Lemma wp_set_bit m f b (Q : unit -> _ -> Prop) :
  wf m -> 0 <= f < FRAME_COUNT ->
  (forall m', filled b f (f + 1) m m' -> Q tt m') -> wp (set_bit f b) Q m.
Proof.
  intros Hm Hf HQ. destruct (wf_lookup m f Hm Hf) as (line & E & Hline).
  pose proof (lookup_lt_Some _ _ _ E) as Hlt.
  unfold set_bit. rewrite bits_per_map_line. wp_steps.
  eapply wp_index; [zlia|exact E|]. wp_step. apply wp_index_set; [zlia|]. wp_steps.
  apply HQ. split; simpl; [|done|done|].
  - destruct Hm as [Hlen Hlines]. split; simpl; [by rewrite length_insert|].
    apply Forall_insert; [done|]. by apply (set_line_range line (f mod 64) b).
  - intros g Hg. unfold frame_bit. simpl. rewrite range_one.
    destruct (decide (g / 64 = f / 64)) as [Eq|Hne].
    + rewrite Eq, list_lookup_insert_eq, E by done. simpl.
      rewrite (testbit_set_line line (f mod 64) b) by zlia.
      destruct (Z.eqb_spec g f) as [->|Hgf]; [by rewrite Z.eqb_refl|].
      replace (g mod 64 =? f mod 64) with false; [done|].
      symmetry. apply Z.eqb_neq. zlia.
    + rewrite list_lookup_insert_ne by zlia.
      by replace (g =? f) with false by (symmetry; apply Z.eqb_neq; congruence).
Qed.

Lemma set_bit_out m f b : wf m -> FRAME_COUNT <= f ->
  set_bit f b m = Panic IndexOutOfBounds m.
Proof.
  intros Hm Hf. unfold set_bit. rewrite bits_per_map_line.
  rewrite (bind_Ret get_st _ m m m) by done. apply bind_Panic. unfold index.
  rewrite (wf_lookup_out m f Hm Hf).
  rewrite frame_count in Hf. by replace (f / 64 <? 0) with false by zlia.
Qed.

Lemma wp_get_bit m f (Q : bool -> _ -> Prop) :
  wf m -> 0 <= f < FRAME_COUNT ->
  (forall b, frame_bit m f = Some b -> Q b m) -> wp (get_bit f) Q m.
Proof.
  intros Hm Hf HQ. destruct (wf_lookup m f Hm Hf) as (line & E & Hline).
  unfold get_bit. rewrite bits_per_map_line. wp_steps.
  eapply wp_index; [zlia|exact E|]. wp_step. apply HQ.
  unfold frame_bit. rewrite E. simpl. f_equal. symmetry. apply land_bit. zlia.
Qed.

Lemma filled_refl b lo m : wf m -> filled b lo lo m m.
Proof.
  intros Hm. split; try done. intros f Hf.
  by replace ((lo <=? f) && (f <? lo)) with false by lia.
Qed.

Lemma filled_trans b lo mid hi m m1 m2 : lo <= mid <= hi ->
  filled b lo mid m m1 -> filled b mid hi m1 m2 -> filled b lo hi m m2.
Proof.
  intros Hmid [_ B1 E1 F1] [W2 B2 E2 F2]. split; [done|congruence..|].
  intros f Hf. rewrite F2, F1 by done.
  destruct (Z.leb_spec lo f), (Z.ltb_spec f mid), (Z.leb_spec mid f), (Z.ltb_spec f hi);
    simpl; try done; lia.
Qed.

(** [mark_allocated] and [free] are this loop. *)
Definition fill_frames (b : bool) (first count : Z) : BM unit :=
  for_each (range 0 count) (fun i => frame ← uadd 64 first i; set_bit frame b).

Lemma fill_frames_step b first count m i m1 :
  0 <= first -> 0 <= i < count -> first + i < FRAME_COUNT ->
  filled b first (first + i) m m1 ->
  wp (frame ← uadd 64 first i; set_bit frame b)
    (fun _ m2 => filled b first (first + (i + 1)) m m2) m1.
Proof.
  intros Hfirst Hi Hlt H1. rewrite frame_count in Hlt. wp_step. wp_step; [lia|].
  apply wp_set_bit; [by apply H1|rewrite frame_count; lia|].
  intros m2 H2. eapply filled_trans; [|exact H1|]; [lia|].
  by replace (first + (i + 1)) with (first + i + 1) by lia.
Qed.

Lemma wp_fill_frames b first count m (Q : unit -> _ -> Prop) :
  wf m -> 0 <= first -> 0 <= count -> first + count <= FRAME_COUNT ->
  (forall m', filled b first (first + count) m m' -> Q tt m') ->
  wp (fill_frames b first count) Q m.
Proof.
  intros Hm Hfirst Hcount Hsum HQ.
  apply (wp_for_range _ (fun i m1 => filled b first (first + i) m m1));
    [lia|rewrite Z.add_0_r; by apply filled_refl| |done].
  intros i m1 Hi H1. apply fill_frames_step with count; [lia|lia|lia|exact H1].
Qed.

Lemma fill_frames_out b first count m :
  wf m -> 0 <= first -> 0 < count -> FRAME_COUNT < first + count <= 2 ^ 64 ->
  panics (fill_frames b first count) IndexOutOfBounds m.
Proof.
  intros Hm Hfirst Hcount Hsum. pose proof frame_count as HF.
  apply (for_range_panics _ (fun i m1 => filled b first (first + i) m m1)
    _ _ (Z.max 0 (FRAME_COUNT - first))); [lia|rewrite Z.add_0_r; by apply filled_refl|..].
  - intros i m1 Hi H1. apply fill_frames_step with count; [lia|lia|lia|exact H1].
  - intros m1 H1. exists m1. unfold uadd.
    erewrite bind_Ret; [|apply checked_Ret; lia].
    apply set_bit_out; [by apply H1|lia].
Qed.

(** ** The search of [alloc] *)

(** The inner loop looks at one frame only, however many it is asked for. *)
Lemma alloc_scan_spec l s m :
  wf m -> 0 <= s < 2 ^ 64 -> end_ m <= FRAME_COUNT -> l <> [] ->
  alloc_scan l s 0 m = Ret (if end_ m <=? s then ScanReturnNone else ScanDone) m.
Proof.
  intros Hm Hs Hend Hl.
  assert (Hcase : end_ m <= s \/ (s < end_ m /\
    forall l, alloc_scan l s 0 m = Ret ScanDone m)).
  { destruct (decide (end_ m <= s)); [by left|]. right. split; [lia|].
    clear l Hl. intros l. induction l as [|x l IH]; [done|]. simpl.
    rewrite (bind_Ret get_st _ m m m) by done.
    rewrite (bind_Ret _ _ m s m) by (unfold uadd; rewrite Z.add_0_r; apply checked_Ret; lia).
    replace (end_ m <=? s) with false by lia.
    destruct (proj1 (wp_returns _ _ _) (wp_get_bit m s (fun _ m' => m' = m) Hm
      ltac:(lia) ltac:(done))) as (b & m' & E & ->).
    rewrite (bind_Ret _ _ _ _ _ E). by destruct b. }
  destruct Hcase as [Hc|[Hc Hall]].
  - destruct l as [|x l]; [done|]. simpl.
    rewrite (bind_Ret get_st _ m m m) by done.
    rewrite (bind_Ret _ _ m s m) by (unfold uadd; rewrite Z.add_0_r; apply checked_Ret; lia).
    by replace (end_ m <=? s) with true by lia.
  - rewrite Hall. by replace (end_ m <=? s) with false by lia.
Qed.

Lemma alloc_loop_none fuel n s m :
  wf m -> 0 <= s < 2 ^ 64 -> end_ m <= FRAME_COUNT -> 0 < n ->
  (Z.to_nat (end_ m - s) < fuel)%nat ->
  alloc_loop fuel n s m = Ret None m.
Proof.
  intros Hm Hs Hend Hn. pose proof frame_count as HF. revert s Hs.
  induction fuel as [|fuel IH]; intros s Hs Hfuel; [lia|]. simpl.
  erewrite bind_Ret; [|apply alloc_scan_spec; [done..|]; by rewrite range_cons by lia].
  destruct (Z.leb_spec (end_ m) s); [done|].
  destruct n as [|n|n]; try lia.
  erewrite bind_Ret; [|apply checked_Ret; lia].
  erewrite bind_Ret; [|apply checked_Ret; lia].
  apply IH; lia.
Qed.

(** ** Initialisation *)

Section init_lemmas.
Context {T : Type} `{MemoryTypeApi T}.
Implicit Types (d : MemoryDescriptor T) (ds : list (MemoryDescriptor T)).

Definition desc_first d : Z := phys_start d / 4096.
Definition desc_last d : Z := phys_start d / 4096 + page_count d.

(** A descriptor as UEFI gives it: page aligned; and within the bitmap. *)
Definition desc_ok d : Prop :=
  0 <= phys_start d /\ phys_start d mod 4096 = 0 /\ 0 <= page_count d /\
  desc_last d <= FRAME_COUNT.

(** Sorted by address and disjoint, from frame [lo] on. *)
Fixpoint sorted_from (lo : Z) ds : Prop :=
  match ds with
  | [] => True
  | d :: ds' => desc_ok d /\ lo <= desc_first d /\ sorted_from (desc_last d) ds'
  end.

Definition in_desc (f : Z) d : bool := (desc_first d <=? f) && (f <? desc_last d).

(** The frame lies in a descriptor of an available type. *)
Definition available_frame ds (f : Z) : bool :=
  existsb (fun d => is_available (ty d) && in_desc f d) ds.

(** The end of the last available descriptor. *)
Definition available_end ds : Z :=
  foldl (fun e d => if is_available (ty d) then desc_last d else e) 0 ds.

(** After the descriptors [processed], which end at frame [hi]: frames below the last
    available end are marked unless available, those above are free from [hi] on. *)
Record init_inv (processed : list (MemoryDescriptor T)) (hi last : Z)
    (m : BitmapMemoryManager) : Prop := {
  ii_wf : wf m;
  ii_last : last = available_end processed * 4096;
  ii_range : 0 <= available_end processed <= hi /\ hi <= FRAME_COUNT;
  ii_below f : 0 <= f < available_end processed ->
    frame_bit m f = Some (negb (available_frame processed f));
  ii_above f : hi <= f < FRAME_COUNT -> frame_bit m f = Some false;
  ii_avail f : available_end processed <= f -> available_frame processed f = false
}.

Lemma available_end_app ds d :
  available_end (ds ++ [d]) = if is_available (ty d) then desc_last d else available_end ds.
Proof. unfold available_end. by rewrite foldl_app. Qed.

Lemma available_frame_app ds d f :
  available_frame (ds ++ [d]) f =
    available_frame ds f || (is_available (ty d) && in_desc f d).
Proof. unfold available_frame. rewrite existsb_app. simpl. by rewrite orb_false_r. Qed.

(** The gap below a descriptor is marked; the bits after the step. *)
Lemma init_inv_available processed hi last d m m1 :
  init_inv processed hi last m -> desc_ok d -> hi <= desc_first d ->
  filled true (available_end processed) (desc_first d) m m1 ->
  is_available (ty d) = true ->
  init_inv (processed ++ [d]) (desc_last d) (desc_last d * 4096) m1.
Proof.
  intros [Hwf Hlast Hrange Hbelow Habove Havail] (Hs & Hal & Hp & Hmax) Hhi
    [Hwf1 _ _ Hbit] Hty. unfold desc_first, desc_last in *.
  split; rewrite ?available_end_app, ?Hty; unfold desc_last; [done|done|zlia|..].
  - intros f Hf. rewrite available_frame_app, Hty, Hbit by lia.
    unfold in_desc, desc_first, desc_last. destruct (decide (f < available_end processed)).
    + rewrite Hbelow by lia. replace (available_end processed <=? f) with false by lia.
      replace (phys_start d / 4096 <=? f) with false by lia. by rewrite orb_false_r.
    + rewrite Havail by lia. replace (available_end processed <=? f) with true by lia.
      replace (f <? phys_start d / 4096 + page_count d) with true by lia.
      destruct (Z.ltb_spec f (phys_start d / 4096)).
      * by replace (phys_start d / 4096 <=? f) with false by lia.
      * replace (phys_start d / 4096 <=? f) with true by lia. simpl.
        apply Habove. lia.
  - intros f Hf. rewrite Hbit by lia. replace (f <? phys_start d / 4096) with false by lia.
    rewrite andb_false_r. apply Habove. lia.
  - intros f Hf. rewrite available_frame_app, Hty, Havail by lia.
    unfold in_desc, desc_last.
    replace (f <? phys_start d / 4096 + page_count d) with false by lia.
    by rewrite andb_false_r.
Qed.

Lemma init_inv_used processed hi last d m m1 m2 :
  init_inv processed hi last m -> desc_ok d -> hi <= desc_first d ->
  filled true (available_end processed) (desc_first d) m m1 ->
  filled true (desc_first d) (desc_last d) m1 m2 ->
  is_available (ty d) = false ->
  init_inv (processed ++ [d]) (desc_last d) last m2.
Proof.
  intros [Hwf Hlast Hrange Hbelow Habove Havail] (Hs & Hal & Hp & Hmax) Hhi
    H1 H2 Hty. unfold desc_first, desc_last in *.
  destruct (filled_trans true (available_end processed) (phys_start d / 4096)
    (phys_start d / 4096 + page_count d) m m1 m2 ltac:(lia) H1 H2) as [Hwf2 _ _ Hbit].
  split; rewrite ?available_end_app, ?Hty; [done|done|lia|..].
  - intros f Hf. rewrite available_frame_app, Hty, orb_false_r, Hbit, Hbelow by lia.
    by replace (available_end processed <=? f) with false by lia.
  - intros f Hf. rewrite Hbit by lia.
    replace (f <? phys_start d / 4096 + page_count d) with false by lia.
    rewrite andb_false_r. apply Habove. lia.
  - intros f Hf. by rewrite available_frame_app, Hty, Havail by lia.
Qed.

(** The first part of the step: frames of the gap are marked. *)
Lemma wp_init_gap (A : Z) d m (Q : unit -> _ -> Prop) :
  wf m -> desc_ok d -> 0 <= A <= desc_first d ->
  (forall m1, filled true A (desc_first d) m m1 -> Q tt m1) ->
  wp (if A * 4096 <? phys_start d then
        gap ← usub 64 (phys_start d) (A * 4096);
        mark_allocated (A * 4096 / 4096) (gap / 4096)
      else mret tt) Q m.
Proof.
  intros Hm (Hs & Hal & Hp & Hmax) HA HQ. unfold desc_first, desc_last in *.
  pose proof frame_count as HF.
  destruct (Z.ltb_spec (A * 4096) (phys_start d)).
  - wp_step. wp_step; [zlia|]. rewrite Z.div_mul by lia.
    replace ((phys_start d - A * 4096) / 4096) with (phys_start d / 4096 - A) by zlia.
    apply (wp_fill_frames true); [done|lia|lia|lia|]. intros m1 H1. apply HQ.
    by replace (phys_start d / 4096) with (A + (phys_start d / 4096 - A)) by lia.
  - wp_step. apply HQ. replace (phys_start d / 4096) with A by zlia.
    by apply filled_refl.
Qed.

Lemma wp_init_step processed hi last d m (Q : Z -> _ -> Prop) :
  init_inv processed hi last m -> desc_ok d -> hi <= desc_first d ->
  (forall last' m', init_inv (processed ++ [d]) (desc_last d) last' m' -> Q last' m') ->
  wp (init_step last d) Q m.
Proof.
  intros Hinv Hd Hhi HQ. pose proof Hinv as [Hwf Hlast Hrange _ _ _].
  pose proof Hd as (Hs & Hal & Hp & Hmax). rewrite frame_count in *.
  assert (Hlastd : phys_start d + page_count d * 4096 = desc_last d * 4096)
    by (unfold desc_last; zlia).
  unfold init_step, UEFI_PAGE_SIZE, BYTES_PER_FRAME.
  change (1024 * 4) with 4096. change (4 * 1024) with 4096. subst last.
  wp_step. wp_step; [lia|]. wp_step. wp_step; [lia|]. wp_step.
  apply wp_init_gap; [done|done|lia|]. intros m1 H1.
  destruct (is_available (ty d)) eqn:Hty.
  - wp_step. apply HQ. rewrite Hlastd. by eapply init_inv_available.
  - wp_step. wp_step; [lia|]. wp_step. rewrite Z.div_mul by lia.
    apply (wp_fill_frames true); [apply H1|zlia|lia| |].
    { rewrite frame_count. exact Hmax. }
    intros m2 H2. wp_step. apply HQ. by eapply init_inv_used.
Qed.

Lemma wp_init_loop ds processed hi last m (Q : Z -> _ -> Prop) :
  init_inv processed hi last m -> sorted_from hi ds ->
  (forall hi' last' m', init_inv (processed ++ ds) hi' last' m' -> Q last' m') ->
  wp (init_loop last ds) Q m.
Proof.
  revert processed hi last m. induction ds as [|d ds IH]; intros processed hi last m Hinv Hds HQ.
  - simpl. wp_step. apply (HQ hi). by rewrite app_nil_r.
  - destruct Hds as (Hd & Hhi & Hds). simpl. wp_step.
    eapply wp_init_step; [done..|]. intros last' m' Hinv'.
    eapply IH; [exact Hinv'|exact Hds|]. intros hi'' last'' m''.
    rewrite <- (assoc_L (++)). apply HQ.
Qed.

(** The manager [new] makes. *)
Lemma new_lines (l : list Z) : l = replicate (Z.to_nat MAP_LINE_COUNT) 0 ->
  alloc_map BitmapMemoryManager_new = l.
Proof. intros ->. reflexivity. Qed.

Lemma new_wf : wf BitmapMemoryManager_new.
Proof.
  split; rewrite (new_lines _ eq_refl).
  - rewrite length_replicate, map_line_count. lia.
  - apply Forall_replicate. lia.
Qed.

Lemma new_free f : 0 <= f < FRAME_COUNT -> frame_bit BitmapMemoryManager_new f = Some false.
Proof.
  intros Hf. rewrite frame_count in Hf. unfold frame_bit. rewrite (new_lines _ eq_refl).
  rewrite lookup_replicate_2 by (rewrite map_line_count; zlia).
  cbn [fmap option_fmap option_map]. by rewrite Z.bits_0.
Qed.

Lemma new_inv : init_inv [] 0 0 BitmapMemoryManager_new.
Proof.
  split; [exact new_wf|reflexivity|rewrite frame_count; unfold available_end; simpl; lia
    |unfold available_end; simpl; lia|exact new_free|reflexivity].
Qed.

(** The loop runs through the descriptors within the limit, up to a later panic. *)
Lemma init_loop_panics ds rest processed hi last m p :
  init_inv processed hi last m -> sorted_from hi ds ->
  (forall hi' last' m', init_inv (processed ++ ds) hi' last' m' ->
     panics (init_loop last' rest) p m') ->
  panics (init_loop last (ds ++ rest)) p m.
Proof.
  revert processed hi last m. induction ds as [|d ds IH]; intros processed hi last m Hinv Hds HQ.
  - apply (HQ hi). by rewrite app_nil_r.
  - destruct Hds as (Hd & Hhi & Hds). simpl.
    destruct (proj1 (wp_returns _ _ _) (wp_init_step processed hi last d m
      (fun last' m' => init_inv (processed ++ [d]) (desc_last d) last' m')
      Hinv Hd Hhi (fun _ _ Hi => Hi))) as (last' & m' & E & Hinv').
    destruct (IH _ _ _ _ Hinv' Hds) as [s' E'].
    { intros hi'' last'' m''. rewrite <- (assoc_L (++)). apply HQ. }
    exists s'. by rewrite (bind_Ret _ _ _ _ _ E).
Qed.

Lemma init_step_beyond processed hi last d m :
  init_inv processed hi last m ->
  MAX_PHYSICAL_MEMORY_BYTES + 4096 <= phys_start d -> phys_start d mod 4096 = 0 ->
  0 <= page_count d -> phys_start d + page_count d * 4096 < 2 ^ 64 ->
  panics (init_step last d) IndexOutOfBounds m.
Proof.
  intros [Hwf -> Hrange _ _ _] Hs Hal Hp Hmax.
  pose proof frame_count as HF. change MAX_PHYSICAL_MEMORY_BYTES with (2 ^ 37) in Hs.
  unfold init_step, UEFI_PAGE_SIZE, BYTES_PER_FRAME.
  change (1024 * 4) with 4096. change (4 * 1024) with 4096. unfold panics.
  erewrite bind_Ret; [|apply checked_Ret; lia].
  erewrite bind_Ret; [|apply checked_Ret; lia].
  replace (available_end processed * 4096 <? phys_start d) with true by lia.
  destruct (fill_frames_out true (available_end processed * 4096 / 4096)
    ((phys_start d - available_end processed * 4096) / 4096) m Hwf) as [s' E];
    rewrite ?Z.div_mul by lia; [lia|zlia|zlia|].
  exists s'. rewrite Z.div_mul in E by lia. apply bind_Panic.
  erewrite bind_Ret; [|apply checked_Ret; lia]. exact E.
Qed.
End init_lemmas.

(** * Properties *)

Lemma wp_init_bitmap {T} `{MemoryTypeApi T} (ds : list (MemoryDescriptor T)) (Q : unit -> BitmapMemoryManager -> Prop) :
  sorted_from 0 ds ->
  (forall m, wf m -> begin m = 1 -> end_ m = available_end ds ->
    (forall f, 0 <= f < end_ m -> frame_bit m f = Some (negb (available_frame ds f))) ->
    (forall f, end_ m <= f -> available_frame ds f = false) -> Q tt m) ->
  wp (init ds) Q BitmapMemoryManager_new.
Proof.
  intros Hds HQ. unfold init. wp_step.
  eapply wp_init_loop; [exact new_inv|exact Hds|].
  intros hi last m [Hwf -> _ Hbelow _ Havail]. unfold set_memory_range. wp_step.
  change BYTES_PER_FRAME with 4096. rewrite Z.div_mul by lia.
  apply HQ; [by destruct Hwf|done|done|exact Hbelow|exact Havail].
Qed.

Lemma available_frame_below {T} `{MemoryTypeApi T} (ds : list (MemoryDescriptor T)) f :
  sorted_from 0 ds -> available_frame ds f = true -> f < available_end ds.
Proof.
  intros Hds Hf. destruct (Z.lt_ge_cases f (available_end ds)) as [|Hge]; [done|].
  assert (Hw : wp (init ds) (fun _ m => available_frame ds f = false) BitmapMemoryManager_new).
  { apply wp_init_bitmap; [done|]. intros m _ _ He _ Hout. apply Hout. lia. }
  apply wp_returns in Hw as (_ & m & _ & E). congruence.
Qed.

(** C9: on a memory map sorted by address within the 128 GiB the bitmap covers,
    [init] returns; below the managed end, which is the end of the last available
    descriptor, a frame is free exactly if an available descriptor covers it. *)
Theorem init_bitmap {T} `{MemoryTypeApi T} (ds : list (MemoryDescriptor T)) :
  sorted_from 0 ds ->
  exists m, init ds BitmapMemoryManager_new = Ret tt m /\ wf m /\
    begin m = 1 /\ end_ m = available_end ds /\
    (forall f, 0 <= f < end_ m -> frame_bit m f = Some (negb (available_frame ds f))) /\
    (forall f, end_ m <= f -> available_frame ds f = false).
Proof. intros Hds. apply wp_returns_unit. apply wp_init_bitmap; auto 10. Qed.



(** [alloc] of zero frames gives the first managed frame and marks nothing. *)
Theorem alloc_zero fuel m : (0 < fuel)%nat -> alloc fuel 0 m = Ret (Some (begin m)) m.
Proof. intros Hf. destruct fuel; [lia|reflexivity]. Qed.

(** [free] undoes [mark_allocated]: on a range of frames of the bitmap both
    return, the range ends free and every other frame keeps its bit. *)
Theorem mark_then_free first count m :
  wf m -> 0 <= first -> 0 <= count -> first + count <= FRAME_COUNT ->
  exists m1 m2, mark_allocated first count m = Ret tt m1 /\
    free first count m1 = Ret tt m2 /\
    filled true first (first + count) m m1 /\
    filled false first (first + count) m m2.
Proof.
  intros Hm Hf Hc Hs.
  destruct (wp_returns_unit (mark_allocated first count)
    (filled true first (first + count) m) m) as (m1 & E1 & H1).
  { by apply (wp_fill_frames true). }
  destruct (wp_returns_unit (free first count)
    (filled false first (first + count) m1) m1) as (m2 & E2 & H2).
  { apply (wp_fill_frames false); try done. apply H1. }
  exists m1, m2. split; [done|]. split; [done|]. split; [done|].
  destruct H1 as [_ B1 N1 F1], H2 as [W2 B2 N2 F2].
  split; [done|congruence..|]. intros f Hf0. rewrite F2, F1 by done. by case_match.
Qed.

(** marking past the last frame of the bitmap panics with an index out of bounds
    instead of wrapping. *)
Theorem mark_out_of_bounds first count m :
  wf m -> 0 <= first -> 0 < count -> FRAME_COUNT < first + count <= 2 ^ 64 ->
  panics (mark_allocated first count) IndexOutOfBounds m.
Proof. apply (fill_frames_out true). Qed.

(** [set_bit] then [get_bit] of a frame of the bitmap reads back what was set. *)
Theorem set_get_bit f b m :
  wf m -> 0 <= f < FRAME_COUNT ->
  exists m', (set_bit f b ;; get_bit f) m = Ret b m' /\ filled b f (f + 1) m m'.
Proof.
  intros Hm Hf.
  assert (Hwp : wp (set_bit f b ;; get_bit f)
    (fun r m' => r = b /\ filled b f (f + 1) m m') m).
  { wp_step. apply wp_set_bit; [done..|]. intros m' Hm'.
    apply wp_get_bit; [apply Hm'|done|]. intros b' Hb'. split; [|done].
    rewrite (fl_bit _ _ _ _ _ Hm'), range_one, Z.eqb_refl in Hb' by lia. congruence. }
  apply wp_returns in Hwp as (r & m' & E & -> & H). eauto.
Qed.

(** * Witnesses *)

(** A map with a hole and a reserved area. *)
Definition small_map : list (MemoryDescriptor Z) := [
  mkDesc 7 0 0xa0; mkDesc 7 0x100000 0x700; mkDesc 0 0x800000 8; mkDesc 4 0x808000 0x10].

Lemma small_map_sorted : sorted_from 0 small_map.
Proof.
  unfold small_map, sorted_from, desc_ok, desc_first, desc_last. rewrite frame_count.
  simpl. repeat split; zlia.
Qed.

Lemma init_bitmap_witness :
  exists m, init small_map BitmapMemoryManager_new = Ret tt m /\
    end_ m = 0x818 /\ frame_bit m 0x9f = Some false /\ frame_bit m 0xa0 = Some true /\
    frame_bit m 0x803 = Some true /\ frame_bit m 0x808 = Some false.
Proof.
  destruct (init_bitmap small_map small_map_sorted) as (m & E & _ & _ & He & Hb & _).
  assert (Hend : end_ m = 0x818) by (rewrite He; reflexivity).
  exists m. split; [exact E|]. split; [exact Hend|].
  rewrite !Hb by lia. repeat split; reflexivity.
Defined.


Definition free_manager : BitmapMemoryManager :=
  mkManager (alloc_map BitmapMemoryManager_new) 1 0x818.

Lemma free_manager_wf : wf free_manager.
Proof. destruct new_wf as [H1 H2]. split; [exact H1|exact H2]. Qed.


Lemma alloc_zero_witness :
  alloc 1 0 free_manager = Ret (Some 1) free_manager.
Proof. apply (alloc_zero 1 free_manager). lia. Defined.

Lemma mark_then_free_witness :
  exists m1 m2, mark_allocated 60 10 free_manager = Ret tt m1 /\
    free 60 10 m1 = Ret tt m2 /\ frame_bit m1 64 = Some true /\
    frame_bit m2 64 = Some false.
Proof.
  destruct (mark_then_free 60 10 free_manager free_manager_wf)
    as (m1 & m2 & E1 & E2 & H1 & H2); rewrite ?frame_count; [lia..|].
  exists m1, m2. split; [exact E1|]. split; [exact E2|].
  rewrite (fl_bit _ _ _ _ _ H1), (fl_bit _ _ _ _ _ H2) by lia. split; reflexivity.
Defined.

Lemma mark_out_of_bounds_witness :
  panics (mark_allocated (2 ^ 25 - 1) 2) IndexOutOfBounds free_manager.
Proof.
  apply (mark_out_of_bounds (2 ^ 25 - 1) 2 free_manager free_manager_wf);
    rewrite ?frame_count; lia.
Defined.

Lemma set_get_bit_witness :
  exists m', (set_bit 64 true ;; get_bit 64) free_manager = Ret true m' /\
    frame_bit m' 63 = Some false.
Proof.
  destruct (set_get_bit 64 true free_manager free_manager_wf) as (m' & E & H);
    [rewrite frame_count; lia|].
  exists m'. split; [exact E|]. rewrite (fl_bit _ _ _ _ _ H) by lia.
  apply (new_free 63). rewrite frame_count. lia.
Defined.
End PhysMem.
