(* ===== verification/FrameSet.v ===== *)
(** The frame manager as an abstract set: whatever sequence of requests is made of the
    bitmap, it answers as the set of allocated frames would. *)

From stdpp Require Import propset.
From S2P Require Import Prelude External PhysMem.

Module FrameSet.
Import PhysMem.

(** * The requests, and the bitmap's answers *)

Inductive request : Type :=
  | Mark (first count : Z)
  | Free (first count : Z)
  | Query (f : Z)
  | Alloc (number_of_frame : Z).

Inductive answer : Type :=
  | Done
  | Bit (allocated : bool)
  | Frames (first : option FrameID).

(** A search visits each managed frame once, and one more to notice the end. *)
Definition alloc_fuel (m : BitmapMemoryManager) : nat := S (Z.to_nat (end_ m - begin m)).

Definition serve (r : request) : M BitmapMemoryManager answer :=
  match r with
  | Mark first count => mark_allocated first count ;; mret Done
  | Free first count => free first count ;; mret Done
  | Query f => b ← get_bit f; mret (Bit b)
  | Alloc n => m ← get_st; a ← alloc (alloc_fuel m) n; mret (Frames a)
  end.

Fixpoint serve_all (rs : list request) : M BitmapMemoryManager (list answer) :=
  match rs with
  | [] => mret []
  | r :: rs => a ← serve r; l ← serve_all rs; mret (a :: l)
  end.

(** * Specification: a set of frames *)

Definition frames (first count : Z) : propset Z := {[ f | first <= f < first + count ]}.

(** The allocated frames of a bitmap. *)
Definition allocated (m : BitmapMemoryManager) : propset Z :=
  {[ f | 0 <= f < FRAME_COUNT /\ frame_bit m f = Some true ]}.

(** Marking adds, freeing removes, a query is membership.  [Alloc] is specified as the code
    behaves: it gives the first managed frame to a request for none, and nothing to any
    other. *)
Inductive set_step (start : Z) : request -> propset Z -> answer -> propset Z -> Prop :=
  | set_mark first count A : set_step start (Mark first count) A Done (A ∪ frames first count)
  | set_free first count A : set_step start (Free first count) A Done (A ∖ frames first count)
  | set_query f b A : (b = true <-> f ∈ A) -> set_step start (Query f) A (Bit b) A
  | set_alloc n A : set_step start (Alloc n) A (Frames (if n =? 0 then Some start else None)) A.

Inductive set_run (start : Z) : list request -> propset Z -> list answer -> propset Z -> Prop :=
  | run_nil A A' : A ≡ A' -> set_run start [] A [] A'
  | run_cons r rs a l A A1 A' : set_step start r A a A1 -> set_run start rs A1 l A' ->
      set_run start (r :: rs) A (a :: l) A'.

(** Requests inside the bitmap. *)
Definition in_bitmap (r : request) : Prop :=
  match r with
  | Mark first count | Free first count =>
      0 <= first /\ 0 <= count /\ first + count <= FRAME_COUNT
  | Query f => 0 <= f < FRAME_COUNT
  | Alloc n => 0 <= n
  end.

(** A manager whose range lies in the bitmap. *)
Record managing (start : Z) (m : BitmapMemoryManager) : Prop := {
  mg_wf : wf m;
  mg_begin : begin m = start;
  mg_start : 0 <= start < 2 ^ 64;
  mg_end : end_ m <= FRAME_COUNT
}.

(** * Lemmas *)

#[export] Instance set_step_proper start r :
  Proper ((≡) ==> (=) ==> (≡) ==> impl) (fun A a A' => exists A1, set_step start r A a A1 /\ A1 ≡ A').
Proof.
  intros A B HAB a _ <- A' B' HAB' (A1 & Hs & E).
  inversion Hs; subst; eexists; (split; [constructor; set_solver|]);
    rewrite <- HAB', <- E; by rewrite ?HAB.
Qed.

#[export] Instance set_run_proper start rs :
  Proper ((≡) ==> (=) ==> (≡) ==> impl) (set_run start rs).
Proof.
  intros A B HAB a _ <- A' B' HAB' Hr. revert B HAB. induction Hr as [A A' E|r rs a l A A1 A' Hs Hr IH];
    intros B HAB.
  - constructor. by rewrite <- HAB, <- HAB'.
  - assert (Hb : exists B1, set_step start r B a B1 /\ B1 ≡ A1).
    { eapply set_step_proper; [exact HAB|done|reflexivity|]. by exists A1. }
    destruct Hb as (B1 & Hs1 & E1). eapply run_cons; [exact Hs1|]. by apply IH.
Qed.

Lemma frame_bit_allocated m f b : wf m -> 0 <= f < FRAME_COUNT ->
  frame_bit m f = Some b -> b = true <-> f ∈ allocated m.
Proof. intros Hm Hf Hb. unfold allocated. rewrite elem_of_PropSet, Hb. split; [by intros ->|intros [_ E]; congruence]. Qed.

Lemma filled_managing start b lo hi m m' :
  managing start m -> filled b lo hi m m' -> managing start m'.
Proof. intros [Hw Hb Hs He] [W B E _]. split; [done|congruence|done|congruence]. Qed.

Lemma filled_true_allocated first count m m' :
  0 <= first -> first + count <= FRAME_COUNT ->
  filled true first (first + count) m m' -> allocated m' ≡ allocated m ∪ frames first count.
Proof.
  intros Hf Hc Hfl f. unfold allocated, frames. rewrite elem_of_union, !elem_of_PropSet.
  destruct (decide (0 <= f)); [|intuition lia]. rewrite (fl_bit _ _ _ _ _ Hfl) by done.
  destruct (Z.leb_spec first f), (Z.ltb_spec f (first + count)); simpl; intuition (congruence || lia).
Qed.

Lemma filled_false_allocated first count m m' :
  filled false first (first + count) m m' -> allocated m' ≡ allocated m ∖ frames first count.
Proof.
  intros Hfl f. unfold allocated, frames. rewrite elem_of_difference, !elem_of_PropSet.
  destruct (decide (0 <= f)); [|intuition lia]. rewrite (fl_bit _ _ _ _ _ Hfl) by done.
  destruct (Z.leb_spec first f), (Z.ltb_spec f (first + count)); simpl; intuition (congruence || lia).
Qed.

Lemma wp_alloc n m start (Q : option FrameID -> BitmapMemoryManager -> Prop) :
  managing start m -> 0 <= n -> Q (if n =? 0 then Some start else None) m ->
  wp (alloc (alloc_fuel m) n) Q m.
Proof.
  intros [Hw <- Hs He] Hn HQ. apply wp_returns.
  exists (if n =? 0 then Some (begin m) else None), m. split; [|done].
  destruct (Z.eqb_spec n 0) as [->|]; [reflexivity|].
  apply alloc_loop_none; [done..|lia|unfold alloc_fuel; lia].
Qed.

(** One request, served by the bitmap and by the set. *)
Lemma wp_serve start r m (Q : answer -> BitmapMemoryManager -> Prop) :
  managing start m -> in_bitmap r ->
  (forall a m' A', managing start m' -> set_step start r (allocated m) a A' ->
    A' ≡ allocated m' -> Q a m') ->
  wp (serve r) Q m.
Proof.
  intros Hm Hr HQ. pose proof (mg_wf _ _ Hm) as Hw. destruct r as [first count|first count|f|n]; cbn [serve].
  - destruct Hr as (? & ? & ?). wp_step. apply (wp_fill_frames true); [done..|].
    intros m' Hfl. wp_step. eapply HQ; [by eapply filled_managing|constructor|].
    symmetry. by apply filled_true_allocated.
  - destruct Hr as (? & ? & ?). wp_step. apply (wp_fill_frames false); [done..|].
    intros m' Hfl. wp_step. eapply HQ; [by eapply filled_managing|constructor|].
    symmetry. by apply filled_false_allocated.
  - wp_step. apply wp_get_bit; [done..|]. intros b Hb. wp_step.
    eapply HQ; [done|constructor; by apply frame_bit_allocated|done].
  - wp_step. wp_step. wp_step. eapply wp_alloc; [exact Hm|exact Hr|]. wp_step.
    eapply HQ; [done|constructor|done].
Qed.

Lemma wp_serve_all start rs m (Q : list answer -> BitmapMemoryManager -> Prop) :
  managing start m -> Forall in_bitmap rs ->
  (forall l m', managing start m' -> set_run start rs (allocated m) l (allocated m') -> Q l m') ->
  wp (serve_all rs) Q m.
Proof.
  intros Hm Hrs. revert m Hm Q. induction Hrs as [|r rs Hr Hrs IH]; intros m Hm Q HQ; cbn [serve_all].
  - wp_step. apply HQ; [done|by constructor].
  - wp_step. apply (wp_serve start); [done..|]. intros a m1 A1 Hm1 Hs HA1.
    wp_step. apply IH; [done|]. intros l m2 Hm2 Hrun. wp_step.
    apply HQ; [done|]. eapply run_cons; [exact Hs|]. by rewrite HA1.
Qed.

(** * The refinement *)

(** C16: the bitmap implements the set: from a manager whose range lies in the bitmap, any
    sequence of requests inside the bitmap is served without a panic and without running
    out of fuel; the answers, and the frames left allocated, are those of a set of frames
    to which marking adds, from which freeing removes, and where [alloc] gives nothing
    but the first managed frame to a request for none. *)
Theorem allocator_refines start rs m :
  managing start m -> Forall in_bitmap rs ->
  exists answers m', serve_all rs m = Ret answers m' /\ managing start m' /\
    set_run start rs (allocated m) answers (allocated m').
Proof. intros Hm Hrs. apply wp_returns. by apply (wp_serve_all start). Qed.

(** * Witness *)

Lemma free_manager_managing : managing 1 free_manager.
Proof. split; [exact free_manager_wf|reflexivity|lia|rewrite frame_count; simpl; lia]. Qed.

(** Marking sixteen frames across two words, freeing the last eight and asking. *)
Definition some_requests : list request :=
  [Mark 56 16; Free 64 8; Query 63; Query 64; Alloc 4; Alloc 0].

Lemma set_step_answer start r A a A' : set_step start r A a A' ->
  match r with
  | Mark first count => a = Done /\ A' = A ∪ frames first count
  | Free first count => a = Done /\ A' = A ∖ frames first count
  | Query f => exists b, a = Bit b /\ (b = true <-> f ∈ A) /\ A' = A
  | Alloc n => a = Frames (if n =? 0 then Some start else None) /\ A' = A
  end.
Proof. destruct 1; eauto. Qed.

Lemma set_run_cons start r rs A l A' : set_run start (r :: rs) A l A' ->
  exists a l' A1, l = a :: l' /\ set_step start r A a A1 /\ set_run start rs A1 l' A'.
Proof. inversion 1; subst; eauto 10. Qed.

Lemma set_run_nil start A l A' : set_run start [] A l A' -> l = [].
Proof. by inversion 1. Qed.

Lemma allocator_refines_witness : exists answers m',
  serve_all some_requests free_manager = Ret answers m' /\
  answers = [Done; Done; Bit true; Bit false; Frames None; Frames (Some 1)].
Proof.
  destruct (allocator_refines 1 some_requests free_manager free_manager_managing) as (l & m' & E & _ & Hr).
  - unfold some_requests. rewrite !Forall_cons, Forall_nil. unfold in_bitmap.
    rewrite frame_count. repeat split; lia.
  - exists l, m'. split; [exact E|]. clear E.
    revert Hr. generalize (allocated free_manager) (allocated m'). intros A A' Hr.
    unfold some_requests in Hr.
    repeat (apply set_run_cons in Hr as (? & ? & ? & -> & ?%set_step_answer & Hr)).
    apply set_run_nil in Hr.
    repeat match goal with H : _ /\ _ |- _ => destruct H | H : exists _, _ |- _ => destruct H end.
    subst. unfold frames in *. rewrite !elem_of_difference, !elem_of_union, !elem_of_PropSet in *.
    match goal with H : ?b = true <-> (63 ∈ _ \/ _) /\ _ |- _ =>
      replace b with true by (symmetry; apply H; split; [right|]; lia) end.
    match goal with H : ?b = true <-> (64 ∈ _ \/ _) /\ _ |- _ =>
      replace b with false by (symmetry; apply not_true_is_false; rewrite H; intuition lia) end.
    reflexivity.
Defined.
End FrameSet.
