(* ===== verification/Common.v ===== *)
(** The data the bootloader and the kernel share (common/src): physical pointers,
    the boot information and the loaded kernel, and the crate's own [ArrayVec]. *)

From S2P Require Import Prelude Graphic PhysMem.

Module Common.

(** * Physical pointers (common/src/address.rs) *)

Record PhysPtr : Type := mkPhysPtr { ptr : Z }.

Definition PhysPtr_null : PhysPtr := mkPhysPtr 0.
(** References and raw pointers are their addresses. *)
Definition from_ref (ref_ : Z) : PhysPtr := mkPhysPtr ref_.
Definition from_ptr (p : Z) : PhysPtr := mkPhysPtr p.
Definition is_null (self : PhysPtr) : bool := ptr self =? 0.
Definition PhysPtr_ptr (self : PhysPtr) : Z := ptr self.
Definition mut_ptr (self : PhysPtr) : Z := ptr self.
Definition ref_ (self : PhysPtr) : Z := PhysPtr_ptr self.
Definition PhysPtr_get (self : PhysPtr) : Z := ptr self.
Definition PhysPtr_set (p : Z) : M PhysPtr unit := put_st (mkPhysPtr p).

(** * Arrays with a fixed alignment (common/src/array.rs) *)

Record AlignedArray64 (T : Type) : Type := mkAlignedArray64 { aligned_elems : list T }.
Arguments mkAlignedArray64 {T} _.
Arguments aligned_elems {T} _.
Definition from_array {T} (array : list T) : AlignedArray64 T := mkAlignedArray64 array.

(** * Boot information (common/src/boot.rs) *)

Record BootInfo (T : Type) : Type := mkBootInfo {
  graphic_info : Graphic.GraphicInfo;
  memory_map : list (PhysMem.MemoryDescriptor T);
  rsdp_addr : option PhysPtr
}.
Arguments mkBootInfo {T} _ _ _.
Arguments graphic_info {T} _.
Arguments memory_map {T} _.
Arguments rsdp_addr {T} _.

Definition BootInfo_new {T} (gi : Graphic.GraphicInfo)
    (mm : list (PhysMem.MemoryDescriptor T)) (rsdp : option PhysPtr) : BootInfo T :=
  mkBootInfo gi mm rsdp.

(** A function pointer is the address it was made of. *)
Record Kernel : Type := mkKernel {
  base_addr : Z;
  entry_point_addr : Z;
  entry_point : Z
}.
Definition Kernel_new (base entry : Z) : Kernel := mkKernel base entry entry.

(** [run] never returns: it is the jump it makes, with its argument. *)
Definition Kernel_run {T} (self : Kernel) (boot_info : BootInfo T) : Z * BootInfo T :=
  (entry_point self, boot_info).

(** * The fixed-capacity vector (common/src/arrayvec.rs) *)

Inductive CapacityError : Type := CapacityError_new.

Record ArrayVec (T : Type) : Type := mkArrayVec {
  array : list (option T);
  av_index : Z
}.
Arguments mkArrayVec {T} _ _.
Arguments array {T} _.
Arguments av_index {T} _.

Section arrayvec.
Context {T : Type}.

Definition ArrayVec_new (CAP : Z) : ArrayVec T := mkArrayVec (replicate (Z.to_nat CAP) None) 0.

(** [array.iter_mut().find(|e| e.is_none())]: the first empty slot gets [x]. *)
Fixpoint fill_first (l : list (option T)) (x : T) : option (list (option T)) :=
  match l with
  | [] => None
  | None :: l' => Some (Some x :: l')
  | Some y :: l' => cons (Some y) <$> fill_first l' x
  end.

Definition push (new_element : T) : M (ArrayVec T) (result unit CapacityError) :=
  self ← get_st;
  match fill_first (array self) new_element with
  | Some l => put_st (mkArrayVec l (av_index self)) ;; mret (Ok tt)
  | None => mret (Err CapacityError_new)
  end.

Definition next : M (ArrayVec T) (option T) :=
  self ← get_st;
  slot ← index (array self) (av_index self);
  match slot with
  | Some current =>
      i ← uadd 64 (av_index self) 1;
      put_st (mkArrayVec (array self) i) ;; mret (Some current)
  | None => mret None
  end.

(** ** Specification: a list of at most [cap] elements, and how many were taken *)

Record repr (v : ArrayVec T) (cap : nat) (l : list T) (taken : nat) : Prop := {
  rp_array : array v = (Some <$> l) ++ replicate (cap - length l) None;
  rp_len : (length l <= cap)%nat;
  rp_index : av_index v = Z.of_nat taken;
  rp_taken : (taken <= length l)%nat
}.

(** What a [for] loop over the vector does: [next] until [None]. *)
Fixpoint drain (fuel : nat) : M (ArrayVec T) (list T) :=
  match fuel with
  | O => diverge
  | S fuel =>
      x ← next;
      match x with
      | Some x => l ← drain fuel; mret (x :: l)
      | None => mret []
      end
  end.

Fixpoint push_all (l : list T) : M (ArrayVec T) (result unit CapacityError) :=
  match l with
  | [] => mret (Ok tt)
  | x :: l' => push x ;? push_all l'
  end.

(** ** Lemmas *)

Lemma fill_first_repr (l : list T) n x :
  fill_first ((Some <$> l) ++ replicate n None) x =
    match n with
    | O => None
    | S n => Some ((Some <$> (l ++ [x])) ++ replicate n None)
    end.
Proof.
  induction l as [|y l IH]; [by destruct n|]. rewrite fmap_cons. cbn [app fill_first].
  rewrite IH. by destruct n.
Qed.

Lemma new_repr cap : repr (ArrayVec_new (Z.of_nat cap)) cap [] 0.
Proof. split; simpl; [by rewrite Nat2Z.id, Nat.sub_0_r|lia|done|lia]. Qed.

Lemma push_repr v cap l taken x : repr v cap l taken ->
  exists v', push x v = Ret (if decide (length l < cap)%nat then Ok tt else Err CapacityError_new) v' /\
    repr v' cap (if decide (length l < cap)%nat then l ++ [x] else l) taken.
Proof.
  intros [Ha Hl Hi Ht]. unfold push, mbind, M_bind, get_st. rewrite Ha, fill_first_repr.
  destruct (decide (length l < cap)%nat).
  - destruct (cap - length l)%nat as [|n] eqn:E; [lia|]. eexists. split; [done|].
    split; cbn [array av_index]; [|rewrite length_app; simpl; lia|done|
      rewrite length_app; simpl; lia].
    rewrite length_app. simpl. by replace (cap - (length l + 1))%nat with n by lia.
  - replace (cap - length l)%nat with 0%nat by lia. eexists. split; [done|].
    by split.
Qed.

Lemma next_some v cap l taken x : repr v cap l taken -> Z.of_nat cap < 2 ^ 64 ->
  l !! taken = Some x ->
  exists v', next v = Ret (Some x) v' /\ repr v' cap l (S taken).
Proof.
  intros [Ha Hl Hi Ht] Hcap Hx. pose proof (lookup_lt_Some _ _ _ Hx).
  exists (mkArrayVec (array v) (av_index v + 1)). split.
  - unfold next. rewrite (bind_Ret get_st _ v v v) by done.
    rewrite (bind_Ret _ _ v (Some x) v).
    + by rewrite (bind_Ret _ _ v (av_index v + 1) v) by (apply checked_Ret; lia).
    + unfold index. replace (av_index v <? 0) with false by lia.
      rewrite Hi, Nat2Z.id, Ha, lookup_app_l by (rewrite length_fmap; lia).
      by rewrite list_lookup_fmap, Hx.
  - split; simpl; [done|lia..].
Qed.

Lemma next_end v cap l : repr v cap l (length l) ->
  next v = if decide (length l < cap)%nat then Ret None v else Panic IndexOutOfBounds v.
Proof.
  intros [Ha Hl Hi Ht]. unfold next. rewrite (bind_Ret get_st _ v v v) by done.
  unfold index. replace (av_index v <? 0) with false by lia.
  rewrite Hi, Nat2Z.id, Ha. rewrite lookup_app_r, length_fmap, Nat.sub_diag
    by (rewrite length_fmap; lia).
  case_decide.
  - rewrite lookup_replicate_2 by lia. done.
  - by replace (cap - length l)%nat with 0%nat by lia.
Qed.

Lemma push_all_repr v cap l taken new : repr v cap l taken ->
  (length l + length new <= cap)%nat ->
  exists v', push_all new v = Ret (Ok tt) v' /\ repr v' cap (l ++ new) taken.
Proof.
  revert v l. induction new as [|x new IH]; intros v l Hv Hlen; simpl in *.
  - exists v. by rewrite app_nil_r.
  - destruct (push_repr v cap l taken x Hv) as (v1 & E1 & H1).
    rewrite decide_True in E1 by lia. rewrite decide_True in H1 by lia.
    destruct (IH v1 (l ++ [x]) H1) as (v2 & E2 & H2); [rewrite length_app; simpl; lia|].
    exists v2. rewrite <- (assoc_L (++)) in H2. split; [|done].
    unfold bind_try. by rewrite (bind_Ret _ _ _ _ _ E1).
Qed.

Lemma drain_repr fuel v cap l taken : repr v cap l taken -> Z.of_nat cap < 2 ^ 64 ->
  (length l - taken < fuel)%nat ->
  exists v', repr v' cap l (length l) /\
    drain fuel v = if decide (length l < cap)%nat then Ret (drop taken l) v'
                   else Panic IndexOutOfBounds v'.
Proof.
  revert v taken. induction fuel as [|fuel IH]; intros v taken Hv Hcap Hf; [lia|].
  cbn [drain]. destruct (l !! taken) as [x|] eqn:Hx.
  - destruct (next_some _ _ _ _ _ Hv Hcap Hx) as (v1 & E1 & H1).
    pose proof (lookup_lt_Some _ _ _ Hx).
    destruct (IH v1 (S taken) H1 Hcap ltac:(lia)) as (v2 & H2 & E2).
    exists v2. split; [done|]. rewrite (bind_Ret _ _ _ _ _ E1). cbn beta iota.
    case_decide.
    + rewrite (bind_Ret _ _ _ _ _ E2). by rewrite (drop_S _ _ _ Hx).
    + by apply bind_Panic.
  - pose proof (rp_taken _ _ _ _ Hv). apply lookup_ge_None in Hx.
    assert (taken = length l) as -> by lia. exists v. split; [done|].
    rewrite drop_all. pose proof (next_end _ _ _ Hv) as E. case_decide.
    + by rewrite (bind_Ret _ _ _ _ _ E).
    + by apply bind_Panic.
Qed.
End arrayvec.

(** * Properties *)

(** [push] refines appending to a list of at most [cap] elements: with room the
    element is appended, without it the [CapacityError] changes nothing, and the
    position of the iterator is kept either way. *)
Theorem arrayvec_push_refines {T} (v : ArrayVec T) cap l taken x :
  repr v cap l taken ->
  exists r v', push x v = Ret r v' /\
    if decide (length l < cap)%nat then r = Ok tt /\ repr v' cap (l ++ [x]) taken
    else r = Err CapacityError_new /\ repr v' cap l taken.
Proof.
  intros Hv. destruct (push_repr v cap l taken x Hv) as (v' & E & Hv').
  eexists _, v'. split; [exact E|]. by case_decide.
Qed.

(** C39: a list pushed into a new vector and taken out again by the iterator comes back
    unchanged if the vector is not full; iterating over a full one panics with an
    index out of bounds, when all its elements have been taken: the position is then the
    number of elements.  Either way the iteration leaves the elements in the array. *)
Theorem arrayvec_roundtrip {T} (l : list T) cap fuel :
  (length l <= cap)%nat -> Z.of_nat cap < 2 ^ 64 -> (length l < fuel)%nat ->
  exists v, (push_all l ;; drain fuel) (ArrayVec_new (Z.of_nat cap)) =
    (if decide (length l < cap)%nat then Ret l v else Panic IndexOutOfBounds v) /\
    av_index v = Z.of_nat (length l) /\
    array v = (Some <$> l) ++ replicate (cap - length l) None.
Proof.
  intros Hl Hcap Hf.
  destruct (push_all_repr _ cap [] 0 l (new_repr cap) Hl) as (v1 & E1 & H1).
  destruct (drain_repr fuel v1 cap l 0 H1 Hcap ltac:(lia)) as (v2 & [Ha _ Hi _] & E2).
  exists v2. by rewrite (bind_Ret _ _ _ _ _ E1), E2.
Qed.

Lemma arrayvec_push_refines_witness :
  exists v', push 7 (ArrayVec_new 1) = Ret (Ok tt) v' /\ array v' = [Some 7].
Proof.
  destruct (arrayvec_push_refines (ArrayVec_new 1) 1 [] 0 7 (new_repr 1))
    as (r & v' & E & H). simpl in H. destruct H as [-> H].
  exists v'. split; [exact E|]. exact (rp_array _ _ _ _ H).
Defined.

Lemma arrayvec_roundtrip_witness :
  exists v, (push_all [1; 2] ;; drain 3) (ArrayVec_new 2) = Panic IndexOutOfBounds v /\
    av_index v = 2 /\ array v = [Some 1; Some 2].
Proof.
  exact (arrayvec_roundtrip [1; 2] 2 3 ltac:(simpl; lia) ltac:(lia) ltac:(simpl; lia)).
Defined.
End Common.
