(* ===== verification/Bootloader.v ===== *)
(** The bootloader (bootloader/src/main.rs, bootloader/src/kernel.rs): reading the
    kernel's ELF file, copying its segments to memory, and handing over to it. *)

From S2P Require Import Prelude Machine Graphic PhysMem Common.

Module Bootloader.
Import Common.

(** * The crates: [goblin] and [uefi] *)

Record ProgramHeader : Type := mkProgramHeader {
  p_type : Z;
  p_offset : Z;
  p_vaddr : Z;
  p_paddr : Z;
  p_filesz : Z;
  p_memsz : Z
}.
Record Elf : Type := mkElf { program_headers : list ProgramHeader; entry : Z }.

(** The ELF parser and the firmware's boot services: what each call gives.  [read]
    fills the front of the buffer. *)
Class Boot (F MT : Type) `{Graphic.GopPixelFormat F} := {
  crate_error : Type;
  PT_LOAD : Z;
  Elf_parse : list Z -> result Elf crate_error;
  FileHandle : Type;
  helpers_init : result unit crate_error;
  get_handle_for_gop : result Z crate_error;
  open_gop_exclusive : Z -> result (Graphic.GraphicsOutput F) crate_error;
  get_image_file_system : result Z crate_error;
  open_volume : Z -> result Z crate_error;
  open_file : Z -> string -> result FileHandle crate_error;
  (** a regular file, or a directory *)
  into_type : FileHandle -> result bool crate_error;
  get_file_size : FileHandle -> Z -> result Z crate_error;
  read_file : FileHandle -> Z -> result (list Z) crate_error;
  num_bytes : string -> Z;
  size_of_Time : Z;
  size_of_FileAttribute : Z;
  allocate_pages : Z -> result Z crate_error;
  Guid : Type;
  guid_eq_dec :: EqDecision Guid;
  ACPI2_GUID : Guid;
  config_table : list (Guid * Z);
  exit_boot_services : list (PhysMem.MemoryDescriptor MT)
}.

(** [anyhow::Error]: a message under its contexts. *)
Inductive Error (E : Type) : Type :=
  | Error_msg (e : E)
  | Error_text (what : string)
  | Error_context (what : string) (e : Error E).
Arguments Error_msg {E} _.
Arguments Error_text {E} _.
Arguments Error_context {E} _ _.

Section boot.
Context {F MT : Type} `{Boot F MT}.

(** The physical memory, identity mapped by the firmware. *)
Definition Memory : Type := gmap Z Z.
Notation BM := (M Memory).
Notation R A := (result A (Error crate_error)).

(** [.map_err(|e| Error::msg(e).context(what))?]. *)
Definition or_context {A} (what : string) (r : result A crate_error) : R A :=
  match r with Ok a => Ok a | Err e => Err (Error_context what (Error_msg e)) end.

(** [unwrap]. *)
Definition unwrap {A} (what : string) (r : result A crate_error) : BM A :=
  match r with Ok a => mret a | Err _ => panic (UnwrapFailed what) end.

(** * Loading the ELF file *)

Definition UEFI_PAGE_SIZE : Z := 0x1000.
Definition KERNEL_FILE_NAME : string := "kernel.elf".

(** The loop over the headers: the range of the load segments. *)
Fixpoint dest_loop (phs : list ProgramHeader) (dest_start dest_end : Z) : BM (Z * Z) :=
  match phs with
  | [] => mret (dest_start, dest_end)
  | ph :: rest =>
      if negb (p_type ph =? PT_LOAD) then dest_loop rest dest_start dest_end
      else
        let dest_start := Z.min dest_start (p_paddr ph) in
        segment_end ← uadd 64 (p_vaddr ph) (p_memsz ph);
        dest_loop rest dest_start (Z.max dest_end segment_end)
  end.

(** [&s[lo..hi]]. *)
Definition slice (s : list Z) (lo hi : Z) : BM (list Z) :=
  if (lo <=? hi) && (hi <=? Z.of_nat (length s))
  then mret (take (Z.to_nat (hi - lo)) (drop (Z.to_nat lo) s))
  else panic IndexOutOfBounds.

(** [dest] is the [mem_size] bytes at [virtual_addr]. *)
Definition copy_segment (src : list Z) (ph : ProgramHeader) : BM (R unit) :=
  let offset := p_offset ph in
  let file_size := p_filesz ph in
  let mem_size := p_memsz ph in
  let virtual_addr := p_vaddr ph in
  (if file_size <=? mem_size then mret tt else panic IndexOutOfBounds) ;;
  file_end ← uadd 64 offset file_size;
  bytes ← slice src offset file_end;
  modify (fun mem => store_bytes mem virtual_addr bytes) ;;
  modify (fun mem => store_bytes mem (virtual_addr + file_size)
    (replicate (Z.to_nat (mem_size - file_size)) 0)) ;;
  mret (Ok tt).

Fixpoint copy_load_segment (src : list Z) (phs : list ProgramHeader) : BM (R unit) :=
  match phs with
  | [] => mret (Ok tt)
  | ph :: rest =>
      if negb (p_type ph =? PT_LOAD) then copy_load_segment src rest
      else copy_segment src ph ;? copy_load_segment src rest
  end.

(** The address of the allocated pages and the result of the copy are not used. *)
Definition load_elf (src : list Z) : BM (R Kernel) :=
  elf ←? mret (or_context "Failed to parse the elf." (Elf_parse src));
  '(dest_start, dest_end) ← dest_loop (program_headers elf) 0 0;
  dest_range ← usub 64 dest_end dest_start;
  let base_addr := dest_start in
  rounded ← uadd 64 dest_range UEFI_PAGE_SIZE;
  rounded ← usub 64 rounded 1;
  let page_size := rounded / UEFI_PAGE_SIZE in
  mret (or_context "Failed to allocate pages for the kernel." (allocate_pages page_size)) ;?
  (copy_load_segment src (program_headers elf) ;;
   let entry_point_addr := entry elf in
   mret (Ok (Kernel_new base_addr entry_point_addr))).

(** * Reading the file *)

Definition open_root_dir : BM Z :=
  simple_file_system ← unwrap "get_image_file_system" get_image_file_system;
  unwrap "open_volume" (open_volume simple_file_system).

Definition size_of_u64 : Z := 8.
Definition file_info_size (file_name : string) : BM Z :=
  s ← uadd 64 size_of_u64 size_of_u64;
  s ← uadd 64 s size_of_u64;
  s ← uadd 64 s size_of_Time;
  s ← uadd 64 s size_of_Time;
  s ← uadd 64 s size_of_Time;
  s ← uadd 64 s size_of_FileAttribute;
  uadd 64 s (num_bytes file_name).

(** [kernel_file.read(&mut kernel_file_vec)]: the number of bytes read is not used. *)
Definition read_into (file : FileHandle) (size : Z) : R (list Z) :=
  match or_context "Failed to read data from the kernel file" (read_file file size) with
  | Ok bytes => Ok (bytes ++ replicate (Z.to_nat size - length bytes) 0)
  | Err e => Err e
  end.

Definition load_kernel : BM (R Kernel) :=
  root_dir ← open_root_dir;
  handle ←? mret (or_context "Failed to open kernel file." (open_file root_dir KERNEL_FILE_NAME));
  regular ←? mret (or_context
    "Failed to make the kernel file handler into file type (regular file or directory)."
    (into_type handle));
  if negb (regular : bool) then
    mret (Err (Error_text "kernel.elf was a directory. It must be a regular file."))
  else
    info_size ← file_info_size KERNEL_FILE_NAME;
    kernel_file_size ←? mret (or_context "Failed to get information of kernel file."
      (get_file_size handle info_size));
    kernel_file_vec ←? mret (read_into handle kernel_file_size);
    map_err (Error_context "Failed to load the elf file") (load_elf kernel_file_vec).

(** * The entry point *)

Definition open_gop : R (Graphic.GraphicsOutput F) :=
  match or_context "Failed to get handle for protocol of GraphicsOutput." get_handle_for_gop with
  | Ok gop_handle => or_context "Failed to open protocol of GraphicsOutput exclusively."
      (open_gop_exclusive gop_handle)
  | Err e => Err e
  end.

Definition find_rsdp : option PhysPtr :=
  from_ptr ∘ snd <$> head (filter (fun e => e.1 = ACPI2_GUID) config_table).

(** [print_error] and [panic!]. *)
Definition or_panicked {A E} (what : string) (r : result A E) : BM A :=
  match r with Ok a => mret a | Err _ => panic (ExplicitPanic what) end.

(** The jump to the kernel, with its argument. *)
Definition main_inner : BM (Z * BootInfo MT) :=
  unwrap "helpers::init" helpers_init ;;
  gop ← or_panicked "panicked." open_gop;
  graphic_info ← or_panicked "panicked" (Graphic.from_gop gop);
  kernel ← load_kernel;
  kernel ← or_panicked "panicked" kernel;
  let rsdp_addr := find_rsdp in
  let memory_map := exit_boot_services in
  let boot_info := BootInfo_new graphic_info memory_map rsdp_addr in
  mret (Kernel_run kernel boot_info).

Definition efi_main : BM (Z * BootInfo MT) := main_inner.
End boot.

(** * Specification: the memory image of the load segments *)

Section spec.
Context {F MT : Type} `{Boot F MT}.

Definition load_segments (phs : list ProgramHeader) : list ProgramHeader :=
  filter (fun ph => p_type ph = PT_LOAD) phs.

(** The byte a segment has at an address: its file contents, then zeros. *)
Definition segment_byte (src : list Z) (ph : ProgramHeader) (a : Z) : option Z :=
  if (p_vaddr ph <=? a) && (a <? p_vaddr ph + p_memsz ph) then
    if a <? p_vaddr ph + p_filesz ph then src !! Z.to_nat (p_offset ph + (a - p_vaddr ph))
    else Some 0
  else None.

(** The last segment that covers an address decides. *)
Definition image (src : list Z) (segs : list ProgramHeader) (a : Z) (old : option Z) : option Z :=
  foldl (fun old ph => match segment_byte src ph a with Some b => Some b | None => old end)
    old segs.

Definition image_end (segs : list ProgramHeader) : Z :=
  foldl (fun m ph => Z.max m (p_vaddr ph + p_memsz ph)) 0 segs.

(** A segment inside the address space. *)
Record segment_range (ph : ProgramHeader) : Prop := {
  sr_vaddr : 0 <= p_vaddr ph;
  sr_paddr : 0 <= p_paddr ph;
  sr_memsz : 0 <= p_memsz ph;
  sr_end : p_vaddr ph + p_memsz ph < 2 ^ 64 - 0x1000
}.

(** Its contents are in the file and fit its memory. *)
Record segment_ok (src : list Z) (ph : ProgramHeader) : Prop := {
  so_range : segment_range ph;
  so_filesz : 0 <= p_filesz ph <= p_memsz ph;
  so_offset : 0 <= p_offset ph;
  so_file : p_offset ph + p_filesz ph <= Z.of_nat (length src)
}.

Record file_ok (src : list Z) : Prop := {
  fo_len : Z.of_nat (length src) < 2 ^ 64;
  fo_bytes : Forall (fun b => 0 <= b < 2 ^ 8) src
}.

(** A firmware whose calls succeed: it gives the display [gop], and the file, padded with
    zeros if it was read short, is [src], which parses to [elf]. *)
Record boots_with (gop : Graphic.GraphicsOutput F) (src : list Z) (elf : Elf) : Prop := {
  bw_helpers : helpers_init = Ok tt;
  bw_gop : exists gh, get_handle_for_gop = Ok gh /\ open_gop_exclusive gh = Ok gop;
  bw_sizes : 0 <= size_of_Time < 2 ^ 32 /\ 0 <= size_of_FileAttribute < 2 ^ 32 /\
    0 <= num_bytes "kernel.elf" < 2 ^ 32;
  bw_file : exists fs root handle size bytes,
    get_image_file_system = Ok fs /\ open_volume fs = Ok root /\
    open_file root "kernel.elf" = Ok handle /\ into_type handle = Ok true /\
    get_file_size handle (3 * 8 + 3 * size_of_Time + size_of_FileAttribute +
      num_bytes "kernel.elf") = Ok size /\
    read_file handle size = Ok bytes /\ src = bytes ++ replicate (Z.to_nat size - length bytes) 0;
  bw_src : file_ok src;
  bw_elf : Elf_parse src = Ok elf;
  bw_segments : Forall (segment_ok src) (load_segments (program_headers elf));
  bw_pages : exists p,
    allocate_pages ((image_end (load_segments (program_headers elf)) + 0xfff) / 0x1000) = Ok p
}.
End spec.

(** * Lemmas *)

Section lemmas.
Context {F MT : Type} `{Boot F MT}.
Implicit Types (mem : Memory) (ph : ProgramHeader).

(** Calls that succeed. *)
Lemma wp_unwrap {A} what (r : result A crate_error) a (Q : A -> Memory -> Prop) mem :
  r = Ok a -> Q a mem -> wp (unwrap what r) Q mem.
Proof. by intros ->. Qed.

Lemma wp_or_panicked {A E} what (r : result A E) a (Q : A -> Memory -> Prop) mem :
  r = Ok a -> Q a mem -> wp (or_panicked what r) Q mem.
Proof. by intros ->. Qed.

Lemma wp_or_context {A B} what (r : result A crate_error) a
    (k : A -> M Memory (result B (Error crate_error))) Q mem :
  r = Ok a -> wp (k a) Q mem -> wp (bind_try (mret (or_context what r)) k) Q mem.
Proof. by intros ->. Qed.

Lemma wp_slice src lo hi (Q : list Z -> Memory -> Prop) mem :
  0 <= lo <= hi -> hi <= Z.of_nat (length src) ->
  Q (take (Z.to_nat (hi - lo)) (drop (Z.to_nat lo) src)) mem -> wp (slice src lo hi) Q mem.
Proof.
  intros Hlo Hhi HQ. unfold slice.
  replace ((lo <=? hi) && (hi <=? Z.of_nat (length src))) with true by lia. by apply wp_ret.
Qed.

(** Copying a segment writes its bytes and nothing else. *)
Lemma wp_copy_segment src ph (Q : result unit (Error crate_error) -> Memory -> Prop) mem :
  file_ok src -> segment_ok src ph ->
  (forall mem', (forall a, mem' !! a =
     match segment_byte src ph a with Some b => Some b | None => mem !! a end) ->
     Q (Ok tt) mem') ->
  wp (copy_segment src ph) Q mem.
Proof.
  intros [Hlen Hbytes] [[Hv _ Hm He] Hfs Ho Hf] HQ. unfold copy_segment.
  replace (p_filesz ph <=? p_memsz ph) with true by lia.
  wp_step. apply wp_ret. wp_step. wp_step; [lia|]. wp_step. apply wp_slice; [lia|lia|].
  wp_steps. apply HQ. intros a. rewrite !lookup_store_bytes, length_replicate.
  rewrite length_take, length_drop. unfold segment_byte.
  replace (Z.to_nat (p_offset ph + p_filesz ph - p_offset ph)) with (Z.to_nat (p_filesz ph)) by lia.
  destruct (decide (p_vaddr ph + p_filesz ph <= a < p_vaddr ph + p_filesz ph +
    Z.of_nat (Z.to_nat (p_memsz ph - p_filesz ph)))) as [Hz|Hz].
  - replace ((p_vaddr ph <=? a) && (a <? p_vaddr ph + p_memsz ph)) with true by lia.
    replace (a <? p_vaddr ph + p_filesz ph) with false by lia.
    by rewrite lookup_replicate_2 by lia.
  - case_decide.
    + replace ((p_vaddr ph <=? a) && (a <? p_vaddr ph + p_memsz ph)) with true by lia.
      replace (a <? p_vaddr ph + p_filesz ph) with true by lia.
      rewrite lookup_take_lt, lookup_drop by lia.
      replace (Z.to_nat (p_offset ph) + Z.to_nat (a - p_vaddr ph))%nat
        with (Z.to_nat (p_offset ph + (a - p_vaddr ph))) by lia.
      destruct (lookup_lt_is_Some_2 src (Z.to_nat (p_offset ph + (a - p_vaddr ph)))) as [b Hb];
        [lia|].
      rewrite Hb. simpl. rewrite as_u_small; [done|].
      exact (proj1 (Forall_lookup _ _) Hbytes _ _ Hb).
    + by replace ((p_vaddr ph <=? a) && (a <? p_vaddr ph + p_memsz ph)) with false by lia.
Qed.

Lemma load_segments_cons ph phs :
  load_segments (ph :: phs) =
    if p_type ph =? PT_LOAD then ph :: load_segments phs else load_segments phs.
Proof.
  unfold load_segments. rewrite filter_cons.
  destruct (Z.eqb_spec (p_type ph) PT_LOAD); by case_decide.
Qed.

Lemma wp_copy_load_segment src phs (Q : result unit (Error crate_error) -> Memory -> Prop) mem :
  file_ok src -> Forall (segment_ok src) (load_segments phs) ->
  (forall mem', (forall a, mem' !! a = image src (load_segments phs) a (mem !! a)) ->
     Q (Ok tt) mem') ->
  wp (copy_load_segment src phs) Q mem.
Proof.
  intros Hsrc. revert mem. induction phs as [|ph phs IH]; intros mem Hok HQ.
  - apply wp_ret. by apply HQ.
  - cbn [copy_load_segment]. rewrite load_segments_cons in *.
    destruct (p_type ph =? PT_LOAD); simpl negb; cbv iota; [|by apply IH].
    apply Forall_cons in Hok as [Hph Hok]. wp_step.
    apply wp_copy_segment; [done..|]. intros mem1 H1. apply IH; [done|].
    intros mem2 H2. apply HQ. intros a. rewrite H2, H1. done.
Qed.

(** The range: the start stays zero, the end is the end of the image. *)
Lemma wp_dest_loop phs e (Q : Z * Z -> Memory -> Prop) mem :
  Forall segment_range (load_segments phs) ->
  Q (0, foldl (fun m ph => Z.max m (p_vaddr ph + p_memsz ph)) e (load_segments phs)) mem ->
  wp (dest_loop phs 0 e) Q mem.
Proof.
  revert e. induction phs as [|ph phs IH]; intros e Hok HQ; [by apply wp_ret|].
  cbn [dest_loop]. rewrite load_segments_cons in *.
  destruct (p_type ph =? PT_LOAD); simpl negb; cbv iota; [|by apply IH].
  apply Forall_cons in Hok as [[Hv Hp Hm He] Hok]. rewrite Z.min_l by done.
  wp_step. wp_step; [lia|]. by apply IH.
Qed.

Lemma image_end_range segs : Forall segment_range segs ->
  0 <= image_end segs < 2 ^ 64 - 0x1000.
Proof.
  unfold image_end. intros Hok.
  cut (forall m, 0 <= m < 2 ^ 64 - 0x1000 -> 0 <= foldl (fun m ph =>
    Z.max m (p_vaddr ph + p_memsz ph)) m segs < 2 ^ 64 - 0x1000); [intros Hc; apply Hc; lia|].
  induction Hok as [|ph segs [] _ IH]; intros m Hm; [done|]. apply IH. lia.
Qed.

(** [load_elf] up to the copy. *)
Lemma load_elf_copy src elf p mem :
  Elf_parse src = Ok elf ->
  Forall segment_range (load_segments (program_headers elf)) ->
  allocate_pages ((image_end (load_segments (program_headers elf)) + 0xfff) / 0x1000) = Ok p ->
  load_elf src mem = (copy_load_segment src (program_headers elf) ;;
    mret (Ok (Kernel_new 0 (entry elf)))) mem.
Proof.
  intros Helf Hok Hal. pose proof (image_end_range _ Hok) as Hend.
  assert (Hd : dest_loop (program_headers elf) 0 0 mem =
    Ret (0, image_end (load_segments (program_headers elf))) mem).
  { assert (Hw : wp (dest_loop (program_headers elf) 0 0) (fun r mem' =>
      r = (0, image_end (load_segments (program_headers elf))) /\ mem' = mem) mem)
      by (by apply wp_dest_loop).
    apply wp_returns in Hw as (r & mem' & E & -> & ->). exact E. }
  unfold load_elf. rewrite Helf. cbn [or_context]. unfold bind_try at 1.
  rewrite (bind_Ret (mret (Ok elf)) _ mem (Ok elf) mem) by done.
  rewrite (bind_Ret _ _ _ _ _ Hd). unfold UEFI_PAGE_SIZE.
  set (e := image_end _) in *.
  rewrite (bind_Ret (usub 64 e 0) _ mem e mem)
    by (unfold usub; rewrite Z.sub_0_r; apply checked_Ret; lia).
  rewrite (bind_Ret (uadd 64 e 4096) _ mem (e + 4096) mem) by (apply checked_Ret; lia).
  rewrite (bind_Ret (usub 64 (e + 4096) 1) _ mem (e + 0xfff) mem)
    by (unfold usub; rewrite checked_Ret by lia; f_equal; lia).
  cbv zeta. rewrite Hal. cbn [or_context]. unfold bind_try.
  by rewrite (bind_Ret (mret (Ok p)) _ mem (Ok p) mem) by done.
Qed.

Lemma load_segments_ranges src segs : Forall (segment_ok src) segs -> Forall segment_range segs.
Proof. intros Hok. eapply Forall_impl; [exact Hok|]. by intros ph []. Qed.

Lemma wp_load_elf src elf p (Q : result Kernel (Error crate_error) -> Memory -> Prop) mem :
  file_ok src -> Elf_parse src = Ok elf ->
  Forall (segment_ok src) (load_segments (program_headers elf)) ->
  allocate_pages ((image_end (load_segments (program_headers elf)) + 0xfff) / 0x1000) = Ok p ->
  (forall mem', (forall a, mem' !! a =
      image src (load_segments (program_headers elf)) a (mem !! a)) ->
     Q (Ok (Kernel_new 0 (entry elf))) mem') ->
  wp (load_elf src) Q mem.
Proof.
  intros Hsrc Helf Hok Hal HQ. unfold wp.
  rewrite (load_elf_copy src elf p) by (try done; by eapply load_segments_ranges).
  apply wp_bind, wp_copy_load_segment; [done..|]. intros mem' Hmem. by apply wp_ret, HQ.
Qed.

(** The whole bootloader. *)
Lemma wp_main_inner gop gi src elf (Q : Z * BootInfo MT -> Memory -> Prop) mem :
  boots_with gop src elf -> Graphic.from_gop gop = Ok gi ->
  (forall mem', (forall a, mem' !! a =
      image src (load_segments (program_headers elf)) a (mem !! a)) ->
     Q (entry elf, BootInfo_new gi exit_boot_services find_rsdp) mem') ->
  wp main_inner Q mem.
Proof.
  intros [Hh (gh & Hg & Hgop) (Ht & Ha & Hn)
    (fs & root & handle & size & bytes & Hfs & Hroot & Hopen & Hty & Hsize & Hread & ->)
    Hsrc Helf Hok [p Hal]] Hgi HQ.
  unfold main_inner, load_kernel, open_root_dir, file_info_size, size_of_u64, KERNEL_FILE_NAME.
  wp_step. eapply wp_unwrap; [exact Hh|]. wp_step.
  eapply (wp_or_panicked _ _ gop); [unfold open_gop; by rewrite Hg; simpl; rewrite Hgop|].
  wp_step. eapply wp_or_panicked; [exact Hgi|]. do 2 wp_step.
  wp_step. eapply wp_unwrap; [exact Hfs|]. eapply wp_unwrap; [exact Hroot|].
  eapply wp_or_context; [exact Hopen|]. eapply wp_or_context; [exact Hty|]. simpl negb.
  cbv iota. wp_step. do 7 (first [wp_step; [lia|]|wp_step; wp_step; [lia|]]).
  match type of Hsize with get_file_size _ ?i = _ =>
    match goal with |- context [get_file_size handle ?j] => replace j with i by lia end end.
  eapply wp_or_context; [exact Hsize|]. unfold read_into. rewrite Hread. cbn [or_context].
  wp_step. apply wp_ret. wp_step. eapply wp_load_elf; [done..|]. intros mem' Hmem.
  wp_step. eapply wp_or_panicked; [done|]. by apply wp_ret, HQ.
Qed.

(** A bad segment panics, once the segments before it are copied. *)
Definition bad_segment (src : list Z) ph : Prop :=
  p_memsz ph < p_filesz ph \/
  Z.of_nat (length src) < p_offset ph + p_filesz ph < 2 ^ 64 /\ 0 <= p_offset ph + p_filesz ph.

Lemma copy_bad_segment src ph mem : bad_segment src ph ->
  copy_segment src ph mem = Panic IndexOutOfBounds mem.
Proof.
  intros Hbad. unfold copy_segment. destruct (Z.leb_spec (p_filesz ph) (p_memsz ph)).
  - destruct Hbad as [|Hbad]; [lia|]. rewrite (bind_Ret _ _ mem tt mem) by done.
    rewrite (bind_Ret _ _ mem (p_offset ph + p_filesz ph) mem) by (apply checked_Ret; lia).
    apply bind_Panic. unfold slice.
    by replace (p_offset ph + p_filesz ph <=? Z.of_nat (length src)) with false by lia;
      rewrite andb_false_r.
  - by apply bind_Panic.
Qed.

Lemma copy_bad src phs pre ph rest mem :
  file_ok src -> load_segments phs = pre ++ ph :: rest -> Forall (segment_ok src) pre ->
  bad_segment src ph ->
  panics (copy_load_segment src phs) IndexOutOfBounds mem.
Proof.
  intros Hsrc. revert pre mem. induction phs as [|ph0 phs IH]; intros pre mem E Hpre Hbad.
  { by destruct pre. }
  cbn [copy_load_segment]. rewrite load_segments_cons in E.
  destruct (p_type ph0 =? PT_LOAD); simpl negb; cbv iota; [|by eapply IH].
  destruct pre as [|ph1 pre]; injection E as -> E.
  - exists mem. unfold bind_try. by apply bind_Panic, copy_bad_segment.
  - apply Forall_cons in Hpre as [Hph1 Hpre].
    assert (Hw : wp (copy_segment src ph1) (fun r _ => r = Ok tt) mem) by (by apply wp_copy_segment).
    apply wp_returns in Hw as (r & mem1 & E1 & ->).
    destruct (IH pre mem1 E Hpre Hbad) as [mem' E']. exists mem'.
    unfold bind_try. by rewrite (bind_Ret _ _ _ _ _ E1).
Qed.
End lemmas.

(** * Properties *)

Section properties.
Context {F MT : Type} `{Boot F MT}.
Implicit Types (mem : Memory).

(** C8: whatever address the firmware allocates the pages at, [load_elf] copies the load
    segments to their virtual addresses: an address a segment covers holds the byte
    of the file, or zero past it, of the last segment that covers it, and no other byte changes. The base
    address it reports is zero for every file. *)
Theorem load_elf_image src elf p mem :
  file_ok src -> Elf_parse src = Ok elf ->
  Forall (segment_ok src) (load_segments (program_headers elf)) ->
  allocate_pages ((image_end (load_segments (program_headers elf)) + 0xfff) / 0x1000) = Ok p ->
  exists mem', load_elf src mem = Ret (Ok (Kernel_new 0 (entry elf))) mem' /\
    forall a, mem' !! a = image src (load_segments (program_headers elf)) a (mem !! a).
Proof.
  intros Hsrc Helf Hok Hal.
  assert (Hw : wp (load_elf src) (fun r mem' => r = Ok (Kernel_new 0 (entry elf)) /\
    forall a, mem' !! a = image src (load_segments (program_headers elf)) a (mem !! a)) mem)
    by (eapply wp_load_elf; eauto).
  apply wp_returns in Hw as (r & mem' & E & -> & Hmem). eauto.
Qed.

(** C35: a load segment whose file size exceeds its memory size, or whose bytes are not
    all in the file, makes [load_elf] panic: it is not the [Err] of its type. *)
Theorem load_elf_malformed src elf p pre ph rest mem :
  file_ok src -> Elf_parse src = Ok elf ->
  load_segments (program_headers elf) = pre ++ ph :: rest ->
  Forall segment_range (pre ++ ph :: rest) -> Forall (segment_ok src) pre ->
  bad_segment src ph ->
  allocate_pages ((image_end (pre ++ ph :: rest) + 0xfff) / 0x1000) = Ok p ->
  panics (load_elf src) IndexOutOfBounds mem.
Proof.
  intros Hsrc Helf E Hr Hpre Hbad Hal.
  destruct (copy_bad src _ pre ph rest mem Hsrc E Hpre Hbad) as [mem' E'].
  exists mem'. rewrite (load_elf_copy src elf p); [|done|by rewrite E|by rewrite E].
  by apply bind_Panic.
Qed.

(** C19: on a firmware whose calls succeed, the bootloader jumps to the entry point of
    the file "kernel.elf" with the memory image of its segments in place, a file that
    was read short being padded with zeros, and hands it the graphics information of the display, the memory map and
    the address of the first ACPI 2 table. *)
Theorem boot_hands_over gh gop gi fs root handle size bytes elf p mem :
  let src := bytes ++ replicate (Z.to_nat size - length bytes) 0 in
  let info_size := 3 * 8 + 3 * size_of_Time + size_of_FileAttribute + num_bytes "kernel.elf" in
  helpers_init = Ok tt -> get_handle_for_gop = Ok gh -> open_gop_exclusive gh = Ok gop ->
  Graphic.from_gop gop = Ok gi -> get_image_file_system = Ok fs -> open_volume fs = Ok root ->
  open_file root "kernel.elf" = Ok handle -> into_type handle = Ok true ->
  0 <= size_of_Time < 2 ^ 32 -> 0 <= size_of_FileAttribute < 2 ^ 32 ->
  0 <= num_bytes "kernel.elf" < 2 ^ 32 -> get_file_size handle info_size = Ok size ->
  read_file handle size = Ok bytes -> file_ok src -> Elf_parse src = Ok elf ->
  Forall (segment_ok src) (load_segments (program_headers elf)) ->
  allocate_pages ((image_end (load_segments (program_headers elf)) + 0xfff) / 0x1000) = Ok p ->
  exists mem', main_inner mem = Ret (entry elf,
      BootInfo_new gi exit_boot_services find_rsdp) mem' /\
    forall a, mem' !! a = image src (load_segments (program_headers elf)) a (mem !! a).
Proof.
  intros src info_size Hh Hg Hgop Hgi Hfs Hroot Hopen Hty Ht Ha Hn Hsize Hread Hsrc Helf Hok Hal.
  assert (Hb : boots_with gop src elf) by (split; eauto 12).
  assert (Hmain : wp main_inner (fun r mem' =>
    r = (entry elf, BootInfo_new gi exit_boot_services find_rsdp) /\
    forall a, mem' !! a = image src (load_segments (program_headers elf)) a (mem !! a)) mem)
    by (eapply wp_main_inner; eauto).
  apply wp_returns in Hmain as (r & mem' & E & -> & Hmem). eauto.
Qed.
End properties.

(** * Witnesses: a file with one segment of two bytes and a tail of two zeros *)

#[local] Instance bool_format : Graphic.GopPixelFormat bool :=
  {| Graphic.gop_Rgb := false; Graphic.gop_Bgr := true |}.

Definition segment_1 : ProgramHeader := mkProgramHeader 1 1 0x100000 0x100000 2 4.
Definition segment_2 : ProgramHeader := mkProgramHeader 1 1 0x100000 0x100000 8 4.

(** A firmware with an RSDP and a memory map. *)
Definition test_boot_with (rsdp : Z) (mm : list (PhysMem.MemoryDescriptor Z)) : Boot bool Z := {|
  crate_error := unit;
  PT_LOAD := 1;
  Elf_parse src := match src with
    | 0x7f :: _ => Ok (mkElf [segment_1] 0x100001)
    | 0x7e :: _ => Ok (mkElf [segment_2] 0x100001)
    | _ => Err tt
    end;
  FileHandle := unit;
  helpers_init := Ok tt;
  get_handle_for_gop := Ok 0;
  open_gop_exclusive _ := Ok {| Graphic.resolution := (1280, 800); Graphic.mode_stride := 1280;
    Graphic.mode_pixel_format := true; Graphic.frame_buffer_ptr := 0x80000000;
    Graphic.frame_buffer_size := 0x3e8000 |};
  get_image_file_system := Ok 0;
  open_volume _ := Ok 0;
  open_file _ _ := Ok tt;
  into_type _ := Ok true;
  get_file_size _ _ := Ok 3;
  read_file _ _ := Ok [0x7f; 10];
  num_bytes s := 2 * (Z.of_nat (String.length s) + 1);
  size_of_Time := 16;
  size_of_FileAttribute := 8;
  allocate_pages _ := Ok 0x200000;
  Guid := Z;
  ACPI2_GUID := 2;
  config_table := [(1, 0x5000); (2, rsdp)];
  exit_boot_services := mm
|}.
#[local] Instance test_boot : Boot bool Z := test_boot_with 0x7000 [].

Lemma segment_1_ok : segment_ok [0x7f; 10; 0] segment_1.
Proof. repeat split; simpl; lia. Qed.

Lemma file_ok_small b0 b1 b2 : 0 <= b0 < 2 ^ 8 -> 0 <= b1 < 2 ^ 8 -> 0 <= b2 < 2 ^ 8 ->
  file_ok [b0; b1; b2].
Proof. intros. split; [simpl; lia|]. repeat constructor; lia. Qed.

Lemma load_elf_image_witness :
  exists mem', load_elf [0x7f; 10; 20] ∅ = Ret (Ok (Kernel_new 0 0x100001)) mem' /\
    mem' !! 0x100001 = Some 20 /\ mem' !! 0x100002 = Some 0 /\ mem' !! 0x200000 = None.
Proof.
  destruct (load_elf_image [0x7f; 10; 20] (mkElf [segment_1] 0x100001) 0x200000 ∅)
    as (mem' & E & Hmem); [apply file_ok_small; lia|reflexivity| |reflexivity|].
  - constructor; [|constructor]. repeat split; simpl; lia.
  - exists mem'. split; [exact E|]. rewrite !Hmem. repeat split; reflexivity.
Defined.

Lemma load_elf_malformed_witness : panics (load_elf [0x7e; 10; 20]) IndexOutOfBounds ∅.
Proof.
  apply (load_elf_malformed [0x7e; 10; 20] (mkElf [segment_2] 0x100001) 0x200000 []
    segment_2 []); [apply file_ok_small; lia|reflexivity|reflexivity| |constructor| |reflexivity].
  - constructor; [|constructor]. split; simpl; lia.
  - left. reflexivity.
Defined.

Lemma boot_hands_over_witness :
  exists mem' gi, main_inner ∅ = Ret (0x100001, mkBootInfo gi [] (Some (from_ptr 0x7000))) mem' /\
    mem' !! 0x100000 = Some 10 /\ mem' !! 0x100001 = Some 0.
Proof.
  destruct (@boot_hands_over bool Z bool_format test_boot 0 _ _ 0 0 tt 3 [0x7f; 10]
    (mkElf [segment_1] 0x100001) 0x200000 ∅ eq_refl eq_refl eq_refl eq_refl eq_refl eq_refl
    eq_refl eq_refl ltac:(simpl; lia) ltac:(simpl; lia) ltac:(simpl; lia) eq_refl eq_refl
    (file_ok_small 0x7f 10 0 ltac:(lia) ltac:(lia) ltac:(lia)) eq_refl
    ltac:(constructor; [exact segment_1_ok|constructor]) eq_refl) as (mem' & E & Hmem).
  eexists mem', _. split; [exact E|]. rewrite !Hmem. split; reflexivity.
Defined.
End Bootloader.
