(* ===== verification/Pci.v ===== *)
(** PCI configuration access and enumeration (kernel/src/pci/mod.rs): the
    configuration address, the fields read through it, base address registers,
    and the recursive scan that fills the device list. *)

From S2P Require Import Prelude Machine External Errors.

Module Pci.
Import Errors.

(** * Data *)

Definition CONFIG_ADDRESS_ADDRESS : Z := 0x0cf8.
Definition CONFIG_DATA_ADDRESS : Z := 0x0cfc.
Definition DEVICE_CAPACITY : Z := 32.

Record ClassCode : Type := mkClassCode { base : Z; sub : Z; interface : Z }.

Definition ClassCode_new (b s i : Z) : ClassCode := mkClassCode b s i.
Definition is_match_base (self : ClassCode) (b : Z) : bool := base self =? b.
Definition is_match_base_sub (self : ClassCode) (b s : Z) : bool :=
  is_match_base self b && (sub self =? s).
Definition is_match_all (self : ClassCode) (b s i : Z) : bool :=
  is_match_base_sub self b s && (interface self =? i).

Definition get_base (self : ClassCode) : Z := base self.
Definition get_sub (self : ClassCode) : Z := sub self.
Definition get_interface (self : ClassCode) : Z := interface self.

Record PciDevice : Type := mkDevice {
  bus : Z;
  device : Z;
  func : Z;
  header_type : Z;
  class_code : ClassCode
}.

Definition Device_new (b d f ht : Z) (cc : ClassCode) : PciDevice := mkDevice b d f ht cc.
Definition get_bus (self : PciDevice) : Z := bus self.
Definition get_device (self : PciDevice) : Z := device self.
Definition get_func (self : PciDevice) : Z := func self.
Definition get_class_code (self : PciDevice) : ClassCode := class_code self.
Definition get_header_type (self : PciDevice) : Z := header_type self.
Definition is_xhc (self : PciDevice) : bool := is_match_all (class_code self) 0x0c 0x03 0x30.

(** * Configuration space access *)

Definition make_address (bus device func offset_in_pci_config_space : Z) : Z :=
  let shl x bits := ushl 32 x bits in
  Z.lor (Z.lor (Z.lor (Z.lor (shl 1 31) (shl bus 16)) (shl device 11)) (shl func 8))
    (Z.land offset_in_pci_config_space 0xfc).

Definition is_single_function_device (header_type : Z) : bool :=
  Z.land header_type 0x80 =? 0.

Section access.
Context {D : Type} `{Machine.Device D}.

Definition io_out_32 (addr data : Z) : M (Bus D) unit := io_write (Out32 addr data).
Definition io_in_32 (addr : Z) : M (Bus D) Z := io_read (In32 addr).

Definition write_address (addr : Z) : M (Bus D) unit :=
  io_out_32 CONFIG_ADDRESS_ADDRESS addr.
Definition write_data (data : Z) : M (Bus D) unit := io_out_32 CONFIG_DATA_ADDRESS data.
Definition read_data : M (Bus D) Z := io_in_32 CONFIG_DATA_ADDRESS.

Definition read_vendor_id (bus device func : Z) : M (Bus D) Z :=
  write_address (make_address bus device func 0x00) ;;
  v ← read_data; mret (as_u 16 (Z.land v 0xffff)).

Definition read_device_id (bus device func : Z) : M (Bus D) Z :=
  write_address (make_address bus device func 0x00) ;;
  v ← read_data; mret (as_u 16 (ushr v 16)).

Definition read_header_type (bus device func : Z) : M (Bus D) Z :=
  write_address (make_address bus device func 0x0c) ;;
  v ← read_data; mret (as_u 8 (Z.land (ushr v 16) 0xff)).

Definition read_class_code (bus device func : Z) : M (Bus D) ClassCode :=
  write_address (make_address bus device func 0x08) ;;
  v ← read_data;
  let class_code_raw := ushr v 8 in
  let base := as_u 8 (Z.land (ushr class_code_raw 16) 0xff) in
  let sub := as_u 8 (Z.land (ushr class_code_raw 8) 0xff) in
  let interface := as_u 8 (Z.land class_code_raw 0xff) in
  mret (ClassCode_new base sub interface).

Definition read_bus_numbers (bus device func : Z) : M (Bus D) Z :=
  write_address (make_address bus device func 0x18) ;; read_data.

Definition vendor_id (self : PciDevice) : M (Bus D) Z :=
  read_vendor_id (bus self) (device self) (func self).
Definition is_intel (self : PciDevice) : M (Bus D) bool :=
  v ← vendor_id self; mret (v =? 0x8086).

Definition read_pci_config_space (self : PciDevice) (offset_in_pci_config_space : Z) :
    M (Bus D) Z :=
  write_address (make_address (bus self) (device self) (func self)
    offset_in_pci_config_space) ;;
  read_data.

Definition read_base_addr (self : PciDevice) (index : Z) : M (Bus D) (result Z Error) :=
  if 6 <=? index then
    mret (Err (from_PciError BaseAddressRegisterIndexOutOfRangeError))
  else
    quad ← umul 64 4 index;
    offset ← uadd 64 0x10 quad;
    let offset_in_pci_config_space := as_u 8 offset in
    lower_base_addr ← read_pci_config_space self offset_in_pci_config_space;
    if Z.land lower_base_addr 4 =? 0 then mret (Ok lower_base_addr)
    else if 5 <=? index then
      mret (Err (from_PciError BaseAddressRegisterIndexOutOfRangeError))
    else
      upper_offset ← uadd 8 offset_in_pci_config_space 4;
      upper_base_addr ← read_pci_config_space self upper_offset;
      mret (Ok (Z.lor (ushl 64 upper_base_addr 32) lower_base_addr)).
End access.

(** * The scan *)

Section scan.
Context {arrayvec : Type -> Type} `{ArrayVecApi arrayvec} {D : Type} `{Machine.Device D}.

(** The methods of [Devices] work on the device array and the machine. *)
Notation PM := (M (arrayvec PciDevice * Bus D)).

Definition on_bus {A} (m : M (Bus D) A) : PM A := zoom snd (fun b p => (p.1, b)) m.

(** [self.array.push(device)]. *)
Definition add_device (dev : PciDevice) : PM unit :=
  p ← get_st;
  match av_push p.1 dev with
  | Some v => put_st (v, p.2)
  | None => panic (UnwrapFailed "ArrayVec::push")
  end.

Definition scan_function (scan_bus : Z -> PM (result unit Error)) (bus device func : Z) :
    PM (result unit Error) :=
  header_type ← on_bus (read_header_type bus device func);
  class_code ← on_bus (read_class_code bus device func);
  add_device (Device_new bus device func header_type class_code) ;;
  if (base class_code =? 0x06) && (sub class_code =? 0x04) then
    bus_numbers ← on_bus (read_bus_numbers bus device func);
    let secondary_bus := Z.land (ushr bus_numbers 8) 0xff in
    scan_bus (as_u 8 secondary_bus) ;?
    mret (Ok tt)
  else mret (Ok tt).

Definition scan_device (scan_bus : Z -> PM (result unit Error)) (bus device : Z) :
    PM (result unit Error) :=
  scan_function scan_bus bus device 0 ;?
  header_type ← on_bus (read_header_type bus device 0);
  if is_single_function_device header_type then mret (Ok tt)
  else
    try_for_each (range 1 8) (fun func =>
      vendor ← on_bus (read_vendor_id bus device func);
      if vendor =? 0xffff then mret (Ok tt)
      else scan_function scan_bus bus device func) ;?
    mret (Ok tt).

(** [fuel] bounds the nesting of bridges. *)
Fixpoint scan_bus (fuel : nat) (bus : Z) : PM (result unit Error) :=
  match fuel with
  | O => diverge
  | S fuel =>
      try_for_each (range 0 32) (fun device =>
        vendor ← on_bus (read_vendor_id bus device 0);
        if vendor =? 0xffff then mret (Ok tt)
        else scan_device (scan_bus fuel) bus device) ;?
      mret (Ok tt)
  end.

Definition scan_all_bus (fuel : nat) : PM (result unit Error) :=
  bus0_host_bridge_header_type ← on_bus (read_header_type 0 0 0);
  if is_single_function_device bus0_host_bridge_header_type then scan_bus fuel 0
  else
    try_for_each (range 0 8) (fun func =>
      vendor ← on_bus (read_vendor_id 0 0 func);
      if vendor =? 0xffff then mret (Ok tt) else scan_bus fuel func) ;?
    mret (Ok tt).

Definition Devices_init (fuel : nat) : PM (result unit Error) :=
  scan_all_bus fuel ;? mret (Ok tt).

(** ** The global [DEVICES] *)

Section global.
Context {mutex : Type -> Type} `{SpinMutex mutex}.

Record PciState : Type := mkPciState {
  DEVICES : mutex (arrayvec PciDevice);
  pci_bus : Bus D
}.
Definition set_DEVICES (m : mutex (arrayvec PciDevice)) (g : PciState) : PciState :=
  mkPciState m (pci_bus g).

Definition Devices_new : arrayvec PciDevice := av_new DEVICE_CAPACITY.
Definition as_ref_inner (self : arrayvec PciDevice) : list PciDevice := av_elems self.

(** [devices()?.method(..)]. *)
Definition devices {A} (m : PM (result A Error)) : M PciState (result A Error) :=
  with_try_lock DEVICES set_DEVICES (from_PciError DeviceLockError)
    (zoom (fun p => (p.1, pci_bus p.2))
          (fun q p => (q.1, mkPciState (DEVICES p.2) q.2)) m).
End global.
End scan.
Arguments PciState : clear implicits.

(** * Specification: a configuration space and what the scan should find *)

Section spec.
(** The 32-bit word at an offset of the space of a function. *)
Context (cfg : Z -> Z -> Z -> Z -> Z).

Definition cfg_vendor b d f : Z := field (cfg b d f 0x00) 0 16.
Definition cfg_header b d f : Z := field (cfg b d f 0x0c) 16 8.
Definition cfg_class b d f : ClassCode :=
  mkClassCode (field (cfg b d f 0x08) 24 8) (field (cfg b d f 0x08) 16 8)
    (field (cfg b d f 0x08) 8 8).
Definition cfg_secondary b d f : Z := field (cfg b d f 0x18) 8 8.
Definition cfg_bridge b d f : bool :=
  (base (cfg_class b d f) =? 6) && (sub (cfg_class b d f) =? 4).
Definition record_of b d f : PciDevice :=
  mkDevice b d f (cfg_header b d f) (cfg_class b d f).

(** Functions are looked for behind function 0, and only if it says it has more. *)
Definition present b d f : Prop :=
  0 <= d < 32 /\ cfg_vendor b d 0 <> 0xffff /\
  (f = 0 \/ 1 <= f < 8 /\ Z.testbit (cfg_header b d 0) 7 = true /\
            cfg_vendor b d f <> 0xffff).

(** The buses behind the bridges found from a bus on. *)
Inductive reach (root : Z) : Z -> Prop :=
  | reach_root : reach root root
  | reach_bridge b d f :
      reach root b -> present b d f -> cfg_bridge b d f = true ->
      reach root (cfg_secondary b d f).

Definition found (root : Z) (x : PciDevice) : Prop :=
  exists b d f, reach root b /\ present b d f /\ x = record_of b d f.

(** The buses behind the bridges of a list have all their functions in it. *)
Definition closed (l : list PciDevice) : Prop :=
  forall b d f, record_of b d f ∈ l -> cfg_bridge b d f = true ->
  forall d' f', present (cfg_secondary b d f) d' f' ->
    record_of (cfg_secondary b d f) d' f' ∈ l.

(** The root buses: bus 0, or one per function of a multi-function host bridge. *)
Definition root_bus (r : Z) : Prop :=
  if Z.testbit (cfg_header 0 0 0) 7 then 0 <= r < 8 /\ cfg_vendor 0 0 r <> 0xffff
  else r = 0.

(** Configuration mechanism #1 of the PCI specification: after the address of a
    word is written to CONFIG_ADDRESS, CONFIG_DATA reads that word. *)
Record config_mechanism {D} `{Machine.Device D} (ok : D -> Prop) : Prop := {
  cm_write d a : ok d -> ok (dev_write (Out32 CONFIG_ADDRESS_ADDRESS a) d);
  cm_read d : ok d -> ok (dev_read (In32 CONFIG_DATA_ADDRESS) d).2;
  cm_value dev b d f off :
    ok dev -> 0 <= b < 256 -> 0 <= d < 32 -> 0 <= f < 8 -> 0 <= off < 256 ->
    off mod 4 = 0 ->
    as_u 32 (dev_read (In32 CONFIG_DATA_ADDRESS)
      (dev_write (Out32 CONFIG_ADDRESS_ADDRESS (make_address b d f off)) dev)).1 =
      cfg b d f off
}.
End spec.

(** * Lemmas *)

Lemma field_mask v lo w : 0 <= lo -> 0 <= w ->
  as_u w (Z.land (ushr v lo) (Z.ones w)) = field v lo w.
Proof.
  intros Hlo Hw. unfold field, ushr. rewrite Z.land_ones by lia. by apply as_u_idemp.
Qed.

Lemma single_function_bit h :
  is_single_function_device h = negb (Z.testbit h 7).
Proof.
  rewrite <- (land_bit 8 h 7) by lia. unfold is_single_function_device.
  change (ushl 8 1 7) with 0x80. by rewrite negb_involutive.
Qed.

(** ** The scan, for every device

    [T] says that the device implements the configuration space [cfg]; without
    it only termination and the growth of the list are claimed. *)
Section scan_proof.
Context {arrayvec : Type -> Type} `{ArrayVecLaws arrayvec} {D : Type} `{!Machine.Device D}.
Context (cfg : Z -> Z -> Z -> Z -> Z) (ok : D -> Prop) (T : Prop).
Hypothesis ok_write : forall d a, ok d -> ok (dev_write (Out32 CONFIG_ADDRESS_ADDRESS a) d).
Hypothesis ok_read : forall d, ok d -> ok (dev_read (In32 CONFIG_DATA_ADDRESS) d).2.
Hypothesis ok_value : T -> forall dev b d f off,
  ok dev -> 0 <= b < 256 -> 0 <= d < 32 -> 0 <= f < 8 -> 0 <= off < 256 -> off mod 4 = 0 ->
  as_u 32 (dev_read (In32 CONFIG_DATA_ADDRESS)
    (dev_write (Out32 CONFIG_ADDRESS_ADDRESS (make_address b d f off)) dev)).1 =
    cfg b d f off.

Notation St := (arrayvec PciDevice * Bus D)%type.
Implicit Types p : St.

(** A function number of the loops, and where it is looked for. *)
Definition bdf_ok (b d f : Z) : Prop := 0 <= b < 256 /\ 0 <= d < 32 /\ 0 <= f < 8.

Lemma wp_config_read {A} b d f off (g : Z -> A) (Q : A -> St -> Prop) p :
  ok (bus_dev p.2) -> bdf_ok b d f -> 0 <= off < 256 -> off mod 4 = 0 ->
  (forall v bs, ok (bus_dev bs) -> 0 <= v < 2 ^ 32 -> (T -> v = cfg b d f off) ->
     Q (g v) (p.1, bs)) ->
  wp (on_bus (write_address (make_address b d f off) ;; v ← read_data; mret (g v))) Q p.
Proof.
  intros Hok (Hb & Hd & Hf) Hoff Hal HQ. unfold on_bus. wp_step. wp_step.
  apply wp_io_write. wp_step. apply wp_io_read. intros v d' Hv Ev Ed. wp_step.
  apply HQ; [|exact Hv|]; cbn [bus_dev] in *.
  - rewrite Ed. by apply ok_read, ok_write.
  - intros HT. rewrite Ev. by apply ok_value.
Qed.

Lemma wp_vendor b d f (Q : Z -> St -> Prop) p :
  ok (bus_dev p.2) -> bdf_ok b d f ->
  (forall v bs, ok (bus_dev bs) -> (T -> v = cfg_vendor cfg b d f) -> Q v (p.1, bs)) ->
  wp (on_bus (read_vendor_id b d f)) Q p.
Proof.
  intros Hok Hr HQ. apply wp_config_read; [done..|]. intros v bs Hbs _ Hv.
  apply HQ; [done|]. intros HT. rewrite (Hv HT). exact (field_mask _ 0 16 ltac:(lia) ltac:(lia)).
Qed.

Lemma wp_header b d f (Q : Z -> St -> Prop) p :
  ok (bus_dev p.2) -> bdf_ok b d f ->
  (forall v bs, ok (bus_dev bs) -> (T -> v = cfg_header cfg b d f) -> Q v (p.1, bs)) ->
  wp (on_bus (read_header_type b d f)) Q p.
Proof.
  intros Hok Hr HQ. apply wp_config_read; [done..|]. intros v bs Hbs _ Hv.
  apply HQ; [done|]. intros HT. rewrite (Hv HT). apply (field_mask _ 16 8); lia.
Qed.

Lemma wp_class b d f (Q : ClassCode -> St -> Prop) p :
  ok (bus_dev p.2) -> bdf_ok b d f ->
  (forall v bs, ok (bus_dev bs) -> (T -> v = cfg_class cfg b d f) -> Q v (p.1, bs)) ->
  wp (on_bus (read_class_code b d f)) Q p.
Proof.
  intros Hok Hr HQ. apply (wp_config_read b d f 8 (fun v =>
    ClassCode_new (as_u 8 (Z.land (ushr (ushr v 8) 16) 0xff))
      (as_u 8 (Z.land (ushr (ushr v 8) 8) 0xff)) (as_u 8 (Z.land (ushr v 8) 0xff))));
    [done..|].
  intros v bs Hbs _ Hv. apply HQ; [done|]. intros HT. rewrite (Hv HT).
  unfold cfg_class, ClassCode_new. unfold ushr at 2 4. unfold ushr at 1 2.
  rewrite !Z.shiftr_shiftr by lia.
  f_equal; [apply (field_mask _ 24 8)|apply (field_mask _ 16 8)|apply (field_mask _ 8 8)]; lia.
Qed.

Lemma wp_bus_numbers b d f (Q : Z -> St -> Prop) p :
  ok (bus_dev p.2) -> bdf_ok b d f ->
  (forall v bs, ok (bus_dev bs) -> 
     0 <= as_u 8 (Z.land (ushr v 8) 0xff) < 256 ->
     (T -> as_u 8 (Z.land (ushr v 8) 0xff) = cfg_secondary cfg b d f) -> Q v (p.1, bs)) ->
  wp (on_bus (read_bus_numbers b d f)) Q p.
Proof.
  intros Hok Hr HQ. assert (Hm : forall q, read_bus_numbers (D := D) b d f q =
    (write_address (make_address b d f 0x18) ;; v ← read_data; mret v) q).
  { intros q. unfold read_bus_numbers, mbind, M_bind. case_match; [|done..].
    by case_match. }
  unfold on_bus, wp, zoom. rewrite Hm.
  apply (wp_config_read b d f 0x18 id); [done..|]. intros v bs Hbs _ Hv.
  apply HQ; [done|by apply (as_u_range 8)|].
  intros HT. unfold id. rewrite (Hv HT). apply (field_mask _ 8 8); lia.
Qed.

(** The list grows by [new], of which [P] holds. *)
Definition grows (P : list PciDevice -> Prop) p p' : Prop :=
  exists new, av_elems p'.1 = av_elems p.1 ++ new /\ av_cap p'.1 = av_cap p.1 /\
    ok (bus_dev p'.2) /\ (T -> P new).

Definition room p : Z := av_cap p.1 - Z.of_nat (length (av_elems p.1)).

(** What the whole scan may find. *)
Context (B : PciDevice -> Prop) (cap : Z).
Definition listed p : Prop := av_cap p.1 = cap /\ (T -> forall x, x ∈ av_elems p.1 -> B x).
Definition full (e : panic_info) p : Prop :=
  e = UnwrapFailed "ArrayVec::push" /\ room p <= 0 /\ listed p.
(** The list is part of that, and so is everything behind bus [b]. *)
Definition within b p : Prop := listed p /\ (T -> forall x, found cfg b x -> B x).

Lemma grows_trans (P P' P'' : list PciDevice -> Prop) p p1 p2 :
  grows P p p1 -> grows P' p1 p2 ->
  (forall n1 n2, P n1 -> P' n2 -> P'' (n1 ++ n2)) -> grows P'' p p2.
Proof.
  intros (n1 & E1 & C1 & _ & F1) (n2 & E2 & C2 & O2 & F2) HP.
  exists (n1 ++ n2). rewrite E2, E1, <- (assoc_L (++)), C2, C1. auto 10.
Qed.

Lemma grows_weaken (P P' : list PciDevice -> Prop) p p' :
  grows P p p' -> (forall n, P n -> P' n) -> grows P' p p'.
Proof. intros (n & ? & ? & ? & ?) HP. exists n. auto 10. Qed.

Lemma grows_nil P a bs : ok (bus_dev bs) -> (T -> P []) -> forall bs0, grows P (a, bs0) (a, bs).
Proof. intros Hok HP bs0. exists []. simpl. by rewrite app_nil_r. Qed.

Lemma grows_room P p p' : grows P p p' -> room p' <= room p.
Proof.
  intros (n & E & C & _). unfold room. rewrite E, C, length_app. lia.
Qed.

Lemma grows_ok P p p' : grows P p p' -> ok (bus_dev p'.2).
Proof. by intros (n & ? & ? & ? & ?). Qed.

Definition all_found b (new : list PciDevice) : Prop := forall x, x ∈ new -> found cfg b x.
Definition fun_spec b d f new : Prop :=
  all_found b new /\ record_of cfg b d f ∈ new /\ closed cfg new.
Definition dev_spec b d new : Prop :=
  all_found b new /\ (forall f, present cfg b d f -> record_of cfg b d f ∈ new) /\
  closed cfg new.
Definition bus_spec b new : Prop :=
  all_found b new /\ (forall d f, present cfg b d f -> record_of cfg b d f ∈ new) /\
  closed cfg new.

Lemma reach_trans root mid b : reach cfg root mid -> reach cfg mid b -> reach cfg root b.
Proof. intros Hr Hb. induction Hb; [done|]. by apply reach_bridge. Qed.

Lemma closed_app l1 l2 : closed cfg l1 -> closed cfg l2 -> closed cfg (l1 ++ l2).
Proof.
  intros Hc1 Hc2 b d f [Hin|Hin]%elem_of_app Hbr d' f' Hp; apply elem_of_app;
    [left|right]; by eauto.
Qed.

Lemma all_found_app b l1 l2 :
  all_found b l1 -> all_found b l2 -> all_found b (l1 ++ l2).
Proof. intros Hf1 Hf2 x [?|?]%elem_of_app; auto. Qed.

Lemma found_bridge b d f x : present cfg b d f -> cfg_bridge cfg b d f = true ->
  found cfg (cfg_secondary cfg b d f) x -> found cfg b x.
Proof.
  intros Hp Hbr (b' & d' & f' & Hr & Hp' & ->). exists b', d', f'. split; [|done].
  eapply reach_trans; [|exact Hr]. apply reach_bridge; [constructor|done..].
Qed.

Lemma fun_spec_plain b d f : present cfg b d f -> cfg_bridge cfg b d f = false ->
  fun_spec b d f [record_of cfg b d f].
Proof.
  intros Hp Hbr. split; [|split; [by left|]].
  - intros x ->%list_elem_of_singleton. exists b, d, f. split; [constructor|done].
  - intros b' d' f' [= <- <- <-]%list_elem_of_singleton. congruence.
Qed.

Lemma fun_spec_bridge b d f new : present cfg b d f -> cfg_bridge cfg b d f = true ->
  bus_spec (cfg_secondary cfg b d f) new ->
  fun_spec b d f (record_of cfg b d f :: new).
Proof.
  intros Hp Hbr (Hf & Hall & Hcl). split; [|split; [by left|]].
  - intros x [->|Hx]%elem_of_cons.
    + exists b, d, f. split; [constructor|done].
    + by apply (found_bridge b d f), Hf.
  - intros b' d' f' [[= -> -> ->]|Hin]%elem_of_cons Hbr' d2 f2 Hp2; right; eauto.
Qed.

Lemma within_grows b P p p' :
  within b p -> grows P p p' -> (forall n, P n -> all_found b n) -> within b p'.
Proof.
  intros [[Hc Hl] Hb] (n & E & C & _ & Hn) HP. split; [|done]. split; [by rewrite C|].
  intros HT x. rewrite E. intros [Hx|Hx]%elem_of_app; [auto|]. by apply Hb, (HP n); [|apply Hn|].
Qed.

(** What a recursive call of [scan_bus] is allowed to do. *)
Definition scans (rec : Z -> M St (result unit Error)) (fuel : Z) : Prop :=
  forall b p, 0 <= b < 256 -> ok (bus_dev p.2) -> within b p -> Z.max 0 (room p) < fuel ->
    runs (rec b) (fun r p' => r = Ok tt /\ grows (bus_spec b) p p') full p.

Lemma runs_add_device dev p (Q : unit -> St -> Prop) :
  listed p ->
  (0 < room p -> forall v, av_elems v = av_elems p.1 ++ [dev] -> av_cap v = av_cap p.1 ->
     Q tt (v, p.2)) ->
  runs (add_device dev) Q full p.
Proof.
  intros HB HQ. unfold add_device. apply runs_bind. unfold runs, get_st.
  destruct (decide (0 < room p)) as [Hr|Hr].
  - destruct (av_push_room _ p.1 dev) as (v & -> & Hv & Hc); [unfold room in Hr; lia|].
    by apply HQ.
  - rewrite av_push_full; [split; [done|split; [lia|exact HB]]|].
    unfold room in Hr. lia.
Qed.

Lemma runs_scan_function rec fuel b d f p :
  scans rec fuel -> ok (bus_dev p.2) -> bdf_ok b d f -> (T -> present cfg b d f) ->
  within b p -> 0 <= fuel -> room p <= fuel ->
  runs (scan_function rec b d f)
    (fun r p' => r = Ok tt /\ grows (fun_spec b d f) p p') full p.
Proof.
  intros Hrec Hok Hr Hp Hwit Hfuel Hroom. destruct p as [a bs]. unfold scan_function.
  apply runs_bind, runs_wp, wp_header; [done..|]. intros ht bs1 Hok1 Hht.
  apply runs_bind, runs_wp, wp_class; [done..|]. intros cc bs2 Hok2 Hcc.
  apply runs_bind, runs_add_device; [exact (proj1 Hwit)|]. intros Hpos v Hv Hcap. cbn [fst snd] in *.
  assert (Hrec_of : T -> Device_new b d f ht cc = record_of cfg b d f).
  { intros HT. unfold Device_new. by rewrite (Hht HT), (Hcc HT). }
  destruct ((base cc =? 6) && (sub cc =? 4)) eqn:Hbr.
  - apply runs_bind, runs_wp, wp_bus_numbers; [done..|]. intros n bs3 Hok3 Hrange Hn.
    apply runs_bind_try. eapply runs_mono.
    { apply Hrec; [exact Hrange|done| |].
      - destruct Hwit as [[Hc Hl] Hb]. cbn [fst] in *. split; [split; cbn [fst]; [congruence|]|].
        + intros HT x. rewrite Hv. intros [Hx|Hx%list_elem_of_singleton]%elem_of_app; [by apply Hl|].
          subst x. apply (Hb HT). exists b, d, f. rewrite Hrec_of by done.
          split; [constructor|]. split; [by apply Hp|done].
        + intros HT x Hx. rewrite (Hn HT) in Hx. apply (Hb HT). apply (found_bridge b d f); [by apply Hp| |done].
          unfold cfg_bridge. by rewrite <- (Hcc HT).
      - unfold room in *. cbn [fst] in *.
        rewrite Hv, Hcap, length_app. simpl. lia. }
    intros r p' [-> (new & En & Cn & On & Hn')]. apply runs_ret. split; [done|].
    exists (Device_new b d f ht cc :: new). cbn [fst] in *.
    rewrite En, Hv, Cn, Hcap, <- (assoc_L (++)). split; [done|]. split; [done|].
    split; [done|]. intros HT. rewrite Hrec_of by done.
    apply fun_spec_bridge; [by apply Hp| |].
    + unfold cfg_bridge. by rewrite <- (Hcc HT).
    + rewrite <- (Hn HT). by apply Hn'.
  - apply runs_ret. split; [done|]. exists [Device_new b d f ht cc]. cbn [fst snd].
    split; [done|]. split; [done|]. split; [done|]. intros HT. rewrite Hrec_of by done.
    apply fun_spec_plain; [by apply Hp|]. unfold cfg_bridge. by rewrite <- (Hcc HT).
Qed.

Definition dev_upto b d i new : Prop :=
  all_found b new /\ (forall f, present cfg b d f -> f < i -> record_of cfg b d f ∈ new) /\
  closed cfg new.

Lemma dev_upto_next b d i n1 n2 :
  dev_upto b d i n1 -> all_found b n2 -> closed cfg n2 ->
  (present cfg b d i -> record_of cfg b d i ∈ n2) -> dev_upto b d (i + 1) (n1 ++ n2).
Proof.
  intros (Hf & Hall & Hcl) Hf2 Hcl2 Hi. split; [by apply all_found_app|].
  split; [|by apply closed_app]. intros f Hp Hlt. apply elem_of_app.
  destruct (decide (f = i)) as [->|]; [right|left]; auto. apply Hall; [done|lia].
Qed.

Lemma grows_moved (P : list PciDevice -> Prop) p a bs bs' :
  grows P p (a, bs) -> ok (bus_dev bs') -> grows P p (a, bs').
Proof. intros (n & E & C & _ & S) Hok. by exists n. Qed.

(** One function of a device with several. *)
Lemma runs_scan_next rec fuel b d i p p1 :
  scans rec fuel -> 0 <= b < 256 -> 0 <= d < 32 -> 1 <= i < 8 ->
  (T -> cfg_vendor cfg b d 0 <> 0xffff) -> (T -> Z.testbit (cfg_header cfg b d 0) 7 = true) ->
  within b p -> 0 <= fuel -> room p <= fuel -> grows (dev_upto b d i) p p1 ->
  runs (vendor ← on_bus (read_vendor_id b d i);
      if vendor =? 0xffff then mret (Ok tt) else scan_function rec b d i)
    (fun r p' => r = Ok tt /\ grows (dev_upto b d (i + 1)) p p') full p1.
Proof.
  intros Hrec Hb Hd Hi Hv Hmulti Hwit Hfuel Hroom Hg.
  pose proof (grows_room _ _ _ Hg) as Hroom1. pose proof (grows_ok _ _ _ Hg) as Hok.
  destruct p1 as [a bs]. apply runs_bind, runs_wp, wp_vendor; [done|by split; [|split]; lia|].
  intros v bs1 Hok1 Hvi. cbn [fst]. apply (grows_moved _ _ _ _ bs1) in Hg; [|done].
  destruct (Z.eqb_spec v 0xffff) as [->|Hne].
  - apply runs_ret. split; [done|]. eapply (grows_trans _ (fun new => T /\ new = []));
      [exact Hg|apply grows_nil; done|]. intros n1 n2 Hn [HT ->].
    eapply dev_upto_next; [done|intros x Hx; by apply not_elem_of_nil in Hx|
      intros ? ? ? Hx; by apply not_elem_of_nil in Hx|].
    intros (_ & _ & [->|(_ & _ & Hne)]); [lia|]. by rewrite <- Hvi in Hne.
  - eapply runs_mono.
    { eapply (runs_scan_function rec fuel b d i); [done|done|by split; [|split]; lia|..].
      - intros HT. split; [done|]. split; [by apply Hv|]. right. split; [lia|].
        split; [by apply Hmulti|by rewrite <- (Hvi HT)].
      - eapply within_grows; [exact Hwit|exact Hg|]. by intros n [? _].
      - done.
      - unfold room in *. cbn [fst] in *. lia. }
    intros r p2 [-> Hg2]. split; [done|].
    eapply grows_trans; [exact Hg|exact Hg2|]. intros n1 n2 Hn (Hf & Hin & Hcl).
    by eapply dev_upto_next.
Qed.

Lemma runs_scan_device rec fuel b d p :
  scans rec fuel -> ok (bus_dev p.2) -> 0 <= b < 256 -> 0 <= d < 32 ->
  (T -> cfg_vendor cfg b d 0 <> 0xffff) -> within b p -> 0 <= fuel -> room p <= fuel ->
  runs (scan_device rec b d)
    (fun r p' => r = Ok tt /\ grows (dev_spec b d) p p') full p.
Proof.
  intros Hrec Hok Hb Hd Hv Hwit Hfuel Hroom. unfold scan_device.
  assert (Hr : forall f, 0 <= f < 8 -> bdf_ok b d f) by done.
  assert (Hp0 : T -> present cfg b d 0) by (intros HT; split; auto).
  apply runs_bind_try. eapply runs_mono.
  { eapply (runs_scan_function rec fuel b d 0); [done|done|by apply Hr|done..]. }
  intros r p1 [-> Hg1]. pose proof (grows_ok _ _ _ Hg1) as Hok1. destruct p1 as [a1 bs1].
  apply runs_bind, runs_wp, wp_header; [done|by apply Hr|]. intros ht bs2 Hok2 Hht.
  assert (Hg2 : grows (dev_upto b d 1) p (a1, bs2)).
  { eapply (grows_trans _ (fun new => new = [])); [exact Hg1|apply grows_nil; done|].
    intros n1 n2 (Hf & Hin & Hcl) ->. rewrite app_nil_r. split; [done|]. split; [|done].
    intros f (_ & _ & [->|]) Hlt; [done|lia]. }
  rewrite single_function_bit. destruct (Z.testbit ht 7) eqn:Hbit; simpl negb; cbv iota.
  - apply runs_bind_try.
    apply (runs_try_for_range _ (fun i p' => grows (dev_upto b d i) p p')); [lia|done| |].
    + intros i p3 Hi Hg3. eapply runs_scan_next; [done..| |done|done|done|done].
      intros HT. by rewrite <- (Hht HT).
    + intros p' Hg. apply runs_ret. split; [done|]. eapply grows_weaken; [exact Hg|].
      intros n (Hf & Hall & Hcl). split; [done|]. split; [|done].
      intros f Hp. apply Hall; [done|]. destruct Hp as (_ & _ & [->|[? _]]); lia.
  - apply runs_ret. split; [done|].
    destruct Hg2 as (n & E & C & O & Hn). exists n. split; [done|]. split; [done|].
    split; [done|]. intros HT. destruct (Hn HT) as (Hf & Hall & Hcl).
    split; [done|]. split; [|done]. intros f Hp. apply Hall; [done|].
    destruct Hp as (_ & _ & [->|(_ & Hb7 & _)]); [lia|].
    rewrite <- (Hht HT) in Hb7. congruence.
Qed.

Definition bus_upto b i new : Prop :=
  all_found b new /\
  (forall d f, present cfg b d f -> d < i -> record_of cfg b d f ∈ new) /\ closed cfg new.

Lemma nil_spec b : all_found b [] /\ closed cfg [].
Proof. split; [intros x Hx|intros ? ? ? Hx]; by apply not_elem_of_nil in Hx. Qed.

Lemma bus_upto_next b i n1 n2 :
  bus_upto b i n1 -> all_found b n2 -> closed cfg n2 ->
  (forall f, present cfg b i f -> record_of cfg b i f ∈ n2) ->
  bus_upto b (i + 1) (n1 ++ n2).
Proof.
  intros (Hf & Hall & Hcl) Hf2 Hcl2 Hi. split; [by apply all_found_app|].
  split; [|by apply closed_app]. intros d f Hp Hlt. apply elem_of_app.
  destruct (decide (d = i)) as [->|]; [right|left]; auto. apply Hall; [done|lia].
Qed.

Lemma runs_scan_bus fuel : scans (scan_bus fuel) (Z.of_nat fuel).
Proof.
  induction fuel as [|fuel IH]; intros b p Hb Hok Hwit Hroom; [lia|]. cbn [scan_bus].
  apply runs_bind_try.
  apply (runs_try_for_range _ (fun i p' => grows (bus_upto b i) p p')); [lia|..].
  - destruct p as [a bs]. apply grows_nil; [done|]. intros _.
    destruct (nil_spec b) as [Hf Hcl]. split; [done|]. split; [|done].
    intros d f (Hd & _) Hlt. lia.
  - intros i [a1 bs1] Hi Hg1. pose proof (grows_room _ _ _ Hg1) as Hroom1.
    pose proof (grows_ok _ _ _ Hg1) as Hok1. cbn [snd] in *.
    apply runs_bind, runs_wp, wp_vendor; [done|done|].
    intros v bs2 Hok2 Hv. cbn [fst snd].
    assert (Hg2 : grows (bus_upto b i) p (a1, bs2)).
    { destruct Hg1 as (n & E & C & _ & S). exists n. auto. }
    destruct (Z.eqb_spec v 0xffff) as [->|Hne].
    + apply runs_ret. split; [done|]. eapply (grows_trans _ (fun new => T /\ new = []));
        [exact Hg2|apply grows_nil; done|]. intros n1 n2 Hn [HT ->].
      destruct (nil_spec b) as [Hf Hcl]. eapply bus_upto_next; [done..|].
      intros f (_ & Hne & _). by rewrite <- Hv in Hne.
    + eapply runs_mono.
      { eapply (runs_scan_device _ (Z.of_nat fuel) b i); [exact IH|done|done|done| | |lia|].
        - intros HT. by rewrite <- (Hv HT).
        - eapply within_grows; [exact Hwit|exact Hg2|]. by intros n [? _].
        - unfold room in *. cbn [fst] in *. lia. }
      intros r p3 [-> Hg3]. split; [done|].
      eapply grows_trans; [exact Hg2|exact Hg3|]. intros n1 n2 Hn (Hf & Hall & Hcl).
      by eapply bus_upto_next.
  - intros p' Hg. apply runs_ret. split; [done|]. eapply grows_weaken; [exact Hg|].
    intros n (Hf & Hall & Hcl). split; [done|]. split; [|done].
    intros d f Hp. apply Hall; [done|]. destruct Hp as [? _]. lia.
Qed.

(** The root buses below [i]. *)
Definition roots_upto i new : Prop :=
  (forall x, x ∈ new -> exists r, root_bus cfg r /\ found cfg r x) /\
  (forall r, root_bus cfg r -> r < i -> forall d f, present cfg r d f ->
     record_of cfg r d f ∈ new) /\ closed cfg new.
Definition all_spec new : Prop := roots_upto 256 new.

Lemma roots_upto_next i n1 n2 : root_bus cfg i ->
  roots_upto i n1 -> bus_spec i n2 -> roots_upto (i + 1) (n1 ++ n2).
Proof.
  intros Hi (Hf & Hall & Hcl) (Hf2 & Hall2 & Hcl2).
  split; [|split; [|by apply closed_app]].
  - intros x [Hx|Hx]%elem_of_app; eauto.
  - intros r Hr Hlt d f Hp. apply elem_of_app.
    destruct (decide (r = i)) as [->|]; [right|left]; eauto. apply Hall; [done|lia|done].
Qed.

Lemma roots_upto_skip i new : ~ root_bus cfg i -> roots_upto i new -> roots_upto (i + 1) new.
Proof.
  intros Hi (Hf & Hall & Hcl). split; [done|]. split; [|done].
  intros r Hr Hlt. apply Hall; [done|]. destruct (decide (r = i)) as [->|]; [done|lia].
Qed.

Lemma roots_upto_end i new : (forall r, root_bus cfg r -> r < i) ->
  roots_upto i new -> all_spec new.
Proof. intros Hi (Hf & Hall & Hcl). split; [done|]. split; [|done]. auto. Qed.

Lemma roots_upto_0 : (forall r, root_bus cfg r -> 0 <= r) -> roots_upto 0 [].
Proof.
  intros Hpos. split; [|split].
  - intros x Hx. by apply not_elem_of_nil in Hx.
  - intros r Hr Hlt. specialize (Hpos r Hr). lia.
  - apply (nil_spec 0).
Qed.

(** One root bus of a host bridge with several functions. *)
Lemma runs_scan_root fuel i p p1 :
  (T -> forall r x, root_bus cfg r -> found cfg r x -> B x) ->
  (T -> forall r, root_bus cfg r <-> 0 <= r < 8 /\ cfg_vendor cfg 0 0 r <> 0xffff) ->
  listed p -> Z.max 0 (room p) < Z.of_nat fuel -> 0 <= i < 8 -> grows (roots_upto i) p p1 ->
  runs (vendor ← on_bus (read_vendor_id 0 0 i);
      if vendor =? 0xffff then mret (Ok tt) else scan_bus fuel i)
    (fun r p' => r = Ok tt /\ grows (roots_upto (i + 1)) p p') full p1.
Proof.
  intros HB Hroots Hl Hroom Hi Hg. pose proof (grows_room _ _ _ Hg) as Hroom1.
  pose proof (grows_ok _ _ _ Hg) as Hok. destruct p1 as [a bs].
  apply runs_bind, runs_wp, wp_vendor; [done|done|]. intros v bs1 Hok1 Hv. cbn [fst].
  apply (grows_moved _ _ _ _ bs1) in Hg; [|done]. destruct (Z.eqb_spec v 0xffff) as [->|Hne].
  - apply runs_ret. split; [done|]. destruct Hg as (n & E & C & O & S).
    exists n. split; [done|]. split; [done|]. split; [done|]. intros HT.
    apply roots_upto_skip; [|auto]. intros [_ Hne]%Hroots; [|done].
    by rewrite <- (Hv HT) in Hne.
  - assert (Hroot : T -> root_bus cfg i)
      by (intros HT; apply Hroots; [done|]; rewrite <- (Hv HT); split; [lia|done]).
    eapply runs_mono.
    { apply (runs_scan_bus fuel i); [lia|done| |].
      { destruct Hl as [Hc Hl], Hg as (n & E & C & _ & S). cbn [fst] in C, E.
        split; [split; cbn [fst]; [by rewrite C|]|].
        - intros HT x. rewrite E. intros [Hx|Hx]%elem_of_app; [by apply Hl|].
          destruct (proj1 (S HT) x Hx) as (r & Hr & Hf). by apply (HB HT r).
        - intros HT x. by apply (HB HT), Hroot. }
      unfold room in *. cbn [fst] in *. lia. }
    intros r p2 [-> Hg2]. split; [done|].
    destruct Hg as (n1 & E1 & C1 & _ & S1), Hg2 as (n2 & E2 & C2 & O2 & S2). cbn [fst] in *.
    exists (n1 ++ n2). rewrite E2, E1, <- (assoc_L (++)), C2, C1.
    split; [done|]. split; [done|]. split; [done|]. intros HT.
    apply roots_upto_next; auto.
Qed.

Lemma runs_scan_all_bus fuel p :
  ok (bus_dev p.2) -> (T -> forall r x, root_bus cfg r -> found cfg r x -> B x) ->
  listed p -> Z.max 0 (room p) < Z.of_nat fuel ->
  runs (scan_all_bus fuel) (fun r p' => r = Ok tt /\ grows all_spec p p') full p.
Proof.
  intros Hok HB Hl Hroom. destruct p as [a bs]. unfold scan_all_bus.
  apply runs_bind, runs_wp, wp_header; [done|done|]. intros ht bs1 Hok1 Hht.
  cbn [fst snd]. rewrite single_function_bit.
  destruct (Z.testbit ht 7) eqn:Hbit; simpl negb; cbv iota.
  - assert (Hroots : T -> forall r, root_bus cfg r <-> 0 <= r < 8 /\ cfg_vendor cfg 0 0 r <> 0xffff).
    { intros HT r. unfold root_bus. by rewrite <- (Hht HT), Hbit. }
    apply runs_bind_try.
    apply (runs_try_for_range _ (fun i p' => grows (roots_upto i) (a, bs) p')); [lia|..].
    + apply grows_nil; [done|]. intros HT. apply roots_upto_0.
      intros r Hr%Hroots; [lia|done].
    + intros i p1 Hi Hg. by apply runs_scan_root.
    + intros p' (n & E & C & O & S). apply runs_ret. split; [done|]. exists n.
      split; [done|]. split; [done|]. split; [done|]. intros HT.
      eapply roots_upto_end; [|auto]. intros r [? _]%Hroots; [lia|done].
  - eapply runs_mono.
    { apply (runs_scan_bus fuel 0); [lia|done| |exact Hroom]. split; [exact Hl|].
      intros HT x. apply (HB HT). unfold root_bus. by rewrite <- (Hht HT), Hbit. }
    intros r p' [-> (n & E & C & O & S)]. split; [done|]. exists n. cbn [fst] in *.
    split; [done|]. split; [done|]. split; [done|]. intros HT.
    assert (Hroots : forall r, root_bus cfg r <-> r = 0).
    { intros r. unfold root_bus. by rewrite <- (Hht HT), Hbit. }
    apply (roots_upto_end 1); [intros r ->%Hroots; lia|].
    apply (roots_upto_next 0 []); [by apply Hroots| |auto].
    apply roots_upto_0. intros r ->%Hroots. lia.
Qed.
End scan_proof.

(** The address as a sum of its fields. *)
Lemma make_address_sum b d f off :
  0 <= b < 256 -> 0 <= d < 32 -> 0 <= f < 8 -> 0 <= off < 256 ->
  make_address b d f off =
    2 ^ 31 + b * 2 ^ 16 + d * 2 ^ 11 + f * 2 ^ 8 + off / 4 * 4.
Proof.
  intros Hb Hd Hf Hoff. unfold make_address.
  assert (Hl : Z.land off 0xfc = off / 4 * 4).
  { change 0xfc with (Z.ldiff (Z.ones 8) (Z.ones 2)).
    change (off / 4 * 4) with (off / 2 ^ 2 * 2 ^ 2).
    apply Z.bits_inj'. intros i Hi.
    rewrite Z.land_spec, Z.ldiff_spec, !Z.testbit_ones_nonneg by lia.
    rewrite Z.mul_pow2_bits by lia. destruct (Z.ltb_spec i 2).
    - rewrite (Z.testbit_neg_r _ (i - 2)) by lia. by rewrite !andb_false_r.
    - rewrite <- Z.shiftr_div_pow2, Z.shiftr_spec by lia.
      replace (i - 2 + 2) with i by lia. destruct (Z.ltb_spec i 8).
      + by rewrite !andb_true_r.
      + by rewrite (testbit_high 8 off i) by lia. }
  rewrite Hl. unfold ushl. rewrite !Z.shiftl_mul_pow2 by lia.
  rewrite !as_u_small by lia.
  replace (1 * 2 ^ 31) with (2 ^ 15 * 2 ^ 16) by lia.
  rewrite <- !Z.lor_assoc.
  rewrite (lor_add 8 f) by zlia.
  replace (f * 2 ^ 8 + off / 4 * 4) with (0 + (f * 2 ^ 8 + off / 4 * 4)) by lia.
  rewrite (lor_add 11 d) by zlia. rewrite (lor_add 16 b) by zlia.
  change (2 ^ 15 * 2 ^ 16) with (1 * 2 ^ 31).
  rewrite (lor_add 31 1) by zlia. lia.
Qed.

Lemma make_address_fields b d f off :
  0 <= b < 256 -> 0 <= d < 32 -> 0 <= f < 8 -> 0 <= off < 256 ->
  field (make_address b d f off) 16 8 = b /\ field (make_address b d f off) 11 5 = d /\
  field (make_address b d f off) 8 3 = f /\ field (make_address b d f off) 2 6 = off / 4.
Proof.
  intros Hb Hd Hf Hoff. rewrite make_address_sum by done. unfold field, as_u.
  rewrite !Z.shiftr_div_pow2 by lia. repeat split; zlia.
Qed.

(** ** Found devices are listed *)
Lemma closed_complete cfg l r :
  closed cfg l -> (forall d f, present cfg r d f -> record_of cfg r d f ∈ l) ->
  forall x, found cfg r x -> x ∈ l.
Proof.
  intros Hcl Hroot x (b & d & f & Hr & Hp & ->). revert d f Hp.
  induction Hr as [|b d0 f0 Hr IH Hp0 Hbr]; [done|]. intros d f Hp. by eapply Hcl; eauto.
Qed.

Lemma wp_config_word {D} `{!Machine.Device D} cfg ok dev off (b : Bus D)
    (Q : Z -> Bus D -> Prop) :
  config_mechanism cfg ok -> ok (bus_dev b) ->
  0 <= bus dev < 256 -> 0 <= device dev < 32 -> 0 <= func dev < 8 ->
  0 <= off < 256 -> off mod 4 = 0 ->
  (forall v b', v = cfg (bus dev) (device dev) (func dev) off -> 0 <= v < 2 ^ 32 ->
     ok (bus_dev b') -> Q v b') ->
  wp (read_pci_config_space dev off) Q b.
Proof.
  intros [Hw Hr Hv] Hok Hb Hd Hf Hoff Hal HQ. unfold read_pci_config_space.
  wp_step. apply wp_io_write. apply wp_io_read. intros v d' Hrange Ev Ed.
  apply HQ; [|exact Hrange|]; cbn [bus_dev] in *.
  - rewrite Ev. by apply Hv.
  - rewrite Ed. by apply Hr, Hw.
Qed.

(** * Properties *)

Section properties.
Context {arrayvec : Type -> Type} `{ArrayVecLaws arrayvec} {D : Type} `{!Machine.Device D}.

(** C21: the scan terminates on every machine, even one whose bridges form a cycle:
    with fuel for one more bus than the list has room for devices, it returns
    [Ok], or panics because the list is full.  It never returns an error. *)
Theorem scan_terminates fuel (p : arrayvec PciDevice * Bus D) :
  Z.max 0 (av_cap p.1 - Z.of_nat (length (av_elems p.1))) < Z.of_nat fuel ->
  match Devices_init fuel p with
  | Ret r p' => r = Ok tt
  | Panic e p' => e = UnwrapFailed "ArrayVec::push" /\
      av_cap p'.1 <= Z.of_nat (length (av_elems p'.1))
  | Diverges => False
  end.
Proof.
  intros Hfuel. change (runs (Devices_init fuel) (fun r _ => r = Ok tt)
    (fun e p' => e = UnwrapFailed "ArrayVec::push" /\
      av_cap p'.1 <= Z.of_nat (length (av_elems p'.1))) p).
  unfold Devices_init.
  assert (Hrun : runs (scan_all_bus fuel) (fun r p' => r = Ok tt /\
    grows (fun _ => True) False (all_spec (fun _ _ _ _ => 0)) p p')
    (full False (fun _ => True) (av_cap p.1)) p)
    by (apply runs_scan_all_bus; done).
  apply runs_bind_try. unfold runs in *. destruct (scan_all_bus fuel p) as [r p'|e p'|].
  - by destruct Hrun as [-> _].
  - destruct Hrun as (-> & Hroom & _). unfold room in Hroom. split; [done|lia].
  - done.
Qed.

Lemma runs_Devices_init cfg ok fuel (p : arrayvec PciDevice * Bus D) :
  config_mechanism cfg ok -> ok (bus_dev p.2) -> av_elems p.1 = [] ->
  Z.max 0 (av_cap p.1) < Z.of_nat fuel ->
  runs (Devices_init fuel) (fun r p' => r = Ok tt /\
      forall x, x ∈ av_elems p'.1 <-> exists root, root_bus cfg root /\ found cfg root x)
    (fun e p' => e = UnwrapFailed "ArrayVec::push" /\
      av_cap p.1 <= Z.of_nat (length (av_elems p'.1)) /\
      forall x, x ∈ av_elems p'.1 -> exists root, root_bus cfg root /\ found cfg root x) p.
Proof.
  intros [Hw Hr Hv] Hok Hempty Hfuel.
  set (B := fun x => exists root, root_bus cfg root /\ found cfg root x).
  assert (Hrun : runs (scan_all_bus fuel) (fun r p' => r = Ok tt /\
    grows ok True (all_spec cfg) p p') (full True B (av_cap p.1)) p).
  { apply runs_scan_all_bus; try done.
    - intros _ r x Hroot Hx. by exists r.
    - split; [done|]. rewrite Hempty. intros _ x Hx. by apply not_elem_of_nil in Hx.
    - unfold room. rewrite Hempty. simpl. lia. }
  unfold Devices_init. apply runs_bind_try. unfold runs in *.
  destruct (scan_all_bus fuel p) as [r p'|e p'|]; [|destruct Hrun as (-> & Hroom & Hc & HB); unfold room in Hroom;
    split; [done|]; split; [lia|by apply HB]|done].
  destruct Hrun as [-> (new & E & _ & _ & Hnew)]. split; [done|].
  rewrite E, Hempty. simpl. destruct (Hnew I) as (Hf & Hall & Hcl).
  intros x. split; [by apply Hf|]. intros (root & Hroot & Hx).
  eapply closed_complete; [done| |exact Hx]. apply Hall; [done|].
  unfold root_bus in Hroot. destruct (Z.testbit (cfg_header cfg 0 0 0) 7); lia.
Qed.

(** C7: on a machine with the configuration mechanism of the PCI specification, a
    scan that starts with an empty list lists exactly the functions reachable from
    the root buses through PCI-PCI bridges, with their header types and class
    codes, unless it panics because it has found as many as the list holds. *)
Theorem scan_exact cfg ok fuel (p : arrayvec PciDevice * Bus D) :
  config_mechanism cfg ok -> ok (bus_dev p.2) -> av_elems p.1 = [] ->
  Z.max 0 (av_cap p.1) < Z.of_nat fuel ->
  match Devices_init fuel p with
  | Ret r p' => r = Ok tt /\
      forall x, x ∈ av_elems p'.1 <-> exists root, root_bus cfg root /\ found cfg root x
  | Panic e p' => av_cap p.1 <= Z.of_nat (length (av_elems p'.1)) /\
      forall x, x ∈ av_elems p'.1 -> exists root, root_bus cfg root /\ found cfg root x
  | Diverges => False
  end.
Proof.
  intros Hcm Hok He Hf. pose proof (runs_Devices_init cfg ok fuel p Hcm Hok He Hf) as Hr.
  unfold runs in Hr. destruct (Devices_init fuel p); [done|by destruct Hr|done].
Qed.

(** C32: [make_address] packs bus, device, function and dword-aligned offset into
    disjoint fields under the enable bit: each is read back unchanged. *)
Theorem make_address_decode b d f off :
  0 <= b < 256 -> 0 <= d < 32 -> 0 <= f < 8 -> 0 <= off < 256 ->
  let a := make_address b d f off in
  field a 31 1 = 1 /\ field a 24 7 = 0 /\ field a 16 8 = b /\ field a 11 5 = d /\
  field a 8 3 = f /\ field a 2 6 = off / 4 /\ field a 0 2 = 0 /\ 0 <= a < 2 ^ 32.
Proof.
  intros Hb Hd Hf Hoff a. subst a. rewrite make_address_sum by done. unfold field, as_u.
  rewrite !Z.shiftr_div_pow2 by lia. repeat split; zlia.
Qed.

(** C33: [read_base_addr] returns the register for a 32-bit bar, both registers for a
    64-bit one, and the index error for an index past the last bar and for a 64-bit
    bar in the last one; the flag bits of the register stay in the address. *)
Theorem read_base_addr_spec cfg ok dev index (b : Bus D) :
  config_mechanism cfg ok -> ok (bus_dev b) ->
  0 <= bus dev < 256 -> 0 <= device dev < 32 -> 0 <= func dev < 8 -> 0 <= index < 2 ^ 64 ->
  exists r b', read_base_addr dev index b = Ret r b' /\
    let lower := cfg (bus dev) (device dev) (func dev) (0x10 + 4 * index) in
    let upper := cfg (bus dev) (device dev) (func dev) (0x14 + 4 * index) in
    r = if 6 <=? index then Err (Error_PciError BaseAddressRegisterIndexOutOfRangeError)
        else if negb (Z.testbit lower 2) then Ok lower
        else if index =? 5
        then Err (Error_PciError BaseAddressRegisterIndexOutOfRangeError)
        else Ok (upper * 2 ^ 32 + lower).
Proof.
  intros Hcfg Hok Hb Hd Hf Hi. cbv zeta.
  apply wp_returns with (Q := fun r _ => r = _). unfold read_base_addr.
  destruct (Z.leb_spec 6 index); [by wp_step|].
  wp_step. wp_step; [lia|]. wp_step. wp_step; [lia|]. rewrite as_u_small by lia. wp_step.
  eapply wp_config_word; [done..|lia|zlia|]. intros lower b1 -> Hlower Hok1.
  set (lower := cfg _ _ _ (16 + 4 * index)) in *.
  replace (Z.land lower 4 =? 0) with (negb (Z.testbit lower 2))
    by (rewrite <- (land_bit 32 lower 2) by lia; apply negb_involutive).
  destruct (Z.testbit lower 2); simpl negb; cbv iota; [|by wp_step].
  destruct (Z.leb_spec 5 index).
  { replace (index =? 5) with true by lia. by wp_step. }
  replace (index =? 5) with false by lia.
  wp_step. wp_step; [lia|]. wp_step.
  eapply wp_config_word; [done..|lia|zlia|]. intros upper b2 -> Hupper Hok2. wp_step.
  replace (16 + 4 * index + 4) with (20 + 4 * index) in * by lia.
  unfold ushl. rewrite Z.shiftl_mul_pow2, as_u_small, lor_add by lia. done.
Qed.

(** while the device list is locked, every access to it is a [DeviceLockError]
    and changes nothing. *)
Theorem devices_locked {mutex : Type -> Type} `{SpinMutexLaws mutex} {A}
    (m : M (arrayvec PciDevice * Bus D) (result A Error)) (g : PciState arrayvec D mutex) :
  mutex_held (DEVICES g) = true ->
  devices m g = Ret (Err (Error_PciError DeviceLockError)) g.
Proof. intros Hheld. unfold devices, with_try_lock. by rewrite with_guard_busy. Qed.
End properties.

(** * Witnesses: a machine with a bridge *)

(** Configuration mechanism #1 as a device: it latches the address. *)
Definition latch_device (cfg : Z -> Z -> Z -> Z -> Z) : Machine.Device Z := {|
  dev_read op a := match op with
    | In32 port => if port =? CONFIG_DATA_ADDRESS
        then (cfg (field a 16 8) (field a 11 5) (field a 8 3) (4 * field a 2 6), a)
        else (0, a)
    | _ => (0, a)
    end;
  dev_write op a := match op with
    | Out32 port v => if port =? CONFIG_ADDRESS_ADDRESS then v else a
    | _ => a
    end
|}.

Lemma latch_mechanism cfg : (forall b d f off, 0 <= cfg b d f off < 2 ^ 32) ->
  @config_mechanism cfg Z (latch_device cfg) (fun _ => True).
Proof.
  intros Hcfg. split; [done|done|]. intros dev b d f off _ Hb Hd Hf Hoff Hal.
  simpl. destruct (make_address_fields b d f off) as (-> & -> & -> & ->); [done..|].
  replace (4 * (off / 4)) with off by zlia. by apply as_u_small.
Qed.

(** A host bridge, a PCI-PCI bridge to bus 1, and there a multi-function device with
    an xHC and a network controller. *)
Definition demo_cfg (b d f off : Z) : Z :=
  match b, d, f, off with
  | 0, 0, 0, 0 => 0x12378086 | 0, 0, 0, 8 => 0x06000002 | 0, 0, 0, 12 => 0
  | 0, 3, 0, 0 => 0x00011b36 | 0, 3, 0, 8 => 0x06040000 | 0, 3, 0, 12 => 0x00010000
  | 0, 3, 0, 0x18 => 0x00010100
  | 1, 0, 0, 0 => 0x000d1b36 | 1, 0, 0, 8 => 0x0c033001 | 1, 0, 0, 12 => 0x00800000
  | 1, 0, 0, 0x10 => 0xfe800004 | 1, 0, 0, 0x14 => 0x8
  | 1, 0, 2, 0 => 0x100e8086 | 1, 0, 2, 8 => 0x02000003 | 1, 0, 2, 12 => 0
  | _, _, _, _ => 0xffffffff
  end.

Lemma demo_cfg_range b d f off : 0 <= demo_cfg b d f off < 2 ^ 32.
Proof. unfold demo_cfg. repeat case_match; lia. Qed.

#[local] Instance demo_machine : Machine.Device Z := latch_device demo_cfg.

Definition no_devices : capped PciDevice * Bus Z := (Capped 32 [], mkBus 0 []).

Definition demo_devices : list PciDevice := [
  mkDevice 0 0 0 0 (mkClassCode 6 0 0); mkDevice 0 3 0 1 (mkClassCode 6 4 0);
  mkDevice 1 0 0 0x80 (mkClassCode 0xc 3 0x30); mkDevice 1 0 2 0 (mkClassCode 2 0 0)].

Lemma scan_terminates_witness :
  match Devices_init 33 no_devices with
  | Ret r p' => r = Ok tt /\ av_elems p'.1 = demo_devices
  | _ => False
  end.
Proof.
  unshelve epose proof (scan_terminates 33 no_devices _) as H; [reflexivity|].
  assert (E : match Devices_init 33 no_devices with
    | Ret _ p' => av_elems p'.1 = demo_devices | _ => False end)
    by (vm_compute; reflexivity).
  destruct (Devices_init 33 no_devices) as [r p'|e p'|]; [|contradiction..].
  split; [exact H|exact E].
Defined.

Lemma scan_exact_witness :
  exists root, root_bus demo_cfg root /\
    found demo_cfg root (mkDevice 1 0 0 0x80 (mkClassCode 0xc 3 0x30)).
Proof.
  unshelve epose proof (scan_exact demo_cfg (fun _ => True) 33 no_devices
    (latch_mechanism demo_cfg demo_cfg_range) I eq_refl _) as H; [reflexivity|].
  assert (E : match Devices_init 33 no_devices with
    | Ret _ p' => av_elems p'.1 = demo_devices | _ => False end)
    by (vm_compute; reflexivity).
  destruct (Devices_init 33 no_devices) as [r p'|e p'|]; [|contradiction..].
  apply (proj2 H). rewrite E. unfold demo_devices. do 2 right. left.
Defined.

Lemma make_address_decode_witness :
  make_address 1 2 3 0x1c = 0x8001131c /\ field (make_address 1 2 3 0x1c) 11 5 = 2.
Proof.
  split; [reflexivity|].
  apply (make_address_decode 1 2 3 0x1c); lia.
Defined.

Lemma read_base_addr_spec_witness :
  exists b', read_base_addr (mkDevice 1 0 0 0x80 (mkClassCode 0xc 3 0x30)) 0
    (mkBus (D := Z) 0 []) = Ret (Ok 0x8fe800004) b'.
Proof.
  destruct (read_base_addr_spec demo_cfg (fun _ => True)
    (mkDevice 1 0 0 0x80 (mkClassCode 0xc 3 0x30)) 0 (mkBus 0 [])
    (latch_mechanism demo_cfg demo_cfg_range)) as (r & b' & E & Hr); simpl; [lia..|].
  exists b'. etransitivity; [exact E|]. f_equal. rewrite Hr. reflexivity.
Defined.

Lemma devices_locked_witness :
  devices (mret (Ok 5)) (mkPciState (SpinLock true (Capped 32 [])) (mkBus (D := Z) 0 [])) =
    Ret (Err (Error_PciError DeviceLockError))
      (mkPciState (SpinLock true (Capped 32 [])) (mkBus 0 [])).
Proof. apply devices_locked. reflexivity. Defined.

End Pci.
