(* ===== verification/PciListing.v ===== *)
(** The order of the PCI scan: a depth-first search of the configuration space, without
    a machine, effects or a capacity, and the scan as its implementation. *)

From S2P Require Import Prelude Machine External Errors Pci.

Module PciListing.
Import Errors Pci.

(** * Specification: the functions of a configuration space, depth first

    [fuel] bounds the nesting of bridges. *)
Section listing.
Context (cfg : Z -> Z -> Z -> Z -> Z).

Definition list_function (below : Z -> list PciDevice) (b d f : Z) : list PciDevice :=
  record_of cfg b d f ::
    if cfg_bridge cfg b d f then below (cfg_secondary cfg b d f) else [].

Definition if_present (b d f : Z) (l : list PciDevice) : list PciDevice :=
  if cfg_vendor cfg b d f =? 0xffff then [] else l.

Definition list_device (below : Z -> list PciDevice) (b d : Z) : list PciDevice :=
  list_function below b d 0 ++
    if Z.testbit (cfg_header cfg b d 0) 7
    then concat (map (fun f => if_present b d f (list_function below b d f)) (range 1 8))
    else [].

Fixpoint list_bus (fuel : nat) (b : Z) : list PciDevice :=
  match fuel with
  | O => []
  | S fuel =>
      concat (map (fun d => if_present b d 0 (list_device (list_bus fuel) b d)) (range 0 32))
  end.

Definition listing (fuel : nat) : list PciDevice :=
  if Z.testbit (cfg_header cfg 0 0 0) 7
  then concat (map (fun r => if_present 0 0 r (list_bus fuel r)) (range 0 8))
  else list_bus fuel 0.
End listing.

(** * Lemmas *)

Section scan.
Context {arrayvec : Type -> Type} `{ArrayVecLaws arrayvec} {D : Type} `{!Machine.Device D}.
Context (cfg : Z -> Z -> Z -> Z -> Z) (ok : D -> Prop) (Hcfg : config_mechanism cfg ok).
Notation St := (arrayvec PciDevice * Bus D)%type.
Implicit Types p : St.

Definition free p : Z := Z.max 0 (av_cap p.1 - Z.of_nat (length (av_elems p.1))).
Definition len (l : list PciDevice) : Z := Z.of_nat (length l).

Definition adds l p p' : Prop :=
  av_elems p'.1 = av_elems p.1 ++ l /\ av_cap p'.1 = av_cap p.1 /\ ok (bus_dev p'.2).

(** [m] appends [l] if there is room for it, and panics otherwise. *)
Definition appends l (m : M St (result unit Error)) p : Prop := ok (bus_dev p.2) ->
  runs m (fun r p' => r = Ok tt /\ adds l p p' /\ len l <= free p)
    (fun e _ => e = UnwrapFailed "ArrayVec::push" /\ free p < len l) p.

Lemma adds_free l p p' : adds l p p' -> len l <= free p -> free p' = free p - len l.
Proof.
  intros (E & C & _) Hl. unfold free, len in *. rewrite E, C, length_app. lia.
Qed.

Lemma appends_ret p : appends [] (mret (Ok tt)) p.
Proof.
  intros Hok. apply runs_ret. split; [done|]. split; [|unfold len, free; simpl; lia].
  split; [by rewrite app_nil_r|done].
Qed.

(** A read of the configuration space. *)
Lemma appends_read {A} (m : M St A) (P : A -> Prop) l k p :
  (ok (bus_dev p.2) -> wp m (fun v p' => p'.1 = p.1 /\ ok (bus_dev p'.2) /\ P v) p) ->
  (forall v p', P v -> p'.1 = p.1 -> appends l (k v) p') -> appends l (m ≫= k) p.
Proof.
  intros Hm Hk Hok. apply runs_then. eapply wp_mono; [by apply Hm|].
  intros v p' (E & Hok' & Hv). specialize (Hk v p' Hv E Hok').
  unfold adds, free in *. by rewrite E in Hk.
Qed.

Lemma appends_bind l1 l2 m k p :
  appends l1 m p -> (forall p1, free p1 <= free p - len l1 -> appends l2 (k tt) p1) ->
  appends (l1 ++ l2) (bind_try m k) p.
Proof.
  intros Hm Hk Hok. assert (Hlen : len (l1 ++ l2) = len l1 + len l2)
    by (unfold len; rewrite length_app; lia).
  apply runs_bind_try. specialize (Hm Hok). unfold runs in Hm |- *.
  destruct (m p) as [r p1|e p1|]; [|destruct Hm; split; [done|unfold len in *; lia]|done].
  destruct Hm as (-> & Ha & Hl). pose proof (adds_free _ _ _ Ha Hl) as Hf.
  destruct Ha as (E & C & Hok1). specialize (Hk p1 ltac:(lia) Hok1). unfold runs in Hk.
  destruct (k tt p1) as [r p2|e p2|]; [|split; [apply Hk|lia]|done].
  destruct Hk as (-> & (E2 & C2 & Hok2) & Hl2). split; [done|]. split; [|lia].
  split; [by rewrite E2, E, <- (assoc_L (++))|]. split; [by rewrite C2|done].
Qed.

Lemma appends_for {A} (f : A -> list PciDevice) (xs : list A) body p :
  (forall x p', x ∈ xs -> free p' <= free p -> appends (f x) (body x) p') ->
  appends (concat (map f xs)) (try_for_each xs body) p.
Proof.
  revert p. induction xs as [|x xs IH]; intros p Hb; [apply appends_ret|].
  apply appends_bind; [apply Hb; [by left|lia]|]. intros p1 Hp1. apply IH.
  intros y p' Hy Hp'. apply Hb; [by right|unfold len in *; lia].
Qed.

(** A loop that ends the function, and a call that does. *)
Lemma appends_last l m p : appends l m p -> appends l (bind_try m (fun _ => mret (Ok tt))) p.
Proof.
  intros Hm. rewrite <- (app_nil_r l). apply appends_bind; [done|]. intros. apply appends_ret.
Qed.

Lemma appends_add dev l k p :
  (forall p1, free p1 = free p - 1 -> appends l (k tt) p1) ->
  appends (dev :: l) (add_device dev ≫= k) p.
Proof.
  intros Hk Hok. apply runs_bind. unfold add_device. apply runs_bind. unfold runs, get_st.
  assert (Hlen : len (dev :: l) = 1 + len l) by (unfold len; simpl; lia).
  destruct (decide (0 < free p)) as [Hr|Hr].
  - destruct (av_push_room _ p.1 dev) as (v & -> & Hv & Hc); [unfold free in Hr; lia|].
    assert (Hf : free (v, p.2) = free p - 1).
    { unfold free in *. cbn [fst]. rewrite Hv, Hc, length_app. simpl. lia. }
    specialize (Hk (v, p.2) Hf Hok). unfold runs in Hk. cbn [put_st].
    destruct (k tt (v, p.2)) as [r p2|e p2|]; [|split; [apply Hk|lia]|done].
    destruct Hk as (-> & (E2 & C2 & Hok2) & Hl2). split; [done|]. split; [|lia].
    cbn [fst] in *. split; [rewrite E2, Hv, <- (assoc_L (++)); done|]. by rewrite C2.
  - rewrite av_push_full; [split; [done|unfold len in *; lia]|]. unfold free in Hr. lia.
Qed.

(** ** The scan *)

Lemma free_eq p p' : p'.1 = p.1 -> free p' = free p.
Proof. unfold free. by intros ->. Qed.

Lemma appends_vendor b d f l k p : bdf_ok b d f ->
  (forall p', free p' = free p -> appends l (k (cfg_vendor cfg b d f)) p') ->
  appends l (on_bus (read_vendor_id b d f) ≫= k) p.
Proof.
  intros Hr Hk. apply appends_read with (P := fun v => v = cfg_vendor cfg b d f).
  - intros Hok. destruct Hcfg. apply (wp_vendor cfg ok True); auto.
  - intros v p' -> E. by apply Hk, free_eq.
Qed.

Lemma appends_header b d f l k p : bdf_ok b d f ->
  (forall p', free p' = free p -> appends l (k (cfg_header cfg b d f)) p') ->
  appends l (on_bus (read_header_type b d f) ≫= k) p.
Proof.
  intros Hr Hk. apply appends_read with (P := fun v => v = cfg_header cfg b d f).
  - intros Hok. destruct Hcfg. apply (wp_header cfg ok True); auto.
  - intros v p' -> E. by apply Hk, free_eq.
Qed.

Lemma appends_class b d f l k p : bdf_ok b d f ->
  (forall p', free p' = free p -> appends l (k (cfg_class cfg b d f)) p') ->
  appends l (on_bus (read_class_code b d f) ≫= k) p.
Proof.
  intros Hr Hk. apply appends_read with (P := fun v => v = cfg_class cfg b d f).
  - intros Hok. destruct Hcfg. apply (wp_class cfg ok True); auto.
  - intros v p' -> E. by apply Hk, free_eq.
Qed.

Lemma appends_secondary b d f l k p : bdf_ok b d f ->
  (forall p', free p' = free p -> appends l (k (cfg_secondary cfg b d f)) p') ->
  appends l (n ← on_bus (read_bus_numbers b d f); k (as_u 8 (Z.land (ushr n 8) 0xff))) p.
Proof.
  intros Hr Hk. apply appends_read
    with (P := fun n => as_u 8 (Z.land (ushr n 8) 0xff) = cfg_secondary cfg b d f).
  - intros Hok. destruct Hcfg. apply (wp_bus_numbers cfg ok True); auto.
  - intros n p' -> E. by apply Hk, free_eq.
Qed.

(** What a recursive call does, given room for less than [fuel] functions. *)
Definition scans_as (below : Z -> list PciDevice) (rec : Z -> M St (result unit Error))
    (fuel : Z) : Prop :=
  forall b p, 0 <= b < 256 -> free p < fuel -> appends (below b) (rec b) p.

Lemma scan_function_appends below rec fuel b d f p :
  scans_as below rec fuel -> bdf_ok b d f -> free p <= fuel ->
  appends (list_function cfg below b d f) (scan_function rec b d f) p.
Proof.
  intros Hrec Hr Hfree. unfold scan_function, list_function.
  apply appends_header; [done|]. intros p1 E1. apply appends_class; [done|]. intros p2 E2.
  apply appends_add. intros p3 E3. fold (cfg_bridge cfg b d f).
  destruct (cfg_bridge cfg b d f); [|apply appends_ret].
  apply (appends_secondary b d f _ (fun s => rec s ;? mret (Ok tt))); [done|]. intros p4 E4.
  apply appends_last, Hrec; [by apply (field_range _ 8 8)|lia].
Qed.

Lemma appends_present b d f l m p : appends l m p ->
  appends (if_present cfg b d f l)
    (if cfg_vendor cfg b d f =? 0xffff then mret (Ok tt) else m) p.
Proof. intros Hm. unfold if_present. case_match; [apply appends_ret|done]. Qed.

Lemma scan_device_appends below rec fuel b d p :
  scans_as below rec fuel -> 0 <= b < 256 -> 0 <= d < 32 -> free p <= fuel ->
  appends (list_device cfg below b d) (scan_device rec b d) p.
Proof.
  intros Hrec Hb Hd Hfree. unfold scan_device, list_device.
  apply appends_bind; [by apply (scan_function_appends _ _ fuel)|]. intros p1 Hp1.
  apply appends_header; [done|]. intros p2 E2. rewrite single_function_bit.
  destruct (Z.testbit (cfg_header cfg b d 0) 7); [|apply appends_ret].
  apply appends_last, appends_for. intros f p3 Hf Hp3. apply elem_of_range in Hf.
  apply appends_vendor; [by repeat split; lia|]. intros p4 E4.
  apply appends_present, (scan_function_appends _ _ fuel); [done|by repeat split; lia|].
  unfold len in *. lia.
Qed.

Lemma scan_bus_appends fuel : scans_as (list_bus cfg fuel) (scan_bus fuel) (Z.of_nat fuel).
Proof.
  induction fuel as [|fuel IH]; intros b p Hb Hfree; [unfold free in Hfree; lia|].
  cbn [list_bus scan_bus]. apply appends_last, appends_for. intros d p1 Hd Hp1.
  apply elem_of_range in Hd. apply appends_vendor; [by repeat split; lia|]. intros p2 E2.
  apply appends_present, (scan_device_appends _ _ (Z.of_nat fuel)); [done|lia..].
Qed.

Lemma scan_all_bus_appends fuel p :
  free p < Z.of_nat fuel -> appends (listing cfg fuel) (scan_all_bus fuel) p.
Proof.
  intros Hfree. unfold scan_all_bus, listing. apply appends_header; [done|]. intros p1 E1.
  rewrite single_function_bit. destruct (Z.testbit (cfg_header cfg 0 0 0) 7).
  - apply appends_last, appends_for. intros r p2 Hr Hp2. apply elem_of_range in Hr.
    apply appends_vendor; [by repeat split; lia|]. intros p3 E3.
    apply appends_present, scan_bus_appends; lia.
  - apply scan_bus_appends; lia.
Qed.

Lemma runs_listing fuel p :
  ok (bus_dev p.2) -> free p < Z.of_nat fuel ->
  runs (Devices_init fuel) (fun r p' => r = Ok tt /\ adds (listing cfg fuel) p p' /\
      len (listing cfg fuel) <= free p)
    (fun e _ => e = UnwrapFailed "ArrayVec::push" /\ free p < len (listing cfg fuel)) p.
Proof. intros Hok Hfree. by apply appends_last; [apply scan_all_bus_appends|]. Qed.
End scan.

(** * Properties *)

Section properties.
Context {arrayvec : Type -> Type} `{ArrayVecLaws arrayvec} {D : Type} `{!Machine.Device D}.

(** C14: the scan is a depth-first search: on a machine with configuration space [cfg], an
    empty list ends as the listing of [cfg], in its order, if that fits the capacity,
    and the scan panics if it does not. *)
Theorem scan_is_listing cfg ok fuel (p : arrayvec PciDevice * Bus D) :
  config_mechanism cfg ok -> ok (bus_dev p.2) -> av_elems p.1 = [] ->
  0 <= av_cap p.1 < Z.of_nat fuel ->
  if len (listing cfg fuel) <=? av_cap p.1
  then exists p', Devices_init fuel p = Ret (Ok tt) p' /\ av_elems p'.1 = listing cfg fuel
  else panics (Devices_init fuel) (UnwrapFailed "ArrayVec::push") p.
Proof.
  intros Hcfg Hok He Hfuel. assert (Hfree : free p = av_cap p.1)
    by (unfold free; rewrite He; simpl; lia).
  assert (Hlt : free p < Z.of_nat fuel) by lia.
  pose proof (runs_listing cfg ok Hcfg fuel p Hok Hlt) as Hrun. unfold runs in Hrun.
  rewrite Hfree in Hrun. destruct (Z.leb_spec (len (listing cfg fuel)) (av_cap p.1));
    destruct (Devices_init fuel p) as [r p'|e p'|] eqn:E; try done; try lia.
  - destruct Hrun as (-> & (El & _) & _). exists p'. by rewrite El, He.
  - destruct Hrun as [-> _]. by exists p'.
Qed.
End properties.

(** ** Witness: the machine with a bridge, and a list that is too short for it *)

#[local] Existing Instance demo_machine.

Lemma scan_is_listing_witness :
  (exists p', Devices_init 33 no_devices = Ret (Ok tt) p' /\ av_elems p'.1 = demo_devices) /\
  panics (Devices_init 33) (UnwrapFailed "ArrayVec::push") (Capped 3 [], mkBus 0 []).
Proof.
  pose proof (latch_mechanism demo_cfg demo_cfg_range) as Hm. split.
  - exact (scan_is_listing demo_cfg (fun _ => True) 33 no_devices Hm I eq_refl
      ltac:(simpl; lia)).
  - exact (scan_is_listing demo_cfg (fun _ => True) 33 (Capped 3 [], mkBus 0 []) Hm I eq_refl
      ltac:(simpl; lia)).
Defined.
End PciListing.
