(* ===== verification/Logger.v ===== *)
(** The interface of [kprintln!] to the other modules: they print whole lines and
    rely on nothing but that printing ASCII text returns. *)

From S2P Require Import Prelude External FrameBuffer Console.

Module Logger.

Class Log (L : Type) := { log_line : list (list Z) -> M L unit }.

(** [log_ready]: printing an ASCII line returns and leaves the log ready. *)
Class LogLaws (L : Type) `{Log L} := {
  log_ready : L -> Prop;
  log_line_ready pieces l :
    log_ready l -> Forall Console.is_ascii pieces ->
    wp (log_line pieces) (fun _ l' => log_ready l') l
}.

(** A constant message. *)
Definition msg (s : string) : list (list Z) := [bytes_of_string s].

(** A literal is ASCII if all its characters are. *)
Definition ascii_string (s : string) : bool :=
  forallb (fun b => b <? 128) (bytes_of_string s).

Lemma msg_ascii s : ascii_string s = true -> Forall Console.is_ascii (msg s).
Proof.
  intros Hs. constructor; [|constructor]. unfold Console.is_ascii, ascii_string in *.
  rewrite forallb_forall in Hs. apply List.Forall_forall. intros b Hb.
  specialize (Hs b Hb). unfold bytes_of_string in Hb.
  apply in_map_iff in Hb as (c & <- & _). lia.
Qed.

(** ** The formats [{}] of a [u8] and [{:X}] of an integer *)

Definition digit (d : Z) : Z := if d <? 10 then 48 + d else 55 + d.

(** The digits of [v] in base [b], most significant first. *)
Fixpoint digits (fuel : nat) (b v : Z) (acc : list Z) : list Z :=
  match fuel with
  | O => acc
  | S fuel =>
      let acc := digit (v mod b) :: acc in
      if v / b =? 0 then acc else digits fuel b (v / b) acc
  end.

Definition fmt_hex (v : Z) : list Z := digits 16 16 v [].
Definition fmt_dec_u8 (v : Z) : list Z := digits 3 10 v [].

Lemma digits_ascii fuel b v acc :
  1 < b <= 16 -> Console.is_ascii acc -> Console.is_ascii (digits fuel b v acc).
Proof.
  intros Hb. revert v acc. induction fuel as [|fuel IH]; intros v acc Hacc; [done|]. simpl.
  assert (Hd : Console.is_ascii (digit (v mod b) :: acc)).
  { constructor; [|done]. pose proof (Z.mod_pos_bound v b ltac:(lia)).
    unfold digit. case_match; lia. }
  case_match; auto.
Qed.

Lemma fmt_hex_ascii v : Console.is_ascii (fmt_hex v).
Proof. apply digits_ascii; [lia|constructor]. Qed.

Lemma fmt_dec_ascii v : Console.is_ascii (fmt_dec_u8 v).
Proof. apply digits_ascii; [lia|constructor]. Qed.

Example fmt_hex_fee : fmt_hex 0xfee00020 = bytes_of_string "FEE00020".
Proof. reflexivity. Qed.

(** The lines printed so far, for a machine without a screen. *)
#[export] Instance list_log : Log (list (list Z)) :=
  {| log_line pieces l := Ret tt (l ++ [concat pieces]) |}.

#[export] Instance list_log_laws : LogLaws (list (list Z)).
Proof. by refine {| log_ready _ := True |}. Defined.
End Logger.
