(* ===== verification/Display.v ===== *)
(** The display as the page tables show it: the stores of a drawing operation reach
    memory through the tables the processor uses, and one to an unmapped address faults. *)

From S2P Require Import Prelude Machine External Simulation Graphic Font Errors FrameBuffer Console.
From S2P Require Import Logger.

Module Display.
Import Graphic FrameBuffer Logger.

(** * The program *)

(** The addresses that the processor translates to themselves, for a write. *)
Class View := mapped : Z -> bool.

Notation fmt_section := Console.fmt_section.
Notation newline_section := Console.newline_section.

Section through.
Context {mutex : Type -> Type} `{SpinMutex mutex}.
Notation GM := (M (Console.Gfx mutex)).

(** The display with another content of memory. *)
Definition over (mem : gmap Z Z) (G : Console.Gfx mutex) : Console.Gfx mutex :=
  Console.mkGfx (Console.CONSOLE G) (mkFbState (FRAME_BUF (Console.gfx_fb G)) mem).

(** The bytes [m] stores to: those it leaves in an empty memory.  Drawing never reads
    memory, so they do not depend on what is there ([stores_of_sections]). *)
Definition stores {A} (m : GM A) (G : Console.Gfx mutex) : gmap Z Z :=
  match m (over ∅ G) with
  | Ret _ G' | Panic _ G' => fb_mem (Console.gfx_fb G')
  | Diverges => ∅
  end.

(** [m] under page tables: if one of its stores is not mapped the processor faults
    there, and the program never comes back from the fault. *)
Definition through {A} (v : View) (m : GM A) : GM A := fun G =>
  if forallb (fun p => mapped p.1) (map_to_list (stores m G)) then m G else Diverges.

(** [kprintln!]: each of the two statements of the macro under the page tables. *)
Definition kprintln (v : View) (pieces : list (list Z)) : GM unit :=
  through v (fmt_section pieces) ;; through v newline_section.

#[export] Instance mapped_log (v : View) : Log (Console.Gfx mutex) :=
  {| log_line := kprintln v |}.
End through.

(** * Specification *)

(** A frame buffer whose bytes are all mapped. *)
Definition visible (v : View) (fb : FrameBuf) : Prop := forall a,
  framebuf_addr fb <= a < framebuf_addr fb + 4 * (width fb * height fb) -> mapped a = true.

(** The bytes outside the frame buffer are those of [m0]. *)
Definition same_outside (fb : FrameBuf) (m0 m : gmap Z Z) : Prop := forall a,
  ~ framebuf_addr fb <= a < framebuf_addr fb + 4 * (width fb * height fb) -> m !! a = m0 !! a.

(** The frame buffer is [fb], once nobody holds it, and memory is [m0] around it. *)
Record confined {mutex} `{SpinMutexLaws mutex} (fb : FrameBuf) (m0 : gmap Z Z)
    (g : FbState mutex) : Prop := {
  cn_fb : mutex_held (FRAME_BUF g) = false -> mutex_data (FRAME_BUF g) = fb;
  cn_mem : same_outside fb m0 (fb_mem g)
}.

(** * The frame buffer *)

Section screen.
Context (fb : FrameBuf) (Hfb : fb_wf fb) (m0 : gmap Z Z).

Definition on_buffer (s : Screen) : Prop := scr_fb s = fb /\ same_outside fb m0 (scr_mem s).

(** Whatever its arguments are: the check and the overflow checks suffice. *)
Lemma pixel_in_buffer x y : is_inside_buffer fb x y = true ->
  0 <= y * width fb -> 0 <= y * width fb + x -> y * width fb + x < width fb * height fb.
Proof.
  intros Hin H1 H2. unfold is_inside_buffer in Hin. pose proof (wf_width _ Hfb).
  assert (x < width fb /\ y < height fb) as [Hx Hy] by lia.
  assert ((y + 1) * width fb <= height fb * width fb) by nia. lia.
Qed.

Lemma val_self : pres_val on_buffer (fun self => self = fb) (gets scr_fb).
Proof. by intros s [E Hm]. Qed.

Lemma keeps_write a v :
  framebuf_addr fb <= a -> a + 4 <= framebuf_addr fb + 4 * (width fb * height fb) ->
  pres on_buffer (write_volatile_u32 a v).
Proof.
  intros Hlo Hhi s [E Hm]. split; [exact E|]. intros b Hb. cbn [scr_mem].
  rewrite lookup_store_u32. case_decide; [lia|]. by apply Hm.
Qed.

Lemma keeps_write_pixel x y p : pres on_buffer (FrameBuf_write_pixel x y p).
Proof.
  pose proof (wf_bpp _ Hfb) as Hbpp. eapply val_bind_pres; [apply val_self|]. intros self ->.
  destruct (pixel_writer fb); unfold write_pixel_rgb, write_pixel_bgr;
    (eapply val_bind_pres; [apply val_self|]; intros self ->;
     destruct (is_inside_buffer fb x y) eqn:Hin; [|apply pres_ret]; cbn [negb];
     eapply val_bind_pres; [apply val_checked_eq|]; intros row [-> Hrow];
     eapply val_bind_pres; [apply val_checked_eq|]; intros pos [-> Hpos];
     eapply val_bind_pres; [apply val_checked_eq|]; intros off [-> Hoff];
     eapply val_bind_pres; [apply val_checked_eq|]; intros ref [-> Href];
     pose proof (pixel_in_buffer x y Hin ltac:(lia) ltac:(lia));
     apply pres_bind; [apply keeps_write; lia|intros _; apply pres_ret]).
Qed.

Lemma keeps_fill c : pres on_buffer (FrameBuf_fill c).
Proof. unfold FrameBuf_fill. repeat pres_step. apply keeps_write_pixel. Qed.

Lemma keeps_fill_rect x y w h c : pres on_buffer (FrameBuf_fill_rect x y w h c).
Proof. unfold FrameBuf_fill_rect. repeat pres_step. apply keeps_write_pixel. Qed.

Lemma keeps_write_char x y c fg : pres on_buffer (FrameBuf_write_char x y c fg).
Proof. unfold FrameBuf_write_char. repeat pres_step. apply keeps_write_pixel. Qed.

End screen.

(** * The globals and the console *)

Section graphic.
Context {mutex : Type -> Type} `{SpinMutexLaws mutex}.
Context (fb : FrameBuf) (Hfb : fb_wf fb) (m0 : gmap Z Z).

Lemma keeps_frame_buf {A} (m : M Screen (result A Errors.Error)) :
  pres (on_buffer fb m0) m -> pres (confined (mutex := mutex) fb m0) (frame_buf m).
Proof.
  intros Hm g Hc. pose proof Hc as [Hd Hg]. unfold frame_buf, with_try_lock.
  destruct (mutex_held (FRAME_BUF g)) eqn:E; [rewrite with_guard_busy by done; exact Hc|].
  destruct (mutex_try_lock_free _ _ E) as (mx & El & Hmx).
  specialize (Hm (mkScreen (mutex_data (FRAME_BUF g)) (fb_mem g)) (conj (Hd eq_refl) Hg)).
  unfold with_guard, on_screen, zoom. rewrite El. cbn [fst snd set_FRAME_BUF fb_mem].
  destruct (m _) as [r s|p s|]; [|..|done]; destruct Hm as [E1 E2];
    (split; cbn; [|exact E2]); [|congruence]. by autorewrite with mutex.
Qed.

Lemma keeps_fb_write_char x y c fg : pres (confined fb m0) (write_char (mutex := mutex) x y c fg).
Proof. by apply keeps_frame_buf, keeps_write_char. Qed.

Lemma keeps_fb_fill_rect x y w h c : pres (confined fb m0) (fill_rect (mutex := mutex) x y w h c).
Proof. by apply keeps_frame_buf, keeps_fill_rect. Qed.

(** A method of the console, whose own fields are of no concern. *)
Definition on_frame (p : Console.Console * FbState mutex) : Prop := confined fb m0 p.2.

Lemma keeps_on_fb {A} (m : M (FbState mutex) A) :
  pres (confined fb m0) m -> pres on_frame (Console.on_fb m).
Proof. by apply pres_zoom. Qed.

Lemma keeps_set_self c : pres on_frame (Console.set_self (mutex := mutex) c).
Proof. by apply pres_modify. Qed.

Ltac method :=
  repeat lazymatch goal with
  | |- pres _ (Console.set_self _) => apply keeps_set_self
  | |- pres _ Console.self => apply pres_gets
  | |- pres _ (Console.on_fb (write_char _ _ _ _)) => apply keeps_on_fb, keeps_fb_write_char
  | |- pres _ (Console.on_fb (fill_rect _ _ _ _ _)) => apply keeps_on_fb, keeps_fb_fill_rect
  | |- pres _ (zoom (fun _ => _) _ _) => apply (pres_zoom _ (fun _ => True)); [done|done|apply pres_any]
  | |- _ => pres_step
  end.

Lemma keeps_console_init bg fg : pres on_frame (Console.Console_init (mutex := mutex) bg fg).
Proof. unfold Console.Console_init. method. Qed.

Lemma keeps_redraw_row row : pres on_frame (Console.redraw_row (mutex := mutex) row).
Proof. unfold Console.redraw_row, Console.line_slice. method. Qed.

Lemma keeps_new_line : pres on_frame (Console.Console_new_line (mutex := mutex)).
Proof. unfold Console.Console_new_line. method. apply keeps_redraw_row. Qed.

Lemma keeps_print s : pres on_frame (Console.Console_print (mutex := mutex) s).
Proof.
  unfold Console.Console_print. case_match; [|apply pres_panic]. apply pres_for_each. intros ch.
  unfold Console.print_char. method. apply keeps_new_line.
Qed.

Lemma keeps_console {A} (m : M (Console.Console * FbState mutex) (result A Errors.Error)) :
  pres on_frame m -> pres (fun G => confined fb m0 (Console.gfx_fb G)) (Console.console m).
Proof.
  intros Hm. apply pres_with_guard; [done|apply pres_ret|]. by apply (pres_zoom _ on_frame).
Qed.

Notation JG := (fun G : Console.Gfx mutex => confined fb m0 (Console.gfx_fb G)).

Lemma keeps_fmt_section pieces : pres JG (fmt_section pieces).
Proof.
  apply pres_expect, keeps_console. unfold Console.Console_write_fmt, Console.Console_write_str.
  pres_step. pres_step; [apply keeps_print|pres_step].
Qed.

Lemma keeps_newline_section : pres JG newline_section.
Proof.
  apply pres_expect, keeps_console. unfold Console.Console_println. pres_step; [|apply pres_ret].
  pres_step; [apply keeps_print|apply keeps_new_line].
Qed.

Lemma pres_through {A} (I : Console.Gfx mutex -> Prop) v (m : M _ A) :
  pres I m -> pres I (through v m).
Proof. intros Hm G HG. unfold through. destruct (forallb _ _); [by apply Hm|done]. Qed.

Lemma keeps_kprintln v pieces : pres JG (kprintln v pieces).
Proof.
  unfold kprintln. pres_step; apply pres_through; [apply keeps_fmt_section|apply keeps_newline_section].
Qed.
End graphic.

(** * Drawing never reads memory *)

Section overlay.
Context {mutex : Type -> Type} `{SpinMutex mutex} (m0 : gmap Z Z).

(** The second run starts without [m0] in memory and ends without what of it is left. *)
Definition screen_over (s t : Screen) : Prop := scr_fb s = scr_fb t /\ scr_mem s = scr_mem t ∪ m0.
Definition fb_over (g h : FbState mutex) : Prop :=
  FRAME_BUF g = FRAME_BUF h /\ fb_mem g = fb_mem h ∪ m0.
Definition method_over (p q : Console.Console * FbState mutex) : Prop :=
  p.1 = q.1 /\ fb_over p.2 q.2.
Definition gfx_over (G G' : Console.Gfx mutex) : Prop :=
  Console.CONSOLE G = Console.CONSOLE G' /\ fb_over (Console.gfx_fb G) (Console.gfx_fb G').

Lemma sim_self : sim screen_over (gets scr_fb) (gets scr_fb).
Proof. apply sim_gets. by intros s t []. Qed.

Lemma sim_store a v : sim screen_over (write_volatile_u32 a v) (write_volatile_u32 a v).
Proof.
  apply sim_modify. intros s t [Hfb Hmem]. split; [done|]. cbn [scr_mem]. rewrite Hmem.
  unfold store_u32, store_u8. by rewrite !insert_union_l.
Qed.

Ltac draw := repeat first
  [ apply sim_self | apply sim_store | sim_same_step ].

Lemma sim_pixel x y p : sim screen_over (FrameBuf_write_pixel x y p) (FrameBuf_write_pixel x y p).
Proof. unfold FrameBuf_write_pixel, write_pixel_rgb, write_pixel_bgr. draw. Qed.

Lemma sim_fill_rect x y w h c :
  sim screen_over (FrameBuf_fill_rect x y w h c) (FrameBuf_fill_rect x y w h c).
Proof. unfold FrameBuf_fill_rect. repeat sim_same_step. apply sim_pixel. Qed.

Lemma sim_write_char x y c fg :
  sim screen_over (FrameBuf_write_char x y c fg) (FrameBuf_write_char x y c fg).
Proof. unfold FrameBuf_write_char. repeat sim_same_step. apply sim_pixel. Qed.

Lemma sim_frame_buf {A} (m : M Screen (result A Errors.Error)) :
  sim screen_over m m -> sim fb_over (frame_buf m) (frame_buf m).
Proof.
  intros Hm. apply sim_with_guard; [by intros g h []|by intros mx g h []|apply sim_ret|].
  apply (sim_zoom _ screen_over); [by intros p q (-> & _ & ->)| |done].
  intros p q s t (Hp & Hl & _) [Hfb Hmem]. by repeat split.
Qed.

Lemma sim_on_fb {A} (m : M (FbState mutex) A) :
  sim fb_over m m -> sim method_over (Console.on_fb m) (Console.on_fb m).
Proof.
  apply (sim_zoom _ fb_over); [by intros p q []|]. by intros p q g h [] [].
Qed.

Lemma sim_console {A} (m : M (Console.Console * FbState mutex) (result A Errors.Error)) :
  sim method_over m m -> sim gfx_over (Console.console m) (Console.console m).
Proof.
  intros Hm. apply sim_with_guard; [by intros G G' []|by intros mx G G' []|apply sim_ret|].
  apply (sim_zoom _ method_over); [by intros p q (-> & _ & ?)| |done].
  intros p q s t (_ & Hc & _) [Hs Hf]. by repeat split; try apply Hf.
Qed.

Ltac method := repeat lazymatch goal with
  | |- sim _ (Console.set_self _) _ => apply sim_modify; by intros p q []
  | |- sim _ Console.self _ => apply sim_gets; by intros p q []
  | |- sim _ (Console.on_fb _) _ => apply sim_on_fb, sim_frame_buf; first [apply sim_write_char|apply sim_fill_rect]
  | |- sim _ (zoom (fun _ => _) _ _) _ =>
      apply (sim_zoom _ eq); [done|done|apply sim_refl]
  | |- _ => sim_same_step
  end.

Lemma sim_new_line : sim method_over Console.Console_new_line Console.Console_new_line.
Proof. unfold Console.Console_new_line, Console.redraw_row, Console.line_slice. method. Qed.

Lemma sim_console_print s : sim method_over (Console.Console_print s) (Console.Console_print s).
Proof.
  unfold Console.Console_print, Console.print_char. method; apply sim_new_line.
Qed.

Lemma sim_sections : (forall pieces, sim gfx_over (fmt_section pieces) (fmt_section pieces)) /\
  sim gfx_over newline_section newline_section.
Proof.
  split; [intros pieces|]; apply sim_expect, sim_console;
    unfold Console.Console_write_fmt, Console.Console_write_str, Console.Console_println;
    repeat first [apply sim_console_print | apply sim_new_line | sim_same_step].
Qed.
End overlay.

(** What is in memory makes no difference to a statement of [kprintln!], which leaves its
    stores over it. *)
Lemma stores_of_sections {mutex} `{SpinMutex mutex} (m : M (Console.Gfx mutex) unit) pieces G :
  m = fmt_section pieces \/ m = newline_section ->
  match m G, m (over ∅ G) with
  | Ret _ G1, Ret _ G2 | Panic _ G1, Panic _ G2 =>
      Console.CONSOLE G1 = Console.CONSOLE G2 /\
      FRAME_BUF (Console.gfx_fb G1) = FRAME_BUF (Console.gfx_fb G2) /\
      fb_mem (Console.gfx_fb G1) = stores m G ∪ fb_mem (Console.gfx_fb G)
  | Diverges, Diverges => True
  | _, _ => False
  end.
Proof.
  intros Hm.
  assert (Hs : sim (gfx_over (fb_mem (Console.gfx_fb G))) m m)
    by (destruct Hm as [-> | ->]; apply sim_sections).
  specialize (Hs G (over ∅ G)). unfold stores.
  specialize (Hs ltac:(split; [done|]; split; [done|]; cbn; by rewrite (left_id_L ∅ (∪)))).
  destruct (m G) as [[] G1|p G1|], (m (over ∅ G)) as [[] G2|q G2|]; try done;
    by destruct Hs as (_ & ? & ? & ?).
Qed.

(** * Where the frame buffer is mapped *)

Section visible.
Context {mutex : Type -> Type} `{SpinMutexLaws mutex} (v : View) (fb : FrameBuf).
Context (Hwf : fb_wf fb) (Hfits : Console.fits fb) (Hvis : visible v fb).
Implicit Types G : Console.Gfx mutex.

(** An operation whose stores stay in the frame buffer runs as without page tables. *)
Lemma through_visible {A} (m : M (Console.Gfx mutex) A) G :
  (forall m0, pres (fun G => confined fb m0 (Console.gfx_fb G)) m) ->
  mutex_data (FRAME_BUF (Console.gfx_fb G)) = fb -> through v m G = m G.
Proof.
  intros Hm Hd. unfold through, stores.
  specialize (Hm ∅ (over ∅ G)). cbv beta in Hm.
  assert (Hc : confined fb ∅ (Console.gfx_fb (over ∅ G))) by (by split).
  specialize (Hm Hc).
  assert (Hall : forall G' : Console.Gfx mutex, confined fb ∅ (Console.gfx_fb G') ->
    forallb (fun p => mapped p.1) (map_to_list (fb_mem (Console.gfx_fb G'))) = true).
  { intros G' [_ Hout]. apply List.forallb_forall. intros [a x] Hin.
    apply list_elem_of_In, elem_of_map_to_list in Hin. apply Hvis.
    destruct (decide (framebuf_addr fb <= a < framebuf_addr fb + 4 * (width fb * height fb)))
      as [?|Hn]; [done|]. by rewrite (Hout a Hn) in Hin. }
  destruct (m (over ∅ G)) as [a G'|p G'|]; [by rewrite Hall..|done].
Qed.

Lemma wp_fmt_through hist pieces G (Q : unit -> Console.Gfx mutex -> Prop) :
  Console.gfx_inv fb G hist -> Forall Console.is_ascii pieces ->
  (forall G', Console.gfx_inv fb G' (Console.term_print hist (concat pieces)) -> Q tt G') ->
  wp (through v (fmt_section pieces)) Q G.
Proof.
  intros Hinv Hp HQ. unfold wp. rewrite through_visible;
    [|intros m0; by apply keeps_fmt_section|apply (Console.inv_fb _ _ _ (Console.gfx_con _ _ _ Hinv))].
  by eapply Console.wp_fmt_section.
Qed.

Lemma wp_newline_through hist G (Q : unit -> Console.Gfx mutex -> Prop) :
  Console.gfx_inv fb G hist ->
  (forall G', Console.gfx_inv fb G' (Console.term_print hist [Console.LineFeed]) -> Q tt G') ->
  wp (through v newline_section) Q G.
Proof.
  intros Hinv HQ. unfold wp. rewrite through_visible;
    [|intros m0; by apply keeps_newline_section|apply (Console.inv_fb _ _ _ (Console.gfx_con _ _ _ Hinv))].
  by eapply Console.wp_newline_section.
Qed.

Lemma wp_mapped_kprintln hist pieces G (Q : unit -> Console.Gfx mutex -> Prop) :
  Console.gfx_inv fb G hist -> Forall Console.is_ascii pieces ->
  (forall G', Console.gfx_inv fb G'
     (Console.term_print hist (concat pieces ++ [Console.LineFeed])) -> Q tt G') ->
  wp (kprintln v pieces) Q G.
Proof.
  intros Hinv Hp HQ. unfold kprintln. wp_step. eapply wp_fmt_through; [exact Hinv|exact Hp|].
  intros G1 Hinv1. eapply wp_newline_through; [exact Hinv1|]. intros G2 Hinv2. apply HQ.
  unfold Console.term_print in *. by rewrite foldl_app.
Qed.

(** On a mapped frame buffer the console fits on, an initialised console is ready. *)
Definition mapped_log_laws : LogLaws (H := mapped_log v) (Console.Gfx mutex).
Proof.
  refine {| log_ready G := exists hist, Console.gfx_inv fb G hist |}.
  intros pieces G [hist Hinv] Hp. eapply wp_mapped_kprintln; [exact Hinv|exact Hp|]. eauto.
Defined.
End visible.

(** While the console is locked [kprintln!] panics, whatever is mapped. *)
Section held.
Context {mutex : Type -> Type} `{SpinMutexLaws mutex} (v : View) (pieces : list (list Z)).
Implicit Types G : Console.Gfx mutex.

Lemma fmt_section_held G : mutex_held (Console.CONSOLE G) = true ->
  fmt_section pieces G = Panic (UnwrapFailed "kprintln!") G.
Proof.
  intros H1. unfold Console.fmt_section, expect.
  assert (E : Console.console (Console.Console_write_fmt pieces) G =
    Ret (Err (Errors.from_ConsoleError Errors.ConsoleLockError)) G) by (by apply with_guard_busy).
  by rewrite (bind_Ret _ _ _ _ _ E).
Qed.

Lemma fmt_held G : mutex_held (Console.CONSOLE G) = true ->
  through v (fmt_section pieces) G = Panic (UnwrapFailed "kprintln!") G.
Proof.
  intros Hheld. unfold through, stores. rewrite (fmt_section_held (over ∅ G)) by exact Hheld.
  cbn [over Console.gfx_fb fb_mem]. rewrite map_to_list_empty. by apply fmt_section_held.
Qed.

Lemma mapped_kprintln_held G : mutex_held (Console.CONSOLE G) = true ->
  kprintln v pieces G = Panic (UnwrapFailed "kprintln!") G.
Proof. intros Hheld. by apply bind_Panic, fmt_held. Qed.
End held.
End Display.
