(* ===== verification/Ps2Controller.v ===== *)
(** The PS/2 controller (kernel/src/ps2/controller.rs): its ports and commands,
    the bounded polling loops, and the configuration byte. *)

From S2P Require Import Prelude Machine.

Module Ps2Controller.

(** * Data *)

Inductive ControllerError : Type := Timeout | TestFailed.

Record Controller : Type := mkController {
  data_port : Z;
  status_port : Z;
  command_port : Z;
  loop_timeout : Z
}.

Definition Controller_new : Controller := {|
  data_port := 0x60; command_port := 0x64; status_port := 0x64; loop_timeout := 1000
|}.

Inductive Command : Type :=
  | ReadControllerConfigByte | WriteControllerConfigByte
  | DisableSecondPort | EnableSecondPort | TestSecondPort | TestController
  | TestFirstPort | DisableFirstPort | EnableFirstPort
  | WriteSecondPortOutputBuffer | WriteSecondPortInputBuffer.

Definition Command_as_u8 (c : Command) : Z :=
  match c with
  | ReadControllerConfigByte => 0x20
  | WriteControllerConfigByte => 0x60
  | DisableSecondPort => 0xa7
  | EnableSecondPort => 0xa8
  | TestSecondPort => 0xa9
  | TestController => 0xaa
  | TestFirstPort => 0xab
  | DisableFirstPort => 0xad
  | EnableFirstPort => 0xae
  | WriteSecondPortOutputBuffer => 0xd3
  | WriteSecondPortInputBuffer => 0xd4
  end.

(** ** The configuration byte and the status byte: newtypes over [u8] *)

Definition ControllerConfigByte : Type := Z.
Definition ConfigByte_get (c : ControllerConfigByte) : Z := c.
Definition ConfigByte_from_u8 (value : Z) : ControllerConfigByte := value.

Definition get_bit (c : ControllerConfigByte) (bit : Z) : bool :=
  negb (Z.land c (ushl 8 1 bit) =? 0).
Definition set_bit (c : ControllerConfigByte) (bit : Z) (value : bool) :
    ControllerConfigByte :=
  if value then Z.lor c (ushl 8 1 bit) else Z.land c (unot 8 (ushl 8 1 bit)).

Definition get_first_port_interrupt c : bool := get_bit c 0.
Definition set_first_port_interrupt c (value : bool) := set_bit c 0 value.
Definition get_second_port_interrupt c : bool := get_bit c 1.
Definition set_second_port_interrupt c (value : bool) := set_bit c 1 value.
Definition get_first_port_clock c : bool := get_bit c 4.
Definition set_first_port_clock c (value : bool) := set_bit c 4 value.
Definition get_second_port_clock c : bool := get_bit c 5.
Definition set_second_port_clock c (value : bool) := set_bit c 5 value.
Definition get_first_port_translation c : bool := get_bit c 6.
Definition set_first_port_translation c (value : bool) := set_bit c 6 value.

Definition ControllerStatus : Type := Z.
Definition Status_get (s : ControllerStatus) : Z := s.
Definition Status_from_u8 (value : Z) : ControllerStatus := value.
Definition Status_get_bit (s : ControllerStatus) (bit : Z) : bool :=
  negb (Z.land s (ushl 8 1 bit) =? 0).
Definition is_output_full (s : ControllerStatus) : bool := Status_get_bit s 0.
Definition is_input_full (s : ControllerStatus) : bool := Status_get_bit s 1.

(** * Operations *)

Section operations.
Context {D : Type} `{Device D}.
Notation CM := (M (Bus D)).

Definition write_command (self : Controller) (command : Command) : CM unit :=
  io_write (Out8 (command_port self) (Command_as_u8 command)).

Definition read_status (self : Controller) : CM ControllerStatus :=
  v ← io_read (In8 (status_port self)); mret (Status_from_u8 v).

(** [while count < self.loop_timeout { if ready { return Ok } count += 1 }]. *)
Fixpoint wait_loop (fuel : nat) (self : Controller) (ready : ControllerStatus -> bool)
    (count : Z) : CM (result unit ControllerError) :=
  match fuel with
  | O => diverge
  | S fuel =>
      if count <? loop_timeout self then
        status ← read_status self;
        if ready status then mret (Ok tt)
        else count ← uadd 64 count 1; wait_loop fuel self ready count
      else mret (Err Timeout)
  end.

(** The loop runs [loop_timeout] times at most. *)
Definition wait_fuel (self : Controller) : nat := S (Z.to_nat (loop_timeout self)).

Definition wait_for_read (self : Controller) : CM (result unit ControllerError) :=
  wait_loop (wait_fuel self) self is_output_full 0.
Definition wait_for_write (self : Controller) : CM (result unit ControllerError) :=
  wait_loop (wait_fuel self) self (fun s => negb (is_input_full s)) 0.

Definition write_data (self : Controller) (data : Z) : CM (result unit ControllerError) :=
  wait_for_write self ;?
  (io_write (Out8 (data_port self) data) ;; mret (Ok tt)).

Definition read_data (self : Controller) : CM (result Z ControllerError) :=
  wait_for_read self ;?
  (v ← io_read (In8 (data_port self)); mret (Ok v)).

(** [while read_status().is_output_full() && count < loop_timeout]. *)
Fixpoint flush_loop (fuel : nat) (self : Controller) (count : Z) : CM unit :=
  match fuel with
  | O => diverge
  | S fuel =>
      status ← read_status self;
      if is_output_full status && (count <? loop_timeout self) then
        read_data self ;;
        count ← uadd 64 count 1;
        flush_loop fuel self count
      else mret tt
  end.
Definition flush_data_port (self : Controller) : CM unit :=
  flush_loop (wait_fuel self) self 0.

Definition write_to_second_port_ouput_buffer (self : Controller) (data : Z) :
    CM (result unit ControllerError) :=
  write_command self WriteSecondPortOutputBuffer ;;
  write_data self data ;? mret (Ok tt).
Definition write_to_second_port_input_buffer (self : Controller) (data : Z) :
    CM (result unit ControllerError) :=
  write_command self WriteSecondPortInputBuffer ;;
  write_data self data ;? mret (Ok tt).

Definition disable_first_port (self : Controller) : CM unit :=
  write_command self DisableFirstPort.
Definition disable_second_port (self : Controller) : CM unit :=
  write_command self DisableSecondPort.
Definition enable_first_port (self : Controller) : CM unit :=
  write_command self EnableFirstPort.
Definition enable_second_port (self : Controller) : CM unit :=
  write_command self EnableSecondPort.

Definition read_config_byte (self : Controller) :
    CM (result ControllerConfigByte ControllerError) :=
  write_command self ReadControllerConfigByte ;;
  v ←? read_data self; mret (Ok (ConfigByte_from_u8 v)).

Definition write_config_byte (self : Controller) (config_byte : ControllerConfigByte) :
    CM (result unit ControllerError) :=
  write_command self WriteControllerConfigByte ;;
  write_data self (ConfigByte_get config_byte) ;? mret (Ok tt).

Definition test_controller (self : Controller) : CM (result unit ControllerError) :=
  write_command self TestController ;;
  response ←? read_data self;
  if response =? 0x55 then mret (Ok tt) else mret (Err TestFailed).
Definition test_first_port (self : Controller) : CM (result unit ControllerError) :=
  write_command self TestFirstPort ;;
  response ←? read_data self;
  if response =? 0x00 then mret (Ok tt) else mret (Err TestFailed).
Definition test_second_port (self : Controller) : CM (result unit ControllerError) :=
  write_command self TestSecondPort ;;
  response ←? read_data self;
  if response =? 0x00 then mret (Ok tt) else mret (Err TestFailed).
End operations.

(** * Specification: the handshake

    A byte is written to the data port only right after a status read that shows the
    input buffer empty, and read from it only right after one that shows the output
    buffer full. *)
Definition handshake (l : list io_event) : Prop := forall i,
  (forall v, l !! i = Some (EvRead (In8 0x60) v) ->
     exists j s, i = S j /\ l !! j = Some (EvRead (In8 0x64) s) /\ Z.testbit s 0 = true) /\
  (forall v, l !! i = Some (EvWrite (Out8 0x60 v)) ->
     exists j s, i = S j /\ l !! j = Some (EvRead (In8 0x64) s) /\ Z.testbit s 1 = false).

(** One byte taken: polls of the status up to the first that shows the output buffer
    full, and the byte; or polls up to the limit, none of which does. *)
Definition byte_taken (l : list io_event) : Prop := exists polls,
  Forall (fun s => Z.testbit s 0 = false) polls /\
  ((exists s v, l = map (EvRead (In8 0x64)) (polls ++ [s]) ++ [EvRead (In8 0x60) v] /\
      Z.testbit s 0 = true /\ Z.of_nat (length polls) < 1000) \/
   (l = map (EvRead (In8 0x64)) polls /\ Z.of_nat (length polls) = 1000)).

(** The output buffer emptied: as long as the status shows it full a byte is taken, up
    to the limit, and a last status is read that shows it empty, or is past the limit. *)
Definition flush_round (l : list io_event) : Prop := exists s l',
  l = EvRead (In8 0x64) s :: l' /\ Z.testbit s 0 = true /\ byte_taken l'.
Definition flushed (l : list io_event) : Prop := exists rounds s,
  l = concat rounds ++ [EvRead (In8 0x64) s] /\ Forall flush_round rounds /\
  Z.of_nat (length rounds) <= 1000 /\
  (Z.testbit s 0 = false \/ Z.of_nat (length rounds) = 1000).

(** The configuration bits IRQ and clock handling depends on. *)
Definition config_bit (c : ControllerConfigByte) (bit : Z) : bool := Z.testbit c bit.

(** * Lemmas *)

Lemma status_bit s bit : 0 <= bit < 8 -> Status_get_bit s bit = Z.testbit s bit.
Proof. apply land_bit. Qed.

Lemma is_output_full_bit s : is_output_full s = Z.testbit s 0.
Proof. by apply status_bit. Qed.

Lemma is_input_full_bit s : is_input_full s = Z.testbit s 1.
Proof. by apply status_bit. Qed.

Lemma config_get_bit c bit : 0 <= bit < 8 -> get_bit c bit = Z.testbit c bit.
Proof. apply land_bit. Qed.

Lemma testbit_set_bit c k v i : 0 <= k < 8 -> 0 <= i < 8 ->
  Z.testbit (set_bit c k v) i = if i =? k then v else Z.testbit c i.
Proof.
  intros Hk Hi. unfold set_bit.
  assert (H1 : Z.testbit 1 (i - k) = (i =? k)).
  { destruct (Z.eqb_spec i k) as [->|]; [by rewrite Z.sub_diag|].
    destruct (decide (i < k)); [by apply Z.testbit_neg_r; lia|].
    apply (testbit_high 1); lia. }
  destruct v; bits_norm; rewrite H1; replace (i <? 8) with true by lia;
    by destruct (i =? k); simpl; rewrite ?orb_true_r, ?orb_false_r, ?andb_true_r, ?andb_false_r.
Qed.

Lemma set_bit_range c k v : 0 <= c < 2 ^ 8 -> 0 <= set_bit c k v < 2 ^ 8.
Proof.
  intros. unfold set_bit.
  destruct v; [apply lor_range; [lia|done|by apply ushl_range]|by apply land_range_l].
Qed.

Lemma handshake_nil : handshake [].
Proof. intros i. split; intros v Hv; by rewrite lookup_nil in Hv. Qed.

Lemma handshake_app l1 l2 : handshake l1 -> handshake l2 -> handshake (l1 ++ l2).
Proof.
  intros H1 H2 i. split; intros v Hv;
    (apply lookup_app_Some in Hv as [Hv|[Hi Hv]];
     [destruct (H1 i) as [Hr Hw]; first [destruct (Hr v Hv) as (j & s & -> & Hj & Hs)
                                        |destruct (Hw v Hv) as (j & s & -> & Hj & Hs)];
      exists j, s; split; [done|]; split; [by apply lookup_app_l_Some|done]
     |destruct (H2 (i - length l1)%nat) as [Hr Hw];
      first [destruct (Hr v Hv) as (j & s & Ei & Hj & Hs)
            |destruct (Hw v Hv) as (j & s & Ei & Hj & Hs)];
      exists (length l1 + j)%nat, s; split; [lia|]; split; [|done];
      rewrite lookup_app_r by lia; rewrite <- Hj; f_equal; lia]).
Qed.

(** An access to another port is free. *)
Definition free_event (e : io_event) : bool :=
  match e with
  | EvRead (In8 p) _ => negb (p =? 0x60)
  | EvWrite (Out8 p _) => negb (p =? 0x60)
  | _ => true
  end.

Lemma handshake_free l : Forall (fun e => free_event e = true) l -> handshake l.
Proof.
  intros Hl i. rewrite Forall_lookup in Hl.
  split; intros v Hv; specialize (Hl _ _ Hv); by simpl in Hl.
Qed.

Lemma handshake_read s v : Z.testbit s 0 = true ->
  handshake [EvRead (In8 0x64) s; EvRead (In8 0x60) v].
Proof.
  intros Hs i. split; intros w Hw; destruct i as [|[|i]]; simplify_eq/=.
  exists 0%nat, s. done.
Qed.

Lemma handshake_write s v : Z.testbit s 1 = false ->
  handshake [EvRead (In8 0x64) s; EvWrite (Out8 0x60 v)].
Proof.
  intros Hs i. split; intros w Hw; destruct i as [|[|i]]; simplify_eq/=.
  exists 0%nat, s. done.
Qed.

Section waiting.
Context {D : Type} `{Device D}.
Implicit Types b : Bus D.

Definition status_reads (self : Controller) (polls : list Z) : list io_event :=
  map (EvRead (In8 (status_port self))) polls.

(** The polling loop, on every machine: it stops at the first status that is ready
    and times out after [loop_timeout] that are not. *)
Lemma wp_wait_loop fuel self ready count b (Q : result unit ControllerError -> Bus D -> Prop) :
  0 <= count <= loop_timeout self -> loop_timeout self < 2 ^ 64 ->
  (Z.to_nat (loop_timeout self - count) < fuel)%nat ->
  (forall polls s b', bus_log b' = bus_log b ++ status_reads self (polls ++ [s]) ->
     Forall (fun s => ready s = false) polls -> ready s = true ->
     count + Z.of_nat (length polls) < loop_timeout self -> Q (Ok tt) b') ->
  (forall polls b', bus_log b' = bus_log b ++ status_reads self polls ->
     Forall (fun s => ready s = false) polls ->
     count + Z.of_nat (length polls) = loop_timeout self -> Q (Err Timeout) b') ->
  wp (wait_loop fuel self ready count) Q b.
Proof.
  revert count b. induction fuel as [|fuel IH]; intros count b Hcount Hmax Hfuel Hok Herr;
    [lia|]. cbn [wait_loop].
  destruct (Z.ltb_spec count (loop_timeout self)).
  - unfold read_status. wp_step. wp_step. apply wp_io_read. intros s d _ _ _. wp_step.
    unfold Status_from_u8. destruct (ready s) eqn:Hs.
    + wp_step. eapply (Hok []); [done|done|exact Hs|simpl; lia].
    + wp_step. wp_step; [lia|]. apply IH; [lia|lia|lia| |].
      * intros polls s' b' E Hp Hs' Hl. apply (Hok (s :: polls) s').
        -- rewrite E. cbn [bus_log]. by rewrite <- (assoc_L (++)).
        -- by constructor.
        -- done.
        -- cbn [length]. lia.
      * intros polls b' E Hp Hl. apply (Herr (s :: polls)).
        -- rewrite E. cbn [bus_log]. by rewrite <- (assoc_L (++)).
        -- by constructor.
        -- cbn [length]. lia.
  - wp_step. eapply (Herr []); [by rewrite app_nil_r|done|simpl; lia].
Qed.

(** The code's controller. *)
Definition bounded (self : Controller) : Prop := 0 <= loop_timeout self < 2 ^ 63.

Lemma wp_wait self ready b (Q : result unit ControllerError -> Bus D -> Prop) :
  bounded self ->
  (forall polls s b', bus_log b' = bus_log b ++ status_reads self (polls ++ [s]) ->
     Forall (fun s => ready s = false) polls -> ready s = true ->
     Z.of_nat (length polls) < loop_timeout self -> Q (Ok tt) b') ->
  (forall polls b', bus_log b' = bus_log b ++ status_reads self polls ->
     Forall (fun s => ready s = false) polls ->
     Z.of_nat (length polls) = loop_timeout self -> Q (Err Timeout) b') ->
  wp (wait_loop (wait_fuel self) self ready 0) Q b.
Proof.
  intros Hb Hok Herr. unfold bounded, wait_fuel in *.
  apply wp_wait_loop; [lia|lia|lia| |]; intros; [eapply Hok|eapply Herr]; eauto; lia.
Qed.

Lemma wp_read_data self b (Q : result Z ControllerError -> Bus D -> Prop) :
  bounded self ->
  (forall polls s v b',
     bus_log b' = bus_log b ++ status_reads self (polls ++ [s]) ++
       [EvRead (In8 (data_port self)) v] ->
     Forall (fun s => Z.testbit s 0 = false) polls -> Z.testbit s 0 = true ->
     Z.of_nat (length polls) < loop_timeout self -> 0 <= v < 2 ^ 8 -> Q (Ok v) b') ->
  (forall polls b', bus_log b' = bus_log b ++ status_reads self polls ->
     Forall (fun s => Z.testbit s 0 = false) polls ->
     Z.of_nat (length polls) = loop_timeout self -> Q (Err Timeout) b') ->
  wp (read_data self) Q b.
Proof.
  intros Hb Hok Herr. unfold read_data. wp_step. apply wp_wait; [done| |].
  - intros polls s b' E Hp Hs Hl. wp_step. apply wp_io_read. intros v d Hv _ _. wp_step.
    rewrite is_output_full_bit in Hs.
    eapply Hok; [|by eapply Forall_impl; [exact Hp|]; intros x Hx; by rewrite <- is_output_full_bit
      |exact Hs|exact Hl|exact Hv].
    cbn [bus_log]. by rewrite E, <- (assoc_L (++)).
  - intros polls b' E Hp Hl. eapply Herr; [exact E| |exact Hl].
    eapply Forall_impl; [exact Hp|]. intros x Hx. by rewrite <- is_output_full_bit.
Qed.

Lemma wp_write_data self data b (Q : result unit ControllerError -> Bus D -> Prop) :
  bounded self ->
  (forall polls s b',
     bus_log b' = bus_log b ++ status_reads self (polls ++ [s]) ++
       [EvWrite (Out8 (data_port self) data)] ->
     Forall (fun s => Z.testbit s 1 = true) polls -> Z.testbit s 1 = false ->
     Z.of_nat (length polls) < loop_timeout self -> Q (Ok tt) b') ->
  (forall polls b', bus_log b' = bus_log b ++ status_reads self polls ->
     Forall (fun s => Z.testbit s 1 = true) polls ->
     Z.of_nat (length polls) = loop_timeout self -> Q (Err Timeout) b') ->
  wp (write_data self data) Q b.
Proof.
  intros Hb Hok Herr.
  assert (Hready : forall x, negb (is_input_full x) = negb (Z.testbit x 1)).
  { intros x. by rewrite is_input_full_bit. }
  unfold write_data. wp_step. apply wp_wait; [done| |].
  - intros polls s b' E Hp Hs Hl. wp_step. apply wp_io_write. wp_step.
    rewrite Hready in Hs. apply negb_true_iff in Hs.
    eapply Hok; [| |exact Hs|exact Hl].
    + cbn [bus_log]. by rewrite E, <- (assoc_L (++)).
    + eapply Forall_impl; [exact Hp|]. intros x Hx. cbv beta in Hx. rewrite Hready in Hx.
      by apply negb_false_iff in Hx.
  - intros polls b' E Hp Hl. eapply Herr; [exact E| |exact Hl].
    eapply Forall_impl; [exact Hp|]. intros x Hx. cbv beta in Hx. rewrite Hready in Hx.
    by apply negb_false_iff in Hx.
Qed.

(** ** The handshake of every operation *)

Definition shakes {A} (m : M (Bus D) A) : Prop :=
  emits bus_log (fun _ => True) handshake m.

Lemma shakes_ret {A} (a : A) : shakes (mret a).
Proof. apply emits_ret, handshake_nil. Qed.

Lemma shakes_bind {A B} (m : M (Bus D) A) (k : A -> M (Bus D) B) :
  shakes m -> (forall a, shakes (k a)) -> shakes (m ≫= k).
Proof. apply emits_bind, handshake_app. Qed.

Lemma shakes_bind_try {A B E} (m : M (Bus D) (result A E))
    (k : A -> M (Bus D) (result B E)) :
  shakes m -> (forall a, shakes (k a)) -> shakes (bind_try m k).
Proof. apply emits_bind_try; [apply handshake_nil|apply handshake_app]. Qed.

Lemma shakes_map_err {A E F} (f : E -> F) (m : M (Bus D) (result A E)) :
  shakes m -> shakes (map_err f m).
Proof. apply emits_map_err; [apply handshake_nil|apply handshake_app]. Qed.

Lemma wp_shakes {A} (m : M (Bus D) A) :
  (forall b, wp m (fun _ b' => exists l, bus_log b' = bus_log b ++ l /\ handshake l) b) ->
  shakes m.
Proof.
  intros Hm b _. specialize (Hm b). unfold wp in Hm.
  destruct (m b) as [a b'|e b'|]; [auto|done..].
Qed.

Lemma shakes_write_command self c : command_port self = 0x64 -> shakes (write_command self c).
Proof.
  intros Hp b _. split; [done|]. eexists. split; [done|]. apply handshake_free.
  rewrite Hp. repeat constructor.
Qed.

Lemma status_reads_free self polls : status_port self = 0x64 ->
  handshake (status_reads self polls).
Proof.
  intros Hp. apply handshake_free. unfold status_reads. rewrite Hp.
  apply List.Forall_map, Forall_true. done.
Qed.

Lemma shakes_read_data : shakes (read_data Controller_new).
Proof.
  apply wp_shakes. intros b. apply wp_read_data; [by split| |].
  - intros polls s v b' E _ Hs _ _. eexists. split; [exact E|].
    unfold status_reads. rewrite map_app, <- (assoc_L (++)).
    apply handshake_app; [by apply status_reads_free|by apply handshake_read].
  - intros polls b' E _ _. eexists. split; [exact E|]. by apply status_reads_free.
Qed.

Lemma shakes_write_data data : shakes (write_data Controller_new data).
Proof.
  apply wp_shakes. intros b. apply wp_write_data; [by split| |].
  - intros polls s b' E _ Hs _. eexists. split; [exact E|].
    unfold status_reads. rewrite map_app, <- (assoc_L (++)).
    apply handshake_app; [by apply status_reads_free|by apply handshake_write].
  - intros polls b' E _ _. eexists. split; [exact E|]. by apply status_reads_free.
Qed.

Lemma shakes_read_status : shakes (read_status Controller_new).
Proof.
  apply wp_shakes. intros b. unfold read_status. wp_step. apply wp_io_read.
  intros v d _ _ _. wp_step. eexists. split; [done|]. apply handshake_free.
  repeat constructor.
Qed.

(** Flushing is made of status and data reads. *)
Lemma emits_flush (P : list io_event -> Prop) :
  P [] -> (forall l1 l2, P l1 -> P l2 -> P (l1 ++ l2)) ->
  emits bus_log (fun _ => True) P (read_status Controller_new) ->
  emits bus_log (fun _ => True) P (read_data Controller_new) ->
  emits bus_log (fun _ => True) P (flush_data_port Controller_new).
Proof.
  intros Hnil Happ Hst Hd. unfold flush_data_port.
  assert (H0 : forall fuel count, 0 <= count <= 1000 ->
    (Z.to_nat (1000 - count) < fuel)%nat ->
    emits bus_log (fun _ => True) P (flush_loop fuel Controller_new count)).
  { induction fuel as [|fuel IH]; intros count Hc Hf; [lia|]. cbn [flush_loop].
    apply emits_bind; [done|done|]. intros s.
    cbn [loop_timeout Controller_new].
    destruct (is_output_full s), (Z.ltb_spec count 1000); simpl; try by apply emits_ret.
    apply emits_bind; [done|done|]. intros r b _.
    assert (E : uadd 64 count 1 b = Ret (count + 1) b) by (apply checked_Ret; lia).
    rewrite (bind_Ret _ _ _ _ _ E). apply IH; [lia|lia|done]. }
  apply H0; unfold wait_fuel; simpl; lia.
Qed.

Lemma shakes_flush : shakes (flush_data_port Controller_new).
Proof.
  apply emits_flush; [apply handshake_nil|apply handshake_app|apply shakes_read_status|
    apply shakes_read_data].
Qed.

(** ** Input never writes *)

Definition reads_only (l : list io_event) : Prop := writes_of l = [].

Lemma reads_only_app l1 l2 : reads_only l1 -> reads_only l2 -> reads_only (l1 ++ l2).
Proof. unfold reads_only. intros E1 E2. by rewrite writes_of_app, E1, E2. Qed.

Lemma status_reads_only self polls : reads_only (status_reads self polls).
Proof. induction polls; done. Qed.

Lemma reads_only_read_status :
  emits bus_log (fun _ => True) reads_only (read_status Controller_new).
Proof.
  intros b _. unfold read_status, io_read, mbind, M_bind.
  destruct (dev_read _ _). split; [done|]. eexists. split; [done|]. done.
Qed.

Lemma reads_only_read_data :
  emits bus_log (fun _ => True) reads_only (read_data Controller_new).
Proof.
  intros b _.
  assert (Hwp : wp (read_data Controller_new) (fun _ b' => exists l,
    bus_log b' = bus_log b ++ l /\ reads_only l) b).
  { apply wp_read_data; [by split| |].
    - intros polls s v b' E _ _ _ _. eexists. split; [exact E|].
      apply reads_only_app; [apply status_reads_only|done].
    - intros polls b' E _ _. eexists. split; [exact E|]. apply status_reads_only. }
  unfold wp in Hwp. destruct (read_data Controller_new b); [auto|done..].
Qed.

Lemma reads_only_flush :
  emits bus_log (fun _ => True) reads_only (flush_data_port Controller_new).
Proof.
  apply emits_flush; [done|apply reads_only_app|apply reads_only_read_status|
    apply reads_only_read_data].
Qed.

(** What the two take, and that they return. *)
Lemma read_data_takes b : wp (read_data Controller_new)
  (fun _ b' => exists l, bus_log b' = bus_log b ++ l /\ byte_taken l) b.
Proof.
  apply wp_read_data; [by split| |].
  - intros polls s v b' E Hp Hs Hl _. eexists. split; [exact E|]. exists polls.
    split; [exact Hp|]. left. by exists s, v.
  - intros polls b' E Hp Hl. eexists. split; [exact E|]. exists polls.
    split; [exact Hp|]. by right.
Qed.

Lemma flush_drains b : wp (flush_data_port Controller_new)
  (fun _ b' => exists l, bus_log b' = bus_log b ++ l /\ flushed l) b.
Proof.
  unfold flush_data_port.
  assert (H0 : forall fuel rounds b1, Forall flush_round rounds ->
    bus_log b1 = bus_log b ++ concat rounds -> Z.of_nat (length rounds) <= 1000 ->
    (Z.to_nat (1000 - Z.of_nat (length rounds)) < fuel)%nat ->
    wp (flush_loop fuel Controller_new (Z.of_nat (length rounds)))
      (fun _ b' => exists l, bus_log b' = bus_log b ++ l /\ flushed l) b1).
  { induction fuel as [|fuel IH]; intros rounds b1 Hr Hl Hn Hf; [lia|]. cbn [flush_loop].
    unfold read_status. wp_step. wp_step. apply wp_io_read. intros s d _ _ _. wp_step.
    unfold Status_from_u8. rewrite is_output_full_bit. cbn [loop_timeout Controller_new].
    destruct (Z.testbit s 0 && (Z.of_nat (length rounds) <? 1000)) eqn:Ec.
    - wp_step. eapply wp_mono; [apply read_data_takes|]. intros r b2 (l & El & Ht).
      do 2 wp_step; [lia|].
      replace (Z.of_nat (length rounds) + 1)
        with (Z.of_nat (length (rounds ++ [EvRead (In8 0x64) s :: l])))
        by (rewrite length_app; simpl; lia).
      apply IH; [|rewrite El; cbn [bus_log]|rewrite length_app; simpl; lia..].
      + apply Forall_app. split; [exact Hr|]. constructor; [|constructor].
        exists s, l. split; [done|]. split; [by apply andb_true_iff in Ec as [? ?]|exact Ht].
      + rewrite Hl, concat_app. cbn [concat]. by rewrite app_nil_r, <- !(assoc_L (++)).
    - wp_step. exists (concat rounds ++ [EvRead (In8 0x64) s]).
      split; [cbn [bus_log]; by rewrite Hl, <- (assoc_L (++))|]. exists rounds, s.
      split; [done|]. split; [exact Hr|]. split; [exact Hn|].
      destruct (Z.testbit s 0); [right; cbn in Ec; lia|by left]. }
  apply (H0 _ []); [done|by rewrite app_nil_r|done|]. unfold wait_fuel. simpl. lia.
Qed.
End waiting.

(** Every operation is made of these. *)
Create HintDb shakes discriminated.
#[export] Hint Resolve shakes_ret shakes_read_data shakes_write_data shakes_read_status
  shakes_flush : shakes.
Ltac shakes_step :=
  lazymatch goal with
  | |- shakes (bind_try _ _) => apply shakes_bind_try; [|intros ?]
  | |- shakes (mbind _ _) => apply shakes_bind; [|intros ?]
  | |- shakes (map_err _ _) => apply shakes_map_err
  | |- shakes (write_command _ _) => by apply shakes_write_command
  | |- shakes (if _ then _ else _) => case_match
  | |- shakes (match _ with _ => _ end) => case_match
  | |- shakes _ => solve [auto with shakes]
  end.
Ltac shakes := repeat shakes_step.

Section operations_shake.
Context {D : Type} `{Device D}.
Notation op_shakes m := (shakes (D := D) m) (only parsing).

Lemma shakes_read_config_byte : op_shakes (read_config_byte Controller_new).
Proof. unfold read_config_byte. shakes. Qed.
Lemma shakes_write_config_byte c : op_shakes (write_config_byte Controller_new c).
Proof. unfold write_config_byte. shakes. Qed.
Lemma shakes_test_controller : op_shakes (test_controller Controller_new).
Proof. unfold test_controller. shakes. Qed.
Lemma shakes_test_first_port : op_shakes (test_first_port Controller_new).
Proof. unfold test_first_port. shakes. Qed.
Lemma shakes_test_second_port : op_shakes (test_second_port Controller_new).
Proof. unfold test_second_port. shakes. Qed.
Lemma shakes_second_port_input data :
  op_shakes (write_to_second_port_input_buffer Controller_new data).
Proof. unfold write_to_second_port_input_buffer. shakes. Qed.
End operations_shake.

#[export] Hint Resolve shakes_read_config_byte shakes_write_config_byte
  shakes_test_controller shakes_test_first_port shakes_test_second_port
  shakes_second_port_input : shakes.

(** * Properties *)

Section properties.
Context {D : Type} `{Device D}.
Implicit Types b : Bus D.

(** C23: on every machine [read_data] polls the status at most 1000 times; it reads the
    data port once, right after the first status that shows the output buffer
    full, and otherwise times out without having touched it. *)
Theorem read_data_spec b :
  exists r b' polls, read_data Controller_new b = Ret r b' /\
    match r with
    | Ok v => exists s,
        bus_log b' = bus_log b ++ map (EvRead (In8 0x64)) (polls ++ [s]) ++
          [EvRead (In8 0x60) v] /\
        Forall (fun s => Z.testbit s 0 = false) polls /\ Z.testbit s 0 = true /\
        Z.of_nat (length polls) < 1000 /\ 0 <= v < 2 ^ 8
    | Err e =>
        e = Timeout /\ bus_log b' = bus_log b ++ map (EvRead (In8 0x64)) polls /\
        Forall (fun s => Z.testbit s 0 = false) polls /\ length polls = Z.to_nat 1000
    end.
Proof.
  assert (Hwp : wp (read_data Controller_new) (fun r b' => exists polls, match r with
    | Ok v => exists s,
        bus_log b' = bus_log b ++ map (EvRead (In8 0x64)) (polls ++ [s]) ++
          [EvRead (In8 0x60) v] /\
        Forall (fun s => Z.testbit s 0 = false) polls /\ Z.testbit s 0 = true /\
        Z.of_nat (length polls) < 1000 /\ 0 <= v < 2 ^ 8
    | Err e =>
        e = Timeout /\ bus_log b' = bus_log b ++ map (EvRead (In8 0x64)) polls /\
        Forall (fun s => Z.testbit s 0 = false) polls /\ length polls = Z.to_nat 1000
    end) b).
  { apply wp_read_data; [by split| |].
    - intros polls s v b' E Hp Hs Hl Hv. exists polls, s. auto.
    - intros polls b' E Hp Hl. exists polls. simpl in Hl. split; [done|].
      split; [exact E|]. split; [done|]. lia. }
  apply wp_returns in Hwp as (r & b' & E & polls & Hr). exists r, b', polls. auto.
Qed.

(** on every machine [write_data] writes the byte once, right after the first of at
    most 1000 status reads that shows the input buffer empty, or times out without
    having written it. *)
Theorem write_data_spec data b :
  exists r b' polls, write_data Controller_new data b = Ret r b' /\
    match r with
    | Ok _ => exists s,
        bus_log b' = bus_log b ++ map (EvRead (In8 0x64)) (polls ++ [s]) ++
          [EvWrite (Out8 0x60 data)] /\
        Forall (fun s => Z.testbit s 1 = true) polls /\ Z.testbit s 1 = false /\
        Z.of_nat (length polls) < 1000
    | Err e =>
        e = Timeout /\ bus_log b' = bus_log b ++ map (EvRead (In8 0x64)) polls /\
        Forall (fun s => Z.testbit s 1 = true) polls /\ length polls = Z.to_nat 1000
    end.
Proof.
  assert (Hwp : wp (write_data Controller_new data) (fun r b' => exists polls, match r with
    | Ok _ => exists s,
        bus_log b' = bus_log b ++ map (EvRead (In8 0x64)) (polls ++ [s]) ++
          [EvWrite (Out8 0x60 data)] /\
        Forall (fun s => Z.testbit s 1 = true) polls /\ Z.testbit s 1 = false /\
        Z.of_nat (length polls) < 1000
    | Err e =>
        e = Timeout /\ bus_log b' = bus_log b ++ map (EvRead (In8 0x64)) polls /\
        Forall (fun s => Z.testbit s 1 = true) polls /\ length polls = Z.to_nat 1000
    end) b).
  { apply wp_write_data; [by split| |].
    - intros polls s b' E Hp Hs Hl. exists polls, s. auto.
    - intros polls b' E Hp Hl. exists polls. simpl in Hl. split; [done|].
      split; [exact E|]. split; [done|]. lia. }
  apply wp_returns in Hwp as (r & b' & E & polls & Hr). exists r, b', polls. auto.
Qed.
End properties.

(** a setter of the configuration byte changes its own bit and no other; each getter
    reads the bit its setter writes. *)
Theorem config_byte_bits c v : 0 <= c < 2 ^ 8 ->
  let bits c := (get_first_port_interrupt c, get_second_port_interrupt c,
    get_first_port_clock c, get_second_port_clock c, get_first_port_translation c) in
  let '(i1, i2, c1, c2, t1) := bits c in
  bits (set_first_port_interrupt c v) = (v, i2, c1, c2, t1) /\
  bits (set_second_port_interrupt c v) = (i1, v, c1, c2, t1) /\
  bits (set_first_port_clock c v) = (i1, i2, v, c2, t1) /\
  bits (set_second_port_clock c v) = (i1, i2, c1, v, t1) /\
  bits (set_first_port_translation c v) = (i1, i2, c1, c2, v) /\
  (forall k i, 0 <= k < 8 -> 0 <= i < 8 -> i <> k ->
     Z.testbit (set_bit c k v) i = Z.testbit c i).
Proof.
  intros Hc. cbv zeta beta iota.
  unfold get_first_port_interrupt, get_second_port_interrupt, get_first_port_clock,
    get_second_port_clock, get_first_port_translation, set_first_port_interrupt,
    set_second_port_interrupt, set_first_port_clock, set_second_port_clock,
    set_first_port_translation.
  rewrite !config_get_bit, !testbit_set_bit by lia. simpl.
  do 5 (split; [done|]). intros k i Hk Hi Hne. rewrite testbit_set_bit by done.
  by replace (i =? k) with false by lia.
Qed.

Lemma config_byte_bits_witness :
  get_second_port_clock (set_second_port_clock 0x45 true) = true /\
  set_first_port_interrupt 0x45 false = 0x44.
Proof.
  split; [|reflexivity].
  destruct (config_byte_bits 0x45 true ltac:(lia)) as (_ & _ & _ & E & _).
  exact (f_equal (fun t => snd (fst t)) E).
Defined.

End Ps2Controller.
