(* ===== verification/Ps2Keyboard.v ===== *)
(** The PS/2 keyboard (kernel/src/ps2/keyboard.rs): response codes, commands and
    the reset sequence, and their outcome for every sequence of answers. *)

From S2P Require Import Prelude Machine Ps2Controller.

Module Ps2Keyboard.
Import Ps2Controller.

(** * Data *)

Inductive Response : Type :=
  | InternalBufferOverrun | SelfTestPassed | ResponseToEcho | Acknowledged
  | SelfTestFailed1 | SelfTestFailed2 | Resend
  | KeyDetectionErrorOrInteralBufferOverrun.

#[export] Instance Response_eq_dec : EqDecision Response.
Proof. solve_decision. Defined.

Definition Response_as_u8 (r : Response) : Z :=
  match r with
  | InternalBufferOverrun => 0x00
  | SelfTestPassed => 0xaa
  | ResponseToEcho => 0xee
  | Acknowledged => 0xfa
  | SelfTestFailed1 => 0xfc
  | SelfTestFailed2 => 0xfd
  | Resend => 0xfe
  | KeyDetectionErrorOrInteralBufferOverrun => 0xff
  end.

Definition Response_from_u8 {S} (code : Z) : M S Response :=
  if code =? Response_as_u8 InternalBufferOverrun then mret InternalBufferOverrun
  else if code =? Response_as_u8 SelfTestPassed then mret SelfTestPassed
  else if code =? Response_as_u8 ResponseToEcho then mret ResponseToEcho
  else if code =? Response_as_u8 Acknowledged then mret Acknowledged
  else if code =? Response_as_u8 SelfTestFailed1 then mret SelfTestFailed1
  else if code =? Response_as_u8 SelfTestFailed2 then mret SelfTestFailed2
  else if code =? Response_as_u8 Resend then mret Resend
  else if code =? Response_as_u8 KeyDetectionErrorOrInteralBufferOverrun
  then mret KeyDetectionErrorOrInteralBufferOverrun
  else panic (ExplicitPanic "ps/2 keyboard responded invalid response").

Inductive KeyboardError : Type :=
  | KeyboardError_ControllerError (err : ControllerError)
  | CommandNotAcknowledged (response : Response)
  | SelfTestFailed
  | InvalidResponse.

Definition KeyboardError_from (err : ControllerError) : KeyboardError :=
  KeyboardError_ControllerError err.

Inductive Command : Type := ResetAndSelfTest.
Definition Command_as_u8 (c : Command) : Z := match c with ResetAndSelfTest => 0xff end.

(** [matches!(response, Response::Acknowledged)]. *)
Definition is_acknowledged (r : Response) : bool := bool_decide (r = Acknowledged).

(** * Operations: [self] is the controller *)

Section operations.
Context {D : Type} `{Device D}.
Notation CM := (M (Bus D)).

Definition read_response (self : Controller) : CM (result Response KeyboardError) :=
  response ←? map_err KeyboardError_from (read_data self);
  r ← Response_from_u8 response; mret (Ok r).

Definition write_command (self : Controller) (command : Command) (data : option Z) :
    CM (result unit KeyboardError) :=
  map_err KeyboardError_from (write_data self (Command_as_u8 command)) ;?
  (response ←? read_response self;
   if negb (is_acknowledged response) then mret (Err (CommandNotAcknowledged response))
   else
     match data with
     | Some data =>
         map_err KeyboardError_from (write_data self data) ;?
         (response ←? read_response self;
          if negb (is_acknowledged response)
          then mret (Err (CommandNotAcknowledged response))
          else mret (Ok tt))
     | None => mret (Ok tt)
     end).

Definition reset_and_self_test (self : Controller) : CM (result unit KeyboardError) :=
  write_command self ResetAndSelfTest None ;?
  (response ←? read_response self;
   match response with
   | SelfTestPassed => mret (Ok tt)
   | SelfTestFailed1 => mret (Err SelfTestFailed)
   | SelfTestFailed2 => mret (Err SelfTestFailed)
   | _ => mret (Err InvalidResponse)
   end).

Definition Keyboard_read_data (self : Controller) : CM (result Z KeyboardError) :=
  v ←? map_err KeyboardError_from (read_data self); mret (Ok v).
End operations.

(** * Specification: the answer bytes decide *)

(** The response of a code, if it has one. *)
Definition response_of (code : Z) : option Response :=
  find (fun r => Response_as_u8 r =? code)
    [InternalBufferOverrun; SelfTestPassed; ResponseToEcho; Acknowledged; SelfTestFailed1;
     SelfTestFailed2; Resend; KeyDetectionErrorOrInteralBufferOverrun].

(** What the keyboard sends: the bytes still queued at the controller.  The status
    shows the output buffer full as long as there is one, the input buffer is
    always empty, and a byte written to the data port appends its answers. *)
Record answers {D} `{Device D} (queue : D -> list Z) (answer : Z -> list Z) : Prop := {
  an_status d v d' : dev_read (In8 0x64) d = (v, d') ->
    queue d' = queue d /\ Z.testbit v 1 = false /\
    Z.testbit v 0 = match queue d with [] => false | _ => true end;
  an_data d v d' x q : queue d = x :: q -> dev_read (In8 0x60) d = (v, d') ->
    v = x /\ queue d' = q;
  an_write d v : queue (dev_write (Out8 0x60 v) d) = queue d ++ answer v
}.

(** The outcome of the reset for the answers to the reset command. *)
Inductive reset_outcome : Type :=
  | Returns (r : result unit KeyboardError)
  | Panics.

Definition reset_result (answers : list Z) : reset_outcome :=
  match answers with
  | [] => Returns (Err (KeyboardError_ControllerError Timeout))
  | a :: rest =>
      match response_of a with
      | None => Panics
      | Some Acknowledged =>
          match rest with
          | [] => Returns (Err (KeyboardError_ControllerError Timeout))
          | t :: _ =>
              match response_of t with
              | None => Panics
              | Some SelfTestPassed => Returns (Ok tt)
              | Some SelfTestFailed1 | Some SelfTestFailed2 => Returns (Err SelfTestFailed)
              | Some _ => Returns (Err InvalidResponse)
              end
          end
      | Some r => Returns (Err (CommandNotAcknowledged r))
      end
  end.

(** * Lemmas *)

Lemma from_u8_known {S} code r (s : S) :
  response_of code = Some r -> Response_from_u8 code s = Ret r s.
Proof.
  unfold response_of, Response_from_u8. cbn [find]. rewrite !(Z.eqb_sym code).
  repeat (case_match; [by intros [= <-]|]). done.
Qed.

Lemma from_u8_unknown {S} code (s : S) :
  response_of code = None ->
  Response_from_u8 code s =
    Panic (ExplicitPanic "ps/2 keyboard responded invalid response") s.
Proof.
  unfold response_of, Response_from_u8. cbn [find]. rewrite !(Z.eqb_sym code).
  repeat (case_match; [done|]). done.
Qed.

Section lemmas.
Context {D : Type} `{Device D}.
Implicit Types b : Bus D.

Lemma shakes_from_u8 code : shakes (D := D) (Response_from_u8 code).
Proof.
  unfold Response_from_u8. repeat case_match;
    first [apply shakes_ret | apply emits_panic, handshake_nil].
Qed.
#[local] Hint Resolve shakes_from_u8 : shakes.

Lemma shakes_keyboard_response : shakes (D := D) (read_response Controller_new).
Proof. unfold read_response. shakes. Qed.

Lemma shakes_keyboard_command c data : shakes (D := D) (write_command Controller_new c data).
Proof. unfold write_command. pose proof shakes_keyboard_response. shakes. Qed.

Lemma shakes_keyboard_reset : shakes (D := D) (reset_and_self_test Controller_new).
Proof.
  unfold reset_and_self_test. pose proof shakes_keyboard_command.
  pose proof shakes_keyboard_response. shakes.
Qed.

(** ** A machine that answers *)
Context (queue : D -> list Z) (answer : Z -> list Z).
Hypothesis Hans : answers queue answer.

Definition queued b : list Z := queue (bus_dev b).

Lemma read_status_queued b :
  exists s b', read_status Controller_new b = Ret s b' /\ queued b' = queued b /\
    Z.testbit s 1 = false /\
    Z.testbit s 0 = match queued b with [] => false | _ => true end.
Proof.
  unfold read_status, io_read, mbind, M_bind, queued. cbn [status_port Controller_new].
  destruct (dev_read (In8 0x64) (bus_dev b)) as [v d'] eqn:E.
  destruct (an_status _ _ Hans _ _ _ E) as (Hq & Hb1 & Hb0).
  eexists _, _. split; [done|]. unfold Status_from_u8. cbn [read_width bus_dev].
  rewrite !testbit_as_u by lia. simpl. auto.
Qed.

Lemma wait_ready fuel ready count b :
  0 <= count < 1000 ->
  (forall s, Z.testbit s 1 = false ->
     Z.testbit s 0 = match queued b with [] => false | _ => true end -> ready s = true) ->
  exists b', wait_loop (S fuel) Controller_new ready count b = Ret (Ok tt) b' /\
    queued b' = queued b.
Proof.
  intros Hc Hr. cbn [wait_loop loop_timeout Controller_new].
  replace (count <? 1000) with true by lia.
  destruct (read_status_queued b) as (s & b' & E & Hq & Hb1 & Hb0).
  exists b'. rewrite (bind_Ret _ _ _ _ _ E), Hr by done. done.
Qed.

Lemma wait_empty fuel count b :
  queued b = [] -> 0 <= count <= 1000 -> (Z.to_nat (1000 - count) < fuel)%nat ->
  exists b', wait_loop fuel Controller_new is_output_full count b = Ret (Err Timeout) b' /\
    queued b' = [].
Proof.
  revert count b. induction fuel as [|fuel IH]; intros count b Hq Hc Hf; [lia|].
  cbn [wait_loop loop_timeout Controller_new].
  destruct (Z.ltb_spec count 1000); [|by exists b].
  destruct (read_status_queued b) as (s & b' & E & Hq' & Hb1 & Hb0).
  rewrite (bind_Ret _ _ _ _ _ E), is_output_full_bit, Hb0, Hq.
  erewrite bind_Ret; [|apply checked_Ret; lia].
  apply IH; [congruence|lia|lia].
Qed.

Lemma read_data_cons x q b : queued b = x :: q -> 0 <= x < 2 ^ 8 ->
  exists b', read_data Controller_new b = Ret (Ok x) b' /\ queued b' = q.
Proof.
  intros Hq Hx. unfold read_data, wait_for_read, wait_fuel.
  destruct (wait_ready (Z.to_nat (loop_timeout Controller_new)) is_output_full 0 b)
    as (b1 & E & Hq1); [lia| |].
  { intros s _ Hb0. by rewrite is_output_full_bit, Hb0, Hq. }
  rewrite (bind_try_Ok _ _ _ _ _ E). unfold io_read, mbind, M_bind.
  cbn [data_port Controller_new].
  destruct (dev_read (In8 0x60) (bus_dev b1)) as [v d'] eqn:Ed.
  destruct (an_data _ _ Hans (bus_dev b1) v d' x q) as [-> Hq2]; [|done|].
  { unfold queued in *. congruence. }
  exists (mkBus d' (bus_log b1 ++ [EvRead (In8 0x60) x])). split; [|exact Hq2].
  cbn [read_width]. by rewrite as_u_small.
Qed.

Lemma read_data_nil b : queued b = [] ->
  exists b', read_data Controller_new b = Ret (Err Timeout) b' /\ queued b' = [].
Proof.
  intros Hq. unfold read_data, wait_for_read, wait_fuel.
  destruct (wait_empty (S (Z.to_nat (loop_timeout Controller_new))) 0 b)
    as (b1 & E & Hq1); [done|lia|simpl; lia|].
  exists b1. by rewrite (bind_try_Err _ _ _ _ _ E).
Qed.

Lemma write_data_answers v b :
  exists b', write_data Controller_new v b = Ret (Ok tt) b' /\
    queued b' = queued b ++ answer v.
Proof.
  unfold write_data, wait_for_write, wait_fuel.
  destruct (wait_ready (Z.to_nat (loop_timeout Controller_new))
    (fun s => negb (is_input_full s)) 0 b) as (b1 & E & Hq1); [lia| |].
  { intros s Hb1 _. by rewrite is_input_full_bit, Hb1. }
  rewrite (bind_try_Ok _ _ _ _ _ E). eexists. split; [done|].
  unfold queued in *. simpl. rewrite (an_write _ _ Hans), Hq1. done.
Qed.

(** The next response. *)
Lemma read_response_cons x q b : queued b = x :: q -> 0 <= x < 2 ^ 8 ->
  exists b', queued b' = q /\ read_response Controller_new b =
    match response_of x with
    | Some r => Ret (Ok r) b'
    | None => Panic (ExplicitPanic "ps/2 keyboard responded invalid response") b'
    end.
Proof.
  intros Hq Hx. destruct (read_data_cons x q b Hq Hx) as (b' & E & Hq').
  exists b'. split; [done|]. unfold read_response.
  assert (E' : map_err KeyboardError_from (read_data Controller_new) b = Ret (Ok x) b')
    by (unfold map_err; by rewrite (bind_Ret _ _ _ _ _ E)).
  rewrite (bind_try_Ok _ _ _ _ _ E'). destruct (response_of x) as [r|] eqn:Hr.
  - by rewrite (bind_Ret _ _ _ _ _ (from_u8_known x r b' Hr)).
  - by rewrite (bind_Panic _ _ _ _ _ (from_u8_unknown x b' Hr)).
Qed.

Lemma read_response_nil b : queued b = [] ->
  exists b', read_response Controller_new b =
    Ret (Err (KeyboardError_ControllerError Timeout)) b'.
Proof.
  intros Hq. destruct (read_data_nil b Hq) as (b' & E & Hq'). exists b'.
  unfold read_response.
  assert (E' : map_err KeyboardError_from (read_data Controller_new) b =
    Ret (Err (KeyboardError_ControllerError Timeout)) b')
    by (unfold map_err; by rewrite (bind_Ret _ _ _ _ _ E)).
  by rewrite (bind_try_Err _ _ _ _ _ E').
Qed.
End lemmas.

#[global] Hint Resolve shakes_from_u8 shakes_keyboard_reset : shakes.

(** * Properties *)

(** the response codes are distinct and [from_u8] is the inverse of [as_u8]; on
    every other byte it panics. *)
Theorem response_roundtrip {S} (s : S) (code : Z) :
  (forall r, Response_from_u8 (Response_as_u8 r) s = Ret r s) /\
  ((exists r, code = Response_as_u8 r) \/
   Response_from_u8 code s =
     Panic (ExplicitPanic "ps/2 keyboard responded invalid response") s).
Proof.
  split; [by intros []|]. destruct (response_of code) as [r|] eqn:E.
  - left. exists r. unfold response_of in E. apply find_some in E as [_ E]. lia.
  - right. by apply from_u8_unknown.
Qed.

(** C34: on a machine whose keyboard answers the reset command with any sequence of
    bytes, the reset sequence ends as that sequence says: acknowledged and passed
    is [Ok], a missing byte is a timeout, a failed self test, a refused command
    and an unexpected response are their errors, and a byte that is no response
    code panics. *)
Theorem keyboard_reset_outcome {D} `{Device D} (queue : D -> list Z) answer (b : Bus D) :
  answers queue answer -> queue (bus_dev b) = [] ->
  Forall (fun x => 0 <= x < 2 ^ 8) (answer 0xff) ->
  match reset_and_self_test Controller_new b, reset_result (answer 0xff) with
  | Ret r _, Returns r' => r = r'
  | Panic _ _, Panics => True
  | _, _ => False
  end.
Proof.
  intros Ha Hq Hbytes.
  destruct (write_data_answers queue answer Ha 0xff b) as (b1 & E1 & Hq1).
  unfold queued in Hq1. rewrite Hq in Hq1. simpl in Hq1.
  assert (Ew : map_err KeyboardError_from (write_data Controller_new 0xff) b = Ret (Ok tt) b1)
    by (unfold map_err; by rewrite (bind_Ret _ _ _ _ _ E1)).
  unfold reset_and_self_test, write_command.
  rewrite Forall_forall in Hbytes.
  destruct (answer 0xff) as [|a rest] eqn:Ea; cbn [reset_result].
  { destruct (read_response_nil queue answer Ha b1 Hq1) as (b2 & E2).
    erewrite bind_try_Err; [done|]. rewrite (bind_try_Ok _ _ _ _ _ Ew).
    by rewrite (bind_try_Err _ _ _ _ _ E2). }
  destruct (read_response_cons queue answer Ha a rest b1 Hq1) as (b2 & Hq2 & E2);
    [apply Hbytes; by left|].
  destruct (response_of a) as [r|] eqn:Er; cbn iota.
  2:{ erewrite bind_try_Panic; [done|]. rewrite (bind_try_Ok _ _ _ _ _ Ew).
      by rewrite (bind_try_Panic _ _ _ _ _ E2). }
  destruct (decide (r = Acknowledged)) as [->|Hr].
  2:{ erewrite bind_try_Err.
      2:{ rewrite (bind_try_Ok _ _ _ _ _ Ew), (bind_try_Ok _ _ _ _ _ E2).
          unfold is_acknowledged. by rewrite bool_decide_false by done. }
      by destruct r. }
  erewrite bind_try_Ok.
  2:{ by rewrite (bind_try_Ok _ _ _ _ _ Ew), (bind_try_Ok _ _ _ _ _ E2). }
  destruct rest as [|t rest].
  { destruct (read_response_nil queue answer Ha b2 Hq2) as (b3 & E3).
    by rewrite (bind_try_Err _ _ _ _ _ E3). }
  destruct (read_response_cons queue answer Ha t rest b2 Hq2) as (b3 & Hq3 & E3);
    [apply Hbytes; by right; left|].
  destruct (response_of t) as [r|] eqn:Er2; cbn iota.
  - rewrite (bind_try_Ok _ _ _ _ _ E3). by destruct r.
  - by rewrite (bind_try_Panic _ _ _ _ _ E3).
Qed.

(** A keyboard at a controller whose input buffer is always empty. *)
#[local] Instance scripted (answer : Z -> list Z) : Device (list Z) := {|
  dev_read op q := match op with
    | In8 port => if port =? 0x64 then (match q with [] => 0 | _ => 1 end, q)
        else match q with [] => (0, []) | x :: q' => (x, q') end
    | _ => (0, q)
    end;
  dev_write op q := match op with
    | Out8 port v => if port =? 0x60 then q ++ answer v else q
    | _ => q
    end
|}.

Lemma scripted_answers answer :
  @answers (list Z) (scripted answer) (fun q => q) answer.
Proof.
  split.
  - intros d v d' E. simpl in E. injection E as <- <-. by destruct d.
  - intros d v d' x q -> E. simpl in E. by injection E as <- <-.
  - done.
Qed.

Lemma keyboard_reset_outcome_witness :
  reset_result [0xfa; 0xaa] = Returns (Ok tt) /\
  match reset_and_self_test (H := scripted (fun _ => [0xfa; 0xaa])) Controller_new
    (mkBus [] []) with
  | Ret r _ => r = Ok tt
  | _ => False
  end.
Proof.
  split; [reflexivity|].
  unshelve epose proof (keyboard_reset_outcome (H := scripted (fun _ => [0xfa; 0xaa]))
    (fun q => q) (fun _ => [0xfa; 0xaa]) (mkBus [] []) (scripted_answers _) eq_refl _) as HW.
  { repeat constructor; lia. }
  destruct (reset_and_self_test _ _) as [r b'|e b'|]; [exact HW|contradiction..].
Defined.
End Ps2Keyboard.
