(* ===== verification/Ps2Mouse.v ===== *)
(** The PS/2 mouse (kernel/src/ps2/mouse.rs): commands sent through the second port,
    the reset sequence and data reporting. *)

From S2P Require Import Prelude Machine Ps2Controller Ps2Keyboard.

Module Ps2Mouse.
Import Ps2Controller.
Import Ps2Keyboard (Response(..), Response_as_u8, Response_from_u8, is_acknowledged).

Inductive MouseError : Type :=
  | MouseError_ControllerError (err : ControllerError)
  | CommandNotAcknowledged (response : Response)
  | InvalidResponse
  | SelfTestFailed.

Definition MouseError_from (err : ControllerError) : MouseError :=
  MouseError_ControllerError err.

Inductive Command : Type := EnableDataReporting | ResetAndSelfTest.
Definition Command_as_u8 (c : Command) : Z :=
  match c with EnableDataReporting => 0xf4 | ResetAndSelfTest => 0xff end.

Section operations.
Context {D : Type} `{Device D}.
Notation CM := (M (Bus D)).

Definition read_response (self : Controller) : CM (result Response MouseError) :=
  response ←? map_err MouseError_from (read_data self);
  r ← Response_from_u8 response; mret (Ok r).

Definition Mouse_read_data (self : Controller) : CM (result Z MouseError) :=
  data ←? map_err MouseError_from (read_data self); mret (Ok data).

Definition write_command (self : Controller) (command : Command) (data : option Z) :
    CM (result unit MouseError) :=
  map_err MouseError_from
    (write_to_second_port_input_buffer self (Command_as_u8 command)) ;?
  (response ←? read_response self;
   if negb (is_acknowledged response) then mret (Err (CommandNotAcknowledged response))
   else
     match data with
     | Some data =>
         map_err MouseError_from (write_to_second_port_input_buffer self data) ;?
         (response ←? read_response self;
          if negb (is_acknowledged response)
          then mret (Err (CommandNotAcknowledged response))
          else mret (Ok tt))
     | None => mret (Ok tt)
     end).

Definition enable_data_reporting (self : Controller) : CM (result unit MouseError) :=
  write_command self EnableDataReporting None ;? mret (Ok tt).

Definition reset_and_self_test (self : Controller) : CM (result Z MouseError) :=
  write_command self ResetAndSelfTest None ;?
  (test_result ←? read_response self;
   match test_result with
   | SelfTestPassed => id ←? Mouse_read_data self; mret (Ok id)
   | SelfTestFailed1 => mret (Err SelfTestFailed)
   | SelfTestFailed2 => mret (Err SelfTestFailed)
   | _ => mret (Err InvalidResponse)
   end).

End operations.

(** Every operation keeps the handshake. *)
Section operations_shake.
Context {D : Type} `{Device D}.

Lemma shakes_mouse_response : shakes (D := D) (read_response Controller_new).
Proof. unfold read_response. shakes. Qed.

Lemma shakes_mouse_command c data : shakes (D := D) (write_command Controller_new c data).
Proof. unfold write_command. shakes; apply shakes_mouse_response. Qed.

Lemma shakes_mouse_reset : shakes (D := D) (reset_and_self_test Controller_new).
Proof.
  unfold reset_and_self_test, Mouse_read_data. pose proof shakes_mouse_command.
  pose proof shakes_mouse_response. shakes.
Qed.

Lemma shakes_mouse_reporting : shakes (D := D) (enable_data_reporting Controller_new).
Proof. unfold enable_data_reporting. pose proof shakes_mouse_command. shakes. Qed.
End operations_shake.

#[global] Hint Resolve shakes_mouse_reset shakes_mouse_reporting : shakes.
End Ps2Mouse.
