(* ===== verification/Ps2.v ===== *)
(** The initialisation of the PS/2 controller and its devices
    (kernel/src/ps2/mod.rs). *)

From S2P Require Import Prelude Machine External Logger Ps2Controller Ps2Keyboard Ps2Mouse.

Module Ps2.
Import Logger Ps2Controller.

(** * The program *)

Section init.
Context {L : Type} `{Log L} {D : Type} `{Device D}.

(** The console and the machine. *)
Notation IM := (M (L * Bus D)).

Definition on_machine {A} (m : M (Bus D) A) : IM A := zoom snd (fun b p => (p.1, b)) m.
Definition kprint_line (s : string) : IM unit :=
  zoom fst (fun l p => (l, p.2)) (log_line (msg s)).

Definition controller : Controller := Controller_new.

(** [.unwrap_or_else(|err| panic!(..))]. *)
Definition or_panic {A E} (what : string) (m : IM (result A E)) : IM A :=
  r ← m; match r with Ok a => mret a | Err _ => panic (ExplicitPanic what) end.

Definition no_read : string := "Failed to read the PS/2 controller config byte.".
Definition no_write : string := "Failed to write to the PS/2 controller config byte.".

(** Step 7: the second port exists if enabling it starts its clock. *)
Definition detect_second_port (controller : Controller) : IM bool :=
  on_machine (enable_second_port controller) ;;
  config_byte ← expect no_read (on_machine (read_config_byte controller));
  let has_second_port := negb (get_second_port_clock config_byte) in
  (if has_second_port then
     kprint_line "second port is supported." ;;
     on_machine (disable_second_port controller) ;;
     let config_byte := set_second_port_interrupt config_byte false in
     let config_byte := set_second_port_clock config_byte false in
     expect no_write (on_machine (write_config_byte controller config_byte))
   else mret tt) ;;
  mret has_second_port.

Definition init : IM unit :=
  let controller := Controller_new in
  (* Step 3: disable devices *)
  on_machine (disable_first_port controller) ;;
  on_machine (disable_second_port controller) ;;
  (* Step 4: flush the output buffer *)
  on_machine (flush_data_port controller) ;;
  (* Step 5: set the controller configuration byte *)
  config_byte ← expect no_read (on_machine (read_config_byte controller));
  let config_byte := set_first_port_interrupt config_byte false in
  let config_byte := set_first_port_translation config_byte false in
  let config_byte := set_first_port_clock config_byte false in
  expect no_write (on_machine (write_config_byte controller config_byte)) ;;
  (* Step 6: controller self test *)
  expect "Test for PS/2 Controller failed." (on_machine (test_controller controller)) ;;
  expect no_write (on_machine (write_config_byte controller config_byte)) ;;
  (* Step 7: determine if there are two channels *)
  has_second_port ← detect_second_port controller;
  (* Step 8: interface tests *)
  first ← on_machine (test_first_port controller);
  let first_port_works := is_ok first in
  second_port_works ← (if (has_second_port : bool) then
      second ← on_machine (test_second_port controller); mret (is_ok second)
    else mret false);
  (* Step 9: enable devices *)
  config_byte ← expect no_read (on_machine (read_config_byte controller));
  config_byte ← (if first_port_works then
      on_machine (enable_first_port controller) ;;
      mret (set_first_port_interrupt config_byte true)
    else mret config_byte);
  config_byte ← (if (second_port_works : bool) then
      on_machine (enable_second_port controller) ;;
      mret (set_second_port_interrupt config_byte true)
    else mret config_byte);
  expect no_write (on_machine (write_config_byte controller config_byte)) ;;
  (* Step 10: reset devices *)
  or_panic "failed to reset the keyboard"
    (on_machine (Ps2Keyboard.reset_and_self_test controller)) ;;
  or_panic "failed to reset the mouse"
    (on_machine (Ps2Mouse.reset_and_self_test controller)) ;;
  (if (second_port_works : bool) then
     or_panic "failed to enable data-reporting of the mouse"
       (on_machine (Ps2Mouse.enable_data_reporting controller))
   else mret tt).
End init.

(** * Lemmas *)

Section lemmas.
Context {L : Type} `{LogLaws L} {D : Type} `{Device D}.
Implicit Types p : L * Bus D.

(** With a console that prints, an operation keeps the handshake, whatever the
    machine answers. *)
Definition init_shakes {A} (m : M (L * Bus D) A) : Prop :=
  emits (fun p => bus_log p.2) (fun p => log_ready p.1) handshake m.

Lemma init_shakes_ret {A} (a : A) : init_shakes (mret a).
Proof. apply emits_ret, handshake_nil. Qed.

Lemma init_shakes_bind {A B} (m : M _ A) (k : A -> M _ B) :
  init_shakes m -> (forall a, init_shakes (k a)) -> init_shakes (m ≫= k).
Proof. apply emits_bind, handshake_app. Qed.

Lemma init_shakes_machine {A} (m : M (Bus D) A) : shakes m -> init_shakes (on_machine m).
Proof. by apply emits_zoom. Qed.

Lemma init_shakes_expect {A E} what (m : M _ (result A E)) :
  init_shakes m -> init_shakes (expect what m).
Proof. apply emits_expect; [apply handshake_nil|apply handshake_app]. Qed.

Lemma init_shakes_or_panic {A E} what (m : M _ (result A E)) :
  init_shakes m -> init_shakes (or_panic what m).
Proof.
  intros Hm. apply init_shakes_bind; [done|].
  intros [a|e]; [apply init_shakes_ret|apply emits_panic, handshake_nil].
Qed.

Lemma init_shakes_print s : ascii_string s = true -> init_shakes (kprint_line s).
Proof.
  intros Hs p Hp.
  pose proof (log_line_ready (msg s) p.1 Hp (msg_ascii s Hs)) as Hl.
  unfold kprint_line, zoom, wp in *. destruct (log_line (msg s) p.1) as [u l|e l|]; [|done..].
  split; [exact Hl|]. exists []. by rewrite app_nil_r.
Qed.

Lemma shakes_command c : shakes (D := D) (write_command Controller_new c).
Proof. by apply shakes_write_command. Qed.

Ltac init_step :=
  lazymatch goal with
  | |- init_shakes (mbind _ _) => apply init_shakes_bind; [|intros ?]
  | |- init_shakes (expect _ _) => apply init_shakes_expect
  | |- init_shakes (or_panic _ _) => apply init_shakes_or_panic
  | |- init_shakes (on_machine _) =>
      apply init_shakes_machine; first [apply shakes_command | solve [auto with shakes]]
  | |- init_shakes (mret _) => apply init_shakes_ret
  | |- init_shakes (kprint_line _) => by apply init_shakes_print
  | |- init_shakes (if _ then _ else _) => case_match
  end.

Lemma init_shakes_detect : init_shakes (detect_second_port Controller_new).
Proof. unfold detect_second_port. repeat init_step. Qed.

Lemma init_shakes_init : init_shakes (init (L := L) (D := D)).
Proof. unfold init. repeat first [init_step | apply init_shakes_detect]. Qed.
End lemmas.

(** * Properties *)

(** C22: on every machine, with a console that prints, [init] returns or panics within
    its bounded polling, and every byte it exchanges with the data port, up to a
    panic included, obeys the handshake of the status bits. *)
Theorem init_handshake {L} `{LogLaws L} {D} `{Device D} (p : L * Bus D) :
  log_ready p.1 ->
  match init p with
  | Ret _ p' | Panic _ p' =>
      exists l, bus_log p'.2 = bus_log p.2 ++ l /\ handshake l
  | Diverges => False
  end.
Proof.
  intros Hp. pose proof (init_shakes_init p Hp) as HI.
  destruct (init p) as [u p'|e p'|]; [by destruct HI|done|done].
Qed.

(** ** The outcome on an 8042 *)

(** A controller with one or two ports and the results of its two interface tests.
    The keyboard and the mouse acknowledge and pass their self tests. *)
Record i8042 : Type := mk8042 {
  second_exists : bool;
  first_test : Z;
  second_test : Z;
  out_queue : list Z;
  config : Z;
  pending : option Z
}.

Definition with_queue (q : list Z) (c : i8042) : i8042 :=
  mk8042 (second_exists c) (first_test c) (second_test c) q (config c) (pending c).
Definition with_config (v : Z) (c : i8042) : i8042 :=
  mk8042 (second_exists c) (first_test c) (second_test c) (out_queue c) v (pending c).
Definition with_pending (v : option Z) (c : i8042) : i8042 :=
  mk8042 (second_exists c) (first_test c) (second_test c) (out_queue c) (config c) v.

Definition command_8042 (v : Z) (c : i8042) : i8042 :=
  match v with
  | 0x20 => with_queue (out_queue c ++ [config c]) c
  | 0x60 | 0xd4 => with_pending (Some v) c
  | 0xa7 => with_config (set_second_port_clock (config c) true) c
  | 0xa8 => if second_exists c
            then with_config (set_second_port_clock (config c) false) c else c
  | 0xa9 => with_queue (out_queue c ++ [second_test c]) c
  | 0xaa => with_queue (out_queue c ++ [0x55]) c
  | 0xab => with_queue (out_queue c ++ [first_test c]) c
  | 0xad => with_config (set_first_port_clock (config c) true) c
  | 0xae => with_config (set_first_port_clock (config c) false) c
  | _ => c
  end.

Definition data_8042 (v : Z) (c : i8042) : i8042 :=
  match pending c with
  | Some 0x60 =>
      with_pending None (with_config (if second_exists c then v
        else set_second_port_clock v true) c)
  | Some 0xd4 =>
      with_pending None (if second_exists c
        then with_queue (out_queue c ++
          (if v =? 0xff then [0xfa; 0xaa; 0x00] else [0xfa])) c
        else c)
  | _ => with_queue (out_queue c ++ (if v =? 0xff then [0xfa; 0xaa] else [0xfa])) c
  end.

#[local] Instance device_8042 : Device i8042 := {|
  dev_read op c := match op with
    | In8 0x64 => (match out_queue c with [] => 0 | _ => 1 end, c)
    | In8 0x60 => match out_queue c with
                  | [] => (0, c)
                  | x :: q => (x, with_queue q c)
                  end
    | _ => (0, c)
    end;
  dev_write op c := match op with
    | Out8 0x64 v => command_8042 v c
    | Out8 0x60 v => data_8042 v c
    | _ => c
    end
|}.

(** What the firmware may leave: any configuration byte, any test results, and no more
    bytes in the output buffer than the flush takes. *)
Record left_8042 (c : i8042) : Prop := {
  l8_queue : (length (out_queue c) <= 1000)%nat;
  l8_config : 0 <= config c < 2 ^ 8;
  l8_first : 0 <= first_test c < 2 ^ 8;
  l8_second : 0 <= second_test c < 2 ^ 8
}.

(** The interrupts that [init] leaves enabled. *)
Definition irqs (c : i8042) : bool * bool :=
  (get_first_port_interrupt (config c), get_second_port_interrupt (config c)).

Section on_8042.
Implicit Types (c : i8042) (l : list io_event).

Lemma wp_command_8042 cmd c l (Q : unit -> Bus i8042 -> Prop) :
  (forall l', Q tt (mkBus (command_8042 (Command_as_u8 cmd) c) l')) ->
  wp (write_command Controller_new cmd) Q (mkBus c l).
Proof. intros HQ. apply wp_io_write, HQ. Qed.

Lemma wp_write_8042 v c l (Q : result unit ControllerError -> Bus i8042 -> Prop) :
  (forall l', Q (Ok tt) (mkBus (data_8042 v c) l')) ->
  wp (write_data Controller_new v) Q (mkBus c l).
Proof.
  intros HQ. destruct c as [se f t q cf p]. destruct q; (eapply wp_eq; [reflexivity|apply HQ]).
Qed.

Lemma wp_read_8042 x q c l (Q : result Z ControllerError -> Bus i8042 -> Prop) :
  out_queue c = x :: q ->
  (forall l', Q (Ok (as_u 8 x)) (mkBus (with_queue q c) l')) ->
  wp (read_data Controller_new) Q (mkBus c l).
Proof.
  intros Hq HQ. destruct c as [se f t q' cf p]. cbn in Hq. subst q'.
  eapply wp_eq; [reflexivity|apply HQ].
Qed.

Lemma wp_read_empty c l (Q : result Z ControllerError -> Bus i8042 -> Prop) :
  out_queue c = [] -> (forall l', Q (Err Timeout) (mkBus c l')) ->
  wp (read_data Controller_new) Q (mkBus c l).
Proof.
  intros Hq HQ. unfold read_data. wp_step.
  assert (Hloop : forall fuel count l, 0 <= count <= 1000 ->
    (Z.to_nat (1000 - count) < fuel)%nat ->
    wp (wait_loop fuel Controller_new is_output_full count)
      (fun r b => r = Err Timeout /\ exists l', b = mkBus c l') (mkBus c l)).
  { induction fuel as [|fuel IH]; intros count l0 Hc Hf; [lia|]. cbn [wait_loop].
    cbn [loop_timeout Controller_new]. destruct (Z.ltb_spec count 1000); [|wp_step; eauto].
    unfold read_status. do 2 wp_step. apply wp_io_read. cbn [bus_dev bus_log].
    intros v d _ -> ->. wp_step. cbn [dev_read device_8042]. rewrite Hq.
    change (is_output_full _) with false. cbv iota. wp_step. wp_step; [lia|]. apply IH; lia. }
  eapply wp_mono; [apply Hloop; unfold wait_fuel; simpl; lia|].
  intros r b [-> [l' ->]]. apply HQ.
Qed.

Lemma wp_flush_8042 c l (Q : unit -> Bus i8042 -> Prop) :
  (length (out_queue c) <= 1000)%nat -> (forall l', Q tt (mkBus (with_queue [] c) l')) ->
  wp (flush_data_port Controller_new) Q (mkBus c l).
Proof.
  intros Hlen HQ. unfold flush_data_port.
  assert (Hloop : forall q fuel count c l, out_queue c = q ->
    0 <= count -> count + Z.of_nat (length q) <= 1000 -> (length q < fuel)%nat ->
    wp (flush_loop fuel Controller_new count)
      (fun _ b => exists l', b = mkBus (with_queue [] c) l') (mkBus c l)).
  { induction q as [|x q IH]; intros [|fuel] count c0 l0 Hq Hc Hn Hf; cbn [length] in *; try lia;
      cbn [flush_loop]; unfold read_status; do 2 wp_step; apply wp_io_read; cbn [bus_dev bus_log];
      intros v d _ -> ->; wp_step; cbn [dev_read device_8042]; rewrite Hq.
    - change (is_output_full _) with false. cbv iota. cbn [andb]. wp_step. eexists. destruct c0. cbn in *. by subst.
    - cbn [loop_timeout Controller_new]. replace (count <? 1000) with true by lia.
      change (is_output_full _) with true. cbn [andb]. wp_step.
      eapply wp_read_8042; [exact Hq|]. intros l1. do 2 wp_step; [lia|].
      eapply wp_mono; [apply IH; [reflexivity|lia..]|]. intros _ b [l' ->]. by exists l'. }
  eapply wp_mono; [apply (Hloop (out_queue c)); [done|lia..|unfold wait_fuel; simpl; lia]|].
  intros [] b [l' ->]. apply HQ.
Qed.

(** ** The operations, between which the output buffer is empty *)

Context (se : bool) (t1 t2 : Z).
Notation C q cf p := (mk8042 se t1 t2 q cf p).

Ltac op_8042 :=
  repeat (cbn [command_8042 data_8042 Command_as_u8 out_queue config pending second_exists first_test
    second_test with_queue with_config with_pending app];
    lazymatch goal with
    | |- wp (write_command _ _) _ _ => apply wp_command_8042; intros ?
    | |- wp (write_data _ _) _ _ => apply wp_write_8042; intros ?
    | |- wp (read_data _) _ _ => eapply wp_read_8042; [reflexivity|]; intros ?
    | |- _ => wp_step
    end).

Lemma wp_read_config cf p l (Q : result ControllerConfigByte ControllerError -> Bus i8042 -> Prop) :
  0 <= cf < 2 ^ 8 -> (forall l', Q (Ok cf) (mkBus (C [] cf p) l')) ->
  wp (read_config_byte Controller_new) Q (mkBus (C [] cf p) l).
Proof.
  intros Hcf HQ. unfold read_config_byte. op_8042. unfold ConfigByte_from_u8.
  rewrite as_u_small by done. apply HQ.
Qed.

Lemma wp_write_config v cf p l (Q : result unit ControllerError -> Bus i8042 -> Prop) :
  (forall l', Q (Ok tt) (mkBus (C [] (if se then v else set_second_port_clock v true) None) l')) ->
  wp (write_config_byte Controller_new v) Q (mkBus (C [] cf p) l).
Proof. intros HQ. unfold write_config_byte. op_8042. apply HQ. Qed.

Lemma wp_test_controller cf p l (Q : result unit ControllerError -> Bus i8042 -> Prop) :
  (forall l', Q (Ok tt) (mkBus (C [] cf p) l')) ->
  wp (test_controller Controller_new) Q (mkBus (C [] cf p) l).
Proof. intros HQ. unfold test_controller. op_8042. apply HQ. Qed.

Definition tested (t : Z) : result unit ControllerError :=
  if t =? 0 then Ok tt else Err TestFailed.

Lemma wp_test_first cf p l (Q : result unit ControllerError -> Bus i8042 -> Prop) :
  0 <= t1 < 2 ^ 8 -> (forall l', Q (tested t1) (mkBus (C [] cf p) l')) ->
  wp (test_first_port Controller_new) Q (mkBus (C [] cf p) l).
Proof.
  intros Ht HQ. unfold test_first_port. op_8042. rewrite as_u_small by done.
  unfold tested in HQ. destruct (t1 =? 0); apply wp_ret, HQ.
Qed.

Lemma wp_test_second cf p l (Q : result unit ControllerError -> Bus i8042 -> Prop) :
  0 <= t2 < 2 ^ 8 -> (forall l', Q (tested t2) (mkBus (C [] cf p) l')) ->
  wp (test_second_port Controller_new) Q (mkBus (C [] cf p) l).
Proof.
  intros Ht HQ. unfold test_second_port. op_8042. rewrite as_u_small by done.
  unfold tested in HQ. destruct (t2 =? 0); apply wp_ret, HQ.
Qed.

Lemma wp_keyboard_reset cf l (Q : result unit Ps2Keyboard.KeyboardError -> Bus i8042 -> Prop) :
  (forall l', Q (Ok tt) (mkBus (C [] cf None) l')) ->
  wp (Ps2Keyboard.reset_and_self_test Controller_new) Q (mkBus (C [] cf None) l).
Proof.
  intros HQ. unfold Ps2Keyboard.reset_and_self_test, Ps2Keyboard.write_command,
    Ps2Keyboard.read_response. op_8042. apply HQ.
Qed.

Lemma wp_mouse_reset cf l (Q : result Z Ps2Mouse.MouseError -> Bus i8042 -> Prop) :
  (forall l', Q (if se then Ok 0 else Err (Ps2Mouse.MouseError_ControllerError Timeout))
     (mkBus (C [] cf None) l')) ->
  wp (Ps2Mouse.reset_and_self_test Controller_new) Q (mkBus (C [] cf None) l).
Proof.
  intros HQ. unfold Ps2Mouse.reset_and_self_test, Ps2Mouse.write_command,
    Ps2Mouse.Mouse_read_data, Ps2Mouse.read_response, write_to_second_port_input_buffer.
  destruct se; op_8042; [apply HQ|]. apply wp_read_empty; [done|]. intros l1. op_8042. apply HQ.
Qed.

Lemma wp_mouse_reporting cf l (Q : result unit Ps2Mouse.MouseError -> Bus i8042 -> Prop) :
  se = true -> (forall l', Q (Ok tt) (mkBus (C [] cf None) l')) ->
  wp (Ps2Mouse.enable_data_reporting Controller_new) Q (mkBus (C [] cf None) l).
Proof.
  intros Hse HQ. unfold Ps2Mouse.enable_data_reporting, Ps2Mouse.write_command,
    Ps2Mouse.read_response, write_to_second_port_input_buffer.
  subst se. op_8042. apply HQ.
Qed.
End on_8042.

(** What [init] leaves of the controller [c0]: an empty output buffer, the interrupts of
    the ports that passed their tests, both clocks on, no translation, and the other bits of
    the configuration byte as they were. *)
Record set_up (c0 c : i8042) : Prop := {
  su_queue : out_queue c = [];
  su_irqs : irqs c = (first_test c0 =? 0, second_test c0 =? 0);
  su_clocks : get_first_port_clock (config c) = false /\ get_second_port_clock (config c) = false;
  su_translation : get_first_port_translation (config c) = false;
  su_other i : i ∈ [2; 3; 7] -> Z.testbit (config c) i = Z.testbit (config c0) i
}.

Ltac config_bits := unfold irqs, set_first_port_interrupt, set_second_port_interrupt,
  set_first_port_clock, set_second_port_clock, set_first_port_translation,
  get_first_port_interrupt, get_second_port_interrupt, get_first_port_clock,
  get_second_port_clock, get_first_port_translation in *.
Ltac config_byte := config_bits; repeat apply set_bit_range; assumption.

Lemma second_clock_set c v : get_second_port_clock (set_second_port_clock c v) = v.
Proof. config_bits. by rewrite config_get_bit, testbit_set_bit by lia. Qed.

Section run.
Context (se : bool) (t1 t2 : Z).
Notation C q cf p := (mk8042 se t1 t2 q cf p).
Implicit Types (log : list (list Z)).

(** Whether there is a second port is seen from its clock. *)
Lemma wp_detect cf log l (Q : bool -> list (list Z) * Bus i8042 -> Prop) :
  0 <= cf < 2 ^ 8 ->
  (forall l', Q se (if se
     then (log ++ [bytes_of_string "second port is supported."],
       mkBus (C [] (set_second_port_clock (set_second_port_interrupt
         (set_second_port_clock cf false) false) false) None) l')
     else (log, mkBus (C [] (set_second_port_clock cf true) None) l'))) ->
  wp (detect_second_port Controller_new) Q
    (log, mkBus (C [] (if se then cf else set_second_port_clock cf true) None) l).
Proof.
  intros Hcf HQ. unfold detect_second_port. wp_step. apply wp_zoom, wp_command_8042.
  intros l1. cbn [command_8042 Command_as_u8 second_exists config out_queue with_config pending snd fst].
  wp_step. apply wp_expect, wp_zoom.
  destruct se; cbn [fst snd first_test second_test pending second_exists].
  - apply wp_read_config; [config_byte|]. intros l2. eexists. split; [done|].
    rewrite second_clock_set. cbn [negb]. do 2 wp_step. apply wp_zoom. eapply wp_eq; [reflexivity|].
    wp_step. apply wp_zoom, wp_command_8042. intros l3.
    cbn [command_8042 Command_as_u8 with_config config first_test second_test pending second_exists
      out_queue fst snd].
    apply wp_expect, wp_zoom, wp_write_config. intros l4. eexists. split; [done|]. apply wp_ret, HQ.
  - apply wp_read_config; [config_byte|]. intros l2. eexists. split; [done|].
    rewrite second_clock_set. cbn [negb]. do 2 wp_step. wp_step. apply HQ.
Qed.

Lemma is_ok_tested t : is_ok (tested t) = (t =? 0).
Proof. unfold tested. by destruct (t =? 0). Qed.

(** The configuration byte from the interface tests on. *)
Definition detected_config (cf : Z) : Z :=
  let v := set_first_port_clock (set_first_port_translation (set_first_port_interrupt
    (set_second_port_clock (set_first_port_clock cf true) true) false) false) false in
  if se then set_second_port_clock (set_second_port_interrupt
    (set_second_port_clock v false) false) false else set_second_port_clock v true.

Lemma detected_range cf : 0 <= cf < 2 ^ 8 -> 0 <= detected_config cf < 2 ^ 8.
Proof. intros Hcf. unfold detected_config. destruct se; config_byte. Qed.

Lemma detected_set_up cf q p p' (w1 w2 : bool) : se = true -> w1 = (t1 =? 0) -> w2 = (t2 =? 0) ->
  set_up (C q cf p) (C [] (
    let v := if w1 then set_first_port_interrupt (detected_config cf) true else detected_config cf in
    if w2 then set_second_port_interrupt v true else v) p').
Proof.
  intros Hse E1 E2. unfold detected_config. subst se.
  split; cbn [out_queue config first_test second_test]; [done|rewrite <- E1, <- E2| | |];
    config_bits; cbn [config]; rewrite ?config_get_bit by lia; destruct w1, w2; cbv zeta.
  all: try (split; by rewrite !testbit_set_bit by lia).
  all: try (rewrite !testbit_set_bit by lia; reflexivity).
  all: intros i Hi; rewrite !elem_of_cons, elem_of_nil in Hi;
    destruct Hi as [->|[->|[->|[]]]]; by rewrite !testbit_set_bit by lia.
Qed.
End run.

Ltac on_port := apply runs_then, wp_zoom; cbn [fst snd].
Ltac on_port_ok := apply runs_then, wp_expect, wp_zoom; cbn [fst snd].
Ltac port_state := cbv [command_8042 Command_as_u8 second_exists first_test second_test config
  out_queue pending with_config with_queue with_pending fst snd].

(** Steps 10: the devices. *)
Definition reset_devices {L} `{Log L} {D} `{Device D} (second_port_works : bool) : M (L * Bus D) unit :=
  or_panic "failed to reset the keyboard"
    (on_machine (Ps2Keyboard.reset_and_self_test Controller_new)) ;;
  or_panic "failed to reset the mouse"
    (on_machine (Ps2Mouse.reset_and_self_test Controller_new)) ;;
  (if (second_port_works : bool) then
     or_panic "failed to enable data-reporting of the mouse"
       (on_machine (Ps2Mouse.enable_data_reporting Controller_new))
   else mret tt).

Lemma runs_reset_devices se t1 t2 cf works (log : list (list Z)) l (Q : unit -> _ -> Prop) R :
  (se = true -> forall l', Q tt (log, mkBus (mk8042 se t1 t2 [] cf None) l')) ->
  (se = false -> forall l', R (ExplicitPanic "failed to reset the mouse")
     (log, mkBus (mk8042 se t1 t2 [] cf None) l')) ->
  (works = true -> se = true) ->
  runs (reset_devices works) Q R (log, mkBus (mk8042 se t1 t2 [] cf None) l).
Proof.
  intros HQ HR Hw. unfold reset_devices. apply runs_then. unfold or_panic at 1. wp_step.
  apply wp_zoom, wp_keyboard_reset. intros l1. apply wp_ret. cbn [fst snd].
  destruct se.
  - apply runs_then. unfold or_panic at 1. wp_step. apply wp_zoom, wp_mouse_reset. intros l2.
    apply wp_ret. cbn [fst snd]. destruct works; [|by apply runs_ret, HQ]. unfold or_panic.
    apply runs_then, wp_zoom, wp_mouse_reporting; [done|]. intros l3. by apply runs_ret, HQ.
  - apply runs_bind. unfold or_panic at 1. apply runs_then, wp_zoom, wp_mouse_reset. intros l2.
    by apply HR.
Qed.

Lemma runs_init_8042 c log l (Q : unit -> list (list Z) * Bus i8042 -> Prop)
    (R : panic_info -> list (list Z) * Bus i8042 -> Prop) :
  left_8042 c ->
  (forall c' l', second_exists c = true -> set_up c c' ->
     Q tt (log ++ [bytes_of_string "second port is supported."], mkBus c' l')) ->
  (forall p, second_exists c = false -> R (ExplicitPanic "failed to reset the mouse") p) ->
  runs init Q R (log, mkBus c l).
Proof.
  destruct c as [se t1 t2 q cf pd]. intros [Hq Hcf H1 H2] HQ HR. cbn in Hq, Hcf, H1, H2, HQ, HR.
  unfold init. cbv zeta.
  on_port. apply wp_command_8042. intros l1. port_state.
  on_port. apply wp_command_8042. intros l2. port_state.
  on_port. apply wp_flush_8042; [done|]. intros l3. port_state.
  on_port_ok. apply wp_read_config; [config_byte|]. intros l4. eexists. split; [done|].
  on_port_ok. apply wp_write_config. intros l5. eexists. split; [done|].
  on_port_ok. apply wp_test_controller. intros l6. eexists. split; [done|].
  on_port_ok. apply wp_write_config. intros l7. eexists. split; [done|].
  apply runs_then, wp_detect; [config_byte|]. intros l8.
  match goal with |- runs _ _ _ (if se then (?la, mkBus ?ca _) else (_, mkBus ?cb _)) =>
    set (log' := if se then la else log);
    replace (if se then (la, mkBus ca l8) else (log, mkBus cb l8))
      with (log', mkBus (mk8042 se t1 t2 [] (detected_config se cf) None) l8)
      by (unfold log', detected_config; by destruct se) end.
  pose proof (detected_range se cf Hcf) as Hd.
  on_port. apply wp_test_first; [done|]. intros l9. rewrite is_ok_tested.
  apply runs_then. eapply (wp_mono _ (fun w p => w = se && (t2 =? 0) /\ exists l',
    p = (log', mkBus (mk8042 se t1 t2 [] (detected_config se cf) None) l'))).
  { destruct se; [|apply wp_ret; eauto]. wp_step. apply wp_zoom, wp_test_second; [done|].
    intros l'. apply wp_ret. rewrite is_ok_tested. eauto. }
  intros w p (-> & l10 & ->). cbn [fst snd].
  on_port_ok. apply wp_read_config; [done|]. intros l11. eexists. split; [done|]. cbn [fst snd].
  generalize (detected_set_up se t1 t2 cf q pd None (t1 =? 0) (t2 =? 0)). intros Hset.
  set (v1 := if t1 =? 0 then set_first_port_interrupt (detected_config se cf) true
    else detected_config se cf) in *.
  apply runs_then. eapply (wp_mono _ (fun v p => v = v1 /\ exists cf' l',
    p = (log', mkBus (mk8042 se t1 t2 [] cf' None) l'))).
  { unfold v1. destruct (t1 =? 0); [|apply wp_ret; eauto]. wp_step.
    apply wp_zoom, wp_command_8042. intros l'. port_state. apply wp_ret. eauto. }
  intros v p (-> & cf1 & l12 & ->).
  set (v2 := if se && (t2 =? 0) then set_second_port_interrupt v1 true else v1).
  apply runs_then. eapply (wp_mono _ (fun v p => v = v2 /\ exists cf' l',
    p = (log', mkBus (mk8042 se t1 t2 [] cf' None) l'))).
  { unfold v2. destruct (se && (t2 =? 0)) eqn:Ew; [|apply wp_ret; eauto]. wp_step.
    apply wp_zoom, wp_command_8042. intros l'. port_state.
    apply andb_true_iff in Ew as [-> _]. apply wp_ret. eauto. }
  intros v p (-> & cf2 & l13 & ->).
  on_port_ok. apply wp_write_config. intros l14. eexists. split; [done|]. cbn [fst snd].
  apply runs_reset_devices.
  - intros -> l15. apply HQ; [done|]. exact (Hset eq_refl eq_refl eq_refl).
  - intros -> l15. by apply HR.
  - by destruct se.
Qed.

(** A machine that was running: interrupts and translation on, a byte in the buffer. *)
Definition boot_8042 (second : bool) (t1 t2 : Z) : i8042 :=
  mk8042 second t1 t2 [0x1c] (if second then 0x47 else 0x65) None.

Lemma boot_8042_left second t1 t2 : 0 <= t1 < 2 ^ 8 -> 0 <= t2 < 2 ^ 8 ->
  left_8042 (boot_8042 second t1 t2).
Proof. intros H1 H2. by split; [simpl; lia|destruct second; cbn; lia|..]. Qed.

(** C12: on every 8042 whose keyboard and mouse acknowledge and pass their self tests,
    whatever its configuration byte, the results of its two interface tests and the bytes in
    its output buffer, up to the 1000 that the flush takes: with two ports [init] returns and
    leaves the output buffer empty, the interrupts enabled of exactly the ports that passed
    their tests, both clocks on, translation off, and the other bits of the
    configuration byte unchanged; with one port it panics, because the reset of the mouse is
    not skipped. *)
Theorem init_8042 c log l :
  left_8042 c ->
  match init (log, mkBus c l) with
  | Ret _ (log', b) =>
      second_exists c = true /\ log' = log ++ [bytes_of_string "second port is supported."] /\
      out_queue (bus_dev b) = [] /\ irqs (bus_dev b) = (first_test c =? 0, second_test c =? 0) /\
      get_first_port_clock (config (bus_dev b)) = false /\
      get_second_port_clock (config (bus_dev b)) = false /\
      get_first_port_translation (config (bus_dev b)) = false /\
      forall i, i ∈ [2; 3; 7] -> Z.testbit (config (bus_dev b)) i = Z.testbit (config c) i
  | Panic e _ => second_exists c = false /\ e = ExplicitPanic "failed to reset the mouse"
  | Diverges => False
  end.
Proof.
  intros Hc.
  assert (Hr : runs init (fun _ p => second_exists c = true /\
    p.1 = log ++ [bytes_of_string "second port is supported."] /\ set_up c (bus_dev p.2))
    (fun e _ => second_exists c = false /\ e = ExplicitPanic "failed to reset the mouse")
    (log, mkBus c l)) by (apply runs_init_8042; auto).
  unfold runs in Hr. destruct (init _) as [u [log' b]|e p|]; [|done..].
  destruct Hr as (Hs & Hl & [? ? [? ?] ? ?]). auto 10.
Qed.

(** A failed test of the second port, and a controller with one port. *)
Lemma init_8042_witness :
  match init ([], mkBus (boot_8042 true 0 3) []) with
  | Ret _ (_, b) => irqs (bus_dev b) = (true, false)
  | _ => False
  end /\
  match init ([], mkBus (boot_8042 false 0 0) []) with
  | Panic e _ => e = ExplicitPanic "failed to reset the mouse"
  | _ => False
  end.
Proof.
  split.
  - pose proof (init_8042 (boot_8042 true 0 3) [] []
      (boot_8042_left true 0 3 ltac:(lia) ltac:(lia))) as HI.
    destruct (init _) as [u [log b]|e p|]; [|destruct HI as [E _]; discriminate E|exact HI].
    destruct HI as (_ & _ & _ & E & _). exact E.
  - pose proof (init_8042 (boot_8042 false 0 0) [] []
      (boot_8042_left false 0 0 ltac:(lia) ltac:(lia))) as HI.
    destruct (init _) as [u [log b]|e p|]; [destruct HI as [E _]; discriminate E| |exact HI].
    destruct HI as [_ E]. exact E.
Defined.

Lemma init_handshake_witness :
  match init (L := list (list Z)) ([], mkBus (boot_8042 true 0 0) []) with
  | Ret _ p' => exists l, bus_log p'.2 = l /\ handshake l
  | _ => False
  end.
Proof.
  pose proof (init_handshake (L := list (list Z)) ([], mkBus (boot_8042 true 0 0) []) I) as HI.
  assert (E : match init (L := list (list Z)) ([], mkBus (boot_8042 true 0 0) []) with
    | Ret _ _ => True | _ => False end) by (vm_compute; exact I).
  destruct (init _) as [u p'|e p'|]; [|contradiction..]. exact HI.
Defined.
End Ps2.
