(* ===== verification/Ps2Embed.v ===== *)
(** The initialisation of the PS/2 controller inside a larger machine: where the two
    ports behave as an 8042, it runs as on the 8042 alone. *)

From S2P Require Import Prelude Machine External Simulation Logger Ps2Controller.
From S2P Require Import Ps2Keyboard Ps2Mouse Ps2.

Module Ps2Embed.
Import Logger Ps2Controller.
#[local] Existing Instance Ps2.device_8042.

(** * Specification *)

(** An access to the data or the command and status port. *)
Definition ps2_read (op : read_op) : bool :=
  match op with In8 p => (p =? 0x60) || (p =? 0x64) | _ => false end.
Definition ps2_write (op : write_op) : bool :=
  match op with Out8 p _ => (p =? 0x60) || (p =? 0x64) | _ => false end.

(** A machine with an 8042 in it: [port] is its state, which other accesses leave alone. *)
Record has_8042 {D} `{Device D} (port : D -> Ps2.i8042) : Prop := {
  h8_read op d : ps2_read op = true ->
    (dev_read op d).1 = (dev_read op (port d)).1 /\ port (dev_read op d).2 = (dev_read op (port d)).2;
  h8_write op d : ps2_write op = true -> port (dev_write op d) = dev_write op (port d);
  h8_other_read op d : ps2_read op = false -> port (dev_read op d).2 = port d;
  h8_other_write op d : ps2_write op = false -> port (dev_write op d) = port d
}.

(** * Lemmas *)

Section bus.
Context {D : Type} `{Device D} (port : D -> Ps2.i8042).
Hypothesis Hport : has_8042 port.

(** The machine against its 8042: the same state and the same accesses, after the
    accesses [base] made before. *)
Definition bus_rel (base : list io_event) (b : Bus D) (c : Bus Ps2.i8042) : Prop :=
  port (bus_dev b) = bus_dev c /\ bus_log b = base ++ bus_log c.
Context (base : list io_event).
Notation R := (bus_rel base).

Lemma sim_read op : ps2_read op = true -> sim R (io_read op) (io_read op).
Proof.
  intros Hop b c [Hp Hl]. unfold io_read. destruct (h8_read _ Hport op (bus_dev b) Hop) as [E1 E2].
  rewrite Hp in E1, E2.
  destruct (dev_read op (bus_dev b)) as [v d], (dev_read op (bus_dev c)) as [v' d']. simpl in *.
  subst v'. split; [done|]. split; [done|]. cbn [bus_log]. by rewrite Hl, <- (assoc_L (++)).
Qed.

Lemma sim_write op : ps2_write op = true -> sim R (io_write op) (io_write op).
Proof.
  intros Hop b c [Hp Hl]. split; [done|]. split; cbn [bus_dev bus_log].
  - by rewrite (h8_write _ Hport op _ Hop), Hp.
  - by rewrite Hl, <- (assoc_L (++)).
Qed.

Lemma sim_status : sim R (read_status Controller_new) (read_status Controller_new).
Proof. apply sim_bind; [by apply sim_read|]. intros v. apply sim_ret. Qed.

Lemma sim_command c : sim R (write_command Controller_new c) (write_command Controller_new c).
Proof. by apply sim_write. Qed.

Lemma sim_wait_loop fuel ready count :
  sim R (wait_loop fuel Controller_new ready count) (wait_loop fuel Controller_new ready count).
Proof.
  revert count. induction fuel as [|fuel IH]; intros count; [apply sim_diverge|].
  cbn [wait_loop]. case_match; [|apply sim_ret]. apply sim_bind; [apply sim_status|].
  intros s. case_match; [apply sim_ret|]. apply sim_bind; [apply sim_checked|]. intros n. apply IH.
Qed.

Lemma sim_read_data : sim R (read_data Controller_new) (read_data Controller_new).
Proof.
  apply sim_bind_try; [apply sim_wait_loop|]. intros _.
  apply sim_bind; [by apply sim_read|]. intros v. apply sim_ret.
Qed.

Lemma sim_write_data v : sim R (write_data Controller_new v) (write_data Controller_new v).
Proof.
  apply sim_bind_try; [apply sim_wait_loop|]. intros _.
  apply sim_bind; [by apply sim_write|]. intros _. apply sim_ret.
Qed.

Lemma sim_flush : sim R (flush_data_port Controller_new) (flush_data_port Controller_new).
Proof.
  unfold flush_data_port. generalize (wait_fuel Controller_new), 0.
  intros fuel. induction fuel as [|fuel IH]; intros count; [apply sim_diverge|].
  cbn [flush_loop]. apply sim_bind; [apply sim_status|]. intros s.
  case_match; [|apply sim_ret]. apply sim_bind; [apply sim_read_data|]. intros r.
  apply sim_bind; [apply sim_checked|]. intros n. apply IH.
Qed.

Lemma sim_from_u8 code : sim R (Ps2Keyboard.Response_from_u8 code)
  (Ps2Keyboard.Response_from_u8 code).
Proof. unfold Ps2Keyboard.Response_from_u8. repeat case_match; first [apply sim_ret|apply sim_panic]. Qed.
End bus.

Create HintDb sim discriminated.
#[local] Hint Resolve sim_ret sim_status sim_command sim_read_data sim_write_data sim_flush
  sim_from_u8 : sim.

(** Related runs of the same program text. *)
Ltac sim_step :=
  lazymatch goal with
  | |- sim _ (bind_try _ _) (bind_try _ _) => apply sim_bind_try; [|intros ?]
  | |- sim _ (mbind _ _) (mbind _ _) => apply sim_bind; [|intros ?]
  | |- sim _ (map_err _ _) (map_err _ _) => apply sim_map_err
  | |- sim _ (expect _ _) (expect _ _) => apply sim_expect
  | |- sim _ (if _ then _ else _) _ => case_match
  | |- sim _ (match _ with _ => _ end) _ => case_match
  | |- _ => solve [eauto with sim]
  end.

Section devices.
Context {D : Type} `{Device D} (port : D -> Ps2.i8042).
Hypothesis Hport : has_8042 port.
Context (base : list io_event).
Notation R := (bus_rel port base).
#[local] Hint Resolve Hport : sim.

Ltac sims := repeat sim_step.

Lemma sim_read_config :
  sim R (read_config_byte Controller_new) (read_config_byte Controller_new).
Proof. unfold read_config_byte. sims. Qed.
Lemma sim_write_config c :
  sim R (write_config_byte Controller_new c) (write_config_byte Controller_new c).
Proof. unfold write_config_byte. sims. Qed.
Lemma sim_test_controller :
  sim R (test_controller Controller_new) (test_controller Controller_new).
Proof. unfold test_controller. sims. Qed.
Lemma sim_test_first : sim R (test_first_port Controller_new) (test_first_port Controller_new).
Proof. unfold test_first_port. sims. Qed.
Lemma sim_test_second :
  sim R (test_second_port Controller_new) (test_second_port Controller_new).
Proof. unfold test_second_port. sims. Qed.
Lemma sim_second_input v : sim R (write_to_second_port_input_buffer Controller_new v)
  (write_to_second_port_input_buffer Controller_new v).
Proof. unfold write_to_second_port_input_buffer. sims. Qed.

Lemma sim_keyboard_response :
  sim R (Ps2Keyboard.read_response Controller_new) (Ps2Keyboard.read_response Controller_new).
Proof. unfold Ps2Keyboard.read_response. sims. Qed.
#[local] Hint Resolve sim_second_input sim_keyboard_response : sim.

Lemma sim_keyboard_command c v : sim R (Ps2Keyboard.write_command Controller_new c v)
  (Ps2Keyboard.write_command Controller_new c v).
Proof. unfold Ps2Keyboard.write_command. sims. Qed.
#[local] Hint Resolve sim_keyboard_command : sim.

Lemma sim_keyboard_reset : sim R (Ps2Keyboard.reset_and_self_test Controller_new)
  (Ps2Keyboard.reset_and_self_test Controller_new).
Proof. unfold Ps2Keyboard.reset_and_self_test. sims. Qed.

Lemma sim_mouse_response :
  sim R (Ps2Mouse.read_response Controller_new) (Ps2Mouse.read_response Controller_new).
Proof. unfold Ps2Mouse.read_response. sims. Qed.
#[local] Hint Resolve sim_mouse_response : sim.

Lemma sim_mouse_command c v : sim R (Ps2Mouse.write_command Controller_new c v)
  (Ps2Mouse.write_command Controller_new c v).
Proof. unfold Ps2Mouse.write_command. sims. Qed.
#[local] Hint Resolve sim_mouse_command : sim.

Lemma sim_mouse_reset : sim R (Ps2Mouse.reset_and_self_test Controller_new)
  (Ps2Mouse.reset_and_self_test Controller_new).
Proof. unfold Ps2Mouse.reset_and_self_test, Ps2Mouse.Mouse_read_data. sims. Qed.
Lemma sim_mouse_reporting : sim R (Ps2Mouse.enable_data_reporting Controller_new)
  (Ps2Mouse.enable_data_reporting Controller_new).
Proof. unfold Ps2Mouse.enable_data_reporting. sims. Qed.

(** ** [init], with any console that prints against the list of lines *)
Section init.
Context {L : Type} `{LogLaws L}.

Definition init_rel (p : L * Bus D) (q : list (list Z) * Bus Ps2.i8042) : Prop :=
  log_ready p.1 /\ R p.2 q.2.

Lemma sim_machine {A} (m1 : M (Bus D) A) m2 :
  sim R m1 m2 -> sim init_rel (Ps2.on_machine m1) (Ps2.on_machine m2).
Proof.
  apply sim_zoom; [by intros p q []|]. intros p q b c [Hl _] Hr. by split.
Qed.

Lemma sim_print t : ascii_string t = true ->
  sim init_rel (Ps2.kprint_line t) (Ps2.kprint_line t).
Proof.
  intros Ht p q [Hl Hr]. unfold Ps2.kprint_line, zoom.
  pose proof (log_line_ready (msg t) p.1 Hl (msg_ascii t Ht)) as Hw. unfold wp in Hw.
  destruct (log_line (msg t) p.1) as [[] l|e l|]; [|done..]. simpl. split; [done|]. by split.
Qed.

Lemma sim_or_panic {A E} what (m1 : M (L * Bus D) (result A E)) m2 :
  sim init_rel m1 m2 -> sim init_rel (Ps2.or_panic what m1) (Ps2.or_panic what m2).
Proof. intros Hm. apply sim_bind; [done|]. intros [a|e]; [apply sim_ret|apply sim_panic]. Qed.

#[local] Hint Resolve sim_read_config sim_write_config sim_test_controller sim_test_first
  sim_test_second sim_keyboard_reset sim_mouse_reset sim_mouse_reporting : sim.
Ltac init_sim :=
  lazymatch goal with
  | |- sim _ (Ps2.on_machine _) _ => apply sim_machine
  | |- sim _ (Ps2.or_panic _ _) _ => apply sim_or_panic
  | |- sim _ (Ps2.kprint_line _) _ => by apply sim_print
  | |- _ => sim_step
  end.

Lemma sim_init : sim init_rel Ps2.init Ps2.init.
Proof. unfold Ps2.init, Ps2.detect_second_port. repeat init_sim. Qed.

(** On any machine, [init] leaves of the 8042 what it leaves of it alone. *)
Lemma wp_ps2_init (p : L * Bus D) (Q : unit -> L * Bus D -> Prop) :
  bus_log p.2 = base -> log_ready p.1 ->
  Ps2.left_8042 (port (bus_dev p.2)) -> Ps2.second_exists (port (bus_dev p.2)) = true ->
  (forall l b, log_ready l -> Ps2.set_up (port (bus_dev p.2)) (port (bus_dev b)) -> Q tt (l, b)) ->
  wp Ps2.init Q p.
Proof.
  intros Hb Hl Hc Hse HQ.
  pose proof (sim_init p ([], mkBus (port (bus_dev p.2)) [])) as Hs.
  specialize (Hs ltac:(split; [done|]; split; [done|]; by rewrite Hb, app_nil_r)).
  assert (Hret : runs Ps2.init (fun _ q => Ps2.set_up (port (bus_dev p.2)) (bus_dev q.2))
    (fun _ _ => False) ([], mkBus (port (bus_dev p.2)) []))
    by (apply Ps2.runs_init_8042; [done|auto|congruence]).
  unfold runs, wp in *.
  destruct (Ps2.init ([], _)) as [[] [l' c]|e' [l' c]|]; [|done..].
  destruct (Ps2.init p) as [[] [l b]|e [l b]|]; [|done..].
  destruct Hs as (_ & Hl' & Hport' & _). cbn [fst snd] in *. apply HQ; [done|].
  by rewrite Hport'.
Qed.
End init.
End devices.
End Ps2Embed.
