(* ===== verification/Apic.v ===== *)
(** Model-specific registers and the local and I/O APIC
    (kernel/src/arch.rs): register accesses as events of the machine, and the
    redirection table an I/O APIC holds after a sequence of writes. *)

From S2P Require Import Prelude Machine.

Module Apic.

Section operations.
Context {D : Type} `{Device D}.
Notation AM := (M (Bus D)).

(** [rdmsr] and [wrmsr] split the value over two 32-bit registers. *)
Definition read_msr (msr : Z) : AM Z :=
  v ← io_read (Rdmsr msr);
  let high := ushr v 32 in
  let low := as_u 32 v in
  mret (Z.lor (ushl 64 high 32) low).

Definition write_msr (msr value : Z) : AM unit :=
  let low := as_u 32 value in
  let high := as_u 32 (ushr value 32) in
  io_write (Wrmsr msr (Z.lor (ushl 64 high 32) low)).

(** ** The local APIC: its registers are words at byte offsets of [ptr] *)

Record LocalApic : Type := mkLocalApic { la_ptr : Z }.
Definition LocalApic_new (base_addr : Z) : LocalApic := mkLocalApic base_addr.

(** [(self.ptr as *mut u32).add(offset)]. *)
Definition register_addr (self : LocalApic) (offset : Z) : Z := la_ptr self + 4 * offset.

Definition LocalApic_write (self : LocalApic) (offset value : Z) : AM unit :=
  io_write (Store32 (register_addr self offset) value).
Definition LocalApic_read (self : LocalApic) (offset : Z) : AM Z :=
  io_read (Load32 (register_addr self offset)).

Definition write_task_priority_register self value : AM unit :=
  LocalApic_write self (0x80 / 4) value.
Definition write_end_of_interrupt_register self value : AM unit :=
  LocalApic_write self (0xb0 / 4) value.
Definition write_spurious_interrupt_vector_register self value : AM unit :=
  LocalApic_write self (0xf0 / 4) value.
Definition write_error_status_register self value : AM unit :=
  LocalApic_write self (0x280 / 4) value.
Definition write_interrupt_command_register_low self value : AM unit :=
  LocalApic_write self (0x300 / 4) value.
Definition read_interrupt_command_register_low self : AM Z :=
  LocalApic_read self (0x300 / 4).
Definition write_interrupt_command_register_high self value : AM unit :=
  LocalApic_write self (0x310 / 4) value.
Definition write_lvt_timer_register self value : AM unit :=
  LocalApic_write self (0x320 / 4) value.
Definition write_lvt_performance_monitoring_counters_register self value : AM unit :=
  LocalApic_write self (0x340 / 4) value.
Definition write_lvt_lint0_register self value : AM unit :=
  LocalApic_write self (0x350 / 4) value.
Definition write_lvt_lint1_register self value : AM unit :=
  LocalApic_write self (0x360 / 4) value.
Definition write_lvt_error_register self value : AM unit :=
  LocalApic_write self (0x370 / 4) value.
Definition write_initial_count_register_for_timer self value : AM unit :=
  LocalApic_write self (0x380 / 4) value.
Definition write_current_count_register_for_timer self value : AM unit :=
  LocalApic_write self (0x390 / 4) value.
Definition read_current_count_register_for_timer self : AM Z :=
  LocalApic_read self (0x390 / 4).
Definition write_divide_config_register_for_timer self value : AM unit :=
  LocalApic_write self (0x3e0 / 4) value.

(** ** The I/O APIC: an index register and, three words further, a data register *)

Record IoApic : Type := mkIoApic { io_ptr : Z }.
Definition IoApic_new (base_addr : Z) : IoApic := mkIoApic base_addr.

Definition reg_addr (self : IoApic) : Z := io_ptr self.
Definition data_addr (self : IoApic) : Z := io_ptr self + 4 + 3 * 4.

Definition IoApic_read (self : IoApic) (reg : Z) : AM Z :=
  io_write (Store32 (reg_addr self) reg) ;; io_read (Load32 (data_addr self)).
Definition IoApic_write (self : IoApic) (reg data : Z) : AM unit :=
  io_write (Store32 (reg_addr self) reg) ;; io_write (Store32 (data_addr self) data).

Definition set_redirection_entry_at (self : IoApic) (index value : Z) : AM unit :=
  twice ← umul 32 2 index;
  low_reg ← uadd 32 0x10 twice;
  IoApic_write self low_reg (as_u 32 value) ;;
  twice ← umul 32 2 index;
  reg ← uadd 32 0x10 twice;
  high_reg ← uadd 32 reg 1;
  IoApic_write self high_reg (as_u 32 (ushr value 32)).

Definition get_max_amount_of_redirection_entries (self : IoApic) : AM Z :=
  v ← IoApic_read self 0x1; mret (Z.land (ushr v 16) 0xff).
Definition get_id (self : IoApic) : AM Z :=
  v ← IoApic_read self 0x0; mret (as_u 8 (Z.land (ushr v 24) 0xf)).
End operations.

(** * Specification: the register file of an I/O APIC *)

Record io_apic_state : Type := mkIoApicState { selected : Z; registers : gmap Z Z }.

Definition io_apic_step (base : Z) (s : io_apic_state) (w : write_op) : io_apic_state :=
  match w with
  | Store32 a v =>
      if a =? base then mkIoApicState v (registers s)
      else if a =? base + 16 then mkIoApicState (selected s) (<[selected s := v]> (registers s))
      else s
  | _ => s
  end.

Definition io_apic_run (base : Z) (s : io_apic_state) (ws : list write_op) : io_apic_state :=
  foldl (io_apic_step base) s ws.

(** The 64-bit redirection entry of an interrupt line. *)
Definition redirection_entry (s : io_apic_state) (index : Z) : option Z :=
  lo ← registers s !! (0x10 + 2 * index);
  hi ← registers s !! (0x10 + 2 * index + 1);
  Some (hi * 2 ^ 32 + lo).

(** The writes of [set_redirection_entry_at]. *)
Definition entry_writes (base index value : Z) : list write_op := [
  Store32 base (0x10 + 2 * index); Store32 (base + 16) (as_u 32 value);
  Store32 base (0x10 + 2 * index + 1); Store32 (base + 16) (as_u 32 (ushr value 32))].

(** * Lemmas *)

Lemma split_join v : 0 <= v < 2 ^ 64 ->
  Z.lor (ushl 64 (as_u 32 (ushr v 32)) 32) (as_u 32 v) = v.
Proof.
  intros Hv. unfold ushl, ushr. rewrite Z.shiftl_mul_pow2, Z.shiftr_div_pow2 by lia.
  pose proof (as_u_range 32 (v / 2 ^ 32) ltac:(lia)) as Hh.
  pose proof (as_u_range 32 v ltac:(lia)) as Hl.
  rewrite (as_u_small 64) by lia. rewrite lor_add by lia. unfold as_u. zlia.
Qed.

Lemma io_apic_run_entry base s index value :
  0 <= index -> 0 <= value < 2 ^ 64 ->
  registers (io_apic_run base s (entry_writes base index value)) =
    <[0x10 + 2 * index + 1 := value / 2 ^ 32]>
      (<[0x10 + 2 * index := value mod 2 ^ 32]> (registers s)).
Proof.
  intros Hi Hv. unfold io_apic_run, entry_writes. simpl foldl. unfold io_apic_step.
  rewrite !Z.eqb_refl. replace (base + 16 =? base) with false by lia.
  simpl. unfold ushr. rewrite Z.shiftr_div_pow2 by lia.
  rewrite (as_u_small 32 (value / 2 ^ 32)) by zlia. done.
Qed.

Lemma redirection_after base s index value i :
  0 <= index -> 0 <= i -> 0 <= value < 2 ^ 64 ->
  redirection_entry (io_apic_run base s (entry_writes base index value)) i =
    if i =? index then Some value else redirection_entry s i.
Proof.
  intros Hi0 Hi Hv. unfold redirection_entry. rewrite io_apic_run_entry by done.
  destruct (Z.eqb_spec i index) as [->|Hne].
  - rewrite (lookup_insert_ne _ (16 + 2 * index + 1) (16 + 2 * index)) by lia.
    rewrite lookup_insert_eq. simpl.
    rewrite lookup_insert_eq. simpl. f_equal. zlia.
  - rewrite !lookup_insert_ne by lia. done.
Qed.

Lemma io_apic_run_app base s ws1 ws2 :
  io_apic_run base s (ws1 ++ ws2) = io_apic_run base (io_apic_run base s ws1) ws2.
Proof. apply foldl_app. Qed.

Section lemmas.
Context {D : Type} `{Device D}.

Lemma wp_set_redirection self index value (b : Bus D) (Q : unit -> Bus D -> Prop) :
  0 <= index < 2 ^ 30 ->
  (forall b', bus_log b' = bus_log b ++ map EvWrite (entry_writes (io_ptr self) index value) ->
     Q tt b') ->
  wp (set_redirection_entry_at self index value) Q b.
Proof.
  intros Hi HQ. unfold set_redirection_entry_at, IoApic_write.
  io_steps; try lia. apply HQ. cbn [bus_log]. rewrite <- !(assoc_L (++)).
  unfold data_addr, reg_addr, entry_writes.
  replace (io_ptr self + 4 + 3 * 4) with (io_ptr self + 16) by lia. done.
Qed.
End lemmas.
End Apic.
