(* ===== verification/Acpi.v ===== *)
(** The ACPI tables (kernel/src/acpi.rs): validation of the RSDP and the XSDT, the
    search for the FADT and the MADT, and what the kernel keeps of the MADT.

    Tables are read through raw pointers, whose targets are the memory the firmware
    left; the layouts and checks of the [acpi] crate are a type class. *)

From S2P Require Import Prelude External Console Logger.

Module Acpi.
Import Logger.

(** * The [acpi] crate *)

(** The errors the code names, and the others. *)
Inductive AcpiError : Type :=
  | RsdpIncorrectSignature | RsdpInvalidOemId | RsdpInvalidChecksum
  | SdtInvalidSignature | SdtInvalidOemId | SdtInvalidTableId | SdtInvalidChecksum
  | OtherError.

Inductive Signature : Type := XSDT | FADT_signature | MADT_signature.

Record LocalApicEntry : Type := mkLocalApicEntry { processor_id_field : Z; apic_id : Z }.
Record IoApicEntry : Type := mkIoApicEntry {
  io_apic_id_field : Z;
  io_apic_address : Z
}.
Inductive MadtEntry : Type :=
  | MadtLocalApic (e : LocalApicEntry)
  | MadtIoApic (e : IoApicEntry)
  | MadtOther.

Record Madt : Type := mkMadt { local_apic_address : Z; madt_entries : list MadtEntry }.

(** The firmware's memory as the crate reads it: what is found at an address. *)
Class AcpiApi := {
  Fadt : Type;
  rsdp_validate : Z -> result unit AcpiError;
  rsdp_revision : Z -> Z;
  rsdp_xsdt_address : Z -> Z;
  rsdp_signature : Z -> list Z;
  rsdp_oem_id : Z -> list Z;
  size_of_SdtHeader : Z;
  header_length : Z -> Z;
  header_validate : Z -> Signature -> result unit AcpiError;
  signature_text : Z -> list Z;
  fadt_at : Z -> Fadt;
  madt_at : Z -> Madt;
  load_u64 : Z -> Z
}.

(** * The program *)

Record ApicInfo : Type := mkApicInfo {
  local_apic_base : Z;
  local_apic : LocalApicEntry;
  io_apic : IoApicEntry
}.

Definition io_apic_base (self : ApicInfo) : Z := io_apic_address (io_apic self).
Definition io_apic_id (self : ApicInfo) : Z := io_apic_id_field (io_apic self).
Definition processor_id (self : ApicInfo) : Z := processor_id_field (local_apic self).

(** [find_map] over the entries of the MADT. *)
Definition find_io_apic (l : list MadtEntry) : option IoApicEntry :=
  head (omap (fun e => match e with MadtIoApic o => Some o | _ => None end) l).
Definition find_local_apic (l : list MadtEntry) : option LocalApicEntry :=
  head (omap (fun e => match e with MadtLocalApic o => Some o | _ => None end) l).

Definition expect_some {S A} (what : string) (o : option A) : M S A :=
  match o with Some a => mret a | None => panic (UnwrapFailed what) end.

Definition from_madt {S} (madt : Madt) : M S ApicInfo :=
  io_apic_entry ← expect_some "The entry about the I/O APIC wasn't found from the MADT"
    (find_io_apic (madt_entries madt));
  local_apic_entry ← expect_some "The entry about the Local APIC wasn't found from the MADT"
    (find_local_apic (madt_entries madt));
  mret (mkApicInfo (local_apic_address madt) local_apic_entry io_apic_entry).

Section init.
Context `{AcpiApi} {once : Type -> Type} `{SpinOnce once} {L : Type} `{Log L}.

(** The two statics and the console. *)
Record AcpiState : Type := mkAcpiState {
  FADT : once Fadt;
  APIC_INFO : once ApicInfo;
  acpi_log : L
}.
Notation AM := (M AcpiState).

Definition kprintln (pieces : list (list Z)) : AM unit :=
  zoom acpi_log (fun l s => mkAcpiState (FADT s) (APIC_INFO s) l) (log_line pieces).
Definition text (s : string) : list Z := bytes_of_string s.

(** [panic!()]. *)
Definition explicit_panic {A} : AM A := panic (ExplicitPanic "explicit panic").

Definition rsdp_is_valid (rsdp : Z) : AM bool :=
  match rsdp_validate rsdp with
  | Err RsdpIncorrectSignature =>
      kprintln [text "invalid signature: "; rsdp_signature rsdp] ;; mret false
  | Err RsdpInvalidOemId =>
      kprintln [text "invalid oem id: "; rsdp_oem_id rsdp] ;; mret false
  | Err RsdpInvalidChecksum => kprintln [text "invalid checksum."] ;; mret false
  | Err _ => kprintln [text "unreachable!"] ;; explicit_panic
  | Ok _ =>
      if negb (rsdp_revision rsdp =? 2) then
        kprintln [text "ACPI revision must be 2: "; fmt_dec_u8 (rsdp_revision rsdp)] ;;
        mret false
      else mret true
  end.

(** [count]: the length field counts the header. *)
Definition Xsdt_count (xsdt : Z) : AM Z :=
  bytes ← usub 64 (header_length xsdt) size_of_SdtHeader;
  mret (bytes / 8).

(** [get]: the unaligned pointer after the header. *)
Definition Xsdt_get (xsdt i : Z) : Z := load_u64 (xsdt + size_of_SdtHeader + 8 * i).

Definition Xsdt_is_valid (xsdt : Z) : AM bool :=
  match header_validate xsdt XSDT with
  | Err SdtInvalidSignature =>
      kprintln [text "invalid signature: "; signature_text xsdt] ;; mret false
  | Err SdtInvalidOemId => kprintln [text "invalid oem id"] ;; mret false
  | Err SdtInvalidTableId => kprintln [text "invalid table id"] ;; mret false
  | Err SdtInvalidChecksum => kprintln [text "invalid checksum:"] ;; mret false
  | Err _ => kprintln [text "unreachable!"] ;; explicit_panic
  | Ok _ => mret true
  end.

(** The loop over the entries: the pointers to the FADT and the MADT. *)
Fixpoint find_tables (xsdt : Z) (is_ : list Z) (fadt_ptr madt_ptr : Z) : Z * Z :=
  match is_ with
  | [] => (fadt_ptr, madt_ptr)
  | i :: rest =>
      let entry := Xsdt_get xsdt i in
      let fadt_ptr := if is_ok (header_validate entry FADT_signature)
                      then entry else fadt_ptr in
      let madt_ptr := if is_ok (header_validate entry MADT_signature)
                      then entry else madt_ptr in
      find_tables xsdt rest fadt_ptr madt_ptr
  end.

(** The end of [init]: the two cells. *)
Definition store_tables (fadt_ptr madt_ptr : Z) : AM unit :=
  kprintln [text "FADT is found: 0x"; fmt_hex fadt_ptr] ;;
  modify (fun s => mkAcpiState (once_call (FADT s) (fadt_at fadt_ptr)) (APIC_INFO s)
    (acpi_log s)) ;;
  kprintln [text "MADT is found: 0x"; fmt_hex madt_ptr] ;;
  (* [call_once] runs its closure only if the cell is empty *)
  s ← get_st;
  match once_get (APIC_INFO s) with
  | Some _ => mret tt
  | None =>
      info ← from_madt (madt_at madt_ptr);
      modify (fun s => mkAcpiState (FADT s) (once_call (APIC_INFO s) info) (acpi_log s))
  end.

(** [init] from the search of the XSDT on. *)
Definition load_tables (xsdt : Z) : AM unit :=
  count ← Xsdt_count xsdt;
  let '(fadt_ptr, madt_ptr) := find_tables xsdt (range 0 count) 0 0 in
  (if fadt_ptr =? 0 then kprintln [text "FADT isn't found."] ;; explicit_panic
   else mret tt) ;;
  (if madt_ptr =? 0 then kprintln [text "MADT isn't found."] ;; explicit_panic
   else mret tt) ;;
  store_tables fadt_ptr madt_ptr.

Definition init (rsdp_addr : Z) : AM unit :=
  let rsdp := rsdp_addr in
  valid ← rsdp_is_valid rsdp;
  (if negb (valid : bool) then kprintln [text "RSDP isn't valid."] ;; explicit_panic
   else mret tt) ;;
  let xsdt := rsdp_xsdt_address rsdp in
  valid ← Xsdt_is_valid xsdt;
  (if negb (valid : bool) then kprintln [text "XSDT is not valid."] ;; explicit_panic
   else mret tt) ;;
  load_tables xsdt.

Definition get_fadt : AM Fadt :=
  s ← get_st;
  expect_some "acpi::get_fadt is called before calling acpi::init." (once_get (FADT s)).
Definition get_apic_info : AM ApicInfo :=
  s ← get_st;
  expect_some "acpi::get_apic_info is called before calling acpi::init."
    (once_get (APIC_INFO s)).
End init.
Arguments AcpiState {_} _ _.

(** * Specification *)

Section spec.
Context `{AcpiApi}.

(** The entries of the XSDT, and the last one that validates as a table. *)
Definition xsdt_entries (xsdt : Z) : list Z :=
  map (Xsdt_get xsdt) (range 0 ((header_length xsdt - size_of_SdtHeader) / 8)).
Definition last_valid (sig : Signature) (entries : list Z) : option Z :=
  last (filter (fun e => is_ok (header_validate e sig) = true) entries).

(** The firmware passes every check up to the length of the XSDT. *)
Definition xsdt_ok (rsdp : Z) : bool :=
  is_ok (rsdp_validate rsdp) && (rsdp_revision rsdp =? 2) &&
  is_ok (header_validate (rsdp_xsdt_address rsdp) XSDT) &&
  in_range 64 (header_length (rsdp_xsdt_address rsdp) - size_of_SdtHeader).

(** What is kept of the tables at two addresses. *)
Definition kept_tables (f m : Z) : option (Fadt * ApicInfo) :=
  io ← find_io_apic (madt_entries (madt_at m));
  la ← find_local_apic (madt_entries (madt_at m));
  Some (fadt_at f, mkApicInfo (local_apic_address (madt_at m)) la io).

(** What [init] should find, if anything. *)
Definition acpi_tables (rsdp : Z) : option (Fadt * ApicInfo) :=
  if xsdt_ok rsdp then
    let entries := xsdt_entries (rsdp_xsdt_address rsdp) in
    f ← last_valid FADT_signature entries;
    m ← last_valid MADT_signature entries;
    if (f =? 0) || (m =? 0) then None else kept_tables f m
  else None.

(** The text fields the messages print. *)
Definition text_ok (rsdp : Z) : Prop :=
  Console.is_ascii (rsdp_signature rsdp) /\ Console.is_ascii (rsdp_oem_id rsdp) /\
  Console.is_ascii (signature_text (rsdp_xsdt_address rsdp)).
End spec.

(** * Lemmas *)

Section lemmas.
Context `{AcpiApi} {once : Type -> Type} `{SpinOnceLaws once} {L : Type} `{LogLaws L}.
Notation St := (AcpiState once L).
Implicit Types s : St.

(** [s'] differs from [s] at most in the text on the console. *)
Definition same_tables s s' : Prop := FADT s' = FADT s /\ APIC_INFO s' = APIC_INFO s.

Lemma kprintln_ret pieces s :
  log_ready (acpi_log s) -> Forall Console.is_ascii pieces ->
  exists s', kprintln pieces s = Ret tt s' /\ log_ready (acpi_log s') /\ same_tables s s'.
Proof.
  intros Hs Hp. pose proof (log_line_ready pieces (acpi_log s) Hs Hp) as Hw.
  unfold kprintln, zoom, wp in *.
  destruct (log_line pieces (acpi_log s)) as [[] l|e l|]; [|done..].
  eexists. split; [done|]. by repeat split.
Qed.

Lemma literal_ascii t : ascii_string t = true -> Console.is_ascii (text t).
Proof. intros Ht. pose proof (msg_ascii t Ht) as Hm. by inversion Hm. Qed.

(** A message followed by [panic!()], or by a value. *)
Lemma kprintln_then {A} pieces s (k : unit -> M St A) :
  log_ready (acpi_log s) -> Forall Console.is_ascii pieces ->
  exists s', (kprintln pieces ≫= k) s = k tt s' /\ log_ready (acpi_log s') /\ same_tables s s'.
Proof.
  intros Hs Hp. destruct (kprintln_ret pieces s Hs Hp) as (s' & E & Hr & Hst).
  exists s'. split; [|done]. by rewrite (bind_Ret _ _ _ _ _ E).
Qed.

(** The outcome of a check: it holds, or the run panics. *)
Definition checks (b : bool) (m : M St bool) : Prop := forall s, log_ready (acpi_log s) ->
  exists s', log_ready (acpi_log s') /\ same_tables s s' /\
    (m s = Ret b s' \/ b = false /\ exists e, m s = Panic e s').

Lemma checks_print pieces (k : unit -> M St bool) b :
  Forall Console.is_ascii pieces ->
  (forall s, k tt s = Ret b s \/ b = false /\ exists e, k tt s = Panic e s) ->
  checks b (kprintln pieces ≫= k).
Proof.
  intros Hp Hk s Hs. destruct (kprintln_then pieces s k Hs Hp) as (s' & E & Hr & Hst).
  exists s'. rewrite E. auto.
Qed.

Lemma checks_ret b : checks b (mret b).
Proof. intros s Hs. exists s. split; [done|]. split; [by split|]. by left. Qed.

Ltac ascii_pieces :=
  repeat constructor; first [by apply literal_ascii | done | apply fmt_dec_ascii].
Ltac check :=
  first [ apply checks_ret
        | apply checks_print; [ascii_pieces|intros; first [by left|right; eauto]] ].

Lemma rsdp_checks rsdp : text_ok rsdp ->
  checks (is_ok (rsdp_validate rsdp) && (rsdp_revision rsdp =? 2)) (rsdp_is_valid rsdp).
Proof.
  intros (Ht1 & Ht2 & _). unfold rsdp_is_valid.
  destruct (rsdp_validate rsdp) as [u|[]]; simpl andb; try check.
  destruct (rsdp_revision rsdp =? 2); simpl negb; cbv iota; check.
Qed.

Lemma xsdt_checks rsdp : text_ok rsdp ->
  checks (is_ok (header_validate (rsdp_xsdt_address rsdp) XSDT))
    (Xsdt_is_valid (rsdp_xsdt_address rsdp)).
Proof.
  intros (_ & _ & Ht). unfold Xsdt_is_valid.
  destruct (header_validate (rsdp_xsdt_address rsdp) XSDT) as [u|[]]; simpl is_ok; check.
Qed.

(** A check followed by [if !valid { kprintln!(..); panic!() }]. *)
Definition fails {A} (m : M St A) s : Prop := exists e s', m s = Panic e s'.

Lemma check_step {A} b (m : M St bool) what (k : M St A) s :
  checks b m -> ascii_string what = true -> log_ready (acpi_log s) ->
  let guarded := valid ← m;
    (if negb (valid : bool) then kprintln [text what] ;; explicit_panic else mret tt) ;; k in
  (b = true -> exists s', guarded s = k s' /\ log_ready (acpi_log s') /\ same_tables s s') /\
  (b = false -> fails guarded s).
Proof.
  intros Hm Hw Hs guarded. destruct (Hm s Hs) as (s1 & Hr1 & Hst1 & Hcase). subst guarded. unfold fails.
  destruct Hcase as [E|[-> [e E]]].
  - rewrite (bind_Ret _ _ _ _ _ E). split; intros ->; simpl negb; cbv beta iota.
    + exists s1. auto.
    + destruct (kprintln_ret [text what] s1 Hr1) as (s2 & E2 & _); [ascii_pieces|].
      eexists _, s2. apply bind_Panic. by rewrite (bind_Ret _ _ _ _ _ E2).
  - split; [done|]. intros _. eexists _, s1. by apply bind_Panic.
Qed.

Lemma find_tables_last xsdt is_ f m :
  find_tables xsdt is_ f m =
    (default f (last_valid FADT_signature (map (Xsdt_get xsdt) is_)),
     default m (last_valid MADT_signature (map (Xsdt_get xsdt) is_))).
Proof.
  revert f m. induction is_ as [|i rest IH]; intros f m; [done|]. cbn [find_tables map].
  rewrite IH. unfold last_valid. rewrite !filter_cons.
  assert (Hd : forall (b : bool) (e d : Z) (l : list Z),
    default (if b then e else d) (last l) =
      default d (last (if decide (b = true) then e :: l else l))).
  { intros b e d l. destruct b; simpl; [|done]. rewrite last_cons.
    by destruct (last l). }
  by rewrite !Hd.
Qed.

Definition empty_tables s : Prop := once_get (FADT s) = None /\ once_get (APIC_INFO s) = None.

Lemma same_empty s s' : same_tables s s' -> empty_tables s -> empty_tables s'.
Proof. intros [E1 E2] [H1' H2']. unfold empty_tables. by rewrite E1, E2. Qed.

(** What a run that should keep [o] does. *)
Definition keeps (o : option (Fadt * ApicInfo)) (m : M St unit) s : Prop :=
  match m s, o with
  | Ret _ s', Some (fadt, info) =>
      once_get (FADT s') = Some fadt /\ once_get (APIC_INFO s') = Some info /\
      log_ready (acpi_log s')
  | Panic _ _, None => True
  | _, _ => False
  end.

Lemma keeps_fails (m : M St unit) s : fails m s -> keeps None m s.
Proof. intros (e & s' & E). unfold keeps. by rewrite E. Qed.

Lemma keeps_eq o (m m' : M St unit) s s' : m s = m' s' -> keeps o m' s' -> keeps o m s.
Proof. unfold keeps. by intros ->. Qed.

Lemma store_tables_keeps f m s :
  log_ready (acpi_log s) -> empty_tables s -> keeps (kept_tables f m) (store_tables f m) s.
Proof.
  intros Hs He. unfold store_tables.
  destruct (kprintln_ret [text "FADT is found: 0x"; fmt_hex f] s Hs) as (s1 & E1 & Hr1 & Hst1).
  { constructor; [by apply literal_ascii|]. constructor; [apply fmt_hex_ascii|done]. }
  destruct (same_empty _ _ Hst1 He) as [Ef Ei].
  eapply keeps_eq; [by rewrite (bind_Ret _ _ _ _ _ E1)|].
  set (s2 := mkAcpiState (once_call (FADT s1) (fadt_at f)) (APIC_INFO s1) (acpi_log s1)).
  eapply keeps_eq; [by rewrite (bind_Ret (modify _) _ s1 tt s2) by done|].
  destruct (kprintln_ret [text "MADT is found: 0x"; fmt_hex m] s2 Hr1) as (s3 & E3 & Hr3 & [Hf3 Hi3]).
  { constructor; [by apply literal_ascii|]. constructor; [apply fmt_hex_ascii|done]. }
  eapply keeps_eq; [by rewrite (bind_Ret _ _ _ _ _ E3)|].
  assert (Hfadt : once_get (FADT s3) = Some (fadt_at f)).
  { rewrite Hf3. subst s2. simpl. by rewrite once_get_call, Ef. }
  eapply keeps_eq; [by rewrite (bind_Ret get_st _ s3 s3 s3) by done|].
  rewrite Hi3. subst s2. simpl. rewrite Ei. unfold from_madt, kept_tables, keeps.
  destruct (find_io_apic _) as [io|]; [|done]. destruct (find_local_apic _) as [la|]; [|done].
  simpl. rewrite once_get_call, Hi3. simpl. by rewrite Ei.
Qed.

(** A missing table: a message and [panic!()]. *)
Lemma missing_fails {A} what (k : M St A) s : ascii_string what = true ->
  log_ready (acpi_log s) ->
  fails ((kprintln [text what] ;; explicit_panic (A := unit)) ;; k) s.
Proof.
  intros Hw Hs. destruct (kprintln_ret [text what] s Hs) as (s2 & E2 & _); [ascii_pieces|].
  eexists _, s2. apply bind_Panic. by rewrite (bind_Ret _ _ _ _ _ E2).
Qed.

Lemma load_tables_keeps xsdt s :
  log_ready (acpi_log s) -> empty_tables s ->
  keeps (if in_range 64 (header_length xsdt - size_of_SdtHeader) then
           f ← last_valid FADT_signature (xsdt_entries xsdt);
           m ← last_valid MADT_signature (xsdt_entries xsdt);
           if (f =? 0) || (m =? 0) then None else kept_tables f m
         else None) (load_tables xsdt) s.
Proof.
  intros Hs He. unfold load_tables, Xsdt_count, usub, checked.
  destruct (in_range 64 (header_length xsdt - size_of_SdtHeader)); [|done].
  eapply keeps_eq.
  { erewrite bind_Ret; [reflexivity|]. by erewrite bind_Ret by reflexivity. }
  rewrite find_tables_last. fold (xsdt_entries xsdt).
  destruct (last_valid FADT_signature (xsdt_entries xsdt)) as [f|]; simpl;
    [|by apply keeps_fails, missing_fails].
  destruct (f =? 0); simpl.
  { destruct (last_valid MADT_signature _); by apply keeps_fails, missing_fails. }
  eapply keeps_eq; [by erewrite bind_Ret by reflexivity|].
  destruct (last_valid MADT_signature (xsdt_entries xsdt)) as [m|]; simpl;
    [|by apply keeps_fails, missing_fails].
  destruct (m =? 0); simpl; [by apply keeps_fails, missing_fails|].
  eapply keeps_eq; [by erewrite bind_Ret by reflexivity|]. by apply store_tables_keeps.
Qed.
End lemmas.

(** * Properties *)

Section properties.
Context `{AcpiApi} {once : Type -> Type} `{SpinOnceLaws once} {L : Type} `{LogLaws L}.
Implicit Types s : AcpiState once L.

Lemma init_keeps rsdp s :
  log_ready (acpi_log s) -> text_ok rsdp -> empty_tables s ->
  keeps (acpi_tables rsdp) (init rsdp) s.
Proof.
  intros Hs Ht He.
  unfold init, acpi_tables, xsdt_ok.
  match goal with |- keeps _ (rsdp_is_valid _ ≫= fun v => _ ≫= fun _ => ?k) _ =>
    destruct (check_step _ _ "RSDP isn't valid." k s (rsdp_checks rsdp Ht) eq_refl Hs)
      as [Hok Hbad] end.
  destruct (is_ok (rsdp_validate rsdp) && (rsdp_revision rsdp =? 2)); simpl;
    [|by apply keeps_fails, Hbad].
  destruct (Hok eq_refl) as (s1 & E1 & Hr1 & Hst1). eapply keeps_eq; [exact E1|].
  clear Hok Hbad.
  match goal with |- keeps _ (Xsdt_is_valid _ ≫= fun v => _ ≫= fun _ => ?k) _ =>
    destruct (check_step _ _ "XSDT is not valid." k s1 (xsdt_checks rsdp Ht) eq_refl Hr1)
      as [Hok Hbad] end.
  destruct (is_ok (header_validate (rsdp_xsdt_address rsdp) XSDT)); simpl;
    [|by apply keeps_fails, Hbad].
  destruct (Hok eq_refl) as (s2 & E2 & Hr2 & Hst2). eapply keeps_eq; [exact E2|].
  apply load_tables_keeps; [done|]. eapply same_empty; [exact Hst2|].
  by eapply same_empty; [exact Hst1|].
Qed.

(** C11: whatever tables the firmware left, [init] keeps the last FADT and the local APIC
    address, the first local APIC entry and the first I/O APIC entry of the last
    MADT the XSDT points to; it panics if a check fails or one of them is missing,
    and an XSDT shorter than its header is a panic too. *)
Theorem init_acpi rsdp s :
  log_ready (acpi_log s) -> text_ok rsdp ->
  once_get (FADT s) = None -> once_get (APIC_INFO s) = None ->
  match init rsdp s, acpi_tables rsdp with
  | Ret _ s', Some (fadt, info) =>
      once_get (FADT s') = Some fadt /\ once_get (APIC_INFO s') = Some info /\
      log_ready (acpi_log s')
  | Panic _ _, None => True
  | _, _ => False
  end.
Proof. intros Hs Ht Hf Hi. by apply init_keeps. Qed.
End properties.

(** * Witness: firmware memory with two tables *)

#[local] Instance firmware : AcpiApi := {|
  Fadt := Z;
  rsdp_validate _ := Ok tt;
  rsdp_revision _ := 2;
  rsdp_xsdt_address _ := 0x7000;
  rsdp_signature _ := [];
  rsdp_oem_id _ := [];
  size_of_SdtHeader := 36;
  header_length a := if a =? 0x7000 then 36 + 3 * 8 else 244;
  header_validate a sig := match sig, a with
    | XSDT, 0x7000 | FADT_signature, 0x8000 | MADT_signature, 0x9000 => Ok tt
    | _, _ => Err SdtInvalidSignature
    end;
  signature_text _ := [];
  fadt_at a := a;
  madt_at _ := mkMadt 0xfee00000
    [MadtOther; MadtLocalApic (mkLocalApicEntry 0 0); MadtIoApic (mkIoApicEntry 0 0xfec00000)];
  load_u64 a := match a with 0x7024 => 0x8000 | 0x702c => 0xa000 | _ => 0x9000 end
|}.

Lemma init_acpi_witness :
  match init 0x6000 (mkAcpiState (once := option) None None ([] : list (list Z))) with
  | Ret _ s' => FADT s' = Some 0x8000 /\
      APIC_INFO s' =
        Some (mkApicInfo 0xfee00000 (mkLocalApicEntry 0 0) (mkIoApicEntry 0 0xfec00000))
  | _ => False
  end.
Proof.
  pose proof (init_acpi (once := option) (L := list (list Z)) 0x6000
    (mkAcpiState None None []) I ltac:(repeat constructor) eq_refl eq_refl) as HI.
  assert (E : acpi_tables 0x6000 = Some (0x8000,
    mkApicInfo 0xfee00000 (mkLocalApicEntry 0 0) (mkIoApicEntry 0 0xfec00000)))
    by reflexivity.
  rewrite E in HI. destruct (init _ _) as [u s'|e s'|]; [|contradiction..].
  destruct HI as (H1 & H2 & _). split; [exact H1|exact H2].
Defined.
End Acpi.
