(* ===== verification/Interrupts.v ===== *)
(** Interrupt handling (kernel/src/interrupts.rs): the descriptor table, the
    programming of the local and I/O APIC, and the handlers. *)

From S2P Require Import Prelude Machine External Console Logger Ps2Controller.
From S2P Require Import Ps2Keyboard Apic Acpi.

Module Interrupts.
Import Logger Apic.

(** * Vectors *)

Definition EXTERNAL_IRQ_OFFSET : Z := 32.

Inductive IRQ : Type := Timer | Keyboard | Mouse | Error.
Definition IRQ_as_u8 (i : IRQ) : Z :=
  match i with Timer => 0 | Keyboard => 1 | Mouse => 12 | Error => 19 end.

Inductive InterruptVector : Type :=
  | EXTERNAL_IRQ_TIMER | EXTERNAL_IRQ_KEYBOARD | EXTERNAL_IRQ_MOUSE | EXTERNAL_IRQ_ERROR
  | LocalAPICTimer.
Definition InterruptVector_as_u8 (v : InterruptVector) : Z :=
  match v with
  | EXTERNAL_IRQ_TIMER => EXTERNAL_IRQ_OFFSET + IRQ_as_u8 Timer
  | EXTERNAL_IRQ_KEYBOARD => EXTERNAL_IRQ_OFFSET + IRQ_as_u8 Keyboard
  | EXTERNAL_IRQ_MOUSE => EXTERNAL_IRQ_OFFSET + IRQ_as_u8 Mouse
  | EXTERNAL_IRQ_ERROR => EXTERNAL_IRQ_OFFSET + IRQ_as_u8 Error
  | LocalAPICTimer => 0x41
  end.

(** ** The descriptor table, in the order of the [set_handler_fn] calls *)

Inductive idt_slot : Type := SlotBreakpoint | SlotDoubleFault | SlotVector (v : Z).
Inductive handler : Type :=
  | HBreakpoint | HDoubleFault | HTimer | HKeyboard | HMouse.
#[export] Instance handler_eq_dec : EqDecision handler.
Proof. solve_decision. Defined.

Definition IDT : list (idt_slot * handler) := [
  (SlotBreakpoint, HBreakpoint); (SlotDoubleFault, HDoubleFault);
  (SlotVector (InterruptVector_as_u8 LocalAPICTimer), HTimer);
  (SlotVector (InterruptVector_as_u8 EXTERNAL_IRQ_TIMER), HTimer);
  (SlotVector (InterruptVector_as_u8 EXTERNAL_IRQ_KEYBOARD), HKeyboard);
  (SlotVector (InterruptVector_as_u8 EXTERNAL_IRQ_MOUSE), HMouse)].

(** * The program *)

Section interrupts.
Context `{Acpi.AcpiApi} {once : Type -> Type} `{SpinOnce once} {L : Type} `{Log L}
  {D : Type} `{Device D}.

Record IntState : Type := mkIntState {
  LOCAL_APIC : once LocalApic;
  int_acpi : Acpi.AcpiState once L;
  int_bus : Bus D
}.
Notation IM := (M IntState).

Definition on_machine {A} (m : M (Bus D) A) : IM A :=
  zoom int_bus (fun b s => mkIntState (LOCAL_APIC s) (int_acpi s) b) m.
Definition on_acpi {A} (m : M (Acpi.AcpiState once L) A) : IM A :=
  zoom int_acpi (fun a s => mkIntState (LOCAL_APIC s) a (int_bus s)) m.
Definition kprintln (pieces : list (list Z)) : IM unit := on_acpi (Acpi.kprintln pieces).
Definition get_apic_info : IM Acpi.ApicInfo := on_acpi Acpi.get_apic_info.

(** [LOCAL_APIC.wait()] spins until the cell is set. *)
Definition LOCAL_APIC_wait : IM LocalApic :=
  s ← get_st;
  match once_get (LOCAL_APIC s) with Some la => mret la | None => diverge end.

Definition init_idt : IM unit := on_machine (io_write Lidt).

Definition disable_pic_8259 : IM unit :=
  on_machine (io_write (Out8 0xa1 0xff)) ;; on_machine (io_write (Out8 0x21 0xff)).

Definition IA32_APIC_BASE_MSR : Z := 0x1b.
Definition MASKED : Z := ushl 32 1 16.
Definition BCAST : Z := 0x00080000.
Definition LEVEL : Z := 0x00008000.
Definition INIT : Z := 0x00000500.
Definition DELIVERY_STATUS : Z := 0x00001000.

Definition enable_apic : IM unit :=
  info ← get_apic_info;
  on_machine (write_msr IA32_APIC_BASE_MSR
    (Z.lor (Acpi.local_apic_base info) (ushl 64 1 11))).

(** [while (read ICR & DELIVERY_STATUS) != 0 {}]; [fuel] bounds the polls. *)
Fixpoint wait_delivery (fuel : nat) (local_apic : LocalApic) : IM unit :=
  match fuel with
  | O => diverge
  | S fuel =>
      v ← on_machine (read_interrupt_command_register_low local_apic);
      if negb (Z.land v DELIVERY_STATUS =? 0) then wait_delivery fuel local_apic
      else mret tt
  end.

Definition init_local_apic (fuel : nat) : IM unit :=
  info ← get_apic_info;
  let local_apic := LocalApic_new (Acpi.local_apic_base info) in
  modify (fun s => mkIntState (once_call (LOCAL_APIC s) local_apic) (int_acpi s) (int_bus s)) ;;
  on_machine (write_spurious_interrupt_vector_register local_apic (Z.lor 0x100 0xff)) ;;
  on_machine (write_lvt_lint0_register local_apic MASKED) ;;
  on_machine (write_lvt_lint1_register local_apic MASKED) ;;
  on_machine (write_lvt_performance_monitoring_counters_register local_apic MASKED) ;;
  error ← uadd 8 EXTERNAL_IRQ_OFFSET (IRQ_as_u8 Error);
  on_machine (write_lvt_error_register local_apic error) ;;
  on_machine (write_error_status_register local_apic 0) ;;
  on_machine (write_error_status_register local_apic 0) ;;
  on_machine (write_end_of_interrupt_register local_apic 0) ;;
  on_machine (write_interrupt_command_register_high local_apic 0) ;;
  on_machine (write_interrupt_command_register_low local_apic (Z.lor (Z.lor BCAST LEVEL) INIT)) ;;
  wait_delivery fuel local_apic ;;
  on_machine (write_task_priority_register local_apic 0).

Definition mask_entry (io_apic : IoApic) (i : Z) : IM unit :=
  vector ← uadd 64 EXTERNAL_IRQ_OFFSET i;
  on_machine (set_redirection_entry_at io_apic (as_u 32 i) (Z.lor vector (ushl 64 1 16))).

Definition init_io_apic : IM unit :=
  info ← get_apic_info;
  kprintln [bytes_of_string "I/O APIC base: 0x"; fmt_hex (Acpi.io_apic_base info)] ;;
  info ← get_apic_info;
  let io_apic := IoApic_new (Acpi.io_apic_base info) in
  id ← on_machine (get_id io_apic);
  info ← get_apic_info;
  (if negb (id =? Acpi.io_apic_id info)
   then panic (ExplicitPanic "id isn't equal to I/O Apic id; not a MP") else mret tt) ;;
  max ← on_machine (get_max_amount_of_redirection_entries io_apic);
  for_each (range 0 max) (mask_entry io_apic) ;;
  info ← get_apic_info;
  let cpu0 := ushl 64 (Acpi.processor_id info) (32 + 24) in
  on_machine (set_redirection_entry_at io_apic (IRQ_as_u8 Keyboard)
    (Z.lor (InterruptVector_as_u8 EXTERNAL_IRQ_KEYBOARD) cpu0)) ;;
  on_machine (set_redirection_entry_at io_apic (IRQ_as_u8 Mouse)
    (Z.lor (InterruptVector_as_u8 EXTERNAL_IRQ_MOUSE) cpu0)).

Definition init_apic (fuel : nat) : IM unit :=
  enable_apic ;; init_local_apic fuel ;; init_io_apic.

Definition init (fuel : nat) : IM unit :=
  init_idt ;; disable_pic_8259 ;; init_apic fuel.

(** ** Handlers *)

Definition end_of_interrupt : IM unit :=
  la ← LOCAL_APIC_wait; on_machine (write_end_of_interrupt_register la 0).

Definition keyboard_interrupt_handler : IM unit :=
  code ← on_machine (Ps2Keyboard.Keyboard_read_data Ps2Controller.Controller_new);
  kprintln (msg "pressed") ;;
  end_of_interrupt.

Definition mouse_interrupt_handler : IM unit :=
  on_machine (Ps2Controller.flush_data_port Ps2Controller.Controller_new) ;;
  kprintln (msg "moved.") ;;
  end_of_interrupt.

Definition breakpoint_handler : IM unit :=
  kprintln (msg "breakpoint exception occured.") ;; end_of_interrupt.

Definition double_fault_handler : IM unit := panic (ExplicitPanic "double fault occurred.").

Definition timer_interrupt_handler : IM unit := end_of_interrupt.

Definition run_handler (h : handler) : IM unit :=
  match h with
  | HBreakpoint => breakpoint_handler
  | HDoubleFault => double_fault_handler
  | HTimer => timer_interrupt_handler
  | HKeyboard => keyboard_interrupt_handler
  | HMouse => mouse_interrupt_handler
  end.
End interrupts.
Arguments IntState {_} _ _ _.

(** * Specification *)

(** What a handler prints. *)
Definition handler_line (h : handler) : option (list (list Z)) :=
  match h with
  | HBreakpoint => Some (msg "breakpoint exception occured.")
  | HKeyboard => Some (msg "pressed")
  | HMouse => Some (msg "moved.")
  | HDoubleFault | HTimer => None
  end.

(** What a handler takes from the PS/2 controller: the keyboard's one byte, the mouse's
    all there are, the others nothing. *)
Definition drained (h : handler) (l : list io_event) : Prop :=
  match h with
  | HKeyboard => Ps2Controller.byte_taken l
  | HMouse => Ps2Controller.flushed l
  | HBreakpoint | HDoubleFault | HTimer => l = []
  end.

(** The vectors of the two exceptions on x86. *)
Definition slot_vector (s : idt_slot) : Z :=
  match s with SlotBreakpoint => 3 | SlotDoubleFault => 8 | SlotVector v => v end.
Definition handler_of (v : Z) : option handler :=
  snd <$> last (filter (fun p => slot_vector p.1 = v) IDT).

Definition local_apic_writes (la : Z) : list write_op := [
  Store32 (la + 0xf0) 0x1ff; Store32 (la + 0x350) 0x10000; Store32 (la + 0x360) 0x10000;
  Store32 (la + 0x340) 0x10000; Store32 (la + 0x370) 51; Store32 (la + 0x280) 0;
  Store32 (la + 0x280) 0; Store32 (la + 0xb0) 0; Store32 (la + 0x310) 0;
  Store32 (la + 0x300) 0x88500; Store32 (la + 0x80) 0].

Definition masked_value (i : Z) : Z := 0x10000 + (32 + i).
Definition routed_value (vector cpu : Z) : Z := cpu * 2 ^ 56 + vector.

Definition io_apic_writes (io n cpu : Z) : list write_op :=
  [Store32 io 0; Store32 io 1] ++
  concat (map (fun i => entry_writes io i (masked_value i)) (range 0 n)) ++
  entry_writes io 1 (routed_value 33 cpu) ++ entry_writes io 12 (routed_value 44 cpu).

Definition apic_writes (info : Acpi.ApicInfo) (n : Z) : list write_op :=
  [Wrmsr 0x1b (Z.lor (Acpi.local_apic_base info) 0x800)] ++
  local_apic_writes (Acpi.local_apic_base info) ++
  io_apic_writes (Acpi.io_apic_base info) n (Acpi.processor_id info).

(** The delivery status clears after less than [k] reads. *)
Fixpoint settles {D} `{Device D} (addr : Z) (k : nat) (d : D) : Prop :=
  match k with
  | O => False
  | S k =>
      let '(v, d') := dev_read (Load32 addr) d in
      Z.testbit v 12 = false \/ settles addr k d'
  end.

(** A machine with the APICs the tables describe. *)
Record apic_machine {D} `{Device D} (info : Acpi.ApicInfo) (k : nat) (n : Z) : Prop := {
  am_settles d : settles (Acpi.local_apic_base info + 0x300) k d;
  am_id d : field (dev_read (Load32 (Acpi.io_apic_base info + 16))
    (dev_write (Store32 (Acpi.io_apic_base info) 0) d)).1 24 4 = Acpi.io_apic_id info;
  am_max d : field (dev_read (Load32 (Acpi.io_apic_base info + 16))
    (dev_write (Store32 (Acpi.io_apic_base info) 1) d)).1 16 8 = n
}.

(** The numbers the firmware's tables hold fit their fields. *)
Definition info_ok (info : Acpi.ApicInfo) : Prop :=
  0 <= Acpi.local_apic_base info < 2 ^ 32 /\ 0 <= Acpi.processor_id info < 2 ^ 8.

(** * Lemmas *)

Section keyboard.
Context {D : Type} `{Device D}.
Notation read := (Ps2Keyboard.Keyboard_read_data (D := D) Ps2Controller.Controller_new).

Lemma shakes_keyboard_data : Ps2Controller.shakes read.
Proof.
  apply Ps2Controller.shakes_bind_try; [apply Ps2Controller.shakes_map_err|intros v].
  - apply Ps2Controller.shakes_read_data.
  - apply Ps2Controller.shakes_ret.
Qed.

Lemma reads_only_keyboard_data :
  emits bus_log (fun _ => True) Ps2Controller.reads_only read.
Proof.
  apply emits_bind_try; [done|apply Ps2Controller.reads_only_app| |].
  - apply emits_map_err; [done|apply Ps2Controller.reads_only_app|].
    apply Ps2Controller.reads_only_read_data.
  - intros v. by apply emits_ret.
Qed.

Lemma keyboard_data_takes b : wp read
  (fun _ b' => exists l, bus_log b' = bus_log b ++ l /\ Ps2Controller.byte_taken l) b.
Proof.
  unfold Ps2Keyboard.Keyboard_read_data. do 2 wp_step.
  eapply wp_mono; [apply Ps2Controller.read_data_takes|]. by intros [v|e] b' Hl.
Qed.
End keyboard.

Lemma id_field v : as_u 8 (Z.land (ushr (as_u 32 v) 24) 0xf) = field v 24 4.
Proof.
  apply (bits_eq 8); [by apply as_u_range| |].
  - pose proof (field_range v 24 4 ltac:(lia)). lia.
  - intros i Hi. change 0xf with (Z.ones 4). bits_norm. rewrite Z.testbit_ones_nonneg by lia.
    bits_cases; simpl; by rewrite ?andb_true_r, ?andb_false_r.
Qed.

Lemma max_field v : Z.land (ushr (as_u 32 v) 16) 0xff = field v 16 8.
Proof.
  apply (bits_eq 8); [by apply land_range_r|by apply field_range|].
  intros i Hi. change 0xff with (Z.ones 8). bits_norm. rewrite Z.testbit_ones_nonneg by lia.
  bits_cases; simpl; by rewrite ?andb_true_r, ?andb_false_r.
Qed.

Lemma delivery_bit v :
  negb (Z.land (as_u 32 v) DELIVERY_STATUS =? 0) = Z.testbit v 12.
Proof. rewrite (land_bit 32 _ 12) by lia. by rewrite testbit_as_u. Qed.

Lemma masked_value_eq i : 0 <= i < 2 ^ 8 -> Z.lor (32 + i) (ushl 64 1 16) = masked_value i.
Proof.
  intros Hi. rewrite Z.lor_comm. change (ushl 64 1 16) with (1 * 2 ^ 16).
  rewrite lor_add by lia. unfold masked_value. lia.
Qed.

Lemma routed_value_eq v cpu : 0 <= v < 2 ^ 8 -> 0 <= cpu < 2 ^ 8 ->
  Z.lor v (ushl 64 cpu (32 + 24)) = routed_value v cpu.
Proof.
  intros Hv Hc. rewrite Z.lor_comm. unfold ushl, routed_value.
  rewrite Z.shiftl_mul_pow2, as_u_small by lia. apply lor_add; lia.
Qed.

Lemma writes_of_write l w : writes_of (l ++ [EvWrite w]) = writes_of l ++ [w].
Proof. apply writes_of_app. Qed.

Lemma writes_of_writes ws : writes_of (map EvWrite ws) = ws.
Proof. induction ws as [|w ws IH]; [done|]. cbn. f_equal. exact IH. Qed.

Section lemmas.
Context `{Acpi.AcpiApi} {once : Type -> Type} `{SpinOnceLaws once} {L : Type} `{LogLaws L}
  {D : Type} `{Device D}.
Notation St := (IntState once L D).
Implicit Types s : St.

(** The cells hold [la] and [info], the console works, and the writes so far are [ws]. *)
Definition int_inv (la : option LocalApic) (info : Acpi.ApicInfo) (ws : list write_op) s : Prop :=
  once_get (LOCAL_APIC s) = la /\
  once_get (Acpi.APIC_INFO (int_acpi s)) = Some info /\
  log_ready (Acpi.acpi_log (int_acpi s)) /\
  writes_of (bus_log (int_bus s)) = ws.

Context (info : Acpi.ApicInfo).

Lemma wp_on_machine {A} (m : M (Bus D) A) la ws (Q : A -> St -> Prop) s :
  int_inv la info ws s ->
  wp m (fun a b => exists ws', writes_of (bus_log b) = ws ++ ws' /\
    forall s', int_inv la info (ws ++ ws') s' -> int_bus s' = b -> Q a s') (int_bus s) ->
  wp (on_machine m) Q s.
Proof.
  intros (Hla & Hi & Hl & Hw) Hm. apply wp_zoom. eapply wp_mono; [exact Hm|].
  intros a b (ws' & E & HQ). by apply HQ.
Qed.

(** A register or port write. *)
Lemma wp_write_op (m : M (Bus D) unit) op la ws (Q : unit -> St -> Prop) s :
  m = io_write op -> int_inv la info ws s ->
  (forall s', int_inv la info (ws ++ [op]) s' ->
     bus_dev (int_bus s') = dev_write op (bus_dev (int_bus s)) -> Q tt s') ->
  wp (on_machine m) Q s.
Proof.
  intros -> Hs HQ. eapply wp_on_machine; [exact Hs|]. apply wp_io_write. exists [op].
  destruct Hs as (_ & _ & _ & Hw). cbn [bus_log]. rewrite writes_of_write, Hw.
  split; [done|]. intros s' Hs' E. apply HQ; [done|by rewrite E].
Qed.

Lemma wp_get_apic_info la ws (Q : Acpi.ApicInfo -> St -> Prop) s :
  int_inv la info ws s -> Q info s -> wp get_apic_info Q s.
Proof.
  intros (_ & Hi & _) HQ. unfold get_apic_info, on_acpi. apply wp_zoom.
  unfold Acpi.get_apic_info. wp_step. wp_step. rewrite Hi. apply wp_ret.
  by destruct s.
Qed.

Lemma wp_int_kprintln pieces la ws (Q : unit -> St -> Prop) s :
  int_inv la info ws s -> Forall Console.is_ascii pieces ->
  (forall s', int_inv la info ws s' -> int_bus s' = int_bus s -> Q tt s') ->
  wp (kprintln pieces) Q s.
Proof.
  intros (Hla & Hi & Hl & Hw) Hp HQ. unfold kprintln, on_acpi. apply wp_zoom.
  destruct (Acpi.kprintln_ret pieces (int_acpi s) Hl Hp) as (a & E & Hr & [_ Hsi]).
  eapply wp_eq; [exact E|]. apply HQ; [|done]. split; [done|]. cbn. by rewrite Hsi.
Qed.

(** ** The local APIC *)

(** The polling loop ends with a machine whose delivery status clears. *)
Lemma wp_wait_delivery k fuel base la ws (Q : unit -> St -> Prop) s :
  (k <= fuel)%nat -> settles (base + 0x300) k (bus_dev (int_bus s)) ->
  int_inv la info ws s -> (forall s', int_inv la info ws s' -> Q tt s') ->
  wp (wait_delivery fuel (LocalApic_new base)) Q s.
Proof.
  revert fuel s. induction k as [|k IH]; intros fuel s Hk Hset Hs HQ; [done|].
  destruct fuel as [|fuel]; [lia|]. cbn [wait_delivery settles] in *. wp_step.
  eapply wp_on_machine; [exact Hs|].
  unfold read_interrupt_command_register_low, LocalApic_read. apply wp_io_read.
  change (register_addr (LocalApic_new base) (0x300 / 4)) with (base + 0x300).
  intros v d _ Hv Hd. exists []. rewrite app_nil_r.
  split; [destruct Hs as (_ & _ & _ & Hw); cbn [bus_log]; rewrite writes_of_app, Hw;
      apply app_nil_r|].
  intros s' Hs' Hb. destruct (dev_read (Load32 (base + 768)) (bus_dev (int_bus s))) as [x d'].
  cbn in Hv, Hd. subst v d. change (read_width (Load32 (base + 768))) with 32.
  rewrite delivery_bit. destruct (Z.testbit x 12) eqn:E.
  - destruct Hset as [|Hset]; [done|]. apply IH; [lia|by rewrite Hb|done|done].
  - apply wp_ret. auto.
Qed.

Ltac reg_write :=
  wp_step; eapply wp_write_op; [reflexivity|eassumption|];
  let s := fresh "s" in let Hs := fresh "Hs" in let Hd := fresh "Hd" in
  intros s Hs Hd.

Lemma wp_init_local_apic k n fuel ws (Q : unit -> St -> Prop) s :
  (k <= fuel)%nat -> apic_machine (D := D) info k n -> int_inv None info ws s ->
  (forall s', int_inv (Some (LocalApic_new (Acpi.local_apic_base info))) info
     (ws ++ local_apic_writes (Acpi.local_apic_base info)) s' -> Q tt s') ->
  wp (init_local_apic fuel) Q s.
Proof.
  intros Hk Hm Hs HQ. unfold init_local_apic. wp_step.
  eapply wp_get_apic_info; [exact Hs|]. wp_step. wp_step.
  set (la := LocalApic_new (Acpi.local_apic_base info)).
  assert (Hs1 : int_inv (Some la) info ws
    (mkIntState (once_call (LOCAL_APIC s) la) (int_acpi s) (int_bus s))).
  { destruct Hs as (Hla & Hrest). split; [|exact Hrest]. cbn. by rewrite once_get_call, Hla. }
  revert Hs1. generalize (mkIntState (once_call (LOCAL_APIC s) la) (int_acpi s) (int_bus s)).
  intros s1 Hs1. do 4 reg_write. wp_step. wp_step; [done|]. do 6 reg_write.
  wp_step. eapply wp_wait_delivery; [exact Hk|apply (am_settles _ _ _ Hm)|eassumption|].
  intros s12 Hs12. eapply wp_write_op; [reflexivity|eassumption|]. intros s13 Hs13 _.
  apply HQ. rewrite <- !(assoc_L (++)) in Hs13. exact Hs13.
Qed.

(** ** The I/O APIC *)

Lemma wp_entry io index value la ws (Q : unit -> St -> Prop) s :
  0 <= index < 2 ^ 30 -> int_inv la info ws s ->
  (forall s', int_inv la info (ws ++ entry_writes (io_ptr io) index value) s' -> Q tt s') ->
  wp (on_machine (set_redirection_entry_at io index value)) Q s.
Proof.
  intros Hi Hs HQ. eapply wp_on_machine; [exact Hs|]. apply wp_set_redirection; [done|].
  intros b' E. exists (entry_writes (io_ptr io) index value).
  destruct Hs as (_ & _ & _ & Hw). rewrite E, writes_of_app, writes_of_writes, Hw. auto.
Qed.

(** Reading a register writes its index. *)
Lemma wp_io_apic_read {A} io reg (f : Z -> A) la ws (Q : A -> St -> Prop) s :
  int_inv la info ws s ->
  (forall v s', int_inv la info (ws ++ [Store32 (io_ptr io) reg]) s' ->
     v = f (as_u 32 (dev_read (Load32 (io_ptr io + 16))
       (dev_write (Store32 (io_ptr io) reg) (bus_dev (int_bus s)))).1) -> Q v s') ->
  wp (on_machine (x ← IoApic_read io reg; mret (f x))) Q s.
Proof.
  intros Hs HQ. eapply wp_on_machine; [exact Hs|]. unfold IoApic_read, data_addr, reg_addr.
  replace (io_ptr io + 4 + 3 * 4) with (io_ptr io + 16) by lia.
  wp_step. wp_step. apply wp_io_write. apply wp_io_read. intros v d _ Hv _. apply wp_ret.
  exists [Store32 (io_ptr io) reg]. destruct Hs as (_ & _ & _ & Hw).
  split; [cbn [bus_log]; by rewrite writes_of_app, writes_of_write, Hw, app_nil_r|].
  intros s' Hs' Hb. apply HQ; [done|]. by rewrite Hv.
Qed.

Lemma wp_mask_entry io i la ws (Q : unit -> St -> Prop) s :
  0 <= i < 2 ^ 8 -> int_inv la info ws s ->
  (forall s', int_inv la info (ws ++ entry_writes (io_ptr io) i (masked_value i)) s' ->
     Q tt s') ->
  wp (mask_entry io i) Q s.
Proof.
  intros Hi Hs HQ. unfold mask_entry, EXTERNAL_IRQ_OFFSET. wp_step. wp_step; [lia|].
  rewrite masked_value_eq by lia. rewrite as_u_small by lia. by eapply wp_entry; [lia|..].
Qed.

Lemma wp_mask_loop io max la ws (Q : unit -> St -> Prop) s :
  0 <= max < 2 ^ 8 -> int_inv la info ws s ->
  (forall s', int_inv la info
     (ws ++ concat (map (fun i => entry_writes (io_ptr io) i (masked_value i)) (range 0 max)))
     s' -> Q tt s') ->
  wp (for_each (range 0 max) (mask_entry io)) Q s.
Proof.
  intros Hmax Hs HQ.
  cut (forall i, 0 <= i <= max -> forall ws s, int_inv la info ws s ->
    wp (for_each (range i max) (mask_entry io)) (fun _ s' => int_inv la info
      (ws ++ concat (map (fun i => entry_writes (io_ptr io) i (masked_value i)) (range i max)))
      s') s).
  { intros Hcut. eapply wp_mono; [apply (Hcut 0); [lia|exact Hs]|]. by intros []. }
  clear Q s ws Hs HQ. intros i0 Hi0.
  apply (range_ind (fun i => forall ws s, int_inv la info ws s ->
    wp (for_each (range i max) (mask_entry io)) _ s) i0 max); [lia| |].
  - intros ws s Hs. rewrite range_nil by lia. apply wp_ret. simpl. by rewrite app_nil_r.
  - intros i Hi IH ws s Hs. rewrite range_cons by lia. cbn [for_each map concat].
    wp_step. eapply wp_mask_entry; [lia|exact Hs|]. intros s' Hs'.
    rewrite (assoc_L (++)). by apply IH.
Qed.

Lemma wp_init_io_apic k n la ws (Q : unit -> St -> Prop) s :
  apic_machine (D := D) info k n -> info_ok info -> int_inv la info ws s ->
  (forall s', int_inv la info (ws ++ io_apic_writes (Acpi.io_apic_base info) n
     (Acpi.processor_id info)) s' -> Q tt s') ->
  wp init_io_apic Q s.
Proof.
  intros Hm [_ Hcpu] Hs HQ. unfold init_io_apic. wp_step.
  eapply wp_get_apic_info; [exact Hs|]. wp_step. eapply wp_int_kprintln; [exact Hs| |].
  { constructor; [by apply Acpi.literal_ascii|]. constructor; [apply fmt_hex_ascii|done]. }
  intros s1 Hs1 _. wp_step. eapply wp_get_apic_info; [exact Hs1|]. wp_step.
  set (io := IoApic_new (Acpi.io_apic_base info)).
  eapply (wp_io_apic_read io); [exact Hs1|]. intros id s2 Hs2 Hid.
  wp_step. eapply wp_get_apic_info; [exact Hs2|].
  rewrite id_field in Hid. rewrite (am_id _ _ _ Hm) in Hid. subst id.
  rewrite Z.eqb_refl. simpl negb. cbv iota. wp_step. apply wp_ret. wp_step.
  eapply (wp_io_apic_read io); [exact Hs2|]. intros max s3 Hs3 Hmax.
  rewrite max_field in Hmax.
  assert (Hrange : 0 <= max < 2 ^ 8) by (subst max; by apply field_range).
  rewrite (am_max _ _ _ Hm) in Hmax. subst max.
  wp_step. eapply wp_mask_loop; [done|exact Hs3|]. intros s4 Hs4.
  wp_step. eapply wp_get_apic_info; [exact Hs4|].
  rewrite !routed_value_eq by done. wp_step. eapply wp_entry; [done|exact Hs4|].
  intros s5 Hs5. eapply wp_entry; [done|exact Hs5|]. intros s6 Hs6. apply HQ.
  rewrite <- !(assoc_L (++)) in Hs6. exact Hs6.
Qed.
End lemmas.

(** The redirection table a write sequence leaves. *)
Lemma io_apic_run_skip base s w :
  match w with Store32 a _ => a <> base /\ a <> base + 16 | _ => True end ->
  io_apic_step base s w = s.
Proof.
  destruct w; try done. intros [H1 H2]. unfold io_apic_step.
  replace (addr =? base) with false by lia. by replace (addr =? base + 16) with false by lia.
Qed.

(** The registers of the local APIC are elsewhere. *)
Definition apart (la io : Z) : Prop := la + 0x400 <= io \/ io + 0x20 <= la.

Lemma local_writes_skip la io r : apart la io -> io_apic_run io r (local_apic_writes la) = r.
Proof.
  intros Ha. unfold io_apic_run, local_apic_writes, apart in *. cbn [foldl].
  repeat (rewrite (io_apic_run_skip io r) by lia). done.
Qed.

Lemma masked_run io r lo hi i : 0 <= lo <= hi -> hi < 2 ^ 8 -> 0 <= i ->
  redirection_entry (io_apic_run io r
    (concat (map (fun i => entry_writes io i (masked_value i)) (range lo hi)))) i =
  if (lo <=? i) && (i <? hi) then Some (masked_value i) else redirection_entry r i.
Proof.
  intros Hlo Hhi Hi. revert r.
  cut (forall j, lo <= j <= hi -> forall r, redirection_entry (io_apic_run io r
    (concat (map (fun i => entry_writes io i (masked_value i)) (range j hi)))) i =
    if (j <=? i) && (i <? hi) then Some (masked_value i) else redirection_entry r i).
  { intros Hc r. apply Hc. lia. }
  intros j0 Hj0. apply (range_ind (fun j => forall r, redirection_entry (io_apic_run io r
    (concat (map _ (range j hi)))) i = if (j <=? i) && _ then _ else _) j0 hi); [lia| |].
  - intros r. rewrite range_nil by lia. by replace ((hi <=? i) && (i <? hi)) with false by lia.
  - intros j Hj IH r. rewrite range_cons by lia. cbn [map concat].
    rewrite io_apic_run_app, IH, redirection_after by (unfold masked_value; lia).
    destruct (Z.eqb_spec i j) as [->|].
    + replace ((j + 1 <=? j) && (j <? hi)) with false by lia.
      by replace ((j <=? j) && (j <? hi)) with true by lia.
    + replace (j + 1 <=? i) with (j <=? i) by lia. done.
Qed.

(** The entry of line [i] after the setup of an I/O APIC whose version register says
    [n], for an entry [before]. *)
Definition redirected (n cpu i : Z) (before : option Z) : option Z :=
  if i =? 12 then Some (routed_value 44 cpu)
  else if i =? 1 then Some (routed_value 33 cpu)
  else if i <? n then Some (masked_value i)
  else before.

Lemma apic_writes_table info n r i :
  apart (Acpi.local_apic_base info) (Acpi.io_apic_base info) ->
  0 <= n < 2 ^ 8 -> 0 <= Acpi.processor_id info < 2 ^ 8 -> 0 <= i ->
  redirection_entry (io_apic_run (Acpi.io_apic_base info) r (apic_writes info n)) i =
    redirected n (Acpi.processor_id info) i (redirection_entry r i).
Proof.
  intros Ha Hn Hcpu Hi. unfold apic_writes, io_apic_writes. rewrite !io_apic_run_app.
  change (io_apic_run ?b r [Wrmsr ?m ?v]) with r. rewrite local_writes_skip by done.
  rewrite !redirection_after, masked_run by (unfold routed_value; lia).
  unfold redirected. destruct (i =? 12); [done|]. destruct (i =? 1); [done|].
  replace ((0 <=? i) && (i <? n)) with (i <? n) by lia. destruct (i <? n); [done|].
  unfold io_apic_run, redirection_entry. cbn [foldl]. unfold io_apic_step.
  set (b := Acpi.io_apic_base info). rewrite Z.eqb_refl. cbn [registers].
  done.
Qed.

Definition init_writes (info : Acpi.ApicInfo) (n : Z) : list write_op :=
  [Lidt; Out8 0xa1 0xff; Out8 0x21 0xff] ++ apic_writes info n.

(** ** [init] and the handlers on the state *)
Section running.
Context `{Acpi.AcpiApi} {once : Type -> Type} `{SpinOnceLaws once} {L : Type} `{LogLaws L}
  {D : Type} `{Device D}.
Notation St := (IntState once L D).
Implicit Types s : St.

Definition int_log s : list io_event := bus_log (int_bus s).

Lemma wp_interrupts_init info k n fuel s (Q : unit -> St -> Prop) :
  (k <= fuel)%nat -> apic_machine (D := D) info k n -> info_ok info ->
  int_inv None info (writes_of (int_log s)) s ->
  (forall s', int_inv (Some (LocalApic_new (Acpi.local_apic_base info))) info
     (writes_of (int_log s) ++ init_writes info n) s' -> Q tt s') ->
  wp (init fuel) Q s.
Proof.
  intros Hk Hm Hok Hs HQ. unfold init, init_idt, disable_pic_8259, init_apic, enable_apic.
  wp_step. eapply wp_write_op; [reflexivity|exact Hs|]. intros s1 Hs1 _.
  do 2 wp_step. eapply wp_write_op; [reflexivity|exact Hs1|]. intros s2 Hs2 _.
  eapply wp_write_op; [reflexivity|exact Hs2|]. intros s3 Hs3 _.
  do 2 wp_step. eapply wp_get_apic_info; [exact Hs3|].
  eapply (wp_write_op _ _ (Wrmsr 0x1b (Z.lor (Acpi.local_apic_base info) 0x800)));
    [|exact Hs3|].
  { unfold write_msr. cbv zeta. rewrite split_join; [done|]. destruct Hok as [Hb _].
    apply (lor_range 64); [lia|lia|by apply ushl_range]. }
  intros s4 Hs4 _. wp_step.
  eapply (wp_init_local_apic info k n); [exact Hk|exact Hm|exact Hs4|]. intros s5 Hs5.
  eapply (wp_init_io_apic info k n); [exact Hm|exact Hok|exact Hs5|]. intros s6 Hs6.
  apply HQ. rewrite <- !(assoc_L (++)) in Hs6. exact Hs6.
Qed.

(** What a handler leaves: it returned, its accesses before the acknowledgement are
    [l], and that is the last access; only the text on the console differs. *)
Definition acknowledged (la : LocalApic) s (l : list io_event) (text : L) s' : Prop :=
  int_log s' = int_log s ++ l ++ [EvWrite (Store32 (la_ptr la + 0xb0) 0)] /\
  LOCAL_APIC s' = LOCAL_APIC s /\
  int_acpi s' = Acpi.mkAcpiState (Acpi.FADT (int_acpi s)) (Acpi.APIC_INFO (int_acpi s)) text.

(** Reading from the PS/2 controller: no writes, the handshake, and what is taken. *)
Definition input_only (P : list io_event -> Prop) (l : list io_event) : Prop :=
  Ps2Controller.handshake l /\ Ps2Controller.reads_only l /\ P l.

Lemma wp_input {A} (m : M (Bus D) A) P (Q : A -> St -> Prop) s :
  Ps2Controller.shakes m -> emits bus_log (fun _ => True) Ps2Controller.reads_only m ->
  (forall b, wp m (fun _ b' => exists l, bus_log b' = bus_log b ++ l /\ P l) b) ->
  (forall a b l, bus_log b = int_log s ++ l -> input_only P l ->
     Q a (mkIntState (LOCAL_APIC s) (int_acpi s) b)) ->
  wp (on_machine m) Q s.
Proof.
  intros Hh Hr Hp HQ. apply wp_zoom. specialize (Hh (int_bus s) I).
  specialize (Hr (int_bus s) I). specialize (Hp (int_bus s)). unfold wp in *.
  destruct (m (int_bus s)) as [a b|e b|]; [|done..].
  destruct Hh as (_ & l & El & Hh). destruct Hr as (_ & l' & El' & Hr).
  destruct Hp as (l'' & El'' & Hp).
  assert (l' = l) as -> by (rewrite El' in El; by apply app_inv_head in El).
  assert (l'' = l) as -> by (rewrite El'' in El; by apply app_inv_head in El).
  eapply HQ; [exact El|]. by split.
Qed.

Lemma wp_line pieces (Q : unit -> St -> Prop) s :
  wp (log_line pieces) (fun _ t => Q tt (mkIntState (LOCAL_APIC s)
    (Acpi.mkAcpiState (Acpi.FADT (int_acpi s)) (Acpi.APIC_INFO (int_acpi s)) t) (int_bus s)))
    (Acpi.acpi_log (int_acpi s)) ->
  wp (kprintln pieces) Q s.
Proof.
  intros HQ. do 2 apply wp_zoom. eapply wp_mono; [exact HQ|]. by intros [] t.
Qed.

Lemma wp_end_of_interrupt la (Q : unit -> St -> Prop) s :
  once_get (LOCAL_APIC s) = Some la ->
  (forall s', acknowledged la s [] (Acpi.acpi_log (int_acpi s)) s' -> Q tt s') ->
  wp end_of_interrupt Q s.
Proof.
  intros Hla HQ. unfold end_of_interrupt, LOCAL_APIC_wait. do 2 wp_step. wp_step.
  rewrite Hla. apply wp_ret. apply wp_zoom, wp_io_write. apply HQ.
  split; [done|]. split; [done|]. by destruct s as [? [] ?].
Qed.

Lemma input_only_nil P : P [] -> input_only P [].
Proof. intros HP. split; [apply Ps2Controller.handshake_nil|by split]. Qed.

(** A handler that reads, prints and acknowledges. *)
Lemma wp_handler h la (Q : unit -> St -> Prop) s :
  h <> HDoubleFault -> once_get (LOCAL_APIC s) = Some la ->
  wp (match handler_line h with Some p => log_line p | None => mret tt end)
    (fun _ t => forall l s', input_only (drained h) l -> acknowledged la s l t s' -> Q tt s')
    (Acpi.acpi_log (int_acpi s)) ->
  wp (run_handler h) Q s.
Proof.
  intros Hh Hla Hline.
  assert (Hend : forall b t l, bus_log b = int_log s ++ l -> input_only (drained h) l ->
    (forall l s', input_only (drained h) l -> acknowledged la s l t s' -> Q tt s') ->
    wp end_of_interrupt Q (mkIntState (LOCAL_APIC s)
      (Acpi.mkAcpiState (Acpi.FADT (int_acpi s)) (Acpi.APIC_INFO (int_acpi s)) t) b)).
  { intros b t l El Hl HQ. apply (wp_end_of_interrupt la); [exact Hla|].
    intros s' (E & Ela & Ea). eapply HQ; [exact Hl|]. split; [|by split].
    rewrite E. unfold int_log in *. cbn [int_bus] in *. by rewrite El, <- (assoc_L (++)). }
  destruct h; try done; cbn [run_handler handler_line] in *;
    unfold breakpoint_handler, timer_interrupt_handler,
    keyboard_interrupt_handler, mouse_interrupt_handler.
  - wp_step. apply wp_line. eapply wp_mono; [exact Hline|]. intros [] t HQ.
    eapply (Hend _ _ []); [by rewrite app_nil_r|by apply input_only_nil|exact HQ].
  - destruct s as [x [f i c] b].
    eapply (Hend b c []); [by rewrite app_nil_r|by apply input_only_nil|exact Hline].
  - wp_step. eapply (wp_input _ (drained HKeyboard)); [apply shakes_keyboard_data|
      apply reads_only_keyboard_data|apply keyboard_data_takes|].
    intros r b l El Hl. wp_step. apply wp_line. eapply wp_mono; [exact Hline|]. intros [] t HQ.
    by eapply Hend.
  - wp_step. eapply (wp_input _ (drained HMouse)); [apply Ps2Controller.shakes_flush|
      apply Ps2Controller.reads_only_flush|apply Ps2Controller.flush_drains|].
    intros r b l El Hl. wp_step. apply wp_line. eapply wp_mono; [exact Hline|]. intros [] t HQ.
    by eapply Hend.
Qed.
End running.

(** * Properties *)

Section properties.
Context `{Acpi.AcpiApi} {once : Type -> Type} `{SpinOnceLaws once} {L : Type} `{LogLaws L}
  {D : Type} `{Device D}.
Notation St := (IntState once L D).
Implicit Types s : St.

(** C10: on a machine with the APICs of the ACPI tables, [init] returns; it publishes the
    local APIC, and the writes it makes are, in this order: the descriptor table, the
    masks of both legacy controllers, the enable bit of the APIC base, the local
    APIC's registers, a masked redirection entry for each line of the I/O APIC below
    the maximum entry number [n] its version register holds, which leaves out the last line,
    and the entries of the keyboard and the mouse. *)
Theorem init_programs_apics info k n fuel s :
  (k <= fuel)%nat -> apic_machine (D := D) info k n -> info_ok info ->
  once_get (LOCAL_APIC s) = None -> once_get (Acpi.APIC_INFO (int_acpi s)) = Some info ->
  log_ready (Acpi.acpi_log (int_acpi s)) ->
  exists s', init fuel s = Ret tt s' /\
    once_get (LOCAL_APIC s') = Some (LocalApic_new (Acpi.local_apic_base info)) /\
    writes_of (int_log s') = writes_of (int_log s) ++ [Lidt; Out8 0xa1 0xff; Out8 0x21 0xff] ++
      [Wrmsr 0x1b (Z.lor (Acpi.local_apic_base info) 0x800)] ++
      local_apic_writes (Acpi.local_apic_base info) ++
      io_apic_writes (Acpi.io_apic_base info) n (Acpi.processor_id info).
Proof.
  intros Hk Hm Hok Hla Hi Hl. apply wp_returns_unit.
  eapply wp_interrupts_init; [exact Hk|exact Hm|exact Hok|done|].
  intros s' (Hla' & _ & _ & Hw). split; [exact Hla'|]. exact Hw.
Qed.

(** C15: the redirection table after [init], whatever it held before: line 1 goes to
    vector 33 and line 12 to vector 44 of the first processor, every other line
    below the maximum entry number [n] of the version register is masked, and entry [n] itself,
    the last one the I/O APIC has, keeps what the firmware left in it. *)
Theorem init_redirections info k n fuel s r i :
  (k <= fuel)%nat -> apic_machine (D := D) info k n -> info_ok info ->
  apart (Acpi.local_apic_base info) (Acpi.io_apic_base info) ->
  once_get (LOCAL_APIC s) = None -> once_get (Acpi.APIC_INFO (int_acpi s)) = Some info ->
  log_ready (Acpi.acpi_log (int_acpi s)) -> writes_of (int_log s) = [] -> 0 <= i ->
  exists s', init fuel s = Ret tt s' /\
    redirection_entry (io_apic_run (Acpi.io_apic_base info) r (writes_of (int_log s'))) i =
      if i =? 12 then Some (Acpi.processor_id info * 2 ^ 56 + 44)
      else if i =? 1 then Some (Acpi.processor_id info * 2 ^ 56 + 33)
      else if i <? n then Some (2 ^ 16 + 32 + i)
      else redirection_entry r i.
Proof.
  intros Hk Hm Hok Ha Hla Hi Hl Hw Hi0. apply wp_returns_unit.
  eapply wp_interrupts_init; [exact Hk|exact Hm|exact Hok|done|].
  intros s' (_ & _ & _ & E). unfold int_log in *. rewrite E, Hw.
  assert (Hn : 0 <= n < 2 ^ 8).
  { rewrite <- (am_max _ _ _ Hm (bus_dev (int_bus s))). by apply field_range. }
  change (io_apic_run ?b r ([] ++ init_writes info n)) with (io_apic_run b r (apic_writes info n)).
  rewrite apic_writes_table by (try done; apply Hok). unfold redirected, masked_value, routed_value.
  destruct (i =? 12); [done|]. destruct (i =? 1); [done|]. destruct (i <? n); [|done].
  f_equal. lia.
Qed.

(** C25: every handler but the double fault's returns, on every machine.  The keyboard's
    first takes one byte from the controller: it polls the status until it shows the
    output buffer full and reads the data port, or gives up after 1000 polls.  The
    mouse's takes bytes that way as long as the status shows the buffer full, at most
    1000.  The timer's and the breakpoint's access nothing.  Then, as the only write and
    the last access, each acknowledges the interrupt. *)
Theorem handlers_acknowledge h la s :
  h <> HDoubleFault -> once_get (LOCAL_APIC s) = Some la ->
  log_ready (Acpi.acpi_log (int_acpi s)) ->
  exists l s', run_handler h s = Ret tt s' /\
    int_log s' = int_log s ++ l ++ [EvWrite (Store32 (la_ptr la + 0xb0) 0)] /\
    drained h l /\ Ps2Controller.handshake l /\ writes_of l = [] /\
    once_get (LOCAL_APIC s') = Some la.
Proof.
  intros Hh Hla Hl.
  assert (Hw : wp (run_handler h) (fun _ s' => exists l t,
    input_only (drained h) l /\ acknowledged la s l t s') s).
  { apply (wp_handler h la); [done..|]. unfold handler_line.
    eapply wp_mono with (Q := fun _ _ => True); [|eauto].
    destruct h; try done; (eapply wp_mono; [by apply log_line_ready, msg_ascii|done]). }
  apply wp_returns_unit in Hw as (s' & E & l & t & (Hsh & Hr & Hd) & (El & Hla' & _)).
  exists l, s'. rewrite Hla'. auto 10.
Qed.
End properties.

Section locked.
Context `{Acpi.AcpiApi} {once : Type -> Type} `{SpinOnceLaws once} {L : Type} `{Log L}
  {D : Type} `{Device D}.
Implicit Types s : IntState once L D.

(** A log that cannot print: its lock is held. *)
Definition locked_out (l : L) : Prop := forall pieces,
  log_line pieces l = Panic (UnwrapFailed "kprintln!") l.

(** A handler that prints, while the console is locked. *)
Lemma kprintln_locked_out {A} (m : M (Bus D) A) (k : unit -> M _ unit) pieces s :
  locked_out (Acpi.acpi_log (int_acpi s)) ->
  emits bus_log (fun _ => True) Ps2Controller.reads_only m ->
  (forall b, exists P, wp m P b) ->
  exists s', (on_machine m ≫= fun _ => kprintln pieces ≫= k) s =
    Panic (UnwrapFailed "kprintln!") s' /\ writes_of (int_log s') = writes_of (int_log s) /\
    int_acpi s' = int_acpi s.
Proof.
  intros Hheld Hr Hret. specialize (Hr (int_bus s) I). destruct (Hret (int_bus s)) as [P HP].
  unfold wp in HP. destruct (m (int_bus s)) as [a b|e b|] eqn:E; [|done..].
  destruct Hr as (_ & l & El & Hl).
  eexists (mkIntState (LOCAL_APIC s) (int_acpi s) b). split; [|split; [|done]].
  - rewrite (bind_Ret _ _ _ a (mkIntState (LOCAL_APIC s) (int_acpi s) b));
      [|unfold on_machine, zoom; by rewrite E].
    apply bind_Panic. unfold kprintln, on_acpi, Acpi.kprintln, zoom. cbn [int_acpi].
    rewrite Hheld. by destruct (int_acpi s).
  - unfold int_log. cbn [int_bus]. rewrite El, writes_of_app, Hl. apply app_nil_r.
Qed.

Lemma handler_held h pieces s :
  handler_line h = Some pieces -> locked_out (Acpi.acpi_log (int_acpi s)) ->
  exists s', run_handler h s = Panic (UnwrapFailed "kprintln!") s' /\
    writes_of (int_log s') = writes_of (int_log s) /\ int_acpi s' = int_acpi s.
Proof.
  intros Hh Hheld. destruct h; try discriminate Hh; cbn [run_handler].
  - destruct (kprintln_locked_out (mret tt) (fun _ => end_of_interrupt)
      (msg "breakpoint exception occured.") s Hheld) as (s' & E & Hs');
      [by apply emits_ret|intros b; exists (fun _ _ => True); by apply wp_ret|].
    exists s'. split; [|done]. unfold breakpoint_handler. rewrite <- E. by destruct s.
  - apply kprintln_locked_out; [done|apply reads_only_keyboard_data|].
    intros b. eexists. apply keyboard_data_takes.
  - apply kprintln_locked_out; [done|apply Ps2Controller.reads_only_flush|].
    intros b. eexists. apply Ps2Controller.flush_drains.
Qed.
End locked.

(** ** What the vectors that [init] programs lead to *)

(** The value last stored to [a]. *)
Definition stored (a : Z) (w : write_op) : option Z :=
  match w with Store32 a' v => if a' =? a then Some v else None | _ => None end.
Definition last_store (a : Z) (ws : list write_op) : option Z := last (omap (stored a) ws).

Lemma omap_none {A B} (f : A -> option B) (l : list A) :
  Forall (fun x => f x = None) l -> omap f l = [].
Proof. induction 1 as [|x l Hx _ IH]; [done|]. cbn. by rewrite Hx. Qed.

Lemma last_store_app a ws1 ws2 :
  Forall (fun w => stored a w = None) ws2 -> last_store a (ws1 ++ ws2) = last_store a ws1.
Proof.
  intros Hn. unfold last_store. by rewrite omap_app, (omap_none _ ws2 Hn), app_nil_r.
Qed.

Lemma entry_writes_addr a io i v : a <> io -> a <> io + 16 ->
  Forall (fun w => stored a w = None) (entry_writes io i v).
Proof.
  intros H1 H2. unfold entry_writes, stored.
  repeat constructor; case_match; first [done|lia].
Qed.

Lemma io_apic_writes_addr a io n cpu : a <> io -> a <> io + 16 ->
  Forall (fun w => stored a w = None) (io_apic_writes io n cpu).
Proof.
  intros H1 H2. unfold io_apic_writes. repeat rewrite Forall_app.
  split; [unfold stored; repeat constructor; case_match; first [done|lia]|].
  split; [|split; by apply entry_writes_addr].
  apply Forall_concat, List.Forall_map, Forall_true. intros i. by apply entry_writes_addr.
Qed.

Lemma init_last_store info n a v ws :
  apart (Acpi.local_apic_base info) (Acpi.io_apic_base info) ->
  0 <= a < 0x400 ->
  last_store (Acpi.local_apic_base info + a) (local_apic_writes (Acpi.local_apic_base info)) = Some v ->
  ws = init_writes info n -> last_store (Acpi.local_apic_base info + a) ws = Some v.
Proof.
  intros Hap Ha Hv ->. unfold init_writes, apic_writes. unfold apart in Hap.
  rewrite !(assoc_L (++)), last_store_app by (apply io_apic_writes_addr; lia).
  unfold last_store in *. rewrite omap_app, last_app. by rewrite Hv.
Qed.

Lemma local_store la a v : (a, v) ∈ [(0x370, 51); (0xf0, 0x1ff)] ->
  last_store (la + a) (local_apic_writes la) = Some v.
Proof.
  rewrite !elem_of_cons, elem_of_nil. intros [E|[E|[]]]; injection E as -> ->;
    unfold last_store, local_apic_writes, stored; cbn [omap list_omap];
    repeat match goal with
    | |- context [la + ?x =? la + ?y] =>
        first [replace (la + x =? la + y) with true by lia | replace (la + x =? la + y) with false by lia]
    end; reflexivity.
Qed.

Lemma routed_fields v cpu : 0 <= v < 2 ^ 8 -> 0 <= cpu < 2 ^ 8 ->
  Z.testbit (routed_value v cpu) 16 = false /\ field (routed_value v cpu) 0 8 = v.
Proof.
  intros Hv Hc. unfold routed_value, field. rewrite <- (lor_add 56) by lia.
  split.
  - rewrite Z.lor_spec, Z.mul_pow2_bits_low, (testbit_high 8) by lia. done.
  - rewrite Z.shiftr_0_r, lor_add by lia. unfold as_u. zlia.
Qed.

Lemma masked_bit i : 0 <= i < 2 ^ 8 -> Z.testbit (masked_value i) 16 = true.
Proof.
  intros Hi. unfold masked_value. change 0x10000 with (1 * 2 ^ 16).
  rewrite <- (lor_add 16) by lia. by rewrite Z.lor_spec, Z.mul_pow2_bits.
Qed.

Section coverage.
Context `{Acpi.AcpiApi} {once : Type -> Type} `{SpinOnceLaws once} {L : Type} `{LogLaws L}
  {D : Type} `{Device D}.
Implicit Types s : IntState once L D.

(** C37: after [init] every interrupt the I/O APIC can deliver by an entry [init] wrote has a
    gate: the keyboard's and the mouse's lines are unmasked, with vectors whose gates lead to their
    handlers, and every other entry written is masked.  The local APIC's own are not
    covered: the error interrupt is unmasked with a vector, and the spurious interrupt has
    a vector, for which the descriptor table has no gate. *)
Theorem idt_coverage info k n fuel s :
  (k <= fuel)%nat -> apic_machine (D := D) info k n -> info_ok info ->
  apart (Acpi.local_apic_base info) (Acpi.io_apic_base info) ->
  once_get (LOCAL_APIC s) = None -> once_get (Acpi.APIC_INFO (int_acpi s)) = Some info ->
  log_ready (Acpi.acpi_log (int_acpi s)) ->
  exists s' ws, init fuel s = Ret tt s' /\ writes_of (int_log s') = writes_of (int_log s) ++ ws /\
    let la := Acpi.local_apic_base info in
    let entry := redirection_entry (io_apic_run (Acpi.io_apic_base info) (mkIoApicState 0 ∅) ws) in
    (forall i h, (i, h) ∈ [(1, HKeyboard); (12, HMouse)] -> exists e, entry i = Some e /\
       Z.testbit e 16 = false /\ handler_of (field e 0 8) = Some h) /\
    (forall i e, 0 <= i -> i <> 1 -> i <> 12 -> entry i = Some e -> Z.testbit e 16 = true) /\
    (forall a, a ∈ [0x370; 0xf0] -> exists e, last_store (la + a) ws = Some e /\
       Z.testbit e 16 = false /\ handler_of (field e 0 8) = None).
Proof.
  intros Hk Hm Hok Hap Hla Hi Hl.
  assert (Hw : wp (init fuel) (fun _ s' => writes_of (int_log s') =
    writes_of (int_log s) ++ init_writes info n) s).
  { eapply wp_interrupts_init; [exact Hk|exact Hm|exact Hok|done|].
    by intros s' (_ & _ & _ & E). }
  apply wp_returns_unit in Hw as (s' & E & Ew). exists s', (init_writes info n).
  split; [exact E|]. split; [exact Ew|]. cbv zeta.
  assert (Hn : 0 <= n < 2 ^ 8)
    by (rewrite <- (am_max _ _ _ Hm (bus_dev (int_bus s))); by apply field_range).
  destruct Hok as [_ Hcpu].
  assert (Ht : forall i, 0 <= i -> redirection_entry (io_apic_run (Acpi.io_apic_base info)
    (mkIoApicState 0 ∅) (init_writes info n)) i = redirected n (Acpi.processor_id info) i None)
    by (intros i Hi0; exact (apic_writes_table info n (mkIoApicState 0 ∅) i Hap Hn Hcpu Hi0)).
  split; [|split].
  - intros i h. rewrite !elem_of_cons, elem_of_nil. intros [Ei|[Ei|[]]]; injection Ei as -> ->;
      eexists; (split; [by rewrite Ht by lia|]);
      match goal with |- context [routed_value ?v ?c] => destruct (routed_fields v c) as [-> ->] end;
      by try lia.
  - intros i e Hi0 Hi1 Hi12. rewrite Ht by done. unfold redirected.
    replace (i =? 12) with false by lia. replace (i =? 1) with false by lia.
    destruct (Z.ltb_spec i n); [|done]. injection 1 as <-. apply masked_bit. lia.
  - intros a. rewrite !elem_of_cons, elem_of_nil. intros [->|[->|[]]]; eexists;
      (split; [eapply init_last_store; [exact Hap|lia|apply local_store|reflexivity];
        rewrite !elem_of_cons; tauto|by split]).
Qed.
End coverage.
(** * Witnesses: an I/O APIC with 24 entries, one of them the selected register *)

#[local] Existing Instance Acpi.firmware.

#[local] Instance apics : Device Z := {|
  dev_read op sel := match op with
    | Load32 a => (if (a =? 0xfec00010) && (sel =? 1) then 0x170011 else 0, sel)
    | In8 p => (if p =? 0x64 then 1 else 0x1c, sel)
    | _ => (0, sel)
    end;
  dev_write op sel := match op with
    | Store32 a v => if a =? 0xfec00000 then v else sel
    | _ => sel
    end
|}.

Definition qemu_info : Acpi.ApicInfo :=
  Acpi.mkApicInfo 0xfee00000 (Acpi.mkLocalApicEntry 0 0) (Acpi.mkIoApicEntry 0 0xfec00000).

Lemma apics_machine : apic_machine (D := Z) qemu_info 1 23.
Proof. split; intros d; [by left|reflexivity|reflexivity]. Qed.

Lemma qemu_info_ok : info_ok qemu_info.
Proof.
  unfold info_ok, qemu_info. cbn [Acpi.local_apic_base Acpi.processor_id Acpi.local_apic
    Acpi.processor_id_field]. lia.
Qed.

Lemma qemu_apart : apart (Acpi.local_apic_base qemu_info) (Acpi.io_apic_base qemu_info).
Proof. by right. Qed.

Definition qemu_int (la : option LocalApic) : IntState option (list (list Z)) Z :=
  mkIntState la (Acpi.mkAcpiState None (Some qemu_info) []) (mkBus 0 []).

Lemma init_programs_apics_witness :
  exists s', init 1 (qemu_int None) = Ret tt s' /\
    LOCAL_APIC s' = Some (LocalApic_new 0xfee00000) /\
    last (writes_of (int_log s')) = Some (Store32 0xfec00010 0).
Proof.
  destruct (init_programs_apics qemu_info 1 23 1 (qemu_int None) ltac:(lia) apics_machine
    qemu_info_ok eq_refl eq_refl I) as (s' & E & Hla & Hw).
  exists s'. split; [exact E|]. split; [exact Hla|]. rewrite Hw. reflexivity.
Defined.

Lemma idt_coverage_witness :
  exists s' ws e e', init 1 (qemu_int None) = Ret tt s' /\ writes_of (int_log s') = ws /\
    redirection_entry (io_apic_run 0xfec00000 (mkIoApicState 0 ∅) ws) 1 = Some e /\
    handler_of (field e 0 8) = Some HKeyboard /\
    last_store 0xfee00370 ws = Some e' /\ handler_of (field e' 0 8) = None.
Proof.
  destruct (idt_coverage qemu_info 1 23 1 (qemu_int None) ltac:(lia) apics_machine
    qemu_info_ok qemu_apart eq_refl eq_refl I) as (s' & ws & E & Ew & Hin & _ & Hno).
  destruct (Hin 1 HKeyboard ltac:(apply elem_of_cons; by left)) as (e & He & _ & Hh).
  destruct (Hno 0x370 ltac:(apply elem_of_cons; by left)) as (e' & He' & _ & Hh').
  exists s', ws, e, e'. auto 10.
Defined.

Lemma init_redirections_witness :
  exists s', init 1 (qemu_int None) = Ret tt s' /\
    redirection_entry (io_apic_run 0xfec00000 (mkIoApicState 0 ∅) (writes_of (int_log s'))) 12
      = Some 44 /\
    redirection_entry (io_apic_run 0xfec00000 (mkIoApicState 0 ∅) (writes_of (int_log s'))) 23
      = None.
Proof.
  pose proof (fun i Hi => init_redirections qemu_info 1 23 1 (qemu_int None)
    (mkIoApicState 0 ∅) i ltac:(lia) apics_machine qemu_info_ok
    qemu_apart eq_refl eq_refl I eq_refl Hi) as HI.
  destruct (HI 12 ltac:(lia)) as (s' & E & H12).
  destruct (HI 23 ltac:(lia)) as (s'' & E' & H23).
  assert (s'' = s') as -> by (rewrite E in E'; by inversion E').
  exists s'. split; [exact E|]. split; [exact H12|exact H23].
Defined.

Lemma handlers_acknowledge_witness :
  exists l s', run_handler HKeyboard (qemu_int (Some (LocalApic_new 0xfee00000))) = Ret tt s' /\
    int_log s' = l ++ [EvWrite (Store32 0xfee000b0 0)] /\ Ps2Controller.byte_taken l /\
    writes_of l = [].
Proof.
  destruct (handlers_acknowledge HKeyboard (LocalApic_new 0xfee00000)
    (qemu_int (Some (LocalApic_new 0xfee00000))) ltac:(discriminate) eq_refl I)
    as (l & s' & E & El & Hd & _ & Hw & _).
  exists l, s'. auto.
Defined.
End Interrupts.
