(* ===== verification/Accesses.v ===== *)
(** What each stage of the kernel does to the machine: an invariant of the machine and the
    log that a stage's own kind of access keeps is kept by the stage, however it ends. *)

From S2P Require Import Prelude Machine External Simulation Logger Gdt Paging Pci Ps2Controller.
From S2P Require Import Ps2Keyboard Ps2Mouse Ps2 Apic Acpi Interrupts.

Module Accesses.
Import Logger.

(** * Specification: the kinds of accesses *)

(** The registers that the kernel writes of the two APICs. *)
Definition register_of (info : Acpi.ApicInfo) (a : Z) : bool :=
  (Acpi.local_apic_base info <=? a) && (a <? Acpi.local_apic_base info + 0x400)
  || (a =? Acpi.io_apic_base info) || (a =? Acpi.io_apic_base info + 16).

(** The stages, and the writes of each. *)
Inductive stage : Type :=
  | Segments | Tables (a : Paging.table_addrs) | PciBus | Ps2Ports | Controllers (info : option Acpi.ApicInfo).

Definition writes_in (st : stage) (op : write_op) : bool :=
  match st with
  | Segments => match op with Lgdt _ _ | SetSegment _ _ => true | _ => false end
  | Tables a => match op with SetCr3 p => p =? Paging.pml4_addr a | _ => false end
  | PciBus => match op with Out32 _ _ => true | _ => false end
  | Ps2Ports => match op with Out8 p _ => (p =? 0x60) || (p =? 0x64) | _ => false end
  | Controllers info =>
      match op with
      | Lidt | Wrmsr _ _ => true
      | Out8 p _ => (p =? 0xa1) || (p =? 0x21)
      | Store32 a _ => match info with Some info => register_of info a | None => false end
      | _ => false
      end
  end.

Definition reads_in (st : stage) (op : read_op) : bool :=
  match st, op with
  | PciBus, In32 _ => true
  | Ps2Ports, In8 p => (p =? 0x60) || (p =? 0x64)
  | Controllers _, Load32 _ => true
  | _, _ => false
  end.

(** The accesses of a stage keep [I]. *)
Record kept_by {D} `{Device D} (I : Bus D -> Prop) (st : stage) : Prop := {
  kb_write op : writes_in st op = true -> pres I (io_write op);
  kb_read op : reads_in st op = true -> pres I (io_read op)
}.

(** What the processor is told of its tables: the descriptor table's address, the segments
    and the page tables. *)
Definition cpu_op (op : write_op) : bool :=
  match op with Lgdt _ _ | SetSegment _ _ | SetCr3 _ => true | _ => false end.
Definition cpu_writes (l : list io_event) : list write_op :=
  filter (fun op => cpu_op op = true) (writes_of l).

(** The register that points to the top page table, if the log says. *)
Definition cr3_of (l : list io_event) : option Z :=
  last (omap (fun op => match op with SetCr3 a => Some a | _ => None end) (cpu_writes l)).

Lemma cpu_writes_app l1 l2 : cpu_writes (l1 ++ l2) = cpu_writes l1 ++ cpu_writes l2.
Proof. unfold cpu_writes. by rewrite writes_of_app, filter_app. Qed.

(** ** Invariants of the log and of the machine that stages keep *)

Section keeping.
Context {D : Type} `{Device D}.

Lemma kept_and (I J : Bus D -> Prop) st :
  kept_by I st -> kept_by J st -> kept_by (fun b => I b /\ J b) st.
Proof.
  intros [Iw Ir] [Jw Jr]. split; intros op Hop b [Hi Hj].
  - specialize (Iw op Hop b Hi). specialize (Jw op Hop b Hj). by destruct (io_write op b).
  - specialize (Ir op Hop b Hi). specialize (Jr op Hop b Hj). by destruct (io_read op b).
Qed.

(** Devices other than the PS/2 controller. *)
Lemma kept_dev (J : D -> Prop) st :
  (forall op d, writes_in st op = true -> J d -> J (dev_write op d)) ->
  (forall op d, reads_in st op = true -> J d -> J (dev_read op d).2) ->
  kept_by (fun b => J (bus_dev b)) st.
Proof.
  intros Hw Hr. split; intros op Hop.
  - apply (pres_io_write J). intros d. by apply Hw.
  - apply (pres_io_read J). intros d. by apply Hr.
Qed.

(** Only two stages tell the processor of its tables. *)
Definition plain (st : stage) : Prop := forall op, writes_in st op = true -> cpu_op op = false.

Lemma kept_cpu c st : plain st -> kept_by (fun b : Bus D => cpu_writes (bus_log b) = c) st.
Proof.
  intros Hp. split; intros op Hop b Hb.
  - unfold io_write. cbn [bus_log]. rewrite cpu_writes_app, Hb.
    unfold cpu_writes. cbn. rewrite decide_False by (by rewrite (Hp op Hop)). apply app_nil_r.
  - unfold io_read. destruct (dev_read op (bus_dev b)). cbn [bus_log].
    rewrite cpu_writes_app, Hb. apply app_nil_r.
Qed.

Lemma plain_pci : plain PciBus. Proof. by intros []. Qed.
Lemma plain_ps2 : plain Ps2Ports. Proof. by intros []. Qed.
Lemma plain_controllers info : plain (Controllers info). Proof. by intros []. Qed.
End keeping.

(** * The stages *)

Section stages.
Context {D : Type} `{Device D} (I : Bus D -> Prop).

Section segments.
Context {mutex : Type -> Type} `{SpinMutex mutex} `{Gdt.SelectorApi}.
Hypothesis HI : kept_by I Segments.

Lemma pres_gdt gdt_addr :
  pres (fun g : Gdt.GdtState mutex D => I (Gdt.gdt_bus g)) (Gdt.init gdt_addr).
Proof.
  unfold Gdt.init. apply pres_with_guard; [done|apply pres_diverge|].
  assert (Hio : forall A (m : M (Bus D) A), pres I m ->
    pres (fun p : list Gdt.SegmentDescriptor * Gdt.GdtState mutex D =>
      I (Gdt.gdt_bus p.2)) (Gdt.gdt_io m)) by (intros A m; by apply (pres_zoom _ I)).
  assert (Hup : forall i f, pres (fun p : list Gdt.SegmentDescriptor * Gdt.GdtState mutex D =>
    I (Gdt.gdt_bus p.2)) (Gdt.update_entry i f)).
  { intros i f. apply (pres_zoom _ (fun _ => True)); [done..|].
    repeat pres_step. by intros t Ht. }
  repeat pres_step; first [apply Hup | apply Hio; by apply (kb_write _ _ HI)].
Qed.
End segments.

Section tables.
Context {mutex : Type -> Type} `{SpinMutex mutex} (a : Paging.table_addrs).
Hypothesis HI : kept_by I (Tables a).

Lemma pres_paging :
  pres (fun g : Paging.PagingState mutex D => I (Paging.pg_bus g)) (Paging.init a).
Proof.
  unfold Paging.init. do 3 (apply pres_with_guard; [done|apply pres_diverge|]).
  pres_step.
  - apply (pres_zoom _ (fun _ => True)); [done|by intros (? & ? & ? & ?)|].
    intros t _. by destruct (Paging.fill_tables a t).
  - apply (pres_zoom _ I); [by intros (? & ? & ? & ?)..|].
    apply (kb_write _ _ HI), Z.eqb_refl.
Qed.
End tables.

Section pci.
Context {arrayvec : Type -> Type} `{ArrayVecApi arrayvec}.
Hypothesis HI : kept_by I PciBus.
Notation PI := (fun p : arrayvec Pci.PciDevice * Bus D => I p.2).

Lemma pres_config {A} (m : M (Bus D) A) : pres I m -> pres PI (Pci.on_bus m).
Proof. by apply (pres_zoom _ I). Qed.

Lemma pres_config_word {A} b d f off (k : Z -> M (Bus D) A) :
  (forall v, pres I (k v)) ->
  pres PI (Pci.on_bus (Pci.write_address (Pci.make_address b d f off) ;; v ← Pci.read_data; k v)).
Proof.
  intros Hk. apply pres_config. pres_step; [by apply (kb_write _ _ HI)|].
  pres_step; [by apply (kb_read _ _ HI)|]. apply Hk.
Qed.

Lemma pres_bus_numbers b d f : pres PI (Pci.on_bus (Pci.read_bus_numbers b d f)).
Proof.
  apply pres_config. unfold Pci.read_bus_numbers.
  pres_step; [by apply (kb_write _ _ HI)|by apply (kb_read _ _ HI)].
Qed.

Lemma pres_add_device dev : pres PI (Pci.add_device dev).
Proof.
  intros p Hp. unfold Pci.add_device, mbind, M_bind, get_st, put_st, panic.
  by destruct (av_push p.1 dev).
Qed.

Ltac config :=
  lazymatch goal with
  | |- pres _ (Pci.on_bus (Pci.read_bus_numbers _ _ _)) => apply pres_bus_numbers
  | |- pres _ (Pci.on_bus _) =>
      unfold Pci.read_vendor_id, Pci.read_header_type, Pci.read_class_code; apply pres_config_word; intros ?; apply pres_ret
  | |- pres _ (Pci.add_device _) => apply pres_add_device
  end.

Lemma pres_scan_function scan b d f :
  (forall b, pres PI (scan b)) -> pres PI (Pci.scan_function scan b d f).
Proof.
  intros Hs. unfold Pci.scan_function.
  do 2 (pres_step; [config|]). pres_step; [config|]. pres_step; [|pres_step].
  pres_step; [config|]. pres_step; [apply Hs|pres_step].
Qed.

Lemma pres_scan_bus fuel b : pres PI (Pci.scan_bus fuel b).
Proof.
  revert b. induction fuel as [|fuel IH]; intros b; [apply pres_diverge|].
  cbn [Pci.scan_bus]. unfold Pci.scan_device.
  repeat lazymatch goal with
  | |- pres _ (Pci.scan_function _ _ _ _) => apply pres_scan_function; exact IH
  | |- _ => first [config | pres_step]
  end.
Qed.

Lemma pres_devices fuel : pres PI (Pci.Devices_init fuel).
Proof.
  unfold Pci.Devices_init, Pci.scan_all_bus.
  repeat lazymatch goal with
  | |- pres _ (Pci.scan_bus _ _) => apply pres_scan_bus
  | |- _ => first [config | pres_step]
  end.
Qed.
End pci.

Section ps2.
Hypothesis HI : kept_by I Ps2Ports.
Notation controller := Ps2Controller.Controller_new.

Lemma pres_port_write p v : (p =? 0x60) || (p =? 0x64) = true -> pres I (io_write (Out8 p v)).
Proof. intros Hp. by apply (kb_write _ _ HI). Qed.
Lemma pres_port_read p : (p =? 0x60) || (p =? 0x64) = true -> pres I (io_read (In8 p)).
Proof. intros Hp. by apply (kb_read _ _ HI). Qed.

Ltac port :=
  repeat first [by apply pres_port_write | by apply pres_port_read | pres_step].

Lemma pres_wait ready fuel count :
  pres I (Ps2Controller.wait_loop fuel controller ready count).
Proof.
  revert count. induction fuel as [|fuel IH]; intros count; [apply pres_diverge|].
  cbn [Ps2Controller.wait_loop]. unfold Ps2Controller.read_status. port. apply IH.
Qed.

Lemma pres_read_data : pres I (Ps2Controller.read_data controller).
Proof. unfold Ps2Controller.read_data. pres_step; [apply pres_wait|port]. Qed.
Lemma pres_write_data v : pres I (Ps2Controller.write_data controller v).
Proof. unfold Ps2Controller.write_data. pres_step; [apply pres_wait|port]. Qed.
Lemma pres_command c : pres I (Ps2Controller.write_command controller c).
Proof. by apply pres_port_write. Qed.

Lemma pres_flush : pres I (Ps2Controller.flush_data_port controller).
Proof.
  unfold Ps2Controller.flush_data_port. generalize (Ps2Controller.wait_fuel controller), 0.
  intros fuel. induction fuel as [|fuel IH]; intros count; [apply pres_diverge|].
  cbn [Ps2Controller.flush_loop]. unfold Ps2Controller.read_status. port; [apply pres_read_data|apply IH].
Qed.

Ltac device := repeat first
  [ apply pres_read_data | apply pres_write_data | apply pres_command
  | apply (pres_bind I (mret _)) | pres_step ].

Lemma pres_map_err {S A E F} (J : S -> Prop) (f : E -> F) (m : M S (result A E)) :
  pres J m -> pres J (map_err f m).
Proof. intros Hm. apply pres_bind; [done|]. intros r. apply pres_ret. Qed.

Lemma pres_second_input v : pres I (Ps2Controller.write_to_second_port_input_buffer controller v).
Proof. unfold Ps2Controller.write_to_second_port_input_buffer. device. Qed.

Lemma pres_response b : pres I (Ps2Keyboard.Response_from_u8 b).
Proof. unfold Ps2Keyboard.Response_from_u8. repeat pres_step. Qed.

Ltac answer := repeat first
  [ apply pres_map_err | apply pres_response | apply pres_second_input
  | apply pres_read_data | apply pres_write_data | pres_step ].

Lemma pres_keyboard_reset : pres I (Ps2Keyboard.reset_and_self_test controller).
Proof.
  unfold Ps2Keyboard.reset_and_self_test, Ps2Keyboard.write_command, Ps2Keyboard.read_response. answer.
Qed.
Lemma pres_keyboard_data : pres I (Ps2Keyboard.Keyboard_read_data controller).
Proof. unfold Ps2Keyboard.Keyboard_read_data. answer. Qed.
Lemma pres_mouse_reset : pres I (Ps2Mouse.reset_and_self_test controller).
Proof.
  unfold Ps2Mouse.reset_and_self_test, Ps2Mouse.write_command, Ps2Mouse.read_response,
    Ps2Mouse.Mouse_read_data. answer.
Qed.
Lemma pres_mouse_reporting : pres I (Ps2Mouse.enable_data_reporting controller).
Proof.
  unfold Ps2Mouse.enable_data_reporting, Ps2Mouse.write_command, Ps2Mouse.read_response. answer.
Qed.

Lemma pres_ps2 {L : Type} `{Log L} : pres (fun p : L * Bus D => I p.2) Ps2.init.
Proof.
  assert (Hm : forall A (m : M (Bus D) A), pres I m ->
    pres (fun p : L * Bus D => I p.2) (Ps2.on_machine m))
    by (intros A m; by apply (pres_zoom _ I)).
  assert (Hk : forall s, pres (fun p : L * Bus D => I p.2) (Ps2.kprint_line s))
    by (intros s; apply (pres_zoom _ (fun _ => True)); [done|done|apply pres_any]).
  unfold Ps2.init, Ps2.detect_second_port, Ps2.or_panic,
    Ps2Controller.read_config_byte, Ps2Controller.write_config_byte,
    Ps2Controller.test_controller, Ps2Controller.test_first_port, Ps2Controller.test_second_port.
  repeat lazymatch goal with
  | |- pres _ (Ps2.on_machine _) => apply Hm
  | |- pres _ (Ps2.kprint_line _) => apply Hk
  | |- pres _ (Ps2Controller.flush_data_port _) => apply pres_flush
  | |- pres _ (Ps2Controller.read_data _) => apply pres_read_data
  | |- pres _ (Ps2Controller.write_data _ _) => apply pres_write_data
  | |- pres _ (Ps2Keyboard.reset_and_self_test _) => apply pres_keyboard_reset
  | |- pres _ (Ps2Mouse.reset_and_self_test _) => apply pres_mouse_reset
  | |- pres _ (Ps2Mouse.enable_data_reporting _) => apply pres_mouse_reporting
  | |- _ => first [pres_step | apply pres_command]
  end.
Qed.
End ps2.

Section controllers.
Context `{Acpi.AcpiApi} {once : Type -> Type} `{SpinOnceLaws once} {L : Type} `{Log L}.
Context (fadt : once Acpi.Fadt) (cell : once Acpi.ApicInfo).
Hypothesis HI : kept_by I (Controllers (once_get cell)).

(** The cells of the tables stay as they are, and the local APIC in use is the one of
    the tables. *)
Definition local_apic_known (la : once Apic.LocalApic) : Prop := forall x, once_get la = Some x ->
  exists info, once_get cell = Some info /\ Apic.la_ptr x = Acpi.local_apic_base info.
Record controllers_inv (s : Interrupts.IntState once L D) : Prop := {
  ci_bus : I (Interrupts.int_bus s);
  ci_fadt : Acpi.FADT (Interrupts.int_acpi s) = fadt;
  ci_cell : Acpi.APIC_INFO (Interrupts.int_acpi s) = cell;
  ci_apic : local_apic_known (Interrupts.LOCAL_APIC s)
}.
Notation II := controllers_inv.

Lemma pres_int_machine {A} (m : M (Bus D) A) : pres I m -> pres II (Interrupts.on_machine m).
Proof. apply (pres_zoom _ I); [by intros s []|]. by intros s b [_ ? ? ?] ?. Qed.

Lemma pres_int_kprintln pieces : pres II (Interrupts.kprintln pieces).
Proof.
  intros s [? ? ? ?]. unfold Interrupts.kprintln, Interrupts.on_acpi, Acpi.kprintln, zoom.
  by destruct (log_line pieces _).
Qed.

Lemma val_int_info : pres_val II (fun info => once_get cell = Some info) Interrupts.get_apic_info.
Proof.
  intros s [Hb Hf Hc Ha]. unfold Interrupts.get_apic_info, Interrupts.on_acpi, Acpi.get_apic_info, zoom,
    mbind, M_bind, get_st, Acpi.expect_some. rewrite Hc.
  destruct (once_get cell) as [info|] eqn:E; [split; [|done]|]; by split.
Qed.

Lemma pres_op (m : M (Bus D) unit) op :
  m = io_write op -> writes_in (Controllers (once_get cell)) op = true ->
  pres II (Interrupts.on_machine m).
Proof. intros -> Hop. by apply pres_int_machine, (kb_write _ _ HI). Qed.

Lemma pres_load a : pres I (io_read (Load32 a)).
Proof. by apply (kb_read _ _ HI). Qed.

Lemma pres_register info a v : once_get cell = Some info -> register_of info a = true ->
  pres I (io_write (Store32 a v)).
Proof. intros Hi Ha. apply (kb_write _ _ HI). by rewrite Hi. Qed.

Lemma pres_wait_delivery fuel la : pres II (Interrupts.wait_delivery fuel la).
Proof.
  induction fuel as [|fuel IH]; [apply pres_diverge|]. cbn [Interrupts.wait_delivery].
  pres_step; [apply pres_int_machine, pres_load|]. case_match; [exact IH|apply pres_ret].
Qed.

Section with_info.
Context (info : Acpi.ApicInfo) (Hinfo : once_get cell = Some info).
Notation io := (Apic.IoApic_new (Acpi.io_apic_base info)).

Lemma register_select v : pres I (io_write (Store32 (Apic.reg_addr io) v)).
Proof.
  apply (pres_register info); [done|]. unfold register_of, Apic.reg_addr. cbn [Apic.io_ptr Apic.IoApic_new].
  by rewrite Z.eqb_refl, orb_true_r.
Qed.
Lemma register_data v : pres I (io_write (Store32 (Apic.data_addr io) v)).
Proof.
  apply (pres_register info); [done|]. unfold register_of, Apic.data_addr. cbn [Apic.io_ptr Apic.IoApic_new].
  replace (Acpi.io_apic_base info + 4 + 3 * 4) with (Acpi.io_apic_base info + 16) by lia.
  by rewrite Z.eqb_refl, orb_true_r.
Qed.

Lemma pres_io_apic_read {A} reg (f : Z -> A) :
  pres II (Interrupts.on_machine (x ← Apic.IoApic_read io reg; mret (f x))).
Proof.
  apply pres_int_machine. unfold Apic.IoApic_read.
  repeat first [apply register_select | apply pres_load | pres_step].
Qed.

Lemma pres_redirection i v :
  pres II (Interrupts.on_machine (Apic.set_redirection_entry_at io i v)).
Proof.
  apply pres_int_machine. unfold Apic.set_redirection_entry_at, Apic.IoApic_write.
  repeat first [apply register_select | apply register_data | pres_step].
Qed.

Lemma pres_local_write off v : 0 <= off < 0x100 ->
  pres II (Interrupts.on_machine (Apic.LocalApic_write
    (Apic.LocalApic_new (Acpi.local_apic_base info)) off v)).
Proof.
  intros Hoff. apply pres_int_machine, (pres_register info); [done|].
  unfold register_of, Apic.register_addr. cbn [Apic.la_ptr Apic.LocalApic_new].
  replace (_ && _) with true by lia. done.
Qed.

Lemma pres_publish :
  pres II (modify (fun s => Interrupts.mkIntState
    (once_call (Interrupts.LOCAL_APIC s) (Apic.LocalApic_new (Acpi.local_apic_base info)))
    (Interrupts.int_acpi s) (Interrupts.int_bus s))).
Proof.
  apply pres_modify. intros s [? ? ? Ha]. split; try done. intros x. cbn.
  rewrite once_get_call. destruct (once_get (Interrupts.LOCAL_APIC s)) as [y|] eqn:E.
  - injection 1 as <-. by apply Ha.
  - injection 1 as <-. eauto.
Qed.
End with_info.

Lemma pres_with_info {A} (k : Acpi.ApicInfo -> M _ A) :
  (forall info, once_get cell = Some info -> pres II (k info)) ->
  pres II (info ← Interrupts.get_apic_info; k info).
Proof. intros Hk. eapply val_bind_pres; [apply val_int_info|exact Hk]. Qed.

Lemma pres_interrupts fuel : pres II (Interrupts.init fuel).
Proof.
  unfold Interrupts.init, Interrupts.init_idt, Interrupts.disable_pic_8259, Interrupts.init_apic,
    Interrupts.enable_apic, Interrupts.init_local_apic, Interrupts.init_io_apic,
    Interrupts.mask_entry.
  repeat first
    [ apply pres_with_info; intros ? ?
    | apply pres_int_kprintln | apply pres_wait_delivery | by apply pres_redirection
    | by apply pres_io_apic_read | by apply pres_publish
    | by (apply pres_local_write; [done|split; by vm_compute]) | by eapply pres_op
    | pres_step ].
Qed.

(** ** The handlers *)
Hypothesis HI2 : kept_by I Ps2Ports.

Lemma pres_end_of_interrupt : pres II Interrupts.end_of_interrupt.
Proof.
  unfold Interrupts.end_of_interrupt, Interrupts.LOCAL_APIC_wait. intros s Hs.
  unfold mbind, M_bind, get_st. destruct (once_get (Interrupts.LOCAL_APIC s)) as [la|] eqn:E; [|done].
  destruct (ci_apic _ Hs la E) as (info & Hi & Hla). destruct la as [p]. cbn in Hla. subst p.
  exact (pres_local_write info Hi (0xb0 / 4) 0 ltac:(split; by vm_compute) s Hs).
Qed.

Lemma pres_handler h : pres II (Interrupts.run_handler h).
Proof.
  destruct h; cbn [Interrupts.run_handler]; unfold Interrupts.breakpoint_handler,
    Interrupts.double_fault_handler, Interrupts.timer_interrupt_handler,
    Interrupts.keyboard_interrupt_handler, Interrupts.mouse_interrupt_handler;
    repeat first [ apply pres_end_of_interrupt | apply pres_int_kprintln
      | by apply pres_int_machine, (pres_keyboard_data HI2)
      | by apply pres_int_machine, (pres_flush HI2) | pres_step ].
Qed.
End controllers.
End stages.
End Accesses.
