(* ===== verification/KernelMain.v ===== *)
(** The kernel as a whole (kernel/src/main.rs): the start sequence over the statics of
    all the modules and one machine, whose processor uses the page tables that the sequence
    sets up, and the panic handler. *)

From S2P Require Import Prelude Machine External Simulation Graphic Font Errors.
From S2P Require Import FrameBuffer Console Gdt Paging PhysMem Common Pci PciListing Logger Ps2.
From S2P Require Import Display Ps2Embed Apic Acpi Interrupts Accesses.

Module KernelMain.
Import Logger Graphic Common Display.

Definition KERNEL_STACK_SIZE : Z := 1024 * 1024.

(** The static stack: its bytes; where it is, the linker decides. *)
Definition KernelStack : Type := list Z.
Definition KernelStack_new : KernelStack := replicate (Z.to_nat KERNEL_STACK_SIZE) 0.
Definition KernelStack_len (self : KernelStack) : Z := Z.of_nat (length self).

(** What the assembly of [switch_to_kernel_stack] loads before the call: the argument
    register and the end of the static stack. *)
Record entry_regs : Type := mkEntryRegs { rdi : Z; rsp : Z }.
Definition switch_to_kernel_stack {S} (kernel_stack boot_info : Z) : M S entry_regs :=
  top ← uadd 64 kernel_stack (KernelStack_len KernelStack_new);
  mret (mkEntryRegs boot_info top).

(** The entry point the bootloader jumps to. *)
Definition _start {S} (kernel_stack boot_info : Z) : M S entry_regs :=
  switch_to_kernel_stack kernel_stack boot_info.

Section kernel.
Context {mutex : Type -> Type} `{SpinMutexLaws mutex} {once : Type -> Type} `{SpinOnce once}
  {arrayvec : Type -> Type} `{ArrayVecApi arrayvec} `{Acpi.AcpiApi} `{Gdt.SelectorApi}
  {MT : Type} `{PhysMem.MemoryTypeApi MT} {D : Type} `{Device D}.

(** The statics of the modules, and the machine. *)
Record KernelState : Type := mkKernelState {
  k_gfx : Console.Gfx mutex;
  k_gdt : mutex (list Gdt.SegmentDescriptor);
  k_pml4 : mutex Paging.PageMapLevel4Table;
  k_pdpt : mutex Paging.PageDirectoryPointerTable;
  k_pd : mutex Paging.PageDirectory;
  k_devices : mutex (arrayvec Pci.PciDevice);
  k_fadt : once Acpi.Fadt;
  k_apic_info : once Acpi.ApicInfo;
  k_local_apic : once Apic.LocalApic;
  k_mem : mutex PhysMem.BitmapMemoryManager;
  k_bus : Bus D
}.
Notation KM := (M KernelState).

(** ** Each module on its own statics *)

Definition gdt_part (s : KernelState) : Gdt.GdtState mutex D := Gdt.mkGdtState (k_gdt s) (k_bus s).
Definition set_gdt_part (g : Gdt.GdtState mutex D) (s : KernelState) : KernelState :=
  mkKernelState (k_gfx s) (Gdt.GDT g) (k_pml4 s) (k_pdpt s) (k_pd s) (k_devices s) (k_fadt s)
    (k_apic_info s) (k_local_apic s) (k_mem s) (Gdt.gdt_bus g).

Definition paging_part (s : KernelState) : Paging.PagingState mutex D :=
  Paging.mkPagingState (k_pml4 s) (k_pdpt s) (k_pd s) (k_bus s).
Definition set_paging_part (g : Paging.PagingState mutex D) (s : KernelState) : KernelState :=
  mkKernelState (k_gfx s) (k_gdt s) (Paging.PAGE_MAP_LEVEL4_TABLE g) (Paging.PAGE_DIR_PTR_TABLE g)
    (Paging.PAGE_DIR g) (k_devices s) (k_fadt s) (k_apic_info s) (k_local_apic s) (k_mem s)
    (Paging.pg_bus g).

Definition set_gfx (g : Console.Gfx mutex) (s : KernelState) : KernelState :=
  mkKernelState g (k_gdt s) (k_pml4 s) (k_pdpt s) (k_pd s) (k_devices s) (k_fadt s)
    (k_apic_info s) (k_local_apic s) (k_mem s) (k_bus s).
Definition set_devices (d : mutex (arrayvec Pci.PciDevice)) (s : KernelState) : KernelState :=
  mkKernelState (k_gfx s) (k_gdt s) (k_pml4 s) (k_pdpt s) (k_pd s) d (k_fadt s)
    (k_apic_info s) (k_local_apic s) (k_mem s) (k_bus s).
Definition set_mem (m : mutex PhysMem.BitmapMemoryManager) (s : KernelState) : KernelState :=
  mkKernelState (k_gfx s) (k_gdt s) (k_pml4 s) (k_pdpt s) (k_pd s) (k_devices s) (k_fadt s)
    (k_apic_info s) (k_local_apic s) m (k_bus s).
Definition set_machine (b : Bus D) (s : KernelState) : KernelState :=
  mkKernelState (k_gfx s) (k_gdt s) (k_pml4 s) (k_pdpt s) (k_pd s) (k_devices s) (k_fadt s)
    (k_apic_info s) (k_local_apic s) (k_mem s) b.

Definition acpi_part (s : KernelState) : Acpi.AcpiState once (Console.Gfx mutex) :=
  Acpi.mkAcpiState (k_fadt s) (k_apic_info s) (k_gfx s).
Definition set_acpi_part (a : Acpi.AcpiState once (Console.Gfx mutex)) (s : KernelState) :
    KernelState :=
  mkKernelState (Acpi.acpi_log a) (k_gdt s) (k_pml4 s) (k_pdpt s) (k_pd s) (k_devices s)
    (Acpi.FADT a) (Acpi.APIC_INFO a) (k_local_apic s) (k_mem s) (k_bus s).

Definition int_part (s : KernelState) : Interrupts.IntState once (Console.Gfx mutex) D :=
  Interrupts.mkIntState (k_local_apic s) (acpi_part s) (k_bus s).
Definition set_int_part (i : Interrupts.IntState once (Console.Gfx mutex) D) (s : KernelState) :
    KernelState :=
  let a := Interrupts.int_acpi i in
  mkKernelState (Acpi.acpi_log a) (k_gdt s) (k_pml4 s) (k_pdpt s) (k_pd s) (k_devices s)
    (Acpi.FADT a) (Acpi.APIC_INFO a) (Interrupts.LOCAL_APIC i) (k_mem s) (Interrupts.int_bus i).

Definition on_gfx {A} (m : M (Console.Gfx mutex) A) : KM A := zoom k_gfx set_gfx m.
Definition on_fb {A} (m : M (FrameBuffer.FbState mutex) A) : KM A :=
  on_gfx (zoom Console.gfx_fb (fun f G => Console.mkGfx (Console.CONSOLE G) f) m).

(** ** Addresses *)

(** Where the linker puts the page tables. *)
Context (tables : Paging.table_addrs).

(** The processor's translation of an address for a write: by the page tables in memory,
    from the one that CR3 was last set to; by those of the firmware, which map each address to
    itself, before it is set. *)
Definition translate (s : KernelState) (a : Z) : option Z :=
  match Accesses.cr3_of (bus_log (k_bus s)) with
  | Some cr3 =>
      Paging.walk (Paging.read_tables tables (Paging.tables_of (paging_part s))) cr3 a
  | None => Some a
  end.
Definition view_of (s : KernelState) : View := fun a => bool_decide (translate s a = Some a).

(** A module that prints runs under the page tables it starts with: none of them changes
    them. *)
Definition with_view {A} (m : View -> KM A) : KM A := fun s => m (view_of s) s.
Definition on_display {A} (m : M (Console.Gfx mutex) A) : KM A :=
  with_view (fun v => on_gfx (through v m)).
Definition kprintln (pieces : list (list Z)) : KM unit :=
  on_display (fmt_section pieces) ;; on_display newline_section.

(** ** The start sequence *)

(** Where the linker puts the descriptor table, what [{:#?}] prints of an error, and fuel
    for the two loops that depend on the machine. *)
Context (gdt_addr : Z) (error_debug : Errors.Error -> list Z)
  (fuel_pci fuel_apic : nat).

(** [pci::devices().unwrap().init().unwrap_or_else(..)]: the guard lives to the end. *)
Definition init_devices : KM unit :=
  with_guard k_devices set_devices (panic (UnwrapFailed "devices")) (
    r ← zoom (fun p => (p.1, k_bus p.2)) (fun q p => (q.1, set_machine q.2 p.2))
      (Pci.Devices_init fuel_pci);
    match r with
    | Ok _ => mret tt
    | Err err => zoom snd (fun s p => (p.1, s)) (kprintln [error_debug err])
    end).

Definition init_acpi (rsdp : PhysPtr) : KM unit :=
  with_view (fun v => zoom acpi_part set_acpi_part (Acpi.init (PhysPtr_get rsdp))).
Definition init_ps2 : KM unit :=
  with_view (fun v => zoom (fun s => (k_gfx s, k_bus s))
    (fun p s => set_machine p.2 (set_gfx p.1 s)) Ps2.init).
Definition init_interrupts : KM unit :=
  with_view (fun v => zoom int_part set_int_part (Interrupts.init fuel_apic)).

(** The display is set up under the firmware's page tables. *)
Definition main (boot_info : BootInfo MT) : KM unit :=
  expect "frame_buf" (on_fb (FrameBuffer.frame_buf
    (FrameBuffer.FrameBuf_init (graphic_info boot_info) (RgbColor_from_u32 0x28282800)))) ;;
  on_gfx (expect "console" (Console.console
    (Console.Console_init (RgbColor_from_u32 0x3c383600) (RgbColor_from_u32 0xebdbb200)))) ;;
  zoom gdt_part set_gdt_part (Gdt.init gdt_addr) ;;
  zoom paging_part set_paging_part (Paging.init tables) ;;
  init_devices ;;
  rsdp_addr ← match rsdp_addr boot_info with
    | Some p => mret p
    | None =>
        kprintln [bytes_of_string "RSDP adderss wan't found. The kernel will panic."] ;;
        panic (ExplicitPanic "explicit panic")
    end;
  kprintln [bytes_of_string "rsdp_addr: 0x"; Logger.fmt_hex (PhysPtr_get rsdp_addr)] ;;
  init_acpi rsdp_addr ;;
  init_ps2 ;;
  init_interrupts ;;
  zoom k_bus set_machine (io_write Sti) ;;
  zoom k_mem set_mem (PhysMem.mem_manager (PhysMem.init (memory_map boot_info))) ;;
  kprintln [bytes_of_string "It didn't crash."].

(** The panic handler: what it prints of the information is its text. *)
Context (panic_text : panic_info -> list Z).

Definition panic_handler (info : panic_info) : KM unit :=
  kprintln [bytes_of_string "[panic]"] ;; kprintln [panic_text info].

(** The kernel until it halts: a panic continues in the handler, with the state it left. *)
Definition kernel (boot_info : BootInfo MT) : KM unit := fun s =>
  match main boot_info s with
  | Panic p s' => panic_handler p s'
  | r => r
  end.
End kernel.
Arguments KernelState : clear implicits.
Arguments KernelState _ _ _ {_} _.

(** * Specification: a machine the kernel runs on, and the state it halts in *)

(** What the page tables reach. *)
Definition MAPPED_BYTES : Z := 64 * 2 ^ 30.

(** A frame buffer the console fits on, all of it mapped. *)
Record usable (fb : FrameBuffer.FrameBuf) : Prop := {
  us_wf : FrameBuffer.fb_wf fb;
  us_fits : Console.fits fb;
  us_mapped : FrameBuffer.framebuf_addr fb +
    4 * (FrameBuffer.width fb * FrameBuffer.height fb) <= MAPPED_BYTES
}.

Section spec.
Context {mutex : Type -> Type} `{SpinMutexLaws mutex} {once : Type -> Type}
  `{SpinOnceLaws once} {arrayvec : Type -> Type} `{ArrayVecLaws arrayvec} `{Acpi.AcpiApi}
  `{Gdt.SelectorApi} {MT : Type} `{PhysMem.MemoryTypeApi MT} {D : Type} `{Device D}.
Notation St := (KernelState mutex once arrayvec D).
Implicit Types s : St.

(** The statics as the kernel image holds them: unlocked, with their initial values. *)
Record fresh s : Prop := {
  fr_console : mutex_held (Console.CONSOLE (k_gfx s)) = false;
  fr_fb : Console.fb_free (Console.gfx_fb (k_gfx s));
  fr_gdt : mutex_held (k_gdt s) = false /\ length (mutex_data (k_gdt s)) = 3%nat;
  fr_paging : Paging.all_free (paging_part s) /\
    Paging.tables_of (paging_part s) = Paging.mkTables Paging.PageMapLevel4Table_new
      Paging.PageDirectoryPointerTable_new Paging.PageDirectory_new;
  fr_devices : mutex_held (k_devices s) = false /\ av_elems (mutex_data (k_devices s)) = [] /\
    av_cap (mutex_data (k_devices s)) = Pci.DEVICE_CAPACITY;
  fr_cells : once_get (k_fadt s) = None /\ once_get (k_apic_info s) = None /\
    once_get (k_local_apic s) = None;
  fr_mem : mutex_held (k_mem s) = false /\
    mutex_data (k_mem s) = PhysMem.BitmapMemoryManager_new
}.

(** A machine: PCI configuration space [cfg], an 8042 with two working ports in whatever
    state the firmware left it, and the APICs of [info]. *)
Record machine (cfg : Z -> Z -> Z -> Z -> Z) (port : D -> Ps2.i8042)
    (info : Acpi.ApicInfo) (k : nat) (n : Z) (d : D) : Prop := {
  mc_pci : Pci.config_mechanism cfg (fun _ : D => True);
  mc_ps2 : Ps2Embed.has_8042 port;
  mc_left : Ps2.left_8042 (port d);
  mc_ports : Ps2.second_exists (port d) = true;
  mc_apic : Interrupts.apic_machine (D := D) info k n;
  mc_info : Interrupts.info_ok info
}.

(** A display the console fits on, and one below 64 GiB. *)
Record display_fits (gi : GraphicInfo) : Prop := {
  df_gi : FrameBuffer.gi_ok gi;
  df_width : Console.COLUMNS * Font.CHARACTER_WIDTH <= gi_width gi;
  df_height : Console.ROWS * Font.CHARACTER_HEIGHT <= gi_height gi
}.
Record display_usable (gi : GraphicInfo) : Prop := {
  du_fits : display_fits gi;
  du_mapped : gi_frame_buffer_addr gi + 4 * (gi_width gi * gi_height gi) <= MAPPED_BYTES
}.

(** What the firmware handed over. *)
Record boot_ok (bi : BootInfo MT) (fadt : Acpi.Fadt) (info : Acpi.ApicInfo) : Prop := {
  bo_display : display_usable (graphic_info bi);
  bo_rsdp : exists r, rsdp_addr bi = Some r /\ Acpi.text_ok (PhysPtr_get r) /\
    Acpi.acpi_tables (PhysPtr_get r) = Some (fadt, info);
  bo_map : PhysMem.sorted_from 0 (memory_map bi)
}.

(** A null, a flat code and a flat data segment. *)
Definition flat_segments : list Gdt.segment := [
  Gdt.mkSegment 0 0 0 false 0 false false false false false;
  Gdt.mkSegment 0 0xfffff 10 true 0 true false true false true;
  Gdt.mkSegment 0 0xfffff 2 true 0 true false true true true].

(** What the processor is told: where the descriptors are, the selectors of the null, the
    code and the data segment, and where the top page table is. *)
Definition cpu_config (gdt_addr : Z) (tables : Paging.table_addrs) : list write_op := [
  Lgdt 23 gdt_addr;
  SetSegment "DS" (Gdt.selector_new 0 0); SetSegment "ES" (Gdt.selector_new 0 0);
  SetSegment "FS" (Gdt.selector_new 0 0); SetSegment "GS" (Gdt.selector_new 0 0);
  SetSegment "CS" (Gdt.selector_new 1 0); SetSegment "SS" (Gdt.selector_new 2 0);
  SetCr3 (Paging.pml4_addr tables)].

(** This is the last the processor was told, and the page tables there, at addresses that
    page tables can have, map each address to itself. *)
Definition paged gdt_addr tables s : Prop :=
  Paging.addrs_ok tables /\
  (exists ws, Accesses.cpu_writes (bus_log (k_bus s)) = ws ++ cpu_config gdt_addr tables) /\
  Paging.all_free (paging_part s) /\
  Paging.identity_tables tables (Paging.tables_of (paging_part s)).

(** What the stages up to the enabling of interrupts leave behind; [c0] is the 8042 as the
    firmware left it. *)
Record configured gdt_addr (tables : Paging.table_addrs) cfg (port : D -> Ps2.i8042)
    (c0 : Ps2.i8042) fadt info (n : Z) s : Prop := {
  cf_gdt : mutex_held (k_gdt s) = false /\
    map Gdt.decode (mutex_data (k_gdt s)) = flat_segments;
  cf_paged : paged gdt_addr tables s;
  cf_mapped : forall a, 0 <= a < 2 ^ 48 ->
    translate tables s a = if a <? MAPPED_BYTES then Some a else None;
  cf_devices : mutex_held (k_devices s) = false /\
    forall x, x ∈ av_elems (mutex_data (k_devices s)) <->
      exists root, Pci.root_bus cfg root /\ Pci.found cfg root x;
  cf_acpi : once_get (k_fadt s) = Some fadt /\ once_get (k_apic_info s) = Some info /\
    once_get (k_local_apic s) = Some (Apic.LocalApic_new (Acpi.local_apic_base info));
  cf_ps2 : Ps2.set_up c0 (port (bus_dev (k_bus s)));
  cf_writes : exists ws, writes_of (bus_log (k_bus s)) =
    ws ++ Interrupts.init_writes info n ++ [Sti]
}.

(** The text [text] ends what the console shows on [fb], and the console prints. *)
Definition on_screen (fb : FrameBuffer.FrameBuf) (text : list Z) (G : Console.Gfx mutex) : Prop :=
  usable fb /\ exists hist, Console.gfx_inv fb G (Console.term_print hist text).

(** The frame map is the firmware's. *)
Definition frames_known (bi : BootInfo MT) (mm : mutex PhysMem.BitmapMemoryManager) : Prop :=
  mutex_held mm = false /\
  (forall f, 0 <= f < PhysMem.available_end (memory_map bi) ->
    PhysMem.frame_bit (mutex_data mm) f =
      Some (negb (PhysMem.available_frame (memory_map bi) f))).

(** The display of the graphics information. *)
Definition display_of (bi : BootInfo MT) : FrameBuffer.FrameBuf :=
  FrameBuffer.buffer_of (graphic_info bi).

(** Where the kernel halts. *)
Record booted gdt_addr tables (bi : BootInfo MT) cfg port c0 fadt info n s : Prop := {
  bt_console : on_screen (display_of bi)
    (bytes_of_string "It didn't crash." ++ [Console.LineFeed]) (k_gfx s);
  bt_configured : configured gdt_addr tables cfg port c0 fadt info n s;
  bt_mem : frames_known bi (k_mem s)
}.

(** A panic as the handler leaves it on the screen. *)
Definition report (text : list Z) : list Z :=
  bytes_of_string "[panic]" ++ [Console.LineFeed] ++ text ++ [Console.LineFeed].
Definition reported (fb : FrameBuffer.FrameBuf) (text : list Z) s : Prop := exists hist,
  Console.gfx_inv fb (k_gfx s) (Console.term_print hist (report text)).
End spec.

(** * Lemmas *)

Lemma buffer_usable gi : display_usable gi -> usable (FrameBuffer.buffer_of gi).
Proof.
  intros [[Hgi Hw Hh] Hm]. split; [by apply FrameBuffer.buffer_of_wf|by split|exact Hm].
Qed.

(** ** The page tables in use *)
Section paged.
Context {mutex : Type -> Type} `{SpinMutexLaws mutex} {once : Type -> Type}
  {arrayvec : Type -> Type} `{Acpi.AcpiApi} `{Gdt.SelectorApi} {D : Type} `{Device D}.
Notation St := (KernelState mutex once arrayvec D).
Implicit Types s : St.
Context (gdt_addr : Z) (tables : Paging.table_addrs).
Notation paged := (paged gdt_addr tables).

Lemma paged_translate s a : paged s -> 0 <= a < 2 ^ 48 ->
  translate tables s a = if a <? MAPPED_BYTES then Some a else None.
Proof.
  intros (Haddrs & (ws & Hc) & _ & Hid) Ha. unfold translate, Accesses.cr3_of. rewrite Hc, omap_app.
  change (omap _ (cpu_config gdt_addr tables)) with [Paging.pml4_addr tables]. rewrite last_snoc.
  unfold MAPPED_BYTES. destruct (Z.ltb_spec a (64 * 2 ^ 30)).
  - apply Paging.walk_identity; [done..|lia].
  - apply Paging.walk_unmapped; [done..|lia].
Qed.

Lemma paged_visible fb s : usable fb -> paged s -> visible (view_of tables s) fb.
Proof.
  intros [Hwf _ Hm] Hp a Ha. pose proof (FrameBuffer.wf_addr _ Hwf).
  unfold mapped, view_of. apply bool_decide_eq_true. unfold MAPPED_BYTES in *.
  rewrite paged_translate by (done || lia). unfold MAPPED_BYTES.
  by replace (a <? 64 * 2 ^ 30) with true by lia.
Qed.

(** Only the machine's log and the three tables count. *)
Lemma paged_kept s s' : paged s -> paging_part s' = Paging.mkPagingState (k_pml4 s) (k_pdpt s)
    (k_pd s) (k_bus s') ->
  Accesses.cpu_writes (bus_log (k_bus s')) = Accesses.cpu_writes (bus_log (k_bus s)) -> paged s'.
Proof.
  intros (Ha & Hc & Hf & Hid) E Hl. unfold KernelMain.paged. by rewrite Hl, E.
Qed.

Lemma paged_writes s s' ws : paged s -> paging_part s' = Paging.mkPagingState (k_pml4 s) (k_pdpt s)
    (k_pd s) (k_bus s') ->
  writes_of (bus_log (k_bus s')) = writes_of (bus_log (k_bus s)) ++ ws ->
  Forall (fun op => Accesses.cpu_op op = false) ws -> paged s'.
Proof.
  intros Hp E Hw Hws. apply (paged_kept s s' Hp E). unfold Accesses.cpu_writes.
  rewrite Hw, filter_app. replace (filter _ ws) with (@nil write_op); [apply app_nil_r|]. clear Hw.
  induction Hws as [|op ws Hop _ IH]; [done|]. by rewrite filter_cons_False by congruence.
Qed.
End paged.

(** ** The stages of [main] *)
Section stages.
Context {mutex : Type -> Type} `{SpinMutexLaws mutex} {once : Type -> Type}
  `{SpinOnceLaws once} {arrayvec : Type -> Type} `{ArrayVecLaws arrayvec} `{Acpi.AcpiApi}
  `{Gdt.SelectorApi} {MT : Type} `{PhysMem.MemoryTypeApi MT} {D : Type} `{Device D}.
Notation St := (KernelState mutex once arrayvec D).
Implicit Types s : St.

(** The display: whatever the frame buffer was, it becomes the one described. *)
Lemma runs_display gi bg bg' fg (rest : M St unit) s (Q : unit -> St -> Prop)
    (R : panic_info -> St -> Prop) :
  display_fits gi ->
  mutex_held (Console.CONSOLE (k_gfx s)) = false -> Console.fb_free (Console.gfx_fb (k_gfx s)) ->
  (forall G, Console.gfx_inv (FrameBuffer.buffer_of gi) G [[]] ->
     Console.fg_color (Console.con_of G).1 = fg -> Console.bg_color (Console.con_of G).1 = bg' ->
     runs rest Q R (set_gfx G s)) ->
  runs (expect "frame_buf" (on_fb (FrameBuffer.frame_buf (FrameBuffer.FrameBuf_init gi bg))) ;;
      on_gfx (expect "console" (Console.console (Console.Console_init bg' fg))) ;;
      rest) Q R s.
Proof.
  intros [Hgi Hw Hh] Hcon Hfb HQ. pose proof (FrameBuffer.buffer_of_wf gi Hgi) as Hwf.
  assert (Hfits : Console.fits (FrameBuffer.buffer_of gi)) by (by split).
  apply runs_then, wp_expect. do 2 apply wp_zoom.
  apply FrameBuffer.wp_frame_buf; [exact Hfb|].
  apply FrameBuffer.wp_FrameBuf_init; [done|]. intros scr Escr _ f Hf Hdata Hmem.
  exists tt. split; [done|]. apply runs_then, wp_zoom.
  assert (Hscr : FrameBuffer.scr_fb (Console.screen_of f) = FrameBuffer.buffer_of gi)
    by (rewrite <- Escr; exact Hdata).
  rewrite <- Hscr in Hfits, Hwf. apply Console.wp_console; [exact Hcon|]. unfold Console.con_of.
  eapply Console.wp_init; [exact Hf|exact Hwf|exact Hfits|].
  intros p' Hinv Hfg Hbg _. exists tt. split; [done|]. intros G' Hfree' Ep.
  rewrite <- Ep in Hinv, Hfg, Hbg. change (Console.con_inv
    (FrameBuffer.scr_fb (Console.screen_of f)) (Console.con_of G') [[]]) in Hinv.
  rewrite Hscr in Hinv. refine (HQ G' _ Hfg Hbg). by split.
Qed.

(** From here on the console prints, and the page tables are the kernel's. *)
Context (gdt_addr : Z) (tables : Paging.table_addrs) (error_debug : Errors.Error -> list Z)
  (fuel_pci fuel_apic : nat).
Context (fb : FrameBuffer.FrameBuf) (Hu : usable fb).
Notation paged := (paged gdt_addr tables).

(** A console that prints. *)
Definition prints (G : Console.Gfx mutex) : Prop := exists hist, Console.gfx_inv fb G hist.

Lemma paged_laws s : paged s -> LogLaws (H := mapped_log (view_of tables s)) (Console.Gfx mutex).
Proof.
  intros Hp. exact (mapped_log_laws (view_of tables s) fb (us_wf _ Hu) (us_fits _ Hu)
    (paged_visible gdt_addr tables fb s Hu Hp)).
Defined.

Lemma wp_on_display {A} (m : M (Console.Gfx mutex) A) (Q : A -> St -> Prop) s :
  wp (through (view_of tables s) m) (fun a G => Q a (set_gfx G s)) (k_gfx s) ->
  wp (on_display tables m) Q s.
Proof. intros HQ. by apply (wp_zoom k_gfx set_gfx). Qed.

(** The two statements of [kprintln!], and the whole of it. *)
Lemma wp_fmt_line hist pieces s (Q : unit -> St -> Prop) :
  paged s -> Console.gfx_inv fb (k_gfx s) hist -> Forall Console.is_ascii pieces ->
  (forall G, Console.gfx_inv fb G (Console.term_print hist (concat pieces)) -> Q tt (set_gfx G s)) ->
  wp (on_display tables (fmt_section pieces)) Q s.
Proof.
  intros Hp Hinv Hpc HQ. apply wp_on_display.
  eapply wp_fmt_through; [apply Hu|apply Hu|by apply (paged_visible gdt_addr)|exact Hinv|exact Hpc|exact HQ].
Qed.

Lemma wp_newline hist s (Q : unit -> St -> Prop) :
  paged s -> Console.gfx_inv fb (k_gfx s) hist ->
  (forall G, Console.gfx_inv fb G (Console.term_print hist [Console.LineFeed]) -> Q tt (set_gfx G s)) ->
  wp (on_display tables newline_section) Q s.
Proof.
  intros Hp Hinv HQ. apply wp_on_display.
  eapply wp_newline_through; [apply Hu|apply Hu|by apply (paged_visible gdt_addr)|exact Hinv|exact HQ].
Qed.

Lemma wp_kernel_kprintln hist pieces s (Q : unit -> St -> Prop) :
  paged s -> Console.gfx_inv fb (k_gfx s) hist -> Forall Console.is_ascii pieces ->
  (forall G, Console.gfx_inv fb G
     (Console.term_print hist (concat pieces ++ [Console.LineFeed])) -> Q tt (set_gfx G s)) ->
  wp (kprintln tables pieces) Q s.
Proof.
  intros Hp Hinv Hpc HQ. unfold kprintln. wp_step. eapply wp_fmt_line; [exact Hp|exact Hinv|exact Hpc|].
  intros G1 Hinv1. eapply wp_newline; [exact Hp|exact Hinv1|]. intros G2 Hinv2.
  apply (HQ G2). unfold Console.term_print in *. by rewrite foldl_app.
Qed.

Lemma wp_kprintln_ready pieces s (Q : unit -> St -> Prop) :
  paged s -> prints (k_gfx s) -> Forall Console.is_ascii pieces ->
  (forall G, prints G -> Q tt (set_gfx G s)) -> wp (kprintln tables pieces) Q s.
Proof.
  intros Hp [hist Hinv] Hpc HQ. eapply wp_kernel_kprintln; [exact Hp|exact Hinv|exact Hpc|].
  intros G HG. apply HQ. by eexists.
Qed.

Lemma wp_acpi r fadt info s (Q : unit -> St -> Prop) :
  paged s -> prints (k_gfx s) -> Acpi.text_ok (PhysPtr_get r) -> once_get (k_fadt s) = None ->
  once_get (k_apic_info s) = None -> Acpi.acpi_tables (PhysPtr_get r) = Some (fadt, info) ->
  (forall a, once_get (Acpi.FADT a) = Some fadt -> once_get (Acpi.APIC_INFO a) = Some info ->
     prints (Acpi.acpi_log a) -> Q tt (set_acpi_part a s)) ->
  wp (init_acpi tables r) Q s.
Proof.
  intros Hp Hr Ht Hf Hi Hacpi HQ. apply (wp_zoom acpi_part set_acpi_part). unfold wp.
  pose proof (Acpi.init_keeps (H3 := paged_laws s Hp) (PhysPtr_get r) (acpi_part s) Hr Ht (conj Hf Hi)) as Hk.
  rewrite Hacpi in Hk. unfold Acpi.keeps in Hk.
  destruct (Acpi.init (PhysPtr_get r) (acpi_part s)) as [[] a|e a|]; [|done..].
  destruct Hk as (? & ? & ?). auto.
Qed.

(** A stage that tells the processor nothing of its tables keeps what it was told, and one
    that leaves the two ports of the 8042 alone keeps a part of the machine behind them. *)
Section machine_kept.
Context {X : Type} (port : D -> X).

Definition ports_apart : Prop :=
  (forall op d, Ps2Embed.ps2_write op = false -> port (dev_write op d) = port d) /\
  (forall op d, Ps2Embed.ps2_read op = false -> port (dev_read op d).2 = port d).
Definition told_and_part (c : list write_op) (x : X) (b : Bus D) : Prop :=
  Accesses.cpu_writes (bus_log b) = c /\ port (bus_dev b) = x.
Hypothesis Hport : ports_apart.

Lemma kept_part x st :
  (forall op, Accesses.writes_in st op = true -> Ps2Embed.ps2_write op = false) ->
  (forall op, Accesses.reads_in st op = true -> Ps2Embed.ps2_read op = false) ->
  Accesses.kept_by (fun b : Bus D => port (bus_dev b) = x) st.
Proof.
  intros Hw Hr. destruct Hport as [Pw Pr].
  apply (Accesses.kept_dev (fun d => port d = x)); intros op d Hop <-; auto.
Qed.

Lemma kept_pci c x : Accesses.kept_by (told_and_part c x) Accesses.PciBus.
Proof.
  apply Accesses.kept_and; [apply Accesses.kept_cpu, Accesses.plain_pci|].
  apply kept_part; by intros [].
Qed.

Lemma kept_controllers c x info : Accesses.kept_by (told_and_part c x) (Accesses.Controllers info).
Proof.
  apply Accesses.kept_and; [apply Accesses.kept_cpu, Accesses.plain_controllers|].
  apply kept_part; [|by intros []]. intros [p v|p v|a v|m v|l b|r v|a| |]; try done.
  cbn. destruct (Z.eqb_spec p 0xa1) as [->|]; [done|].
  destruct (Z.eqb_spec p 0x21) as [->|]; done.
Qed.

Lemma kept_tables x st : st = Accesses.Segments \/ st = Accesses.Tables tables ->
  Accesses.kept_by (fun b : Bus D => port (bus_dev b) = x) st.
Proof. intros [-> | ->]; apply kept_part; by intros []. Qed.
End machine_kept.

Lemma ports_apart_8042 port : Ps2Embed.has_8042 port -> ports_apart port.
Proof. intros [_ _ Hr Hw]. by split. Qed.
Lemma ports_apart_unit : ports_apart (fun _ : D => tt).
Proof. done. Qed.

Lemma runs_devices {X} cfg (port : D -> X) s (Q : unit -> St -> Prop) (R : panic_info -> St -> Prop) :
  Pci.config_mechanism cfg (fun _ : D => True) -> ports_apart port ->
  mutex_held (k_devices s) = false -> av_elems (mutex_data (k_devices s)) = [] ->
  0 <= av_cap (mutex_data (k_devices s)) < Z.of_nat fuel_pci ->
  (forall mx b, mutex_held mx = false ->
    (forall x, x ∈ av_elems (mutex_data mx) <->
       exists root, Pci.root_bus cfg root /\ Pci.found cfg root x) ->
     PciListing.len (PciListing.listing cfg fuel_pci) <= av_cap (mutex_data (k_devices s)) ->
     told_and_part port (Accesses.cpu_writes (bus_log (k_bus s))) (port (bus_dev (k_bus s))) b ->
     Q tt (set_devices mx (set_machine b s))) ->
  (forall mx b,
     av_cap (mutex_data (k_devices s)) < PciListing.len (PciListing.listing cfg fuel_pci) ->
     Accesses.cpu_writes (bus_log b) = Accesses.cpu_writes (bus_log (k_bus s)) ->
     R (UnwrapFailed "ArrayVec::push") (set_devices mx (set_machine b s))) ->
  runs (init_devices tables error_debug fuel_pci) Q R s.
Proof.
  intros Hcm Hport Hfree Hempty Hfuel HQ HR. unfold init_devices.
  apply runs_with_guard; [done|]. intros mx Hmx. apply runs_bind, runs_zoom.
  set (p0 := (mutex_data (k_devices s), k_bus s)).
  assert (Hroom : PciListing.free p0 = av_cap p0.1).
  { unfold PciListing.free. cbn [p0 fst]. rewrite Hempty. cbn [length]. lia. }
  assert (Hmax : Z.max 0 (av_cap p0.1) < Z.of_nat fuel_pci) by (cbn [p0 fst]; lia).
  assert (Hlt : PciListing.free p0 < Z.of_nat fuel_pci) by (rewrite Hroom; cbn [p0 fst]; lia).
  pose proof (Pci.runs_Devices_init cfg (fun _ => True) fuel_pci p0 Hcm Logic.I Hempty Hmax) as Hrun.
  pose proof (runs_conj _ _ _ _ _ _ Hrun
    (PciListing.runs_listing cfg (fun _ => True) Hcm fuel_pci p0 Logic.I Hlt)) as Hboth.
  clear Hrun. rename Hboth into Hrun. rewrite Hroom in Hrun.
  apply (pres_runs (fun p => told_and_part port (Accesses.cpu_writes (bus_log (k_bus s)))
    (port (bus_dev (k_bus s))) p.2)) in Hrun;
    [|by apply Accesses.pres_devices, kept_pci|done].
  cbn [fst snd]. change (k_bus (set_devices mx s)) with (k_bus s).
  fold p0. unfold runs in *. destruct (Pci.Devices_init fuel_pci p0) as [r [v b]|e [v b]|]; [..|done].
  - destruct Hrun as [[[-> Hx] (_ & _ & Hlen)] HJb]. apply HQ; cbn; autorewrite with mutex; done.
  - destruct Hrun as [[[-> _] [_ Hlen]] [HJb _]]. by apply HR.
Qed.

Lemma wp_ps2 port s (Q : unit -> St -> Prop) :
  Ps2Embed.has_8042 port -> paged s -> prints (k_gfx s) ->
  Ps2.left_8042 (port (bus_dev (k_bus s))) -> Ps2.second_exists (port (bus_dev (k_bus s))) = true ->
  (forall G b, prints G -> Ps2.set_up (port (bus_dev (k_bus s))) (port (bus_dev b)) ->
     Accesses.cpu_writes (bus_log b) = Accesses.cpu_writes (bus_log (k_bus s)) ->
     Q tt (set_machine b (set_gfx G s))) ->
  wp (init_ps2 tables) Q s.
Proof.
  intros Hport Hp Hr Hl Hse HQ.
  apply (wp_zoom (fun s => (k_gfx s, k_bus s)) (fun p s => set_machine p.2 (set_gfx p.1 s))).
  eapply wp_mono.
  { eapply (pres_wp (fun p : Console.Gfx mutex * Bus D =>
        Accesses.cpu_writes (bus_log p.2) = Accesses.cpu_writes (bus_log (k_bus s)))
      _ (fun _ p => prints p.1 /\ Ps2.set_up (port (bus_dev (k_bus s))) (port (bus_dev p.2))));
      [apply (Accesses.pres_ps2 (fun b => Accesses.cpu_writes (bus_log b) = _)),
         Accesses.kept_cpu, Accesses.plain_ps2|done|].
    eapply (Ps2Embed.wp_ps2_init (H1 := paged_laws s Hp) port Hport (bus_log (k_bus s))); [done|exact Hr|exact Hl|exact Hse|].
    by intros G b HG Hsu. }
  cbv beta. intros [] [G b] [[HG Hsu] Hc]. by apply HQ.
Qed.

Lemma wp_interrupts port info k n s (Q : unit -> St -> Prop) :
  (k <= fuel_apic)%nat -> Interrupts.apic_machine (D := D) info k n -> Interrupts.info_ok info ->
  Ps2Embed.has_8042 port -> paged s -> prints (k_gfx s) ->
  once_get (k_apic_info s) = Some info -> once_get (k_local_apic s) = None ->
  (forall la b G, once_get la = Some (Apic.LocalApic_new (Acpi.local_apic_base info)) ->
     prints G ->
     writes_of (bus_log b) = writes_of (bus_log (k_bus s)) ++ Interrupts.init_writes info n ->
     told_and_part port (Accesses.cpu_writes (bus_log (k_bus s))) (port (bus_dev (k_bus s))) b ->
     Q tt (set_int_part (Interrupts.mkIntState la
       (Acpi.mkAcpiState (k_fadt s) (k_apic_info s) G) b) s)) ->
  wp (init_interrupts tables fuel_apic) Q s.
Proof.
  intros Hk Hm Hok Hport Hp Hr Hi Hla HQ. apply (wp_zoom int_part set_int_part).
  set (laws := paged_laws s Hp).
  pose proof (Interrupts.wp_interrupts_init (H3 := laws) info k n fuel_apic (int_part s)
    (fun _ => Interrupts.int_inv (H3 := laws)
      (Some (Apic.LocalApic_new (Acpi.local_apic_base info))) info
      (writes_of (bus_log (k_bus s)) ++ Interrupts.init_writes info n))
    Hk Hm Hok ltac:(done) ltac:(done)) as Hwp.
  apply (pres_wp (Accesses.controllers_inv (told_and_part port
    (Accesses.cpu_writes (bus_log (k_bus s))) (port (bus_dev (k_bus s)))) (k_fadt s) (k_apic_info s)))
    in Hwp; [|by apply Accesses.pres_interrupts, kept_controllers, ports_apart_8042|].
  2: { split; [done|done|done|]. intros x. cbn. by rewrite Hla. }
  eapply wp_mono; [exact Hwp|]. intros [] [la [fa ca G] b] ((Hl & _ & HG & Hw) & [HJ Hf Hc _]).
  cbn in Hl, HG, Hw, HJ, Hf, Hc. subst fa ca. by apply HQ.
Qed.

Lemma wp_memory (mm : list (PhysMem.MemoryDescriptor MT)) s (Q : unit -> St -> Prop) :
  PhysMem.sorted_from 0 mm -> mutex_held (k_mem s) = false ->
  mutex_data (k_mem s) = PhysMem.BitmapMemoryManager_new ->
  (forall mx, mutex_held mx = false ->
    (forall f, 0 <= f < PhysMem.available_end mm ->
      PhysMem.frame_bit (mutex_data mx) f = Some (negb (PhysMem.available_frame mm f))) ->
    Q tt (set_mem mx s)) ->
  wp (zoom k_mem set_mem (PhysMem.mem_manager (PhysMem.init mm))) Q s.
Proof.
  intros Hmm Hfree Hdata HQ. apply wp_zoom, wp_with_guard; [done|]. intros mx Hmx.
  apply wp_zoom. cbn [fst]. rewrite Hdata. apply PhysMem.wp_init_bitmap; [done|].
  intros m _ _ He Hb _. apply HQ; cbn; autorewrite with mutex; [done|]. by rewrite <- He.
Qed.

(** The handler, when the console prints. *)
Lemma wp_panic_handler panic_text e s :
  paged s -> prints (k_gfx s) -> Console.is_ascii (panic_text e) ->
  wp (panic_handler tables panic_text e) (fun _ s' => reported fb (panic_text e) s') s.
Proof.
  intros Hp [hist Hinv] Ht. unfold panic_handler. wp_step.
  eapply wp_kernel_kprintln; [exact Hp|exact Hinv|by apply msg_ascii|].
  intros G1 Hinv1. eapply wp_kernel_kprintln; [exact Hp|exact Hinv1|by constructor|].
  intros G2 Hinv2. exists hist. unfold report, Console.term_print in *. cbn [k_gfx set_gfx].
  cbn [concat] in Hinv2. rewrite !app_nil_r, <- foldl_app in Hinv2. by rewrite <- !(assoc_L (++)) in Hinv2.
Qed.

(** The descriptor table and the page tables. *)
Lemma runs_tables {X} (port : D -> X) (rest : M St unit) s (Q : unit -> St -> Prop)
    (R : panic_info -> St -> Prop) :
  ports_apart port -> Paging.addrs_ok tables ->
  mutex_held (k_gdt s) = false -> length (mutex_data (k_gdt s)) = 3%nat ->
  Paging.all_free (paging_part s) ->
  Paging.tables_of (paging_part s) = Paging.mkTables Paging.PageMapLevel4Table_new
    Paging.PageDirectoryPointerTable_new Paging.PageDirectory_new ->
  (forall g p, mutex_held (Gdt.GDT g) = false ->
     map Gdt.decode (mutex_data (Gdt.GDT g)) = flat_segments ->
     paged (set_paging_part p (set_gdt_part g s)) ->
     port (bus_dev (Paging.pg_bus p)) = port (bus_dev (k_bus s)) ->
     runs rest Q R (set_paging_part p (set_gdt_part g s))) ->
  runs (zoom gdt_part set_gdt_part (Gdt.init gdt_addr) ;;
      zoom paging_part set_paging_part (Paging.init tables) ;; rest) Q R s.
Proof.
  intros Hport Haddrs Hgdt Hlen Hpg Hpgt HQ. apply runs_then, wp_zoom.
  set (x := port (bus_dev (k_bus s))).
  set (segs := match rev (cpu_config gdt_addr tables) with _ :: l => rev l | [] => [] end).
  eapply wp_mono.
  { eapply (pres_wp (fun g : Gdt.GdtState mutex D => port (bus_dev (Gdt.gdt_bus g)) = x)
      _ (fun _ g => mutex_held (Gdt.GDT g) = false /\
        map Gdt.decode (mutex_data (Gdt.GDT g)) = flat_segments /\
        bus_log (Gdt.gdt_bus g) = bus_log (k_bus s) ++ map EvWrite segs));
      [apply (Accesses.pres_gdt (fun b => port (bus_dev b) = x)), kept_tables; auto|done|].
    eapply Gdt.wp_init_gdt; [exact Hgdt|reflexivity|exact Hlen|]. by intros g Hg Hd Hl. }
  cbv beta. intros [] g [(Hg1 & Hg2 & Hg3) HJ1]. apply runs_then, wp_zoom. eapply wp_mono.
  { eapply (pres_wp (fun p : Paging.PagingState mutex D => port (bus_dev (Paging.pg_bus p)) = x)
      _ (fun _ p => Paging.all_free p /\ Paging.identity_tables tables (Paging.tables_of p) /\
        bus_log (Paging.pg_bus p) = bus_log (Gdt.gdt_bus g) ++
          [EvWrite (SetCr3 (Paging.pml4_addr tables))]));
      [apply (Accesses.pres_paging (fun b => port (bus_dev b) = x)), (kept_tables port Hport); auto|exact HJ1|].
    eapply Paging.wp_init_tables; [done|exact Hpg|exact Hpgt|]. by intros p Hp Ht Hl. }
  cbv beta. intros [] p [(Hp1 & Hp2 & Hp3) HJ2]. apply HQ; [done..| |done].
  split; [done|]. split; [|by destruct p]. exists (Accesses.cpu_writes (bus_log (k_bus s))).
  cbn [k_bus set_paging_part]. by rewrite Hp3, Hg3, !Accesses.cpu_writes_app, <- (assoc_L (++)).
Qed.

(** From the ACPI tables to the enabling of interrupts. *)
Lemma runs_controllers port info k n fadt r (rest : M St unit) s
    (Q : unit -> St -> Prop) (R : panic_info -> St -> Prop) :
  Ps2Embed.has_8042 port -> Interrupts.apic_machine (D := D) info k n ->
  Interrupts.info_ok info -> (k <= fuel_apic)%nat ->
  Ps2.left_8042 (port (bus_dev (k_bus s))) -> Ps2.second_exists (port (bus_dev (k_bus s))) = true ->
  Acpi.text_ok (PhysPtr_get r) -> Acpi.acpi_tables (PhysPtr_get r) = Some (fadt, info) ->
  paged s -> prints (k_gfx s) -> once_get (k_fadt s) = None -> once_get (k_apic_info s) = None ->
  once_get (k_local_apic s) = None ->
  (forall i ws, prints (Acpi.acpi_log (Interrupts.int_acpi i)) ->
     once_get (Acpi.FADT (Interrupts.int_acpi i)) = Some fadt ->
     once_get (Acpi.APIC_INFO (Interrupts.int_acpi i)) = Some info ->
     once_get (Interrupts.LOCAL_APIC i) = Some (Apic.LocalApic_new (Acpi.local_apic_base info)) ->
     Ps2.set_up (port (bus_dev (k_bus s))) (port (bus_dev (Interrupts.int_bus i))) ->
     writes_of (bus_log (Interrupts.int_bus i)) = ws ++ Interrupts.init_writes info n ++ [Sti] ->
     paged (set_int_part i s) ->
     runs rest Q R (set_int_part i s)) ->
  runs (kprintln tables [bytes_of_string "rsdp_addr: 0x"; Logger.fmt_hex (PhysPtr_get r)] ;;
    init_acpi tables r ;;
    init_ps2 tables ;;
    init_interrupts tables fuel_apic ;;
    zoom k_bus set_machine (io_write Sti) ;; rest) Q R s.
Proof.
  intros Hport Hapic Hinfo Hk Hleft Hports Htext Hacpi Hp Hlog Hf Hi Hla HQ.
  apply runs_then. apply wp_kprintln_ready; [exact Hp|exact Hlog| |].
  { constructor; [by apply Acpi.literal_ascii|]. constructor; [apply fmt_hex_ascii|done]. }
  intros G1 Hlog1. apply runs_then.
  eapply wp_acpi; [exact Hp|exact Hlog1|exact Htext|exact Hf|exact Hi|exact Hacpi|].
  intros a Ha1 Ha2 Hlog2. apply runs_then.
  eapply wp_ps2; [exact Hport|exact Hp|exact Hlog2|exact Hleft|exact Hports|].
  intros G3 b3 Hlog3 Hsu Hc3. apply runs_then.
  assert (Hp3 : paged (set_machine b3 (set_gfx G3 (set_acpi_part a (set_gfx G1 s)))))
    by (by eapply paged_kept; [exact Hp|..]).
  eapply (wp_interrupts port info k n);
    [done|exact Hapic|exact Hinfo|exact Hport|exact Hp3|exact Hlog3|exact Ha2|exact Hla|].
  intros la b G Hla4 Hlog4 Hw4 [Hc4 Hx4]. apply runs_then, wp_zoom, wp_io_write.
  eapply (HQ (Interrupts.mkIntState la (Acpi.mkAcpiState (Acpi.FADT a) (Acpi.APIC_INFO a) G)
    (mkBus (dev_write Sti (bus_dev b)) (bus_log b ++ [EvWrite Sti]))));
    [exact Hlog4|exact Ha1|exact Ha2|exact Hla4| | |].
  - cbn [Interrupts.int_bus bus_dev]. rewrite (Ps2Embed.h8_other_write _ Hport) by done.
    rewrite Hx4. exact Hsu.
  - cbn [Interrupts.int_bus bus_log]. rewrite Interrupts.writes_of_write, Hw4.
    by rewrite <- (assoc_L (++)).
  - eapply paged_kept; [exact Hp3|done|]. cbn [k_bus set_int_part Interrupts.int_bus bus_log].
    rewrite Accesses.cpu_writes_app, Hc4. apply app_nil_r.
Qed.

(** The PCI functions fit the list. *)
Definition fits_list cfg : bool :=
  PciListing.len (PciListing.listing cfg fuel_pci) <=? Pci.DEVICE_CAPACITY.

(** Everything between the display and the enabling of interrupts. *)
Lemma runs_setup cfg port info k n fadt r s (rest : M St unit)
    (Q : unit -> St -> Prop) (R : panic_info -> St -> Prop) :
  fresh s -> machine cfg port info k n (bus_dev (k_bus s)) -> (k <= fuel_apic)%nat ->
  Paging.addrs_ok tables -> Pci.DEVICE_CAPACITY < Z.of_nat fuel_pci ->
  Acpi.text_ok (PhysPtr_get r) -> Acpi.acpi_tables (PhysPtr_get r) = Some (fadt, info) ->
  (forall s', fits_list cfg = true -> prints (k_gfx s') -> k_mem s' = k_mem s ->
     configured gdt_addr tables cfg port (port (bus_dev (k_bus s))) fadt info n s' ->
     runs rest Q R s') ->
  (forall s', fits_list cfg = false -> paged s' -> prints (k_gfx s') ->
     R (UnwrapFailed "ArrayVec::push") s') ->
  forall G, prints G ->
  runs (zoom gdt_part set_gdt_part (Gdt.init gdt_addr) ;;
    zoom paging_part set_paging_part (Paging.init tables) ;;
    init_devices tables error_debug fuel_pci ;;
    kprintln tables [bytes_of_string "rsdp_addr: 0x"; Logger.fmt_hex (PhysPtr_get r)] ;;
    init_acpi tables r ;;
    init_ps2 tables ;;
    init_interrupts tables fuel_apic ;;
    zoom k_bus set_machine (io_write Sti) ;; rest) Q R (set_gfx G s).
Proof.
  intros [_ _ [Hgdt Hgdtl] [Hpg Hpgt] (Hdev & Hdeve & Hdevc) (Hf & Hi & Hla) _]
    [Hpci Hport Hleft Hports Hapic Hinfo] Hk Haddrs Hfuel Htext Hacpi HQ HR G Hlog.
  eapply (runs_tables port); [by apply ports_apart_8042|exact Haddrs|exact Hgdt|exact Hgdtl|exact Hpg|exact Hpgt|].
  intros g p Hg Hgd Hp Hx1. apply runs_bind.
  eapply (runs_devices cfg port); [exact Hpci|by apply ports_apart_8042|exact Hdev|exact Hdeve| | |].
  { cbn [k_devices set_paging_part set_gdt_part set_gfx]. rewrite Hdevc. unfold Pci.DEVICE_CAPACITY in *. lia. }
  2: { intros mx b Hlen Hc. apply HR; [|by eapply paged_kept; [exact Hp|done|exact Hc]|exact Hlog].
    apply Z.leb_gt. by rewrite <- Hdevc. }
  intros mx b Hmx Hfound Hlen [Hc2 Hx2]. cbn [k_devices set_paging_part set_gdt_part set_gfx] in Hlen.
  rewrite Hdevc in Hlen. change (port (bus_dev b) = port (bus_dev (Paging.pg_bus p))) in Hx2.
  rewrite Hx1 in Hx2.
  assert (Hp2 : paged (set_devices mx (set_machine b (set_paging_part p (set_gdt_part g (set_gfx G s))))))
    by (eapply paged_kept; [exact Hp|done|exact Hc2]).
  eapply (runs_controllers port); [exact Hport|exact Hapic|exact Hinfo|exact Hk| | |exact Htext|
    exact Hacpi|exact Hp2|exact Hlog|exact Hf|exact Hi|exact Hla|].
  { cbn [k_bus set_devices set_machine]. by rewrite Hx2. }
  { cbn [k_bus set_devices set_machine]. by rewrite Hx2. }
  intros i ws Hgfx Hi1 Hi2 Hi3 Hsu Hw Hp3. cbn [k_bus set_devices set_machine] in Hsu.
  rewrite Hx2 in Hsu.
  apply HQ; [by apply Z.leb_le|exact Hgfx|done|]. destruct g, p. split; try done.
  - intros a Ha. by eapply paged_translate.
  - by eexists.
Qed.

(** The rest of [main]. *)
Lemma wp_after_sti bi s (Q : unit -> St -> Prop) :
  paged s -> prints (k_gfx s) -> PhysMem.sorted_from 0 (memory_map bi) ->
  mutex_held (k_mem s) = false -> mutex_data (k_mem s) = PhysMem.BitmapMemoryManager_new ->
  (forall G mx, on_screen fb (bytes_of_string "It didn't crash." ++ [Console.LineFeed]) G ->
    frames_known bi mx -> Q tt (set_gfx G (set_mem mx s))) ->
  wp (zoom k_mem set_mem (PhysMem.mem_manager (PhysMem.init (memory_map bi))) ;;
    kprintln tables [bytes_of_string "It didn't crash."]) Q s.
Proof.
  intros Hp [hist Hgfx] Hmap Hmem Hmemd HQ. wp_step. apply wp_memory; [done..|].
  intros mm Hmm Hbits.
  eapply wp_kernel_kprintln; [exact Hp|exact Hgfx|by apply msg_ascii|].
  intros G' HG'. apply HQ; [|by split].
  split; [exact Hu|]. exists hist. by rewrite <- (app_nil_r (bytes_of_string _)).
Qed.

(** The same machine without an RSDP. *)
Lemma runs_boot_without_rsdp cfg (rest : PhysPtr -> M St unit) s
    (Q : unit -> St -> Prop) (R : panic_info -> St -> Prop) :
  fresh s -> Pci.config_mechanism cfg (fun _ : D => True) ->
  Paging.addrs_ok tables -> Pci.DEVICE_CAPACITY < Z.of_nat fuel_pci ->
  (forall s', paged s' -> prints (k_gfx s') ->
     R (if fits_list cfg then ExplicitPanic "explicit panic"
        else UnwrapFailed "ArrayVec::push") s') ->
  forall G, prints G ->
  runs (zoom gdt_part set_gdt_part (Gdt.init gdt_addr) ;;
    zoom paging_part set_paging_part (Paging.init tables) ;;
    init_devices tables error_debug fuel_pci ;;
    r ← (kprintln tables [bytes_of_string "RSDP adderss wan't found. The kernel will panic."] ;;
         panic (ExplicitPanic "explicit panic"));
    rest r) Q R (set_gfx G s).
Proof.
  intros [_ _ [Hgdt Hgdtl] [Hpg Hpgt] (Hdev & Hdeve & Hdevc) _ _] Hpci Haddrs Hfuel HR G Hlog.
  apply (runs_tables (fun _ => tt)); [exact ports_apart_unit|exact Haddrs|exact Hgdt|exact Hgdtl|exact Hpg|exact Hpgt|].
  intros g p _ _ Hp _. apply runs_bind.
  apply (runs_devices cfg (fun _ => tt)); [exact Hpci|exact ports_apart_unit|exact Hdev|exact Hdeve| | |].
  { cbn [k_devices set_paging_part set_gdt_part set_gfx]. rewrite Hdevc.
    unfold Pci.DEVICE_CAPACITY in *. lia. }
  - intros mx b _ _ Hlen [Hc _]. cbn [k_devices set_paging_part set_gdt_part set_gfx] in Hlen.
    assert (Hp2 : paged (set_devices mx (set_machine b
      (set_paging_part p (set_gdt_part g (set_gfx G s))))))
      by (eapply paged_kept; [exact Hp|done|exact Hc]).
    apply runs_bind, runs_then, wp_kprintln_ready; [exact Hp2|exact Hlog|by apply msg_ascii|].
    intros G' HG'. specialize (HR (set_gfx G' (set_devices mx (set_machine b
      (set_paging_part p (set_gdt_part g (set_gfx G s)))))) Hp2 HG').
    unfold fits_list in HR. rewrite (proj2 (Z.leb_le _ _)) in HR by (by rewrite <- Hdevc). exact HR.
  - intros mx b Hlen Hc. cbn [k_devices set_paging_part set_gdt_part set_gfx] in Hlen.
    assert (Hp2 : paged (set_devices mx (set_machine b
      (set_paging_part p (set_gdt_part g (set_gfx G s))))))
      by (eapply paged_kept; [exact Hp|done|exact Hc]).
    specialize (HR _ Hp2 Hlog).
    unfold fits_list in HR. rewrite (proj2 (Z.leb_gt _ _)) in HR by (by rewrite <- Hdevc). exact HR.
Qed.
End stages.

(** * Properties *)

Section properties.
Context {mutex : Type -> Type} `{SpinMutexLaws mutex} {once : Type -> Type}
  `{SpinOnceLaws once} {arrayvec : Type -> Type} `{ArrayVecLaws arrayvec} `{Acpi.AcpiApi}
  `{Gdt.SelectorApi} {MT : Type} `{PhysMem.MemoryTypeApi MT} {D : Type} `{Device D}.
Notation St := (KernelState mutex once arrayvec D).
Implicit Types s : St.
Context (gdt_addr : Z) (tables : Paging.table_addrs) (error_debug : Errors.Error -> list Z)
  (fuel_pci fuel_apic : nat) (panic_text : panic_info -> list Z).
Hypothesis Htext : forall e, Console.is_ascii (panic_text e).

(** A run of [main] under the handler. *)
Lemma kernel_runs fb (m : M St unit) (Q : St -> Prop) (E : panic_info -> Prop) s :
  usable fb ->
  runs m (fun _ s' => Q s')
    (fun e s' => E e /\ paged gdt_addr tables s' /\ prints fb (k_gfx s')) s ->
  exists s', match m s with Panic p s' => panic_handler tables panic_text p s' | r => r end = Ret tt s' /\
    (Q s' \/ exists e, E e /\ reported fb (panic_text e) s').
Proof.
  intros Hu. unfold runs. destruct (m s) as [[] s'|e s'|]; [eauto| |done].
  intros (He & Hp & Hpr).
  pose proof (wp_panic_handler gdt_addr tables fb Hu panic_text e s' Hp Hpr (Htext e)) as Hw.
  apply wp_returns_unit in Hw as (s2 & E2 & Hrep). exists s2. eauto.
Qed.

(** The outcome of the start. *)
Lemma kernel_outcome cfg port info k n bi fadt s :
  fresh s -> machine cfg port info k n (bus_dev (k_bus s)) -> boot_ok bi fadt info ->
  Paging.addrs_ok tables -> Pci.DEVICE_CAPACITY < Z.of_nat fuel_pci -> (k <= fuel_apic)%nat ->
  exists s', kernel tables gdt_addr error_debug fuel_pci fuel_apic panic_text bi s = Ret tt s' /\
    if fits_list fuel_pci cfg
    then booted gdt_addr tables bi cfg port (port (bus_dev (k_bus s))) fadt info n s'
    else reported (display_of bi) (panic_text (UnwrapFailed "ArrayVec::push")) s'.
Proof.
  intros Hs Hm [Hdu (r & Er & Hr & Htab) Hmap] Haddrs Hfuel Hk.
  pose proof (buffer_usable _ Hdu) as Hu.
  destruct (kernel_runs (display_of bi) (main tables gdt_addr error_debug fuel_pci fuel_apic bi)
    (fun s' => fits_list fuel_pci cfg = true /\
       booted gdt_addr tables bi cfg port (port (bus_dev (k_bus s))) fadt info n s')
    (fun e => fits_list fuel_pci cfg = false /\ e = UnwrapFailed "ArrayVec::push") s Hu)
    as (s' & Es & Hcase); [|exists s'; split; [exact Es|];
      destruct Hcase as [[-> ?]|(e & [-> ->] & ?)]; done].
  unfold main. rewrite Er.
  apply runs_display; [apply Hdu|apply (fr_console _ Hs)|apply (fr_fb _ Hs)|].
  intros G Hinv _ _.
  eapply (runs_setup gdt_addr tables error_debug fuel_pci fuel_apic (display_of bi) Hu); eauto;
    [|by exists [[]]].
  - intros s1 Hfit Hready Emem Hcf. destruct (fr_mem _ Hs) as [Hmem Hmemd]. rewrite <- Emem in *.
    apply runs_wp. eapply (wp_after_sti gdt_addr tables (display_of bi) Hu); eauto.
    { apply (cf_paged _ _ _ _ _ _ _ _ _ Hcf). }
    intros G' mx HG' Hmx. split; [done|]. by split; [| destruct Hcf; split |].
Qed.


(** C20: without an RSDP the kernel panics, on a display that the console fits on and
    that lies below 64 GiB, and the panic handler shows it there before the kernel halts; a
    panic of the PCI scan before it is shown the same way. *)
Theorem kernel_without_rsdp cfg bi s :
  fresh s -> Pci.config_mechanism cfg (fun _ : D => True) -> display_usable (graphic_info bi) ->
  Paging.addrs_ok tables -> Pci.DEVICE_CAPACITY < Z.of_nat fuel_pci -> rsdp_addr bi = None ->
  exists s', kernel tables gdt_addr error_debug fuel_pci fuel_apic panic_text bi s = Ret tt s' /\
    reported (display_of bi) (panic_text (if fits_list fuel_pci cfg then ExplicitPanic "explicit panic"
      else UnwrapFailed "ArrayVec::push")) s'.
Proof.
  intros Hs Hpci Hdu Haddrs Hfuel Er. pose proof (buffer_usable _ Hdu) as Hu.
  set (e0 := if fits_list fuel_pci cfg then _ else _).
  destruct (kernel_runs (display_of bi) (main tables gdt_addr error_debug fuel_pci fuel_apic bi)
    (fun _ => False) (fun e => e = e0) s Hu) as (s' & Es & [[]|(e & -> & Hrep)]); [|eauto].
  unfold main. rewrite Er.
  apply runs_display; [apply Hdu|apply (fr_console _ Hs)|apply (fr_fb _ Hs)|].
  intros G Hinv _ _.
  apply (runs_boot_without_rsdp gdt_addr tables error_debug fuel_pci (display_of bi) Hu)
    with (cfg := cfg); [done..|by exists [[]]].
Qed.
End properties.

(** The panic handler while the console is locked. *)
Lemma panic_handler_held {mutex} `{SpinMutexLaws mutex} {once arrayvec : Type -> Type}
    `{Acpi.AcpiApi} {D} tables panic_text info (s : KernelState mutex once arrayvec D) :
  mutex_held (Console.CONSOLE (k_gfx s)) = true ->
  exists s', panic_handler tables panic_text info s = Panic (UnwrapFailed "kprintln!") s' /\
    k_gfx s' = k_gfx s.
Proof.
  intros Hheld. exists (set_gfx (k_gfx s) s). split; [|done].
  pose proof (fmt_held (view_of tables s) (msg "[panic]") (k_gfx s) Hheld) as E.
  unfold panic_handler, kprintln. do 2 apply bind_Panic. unfold on_display, with_view, on_gfx, zoom.
  unfold msg in E. by rewrite E.
Qed.

(** C36: a panic while the console is locked, as one inside [kprintln!], is never shown: the
    handler panics itself at its first line. *)
Theorem panic_in_console_lost {mutex} `{SpinMutexLaws mutex} {once arrayvec : Type -> Type}
    `{Acpi.AcpiApi} {D} tables panic_text info (s : KernelState mutex once arrayvec D) :
  mutex_held (Console.CONSOLE (k_gfx s)) = true ->
  exists s', panic_handler tables panic_text info s = Panic (UnwrapFailed "kprintln!") s' /\
    k_gfx s' = k_gfx s.
Proof. apply panic_handler_held. Qed.

(** * Witness: the machine of debug.txt, with an empty PCI bus *)

(** The 8042, the PCI address register and the selected register of the I/O APIC. *)
Record pc : Type := mkPc { pc_8042 : Ps2.i8042; pc_pci : Z; pc_io_apic : Z }.

#[local] Existing Instance Ps2.device_8042.
#[local] Existing Instance Acpi.firmware.
#[local] Existing Instance Gdt.selector_reference.
#[local] Existing Instance PhysMem.memory_type_reference.

#[local] Instance pc_device : Device pc := {|
  dev_read op d :=
    if Ps2Embed.ps2_read op
    then let '(v, c) := dev_read op (pc_8042 d) in (v, mkPc c (pc_pci d) (pc_io_apic d))
    else (match op with
          | In32 _ => 0xffffffff
          | Load32 a => if (a =? 0xfec00010) && (pc_io_apic d =? 1) then 0x170011 else 0
          | _ => 0
          end, d);
  dev_write op d :=
    if Ps2Embed.ps2_write op
    then mkPc (dev_write op (pc_8042 d)) (pc_pci d) (pc_io_apic d)
    else match op with
         | Out32 _ v => mkPc (pc_8042 d) v (pc_io_apic d)
         | Store32 a v => if a =? 0xfec00000 then mkPc (pc_8042 d) (pc_pci d) v else d
         | _ => d
         end
|}.

Definition no_functions (b d f off : Z) : Z := 0xffffffff.

Lemma pc_has_8042 : Ps2Embed.has_8042 pc_8042.
Proof.
  split; intros op d Hop; cbn [dev_read dev_write pc_device]; rewrite Hop; [|done|done|].
  - by destruct (dev_read op (pc_8042 d)).
  - destruct op; try done. by case_match.
Qed.

Lemma pc_mechanism : Pci.config_mechanism (D := pc) no_functions (fun _ => True).
Proof. by split. Qed.

Lemma pc_apics : Interrupts.apic_machine (D := pc) Interrupts.qemu_info 1 23.
Proof. split; intros d; [by left|reflexivity|reflexivity]. Qed.

Definition powered_on : pc := mkPc (Ps2.boot_8042 true 0 0) 0 0.

Lemma powered_on_left : Ps2.left_8042 (pc_8042 powered_on).
Proof. by apply Ps2.boot_8042_left. Qed.

Lemma pc_machine : machine no_functions pc_8042 Interrupts.qemu_info 1 23 powered_on.
Proof.
  split; [exact pc_mechanism|exact pc_has_8042|exact powered_on_left|reflexivity|exact pc_apics|
    exact Interrupts.qemu_info_ok].
Qed.

Definition loaded : KernelState spin_lock option capped pc := {|
  k_gfx := Console.mkGfx (SpinLock false Console.Console_new_empty) Console.qemu_state;
  k_gdt := SpinLock false (replicate 3 Gdt.SegmentDescriptor_new);
  k_pml4 := SpinLock false Paging.PageMapLevel4Table_new;
  k_pdpt := SpinLock false Paging.PageDirectoryPointerTable_new;
  k_pd := SpinLock false Paging.PageDirectory_new;
  k_devices := SpinLock false (Pci.Devices_new);
  k_fadt := None; k_apic_info := None; k_local_apic := None;
  k_mem := SpinLock false PhysMem.BitmapMemoryManager_new;
  k_bus := mkBus powered_on []
|}.

Lemma loaded_fresh : fresh loaded.
Proof. split; try done; by repeat split. Qed.

Definition qemu_gi : GraphicInfo := {|
  gi_width := 1280; gi_height := 800; gi_stride := 1280; gi_bytes_per_pixel := 4;
  gi_pixel_format := Bgr; gi_frame_buffer_addr := 0x80000000; gi_size := 0x3e8000
|}.
Definition qemu_boot : BootInfo Z := mkBootInfo qemu_gi PhysMem.small_map (Some (mkPhysPtr 0x6000)).

Lemma qemu_display_usable : display_usable qemu_gi.
Proof. split; [split; [by split|done..]|done]. Qed.

Lemma qemu_boot_ok : boot_ok qemu_boot 0x8000 Interrupts.qemu_info.
Proof.
  split; [exact qemu_display_usable| |exact PhysMem.small_map_sorted].
  exists (mkPhysPtr 0x6000). split; [done|]. split; [by repeat split; repeat constructor|reflexivity].
Qed.

Definition qemu_kernel (bi : BootInfo Z) : M (KernelState spin_lock option capped pc) unit :=
  kernel Paging.boot_addrs 0x100000 (fun _ => bytes_of_string "error") 33 1
    (fun _ => bytes_of_string "panicked") bi.


Lemma qemu_boots :
  exists s', qemu_kernel qemu_boot loaded = Ret tt s' /\
    booted 0x100000 Paging.boot_addrs qemu_boot no_functions pc_8042 (Ps2.boot_8042 true 0 0)
      0x8000 Interrupts.qemu_info 23 s'.
Proof.
  apply (kernel_outcome 0x100000 Paging.boot_addrs (fun _ => bytes_of_string "error") 33 1
    (fun _ => bytes_of_string "panicked") ltac:(repeat constructor; lia)
    no_functions pc_8042 Interrupts.qemu_info 1 23 qemu_boot 0x8000 loaded
    loaded_fresh pc_machine qemu_boot_ok Paging.boot_addrs_ok eq_refl (le_n 1)).
Qed.

Lemma kernel_without_rsdp_witness :
  exists s', qemu_kernel (mkBootInfo qemu_gi PhysMem.small_map None) loaded = Ret tt s' /\
    reported (display_of qemu_boot) (bytes_of_string "panicked") s'.
Proof.
  apply (kernel_without_rsdp 0x100000 Paging.boot_addrs (fun _ => bytes_of_string "error") 33 1
    (fun _ => bytes_of_string "panicked") ltac:(repeat constructor; lia)
    no_functions (mkBootInfo qemu_gi PhysMem.small_map None) loaded loaded_fresh pc_mechanism
    qemu_display_usable
    Paging.boot_addrs_ok eq_refl eq_refl).
Defined.

Lemma panic_in_console_lost_witness :
  exists s', panic_handler Paging.boot_addrs (fun _ => bytes_of_string "panicked") ArithOverflow
    (set_gfx (Console.mkGfx (SpinLock true Console.Console_new_empty) Console.qemu_state) loaded) =
    Panic (UnwrapFailed "kprintln!") s'.
Proof.
  match goal with |- exists s', panic_handler _ ?f ?e ?s = _ =>
    pose proof (panic_in_console_lost Paging.boot_addrs f e s) as HI end.
  destruct (HI eq_refl) as (s' & E & _). exists s'. exact E.
Defined.
End KernelMain.
