(* ===== verification/Running.v ===== *)
(** The kernel after its start: it waits with [hlt] and serves interrupts, a step each,
    until one panics. *)

From S2P Require Import Prelude Machine External Graphic FrameBuffer Console Gdt Paging PhysMem.
From S2P Require Import Common Pci Logger Display Ps2 Apic Acpi Interrupts Accesses KernelMain.

Module Running.
Import Logger Display Interrupts KernelMain.

(** * The steps *)

Section steps.
Context {mutex : Type -> Type} `{SpinMutexLaws mutex} {once : Type -> Type} `{SpinOnce once}
  {arrayvec : Type -> Type} `{ArrayVecApi arrayvec} `{Acpi.AcpiApi} {D : Type} `{Device D}.
Notation St := (KernelState mutex once arrayvec D).
Implicit Types s : St.
Context (tables : Paging.table_addrs) (panic_text : panic_info -> list Z).

(** An interrupt: the devices have come to [d] meanwhile, and the handler runs. *)
Definition interrupt (d : D) (h : handler) : M St unit :=
  modify (fun s => set_machine (mkBus d (bus_log (k_bus s))) s) ;;
  with_view tables (fun v => zoom int_part set_int_part (run_handler h)).

(** The main program waits with interrupts enabled; the panic handler ends with them
    disabled, as the handler it was called from runs. *)
Inductive phase : Type :=
  | Waiting s
  | Dead s.

Inductive step : phase -> handler -> phase -> Prop :=
  | step_served v d h s s' :
      handler_of v = Some h -> interrupt d h s = Ret tt s' -> step (Waiting s) h (Waiting s')
  | step_panicked v d h s p s1 s2 :
      handler_of v = Some h -> interrupt d h s = Panic p s1 ->
      panic_handler tables panic_text p s1 = Ret tt s2 -> step (Waiting s) h (Dead s2).

Inductive trace (ph : phase) : list handler -> phase -> Prop :=
  | trace_nil : trace ph [] ph
  | trace_snoc hs ph1 h ph2 : trace ph hs ph1 -> step ph1 h ph2 -> trace ph (hs ++ [h]) ph2.
End steps.

(** * Specification *)

(** What the handlers print, and the write that acknowledges an interrupt. *)
Definition text_of (hs : list handler) : list Z :=
  concat (map (fun h => match handler_line h with
                        | Some pieces => concat pieces ++ [Console.LineFeed]
                        | None => []
                        end) hs).
Definition greeting : list Z := bytes_of_string "It didn't crash." ++ [Console.LineFeed].
Definition acknowledgement (info : Acpi.ApicInfo) : write_op :=
  Store32 (Acpi.local_apic_base info + 0xb0) 0.

Section proofs.
Context {mutex : Type -> Type} `{SpinMutexLaws mutex} {once : Type -> Type}
  `{SpinOnceLaws once} {arrayvec : Type -> Type} `{ArrayVecLaws arrayvec} `{Acpi.AcpiApi}
  `{Gdt.SelectorApi} {MT : Type} `{PhysMem.MemoryTypeApi MT} {D : Type} `{Device D}.
Notation St := (KernelState mutex once arrayvec D).
Implicit Types s : St.
Context (gdt_addr : Z) (tables : Paging.table_addrs) (panic_text : panic_info -> list Z).
Context (fb : FrameBuffer.FrameBuf).
Hypothesis Htext : forall e, Console.is_ascii (panic_text e).

(** The kernel [s0] after the interrupts [hs]: only the screen, the devices and the log
    of their accesses changed, the screen shows [text] and the messages, and each
    interrupt was acknowledged. *)
Record served (text : list Z) (info : Acpi.ApicInfo) s0 (hs : list handler) s : Prop := {
  sv_screen : on_screen fb (text ++ text_of hs) (k_gfx s);
  sv_rest : exists G b, s = set_machine b (set_gfx G s0);
  sv_writes : writes_of (bus_log (k_bus s)) =
    writes_of (bus_log (k_bus s0)) ++ replicate (length hs) (acknowledgement info);
  sv_alive : HDoubleFault ∉ hs
}.

(** * Lemmas *)

Lemma text_of_snoc hs h : text_of (hs ++ [h]) = text_of hs ++ text_of [h].
Proof. unfold text_of. rewrite map_app, concat_app. done. Qed.

(** The message of a handler, if it has one. *)
Definition line_of (s : St) (h : handler) : M (Console.Gfx mutex) unit :=
  match handler_line h with Some p => Display.kprintln (view_of tables s) p | None => mret tt end.

(** An interrupt whose handler's message is printed. *)
Lemma wp_interrupt d h base (Q : unit -> St -> Prop) s :
  h <> HDoubleFault -> once_get (k_local_apic s) = Some (Apic.LocalApic_new base) ->
  wp (line_of s h)
    (fun _ t => forall b,
       writes_of (bus_log b) = writes_of (bus_log (k_bus s)) ++ [Store32 (base + 0xb0) 0] ->
       Q tt (set_machine b (set_gfx t s))) (k_gfx s) ->
  wp (interrupt tables d h) Q s.
Proof.
  intros Hh Hla HQ. unfold interrupt. wp_step. apply wp_modify, (wp_zoom int_part set_int_part).
  apply (wp_handler h (Apic.LocalApic_new base)); [done|exact Hla|].
  eapply wp_mono; [exact HQ|]. cbv beta. intros [] t Ht l i (_ & Hl & _) (El & Ela & Ei).
  assert (E : set_int_part i (set_machine (mkBus d (bus_log (k_bus s))) s) =
    set_machine (int_bus i) (set_gfx t s)).
  { destruct i as [la' a bi]. cbn in Ela, Ei. subst la' a. by destruct s. }
  rewrite E. apply Ht. change (bus_log (int_bus i)) with (int_log i). rewrite El.
  unfold int_log. cbn [int_part int_bus k_bus set_machine bus_log]. by rewrite !writes_of_app, Hl.
Qed.

Lemma text_of_one h :
  text_of [h] = match handler_line h with
                | Some p => concat p ++ [Console.LineFeed] | None => [] end.
Proof. unfold text_of. cbn [map concat]. by rewrite app_nil_r. Qed.

Lemma handler_line_ascii h pieces : handler_line h = Some pieces -> Forall Console.is_ascii pieces.
Proof. intros E. destruct h; simplify_eq/=; by apply msg_ascii. Qed.

(** The message on a screen that prints. *)
Lemma wp_line_of hist text h s (Q : unit -> Console.Gfx mutex -> Prop) :
  usable fb -> paged gdt_addr tables s ->
  Console.gfx_inv fb (k_gfx s) (Console.term_print hist text) ->
  (forall G', Console.gfx_inv fb G' (Console.term_print hist (text ++ text_of [h])) -> Q tt G') ->
  wp (line_of s h) Q (k_gfx s).
Proof.
  intros Hu Hp Hinv HQ. rewrite text_of_one in HQ. unfold line_of.
  destruct (handler_line h) as [pieces|] eqn:El.
  - eapply Display.wp_mapped_kprintln; [apply Hu|apply Hu|by apply (paged_visible gdt_addr)|exact Hinv|
      by eapply handler_line_ascii|].
    intros G' HG'. apply HQ. unfold Console.term_print in *. by rewrite foldl_app.
  - apply wp_ret, HQ. by rewrite app_nil_r.
Qed.

(** The acknowledgements tell the processor nothing of its tables. *)
Lemma paged_acknowledged info s s' n : paged gdt_addr tables s ->
  paging_part s' = Paging.mkPagingState (k_pml4 s) (k_pdpt s) (k_pd s) (k_bus s') ->
  writes_of (bus_log (k_bus s')) =
    writes_of (bus_log (k_bus s)) ++ replicate n (acknowledgement info) ->
  paged gdt_addr tables s'.
Proof.
  intros Hp E Hw. eapply paged_writes; [exact Hp|exact E|exact Hw|].
  apply Forall_replicate. reflexivity.
Qed.

Lemma served_step text info s0 hs s d h :
  paged gdt_addr tables s0 ->
  once_get (k_local_apic s0) = Some (Apic.LocalApic_new (Acpi.local_apic_base info)) ->
  served text info s0 hs s -> h <> HDoubleFault ->
  wp (interrupt tables d h) (fun _ s' => served text info s0 (hs ++ [h]) s') s.
Proof.
  intros Hp Hla [(Hu & hist & Hinv) (G & b & ->) Hw Halive] Hh.
  apply (wp_interrupt d h (Acpi.local_apic_base info)); [done|exact Hla|].
  apply (wp_line_of hist (text ++ text_of hs)); [done| |done|].
  { eapply paged_acknowledged; [exact Hp|done|exact Hw]. }
  intros G' HG' b' Hb'. split.
  - split; [done|]. exists hist. rewrite text_of_snoc, (assoc_L (++)). exact HG'.
  - by exists G', b'.
  - cbn [k_bus set_machine]. rewrite Hb', Hw, length_app, Nat.add_1_r, <- (assoc_L (++)).
    by rewrite replicate_S_end.
  - rewrite not_elem_of_app, list_elem_of_singleton. split; [done|]. congruence.
Qed.

(** The double fault's handler panics, and the panic is shown. *)
Lemma double_fault_step text s d :
  paged gdt_addr tables s -> on_screen fb text (k_gfx s) -> exists s1 s2,
  interrupt tables d HDoubleFault s = Panic (ExplicitPanic "double fault occurred.") s1 /\
  panic_handler tables panic_text (ExplicitPanic "double fault occurred.") s1 = Ret tt s2 /\
  reported fb (panic_text (ExplicitPanic "double fault occurred.")) s2.
Proof.
  intros Hp (Hu & hist & Hinv).
  exists (set_machine (mkBus d (bus_log (k_bus s))) s).
  assert (Hp1 : paged gdt_addr tables (set_machine (mkBus d (bus_log (k_bus s))) s))
    by (by eapply paged_kept; [exact Hp|..]).
  pose proof (wp_panic_handler gdt_addr tables fb Hu panic_text
    (ExplicitPanic "double fault occurred.") _ Hp1 (ex_intro _ _ Hinv) (Htext _)) as Hw.
  apply wp_returns_unit in Hw as (s2 & E2 & Hrep).
  exists s2. split; [by destruct s|]. split; [exact E2|exact Hrep].
Qed.

(** An interrupt with a gate, whichever it is. *)
Lemma served_next text info s0 hs s d h :
  paged gdt_addr tables s0 ->
  once_get (k_local_apic s0) = Some (Apic.LocalApic_new (Acpi.local_apic_base info)) ->
  served text info s0 hs s ->
  if decide (h = HDoubleFault)
  then exists s1 s2, interrupt tables d h s = Panic (ExplicitPanic "double fault occurred.") s1 /\
    panic_handler tables panic_text (ExplicitPanic "double fault occurred.") s1 = Ret tt s2 /\
    reported fb (panic_text (ExplicitPanic "double fault occurred.")) s2
  else exists s', interrupt tables d h s = Ret tt s' /\ served text info s0 (hs ++ [h]) s'.
Proof.
  intros Hp Hla Hs. case_decide as Hh.
  { subst h. pose proof Hs as [Hscr (G & b & ->) Hw _]. eapply double_fault_step; [|exact Hscr].
    eapply paged_acknowledged; [exact Hp|done|exact Hw]. }
  apply wp_returns_unit. by apply served_step.
Qed.

Lemma served_progress text info s0 hs s v h :
  paged gdt_addr tables s0 ->
  once_get (k_local_apic s0) = Some (Apic.LocalApic_new (Acpi.local_apic_base info)) ->
  served text info s0 hs s -> handler_of v = Some h ->
  exists ph, step tables panic_text (Waiting s) h ph.
Proof.
  intros Hp Hla Hs Hv. pose proof (served_next _ _ _ _ _ (bus_dev (k_bus s)) h Hp Hla Hs) as Hn.
  case_decide.
  - destruct Hn as (s1 & s2 & E1 & E2 & _). exists (Dead s2). by eapply step_panicked.
  - destruct Hn as (s' & E & _). exists (Waiting s'). by eapply step_served.
Qed.

End proofs.

Section property.
Context {mutex : Type -> Type} `{SpinMutexLaws mutex} {once : Type -> Type}
  `{SpinOnceLaws once} {arrayvec : Type -> Type} `{ArrayVecLaws arrayvec} `{Acpi.AcpiApi}
  `{Gdt.SelectorApi} {MT : Type} `{PhysMem.MemoryTypeApi MT} {D : Type} `{Device D}.
Context (gdt_addr : Z) (tables : Paging.table_addrs) (panic_text : panic_info -> list Z).
Hypothesis Htext : forall e, Console.is_ascii (panic_text e).
Implicit Types s : KernelState mutex once arrayvec D.

Lemma booted_served (bi : Common.BootInfo MT) cfg port c0 fadt info n s0 :
  booted gdt_addr tables bi cfg port c0 fadt info n s0 ->
  served (display_of bi) greeting info s0 [] s0.
Proof.
  intros [Hscr _ _]. split.
  - by rewrite app_nil_r.
  - exists (k_gfx s0), (k_bus s0). by destruct s0.
  - by rewrite app_nil_r.
  - apply not_elem_of_nil.
Qed.

(** C4: from the state in which the kernel waits after its start, every interrupt with a
    gate can be taken, whatever the devices have done meanwhile, and whatever interrupts
    came before: as long as none was a double fault the kernel goes on waiting, with
    each interrupt acknowledged exactly once, its message on the screen in order, and
    nothing else of its state changed; a double fault ends it with the panic on the
    screen. *)
Theorem kernel_serves (bi : Common.BootInfo MT) cfg port c0 fadt info n s0 hs ph :
  booted gdt_addr tables bi cfg port c0 fadt info n s0 ->
  trace tables panic_text (Waiting s0) hs ph ->
  match ph with
  | Waiting s =>
      served (display_of bi) greeting info s0 hs s /\
      forall v h, handler_of v = Some h -> exists ph', step tables panic_text (Waiting s) h ph'
  | Dead s =>
      last hs = Some HDoubleFault /\
      reported (display_of bi) (panic_text (ExplicitPanic "double fault occurred.")) s
  end.
Proof.
  intros Hb Htr. pose proof (booted_served _ _ _ _ _ _ _ _ Hb) as Hs0.
  pose proof (bt_configured _ _ _ _ _ _ _ _ _ _ Hb) as Hcf.
  pose proof (cf_paged _ _ _ _ _ _ _ _ _ Hcf) as Hp.
  destruct (cf_acpi _ _ _ _ _ _ _ _ _ Hcf) as (_ & _ & Hla).
  pose proof (served_progress gdt_addr tables panic_text (display_of bi) Htext greeting info s0) as Hgo.
  induction Htr as [|hs ph1 h ph2 Htr IH Hstep]; [by split; [|eauto]|].
  destruct Hstep as [v d h s s' Hv E|v d h s p s1 s2 Hv E1 E2]; destruct IH as [IH _];
    pose proof (served_next gdt_addr tables panic_text (display_of bi) Htext _ _ _ _ _ d h Hp Hla IH) as Hn;
    case_decide as Hh.
  - destruct Hn as (s1 & s2 & E1 & _). congruence.
  - destruct Hn as (s3 & E3 & Hs3). replace s' with s3 by congruence.
    split; [done|eauto].
  - subst h. destruct Hn as (s3 & s4 & E3 & E4 & Hrep). split; [apply last_snoc|]. congruence.
  - destruct Hn as (s3 & E3 & _). congruence.
Qed.
End property.

(** ** Witness: a key pressed on the machine that booted *)

#[local] Existing Instance pc_device.
#[local] Existing Instance Acpi.firmware.

Lemma kernel_serves_witness :
  let text := fun _ : panic_info => bytes_of_string "panicked" in
  exists s s' : KernelState spin_lock option capped pc,
    qemu_kernel qemu_boot loaded = Ret tt s /\
    trace Paging.boot_addrs text (Waiting s) [HKeyboard] (Waiting s') /\
    writes_of (bus_log (k_bus s')) =
      writes_of (bus_log (k_bus s)) ++ [Store32 0xfee000b0 0].
Proof.
  intros text. destruct qemu_boots as (s & E & Hb).
  assert (Ht : forall e, Console.is_ascii (text e)) by (intros e; repeat constructor; lia).
  pose proof (kernel_serves 0x100000 Paging.boot_addrs text Ht _ _ _ _ _ _ _ s [] _ Hb (trace_nil _ _ _)) as [_ Hnext].
  destruct (Hnext 33 HKeyboard eq_refl) as [ph Hstep].
  assert (Htr : trace Paging.boot_addrs text (Waiting s) [HKeyboard] ph) by exact (trace_snoc _ _ _ _ _ _ _ (trace_nil _ _ _) Hstep).
  pose proof (kernel_serves 0x100000 Paging.boot_addrs text Ht _ _ _ _ _ _ _ s [HKeyboard] ph Hb Htr) as Hs.
  destruct ph as [s'|s']; [|by destruct Hs].
  destruct Hs as [[_ _ Hw _] _]. exists s, s'. split; [exact E|]. split; [exact Htr|exact Hw].
Defined.
End Running.
