(* ===== verification/Confined.v ===== *)
(** What the kernel writes through raw pointers stays in the frame buffer and in the
    registers of the APICs that the firmware's tables name, on every machine and firmware, and
    however its parts end. *)

From S2P Require Import Prelude Machine External Simulation Graphic Font Errors FrameBuffer Console.
From S2P Require Import Gdt Paging PhysMem Common Pci Logger Display Ps2Controller Ps2 Apic Acpi Interrupts.
From S2P Require Import Accesses KernelMain Running.

Module Confined.
Import Graphic FrameBuffer Logger Display Accesses.

(** * Specification *)

(** The log has grown from [l0], and each store to a register in it is to one of an APIC of
    the tables kept. *)
Definition registers_only {D} (l0 : list io_event) (info : option Acpi.ApicInfo) (b : Bus D) : Prop :=
  exists l, bus_log b = l0 ++ l /\ forall a v, Store32 a v ∈ writes_of l ->
    exists x, info = Some x /\ register_of x a = true.

Section spec.
Context {mutex : Type -> Type} `{SpinMutexLaws mutex} {once : Type -> Type} `{SpinOnce once}
  {arrayvec : Type -> Type} `{Acpi.AcpiApi} {D : Type}.
Notation St := (KernelMain.KernelState mutex once arrayvec D).

Record registers_confined (l0 : list io_event) (s : St) : Prop := {
  rc_stores : registers_only l0 (once_get (KernelMain.k_apic_info s)) (KernelMain.k_bus s);
  rc_apic : local_apic_known (KernelMain.k_apic_info s) (KernelMain.k_local_apic s)
}.

(** The frame buffer is [fb], once nobody holds it, memory is [m0] around it, and the
    stores to registers are the APICs'. *)
Record writes_confined (fb : FrameBuf) (m0 : gmap Z Z) (l0 : list io_event) (s : St) : Prop := {
  wc_memory : confined fb m0 (Console.gfx_fb (KernelMain.k_gfx s));
  wc_registers : registers_confined l0 s
}.
End spec.

(** * Lemmas *)

Lemma pres_zoom_at {S T A} (I : S -> Prop) (J : S -> T -> Prop) (get : S -> T) set (m : M T A) :
  (forall s, I s -> J s (get s)) -> (forall s t, I s -> J s t -> I (set t s)) ->
  (forall s, pres (J s) m) -> pres I (zoom get set m).
Proof.
  intros Hget Hset Hm s Hs. specialize (Hm s _ (Hget s Hs)). unfold zoom.
  destruct (m (get s)); auto.
Qed.

Section kept.
Context {D : Type} `{Device D} (l0 : list io_event) (info : option Acpi.ApicInfo).

Lemma registers_write op :
  (forall a v, op = Store32 a v -> exists x, info = Some x /\ register_of x a = true) ->
  pres (registers_only (D := D) l0 info) (io_write op).
Proof.
  intros Hop b (l & El & Hl). exists (l ++ [EvWrite op]). cbn [bus_log].
  split; [by rewrite El, (assoc_L (++))|]. intros a v. rewrite writes_of_app, elem_of_app.
  intros [Hin|Hin]; [by eapply Hl|]. by apply list_elem_of_singleton in Hin as <-; eapply Hop.
Qed.

Lemma registers_kept st :
  match st with Controllers o => o = info | _ => True end ->
  kept_by (registers_only (D := D) l0 info) st.
Proof.
  intros Hst. split; intros op Hop.
  - apply registers_write. intros a v ->. destruct st as [| | | |o]; try discriminate Hop.
    subst o. cbn in Hop. destruct info as [x|]; [|discriminate Hop]. by exists x.
  - intros b (l & El & Hl). unfold io_read. destruct (dev_read op (bus_dev b)) as [v d].
    exists (l ++ [EvRead op (as_u (read_width op) v)]). cbn [bus_log].
    split; [by rewrite El, (assoc_L (++))|]. intros a w. rewrite writes_of_app. cbn.
    rewrite app_nil_r. apply Hl.
Qed.

Lemma registers_sti : pres (registers_only (D := D) l0 info) (io_write Sti).
Proof. by apply registers_write. Qed.
End kept.

(** * The modules that print *)

Section logs.
Context {L : Type} `{Log L} (J : L -> Prop) (Hlog : forall pieces, pres J (log_line pieces))
  {D : Type} `{Device D}.

Lemma keeps_ps2_init : pres (fun p : L * Bus D => J p.1) Ps2.init.
Proof.
  assert (Hm : forall A (m : M (Bus D) A), pres (fun p : L * Bus D => J p.1) (Ps2.on_machine m))
    by (intros A m; by apply (pres_zoom _ (fun _ => True)); [..|apply pres_any]).
  assert (Hk : forall s, pres (fun p : L * Bus D => J p.1) (Ps2.kprint_line s))
    by (intros s; by apply (pres_zoom _ J)).
  unfold Ps2.init, Ps2.detect_second_port, Ps2.or_panic.
  repeat lazymatch goal with
  | |- pres _ (Ps2.on_machine _) => apply Hm
  | |- pres _ (Ps2.kprint_line _) => apply Hk
  | |- _ => pres_step
  end.
Qed.

Context `{Acpi.AcpiApi} {once : Type -> Type} `{SpinOnceLaws once}.

Lemma keeps_acpi_init rsdp :
  pres (fun a : Acpi.AcpiState once L => J (Acpi.acpi_log a)) (Acpi.init rsdp).
Proof.
  assert (Hk : forall pieces, pres (fun a : Acpi.AcpiState once L => J (Acpi.acpi_log a))
    (Acpi.kprintln pieces)) by (intros pieces; by apply (pres_zoom _ J)).
  unfold Acpi.init, Acpi.rsdp_is_valid, Acpi.Xsdt_is_valid, Acpi.load_tables, Acpi.Xsdt_count,
    Acpi.store_tables, Acpi.from_madt, Acpi.expect_some, Acpi.explicit_panic.
  repeat lazymatch goal with
  | |- pres _ (Acpi.kprintln _) => apply Hk
  | |- pres _ (modify _) => by apply pres_modify
  | |- _ => pres_step
  end.
Qed.

(** A cell that is set keeps its value. *)
Lemma acpi_init_keeps_info (o : option Acpi.ApicInfo) rsdp :
  pres (fun a : Acpi.AcpiState once L => forall x, o = Some x -> once_get (Acpi.APIC_INFO a) = Some x)
    (Acpi.init rsdp).
Proof.
  assert (Hk : forall pieces, pres (fun a : Acpi.AcpiState once L => forall x, o = Some x ->
    once_get (Acpi.APIC_INFO a) = Some x) (Acpi.kprintln pieces))
    by (intros pieces a Ha; unfold Acpi.kprintln, zoom; by destruct (log_line pieces _)).
  unfold Acpi.init, Acpi.rsdp_is_valid, Acpi.Xsdt_is_valid, Acpi.load_tables, Acpi.Xsdt_count,
    Acpi.store_tables, Acpi.from_madt, Acpi.expect_some, Acpi.explicit_panic.
  repeat lazymatch goal with
  | |- pres _ (Acpi.kprintln _) => apply Hk
  | |- pres _ (modify _) => apply pres_modify; intros ? Hset x Hx; cbn; rewrite ?once_get_call; by rewrite (Hset x Hx)
  | |- _ => pres_step
  end.
Qed.

Notation II := (fun s : Interrupts.IntState once L D => J (Acpi.acpi_log (Interrupts.int_acpi s))).

Lemma keeps_int_machine {A} (m : M (Bus D) A) : pres II (Interrupts.on_machine m).
Proof. by apply (pres_zoom _ (fun _ => True)); [..|apply pres_any]. Qed.

Lemma keeps_int_kprintln pieces : pres II (Interrupts.kprintln pieces).
Proof.
  apply (pres_zoom _ (fun a => J (Acpi.acpi_log a))); [done|done|]. by apply (pres_zoom _ J).
Qed.

Lemma keeps_int_info : pres II Interrupts.get_apic_info.
Proof.
  apply (pres_zoom _ (fun a => J (Acpi.acpi_log a))); [done|done|].
  unfold Acpi.get_apic_info, Acpi.expect_some. repeat pres_step.
Qed.

Lemma keeps_wait_delivery fuel la : pres II (Interrupts.wait_delivery fuel la).
Proof.
  induction fuel as [|fuel IH]; [apply pres_diverge|]. cbn [Interrupts.wait_delivery].
  pres_step; [apply keeps_int_machine|]. pres_step; [exact IH|apply pres_ret].
Qed.

Ltac controller :=
  repeat lazymatch goal with
  | |- pres _ (Interrupts.on_machine _) => apply keeps_int_machine
  | |- pres _ (Interrupts.kprintln _) => apply keeps_int_kprintln
  | |- pres _ Interrupts.get_apic_info => apply keeps_int_info
  | |- pres _ (Interrupts.wait_delivery _ _) => apply keeps_wait_delivery
  | |- pres _ (modify _) => by apply pres_modify
  | |- _ => pres_step
  end.

Lemma keeps_interrupts_init fuel : pres II (Interrupts.init fuel).
Proof.
  unfold Interrupts.init, Interrupts.init_idt, Interrupts.disable_pic_8259, Interrupts.init_apic,
    Interrupts.enable_apic, Interrupts.init_local_apic, Interrupts.init_io_apic, Interrupts.mask_entry.
  controller.
Qed.

Lemma keeps_handler h : pres II (Interrupts.run_handler h).
Proof.
  destruct h; cbn [Interrupts.run_handler]; unfold Interrupts.breakpoint_handler,
    Interrupts.double_fault_handler, Interrupts.timer_interrupt_handler,
    Interrupts.keyboard_interrupt_handler, Interrupts.mouse_interrupt_handler,
    Interrupts.end_of_interrupt, Interrupts.LOCAL_APIC_wait; controller.
Qed.
End logs.

(** * The kernel *)

(** A run from one state, however it ends. *)
Definition ends_in {S A} (I : S -> Prop) (m : M S A) (s : S) : Prop :=
  match m s with Ret _ s' | Panic _ s' => I s' | Diverges => True end.

Lemma ends_in_bind {S A B} (I : S -> Prop) (m : M S A) (k : A -> M S B) s :
  ends_in I m s -> (forall a, pres I (k a)) -> ends_in I (m ≫= k) s.
Proof.
  unfold ends_in, mbind, M_bind. intros Hm Hk. destruct (m s) as [a s'|p s'|]; [|done..].
  apply (Hk a s' Hm).
Qed.

Lemma ends_in_Ret {S A} (I : S -> Prop) (m : M S A) s a s' :
  ends_in I m s -> m s = Ret a s' -> I s'.
Proof. unfold ends_in. intros Hm E. by rewrite E in Hm. Qed.

Lemma ends_in_zoom {S T A} (I : S -> Prop) (J : T -> Prop) (get : S -> T) set (m : M T A) s :
  (forall t, J t -> I (set t s)) -> ends_in J m (get s) -> ends_in I (zoom get set m) s.
Proof. unfold ends_in, zoom. intros HI Hm. destruct (m (get s)); auto. Qed.

Section kernel.
Context {mutex : Type -> Type} `{SpinMutexLaws mutex} {once : Type -> Type} `{SpinOnceLaws once}
  {arrayvec : Type -> Type} `{ArrayVecApi arrayvec} `{Acpi.AcpiApi} `{Gdt.SelectorApi}
  {MT : Type} `{PhysMem.MemoryTypeApi MT} {D : Type} `{Device D}.
Notation St := (KernelMain.KernelState mutex once arrayvec D).
Implicit Types s : St.

Lemma pres_with_view {A} (I : St -> Prop) tables (m : View -> M St A) :
  (forall v, pres I (m v)) -> pres I (KernelMain.with_view tables m).
Proof. intros Hm s Hs. by apply Hm. Qed.

(** ** Memory *)

Definition memory_confined (fb : FrameBuf) (m0 : gmap Z Z) s : Prop :=
  confined fb m0 (Console.gfx_fb (KernelMain.k_gfx s)).

(** The initialisation makes the buffer, whatever was there before. *)
Lemma init_confined gi c (g : FbState mutex) :
  gi_ok gi -> mutex_held (FRAME_BUF g) = false ->
  ends_in (confined (buffer_of gi) (fb_mem g)) (frame_buf (FrameBuf_init gi c)) g.
Proof.
  intros Hgi Hfree. pose proof (buffer_of_wf gi Hgi) as Hwf.
  destruct (mutex_try_lock_free _ _ Hfree) as (mx & El & Hmx).
  assert (Hf : pres (on_buffer (buffer_of gi) (fb_mem g)) (FrameBuf_fill c ;? mret (Ok tt)))
    by (apply pres_bind_try; [by apply keeps_fill|intros _; apply pres_ret]).
  specialize (Hf (mkScreen (buffer_of gi) (fb_mem g)) (conj eq_refl (fun a _ => eq_refl))).
  assert (E : FrameBuf_init gi c (mkScreen (mutex_data (FRAME_BUF g)) (fb_mem g)) =
    (FrameBuf_fill c ;? mret (Ok tt)) (mkScreen (buffer_of gi) (fb_mem g)))
    by (unfold buffer_of; by destruct gi as [? ? ? ? [] ? ?]).
  unfold ends_in, frame_buf, with_try_lock, with_guard, on_screen, zoom. rewrite El.
  cbn [fst snd set_FRAME_BUF fb_mem]. rewrite E.
  destruct ((FrameBuf_fill c ;? mret (Ok tt)) _) as [r s|p s|]; [..|done]; destruct Hf as [E1 E2];
    (split; cbn; [|exact E2]); [|congruence]. by autorewrite with mutex.
Qed.

Section memory.
Context (tables : Paging.table_addrs) (fb : FrameBuf) (Hfb : fb_wf fb) (m0 : gmap Z Z).
Notation K := (memory_confined fb m0).
Notation JG := (fun G : Console.Gfx mutex => confined fb m0 (Console.gfx_fb G)).

Lemma keeps_elsewhere {T A} (get : St -> T) set (m : M T A) :
  (forall t s, KernelMain.k_gfx (set t s) = KernelMain.k_gfx s) -> pres K (zoom get set m).
Proof.
  intros Hset. apply (pres_zoom _ (fun _ => True)); [done| |apply pres_any].
  intros s t Hs _. unfold memory_confined. by rewrite Hset.
Qed.

Lemma keeps_on_display {A} (m : M (Console.Gfx mutex) A) :
  pres JG m -> pres K (KernelMain.on_display tables m).
Proof.
  intros Hm. apply pres_with_view. intros v. apply (pres_zoom _ JG); [done|done|].
  by apply pres_through.
Qed.

Lemma keeps_k_kprintln pieces : pres K (KernelMain.kprintln tables pieces).
Proof.
  unfold KernelMain.kprintln. pres_step; apply keeps_on_display;
    [by apply keeps_fmt_section|by apply keeps_newline_section].
Qed.

Lemma keeps_panic_handler panic_text p : pres K (KernelMain.panic_handler tables panic_text p).
Proof. unfold KernelMain.panic_handler. pres_step; apply keeps_k_kprintln. Qed.

Lemma keeps_interrupt d h : pres K (Running.interrupt tables d h).
Proof.
  unfold Running.interrupt. pres_step; [by apply pres_modify|]. apply pres_with_view. intros v.
  apply (pres_zoom _ (fun i => JG (Acpi.acpi_log (Interrupts.int_acpi i)))); [done|done|].
  apply (keeps_handler (L := Console.Gfx mutex) JG). intros pieces. by apply keeps_kprintln.
Qed.

Lemma keeps_init_devices dbg fuel : pres K (KernelMain.init_devices tables dbg fuel).
Proof.
  unfold KernelMain.init_devices. apply pres_with_guard; [done|apply pres_panic|].
  pres_step.
  - apply (pres_zoom _ (fun _ => True)); [done| |apply pres_any]. by intros [v s] [v' b'] Hs _.
  - case_match; [apply pres_ret|]. apply (pres_zoom _ K); [done|done|apply keeps_k_kprintln].
Qed.

(** [main] after the frame buffer is there. *)
Lemma keeps_main_rest gdt_addr dbg fuel_pci fuel_apic (bi : Common.BootInfo MT) s :
  ends_in K (expect "frame_buf" (KernelMain.on_fb (frame_buf
    (FrameBuf_init (Common.graphic_info bi) (RgbColor_from_u32 0x28282800))))) s ->
  ends_in K (KernelMain.main tables gdt_addr dbg fuel_pci fuel_apic bi) s.
Proof.
  intros Hs. unfold KernelMain.main. apply ends_in_bind; [exact Hs|]. intros _.
  assert (Hk : forall (v : View) pieces, pres JG (Display.kprintln v pieces))
    by (intros v pieces; by apply keeps_kprintln).
  repeat lazymatch goal with
  | |- pres _ (KernelMain.kprintln _ _) => apply keeps_k_kprintln
  | |- pres _ (KernelMain.init_devices _ _ _) => apply keeps_init_devices
  | |- pres _ (KernelMain.on_gfx _) => apply (pres_zoom _ JG); [done|done|];
      apply pres_expect, keeps_console; by apply keeps_console_init
  | |- pres _ (KernelMain.init_ps2 _) => apply pres_with_view; intros v;
      apply (pres_zoom _ (fun p => JG p.1)); [done|done|];
      exact (keeps_ps2_init (L := Console.Gfx mutex) JG (Hk v))
  | |- pres _ (KernelMain.init_acpi _ _) => apply pres_with_view; intros v;
      apply (pres_zoom _ (fun a => JG (Acpi.acpi_log a))); [done|done|];
      exact (keeps_acpi_init (L := Console.Gfx mutex) JG (Hk v) _)
  | |- pres _ (KernelMain.init_interrupts _ _) => apply pres_with_view; intros v;
      apply (pres_zoom _ (fun i => JG (Acpi.acpi_log (Interrupts.int_acpi i)))); [done|done|];
      exact (keeps_interrupts_init (L := Console.Gfx mutex) JG (Hk v) _)
  | |- pres _ (zoom _ _ _) => apply keeps_elsewhere; by intros ? []
  | |- _ => pres_step
  end.
Qed.
End memory.
(** ** The registers *)
Section registers.
Context (tables : Paging.table_addrs) (l0 : list io_event).
Notation K := (registers_confined (arrayvec := arrayvec) l0 : St -> Prop).

Lemma registers_elsewhere {T A} (get : St -> T) set (m : M T A) :
  (forall t s, KernelMain.int_part (set t s) =
     KernelMain.int_part (KernelMain.set_gfx (KernelMain.k_gfx (set t s)) s)) ->
  pres K (zoom get set m).
Proof.
  intros Hset. apply (pres_zoom _ (fun _ => True)); [done| |apply pres_any].
  intros s t [Hb Ha] _. specialize (Hset t s). unfold KernelMain.int_part in Hset.
  injection Hset as El Ef Ei Eb. split; by rewrite ?El, ?Ei, ?Eb.
Qed.

(** A stage on the machine alone. *)
Lemma registers_stage {T A} (get : St -> T) set (bus : T -> Bus D) (m : M T A) :
  (forall s, bus (get s) = KernelMain.k_bus s) ->
  (forall t s, KernelMain.int_part (set t s) = Interrupts.mkIntState (KernelMain.k_local_apic s)
     (Acpi.mkAcpiState (KernelMain.k_fadt s) (KernelMain.k_apic_info s)
       (KernelMain.k_gfx (set t s))) (bus t)) ->
  (forall o, pres (fun t => registers_only l0 o (bus t)) m) -> pres K (zoom get set m).
Proof.
  intros Hget Hset Hm.
  apply (pres_zoom_at _ (fun s t => registers_only l0 (once_get (KernelMain.k_apic_info s)) (bus t))).
  - intros s [Hb _]. by rewrite Hget.
  - intros s t [_ Ha] Ht. specialize (Hset t s). unfold KernelMain.int_part in Hset.
    injection Hset as El Ef Ei Eb. split; by rewrite ?El, ?Ei, ?Eb.
  - intros s. apply Hm.
Qed.

Lemma registers_display {A} (m : M (Console.Gfx mutex) A) :
  pres K (KernelMain.on_display tables m).
Proof. apply pres_with_view. intros v. by apply registers_elsewhere. Qed.

Lemma registers_kprintln pieces : pres K (KernelMain.kprintln tables pieces).
Proof. unfold KernelMain.kprintln. pres_step; apply registers_display. Qed.

Lemma registers_panic_handler panic_text p : pres K (KernelMain.panic_handler tables panic_text p).
Proof. unfold KernelMain.panic_handler. pres_step; apply registers_kprintln. Qed.

(** The interrupts, from their set-up on. *)
Lemma registers_interrupts {A} (m : M (Interrupts.IntState once (Console.Gfx mutex) D) A) :
  (forall fadt cell, pres (controllers_inv (registers_only l0 (once_get cell)) fadt cell) m) ->
  pres K (zoom KernelMain.int_part KernelMain.set_int_part m).
Proof.
  intros Hm. apply (pres_zoom_at _ (fun s => controllers_inv
    (registers_only l0 (once_get (KernelMain.k_apic_info s))) (KernelMain.k_fadt s)
    (KernelMain.k_apic_info s))); [by intros s []| |by intros s].
  intros s i _ [Hb _ Hc Ha]. split; cbn; by rewrite Hc.
Qed.

Lemma registers_interrupt d h : pres K (Running.interrupt tables d h).
Proof.
  unfold Running.interrupt. pres_step; [apply pres_modify; intros s []; by split|]. apply pres_with_view. intros v.
  apply registers_interrupts. intros fadt cell.
  apply pres_handler; by apply registers_kept.
Qed.

Lemma registers_init_devices dbg fuel : pres K (KernelMain.init_devices tables dbg fuel).
Proof.
  unfold KernelMain.init_devices.
  apply pres_with_guard; [intros s mx []; by split|apply pres_panic|].
  pres_step.
  - apply (pres_zoom_at _ (fun p q => registers_only l0
      (once_get (KernelMain.k_apic_info p.2)) q.2)); [by intros p []|intros p q [] ?; by split|].
    intros p. by apply pres_devices, registers_kept.
  - case_match; [apply pres_ret|]. apply (pres_zoom _ K); [done|done|apply registers_kprintln].
Qed.

Lemma registers_acpi r : pres K (KernelMain.init_acpi tables r).
Proof.
  apply pres_with_view. intros v.
  apply (pres_zoom_at _ (fun s a => forall x, once_get (KernelMain.k_apic_info s) = Some x ->
    once_get (Acpi.APIC_INFO a) = Some x)); [done| |].
  - intros s a [Hb Ha] Hi. split; cbn.
    + destruct Hb as (l & El & Hl). exists l. split; [exact El|]. intros b w Hin.
      destruct (Hl b w Hin) as (info & E & Hr). eauto.
    + intros x Hx. destruct (Ha x Hx) as (info & E & Hr). eauto.
  - intros s. exact (acpi_init_keeps_info (L := Console.Gfx mutex) _ _).
Qed.

Lemma registers_main gdt_addr dbg fuel_pci fuel_apic (bi : Common.BootInfo MT) :
  pres K (KernelMain.main tables gdt_addr dbg fuel_pci fuel_apic bi).
Proof.
  unfold KernelMain.main.
  repeat lazymatch goal with
  | |- pres _ (KernelMain.kprintln _ _) => apply registers_kprintln
  | |- pres _ (KernelMain.init_devices _ _ _) => apply registers_init_devices
  | |- pres _ (KernelMain.init_acpi _ _) => apply registers_acpi
  | |- pres _ (KernelMain.init_ps2 _) => apply pres_with_view; intros v;
      apply (registers_stage _ _ snd); [done|done|]; intros o; by apply pres_ps2, registers_kept
  | |- pres _ (KernelMain.init_interrupts _ _) => apply pres_with_view; intros v;
      apply registers_interrupts; intros fadt cell; by apply pres_interrupts, registers_kept
  | |- pres _ (zoom KernelMain.gdt_part _ _) => apply (registers_stage _ _ Gdt.gdt_bus);
      [done|done|]; intros o; by apply pres_gdt, registers_kept
  | |- pres _ (zoom KernelMain.paging_part _ _) => apply (registers_stage _ _ Paging.pg_bus);
      [done|done|]; intros o; by apply pres_paging, registers_kept
  | |- pres _ (zoom KernelMain.k_bus _ _) => apply (registers_stage _ _ (fun b => b));
      [done|done|]; intros o; by apply registers_sti
  | |- pres _ (KernelMain.on_gfx _) => by apply registers_elsewhere
  | |- pres _ (KernelMain.on_fb _) => by apply registers_elsewhere
  | |- pres _ (zoom KernelMain.k_mem _ _) => by apply registers_elsewhere
  | |- _ => pres_step
  end.
Qed.
End registers.
End kernel.

(** * Property *)

(** C17: from a kernel whose frame buffer is not locked and whose local APIC is not set, on
    any machine, any firmware tables, any memory map and any linker layout, and whether
    [main] or the panic handler returns or panics at any point, what the kernel stores
    through raw pointers stays in two places: no byte of memory outside the frame buffer of the
    graphics information changes by its drawing, and each of its 32-bit stores to
    registers is to the first KiB at the base of the local APIC or to one of the two registers of
    the I/O APIC, as the firmware's MADT, which the kernel keeps, gives them.  Nothing checks
    where that is.  Every interrupt handler and every further panic keeps it so, whatever
    state of the console and of the devices it finds. *)
Theorem writes_stay_in_buffer {mutex} `{SpinMutexLaws mutex} {once} `{SpinOnceLaws once}
    {arrayvec} `{ArrayVecApi arrayvec} `{Acpi.AcpiApi} `{Gdt.SelectorApi} {MT}
    `{PhysMem.MemoryTypeApi MT} {D} `{Device D}
    gdt_addr tables dbg fuel_pci fuel_apic panic_text (bi : Common.BootInfo MT)
    (s : KernelMain.KernelState mutex once arrayvec D) :
  gi_ok (Common.graphic_info bi) ->
  mutex_held (FRAME_BUF (Console.gfx_fb (KernelMain.k_gfx s))) = false ->
  once_get (KernelMain.k_local_apic s) = None ->
  let I := writes_confined (buffer_of (Common.graphic_info bi))
    (fb_mem (Console.gfx_fb (KernelMain.k_gfx s))) (bus_log (KernelMain.k_bus s)) in
  ends_in I (KernelMain.kernel tables gdt_addr dbg fuel_pci fuel_apic panic_text bi) s /\
  (forall d h, pres I (Running.interrupt tables d h)) /\
  (forall p, pres I (KernelMain.panic_handler tables panic_text p)).
Proof.
  intros Hgi Hfree Hla I. pose proof (buffer_of_wf _ Hgi) as Hwf.
  assert (Hboth : forall m : M _ unit, pres (memory_confined (buffer_of (Common.graphic_info bi))
    (fb_mem (Console.gfx_fb (KernelMain.k_gfx s)))) m ->
    pres (registers_confined (bus_log (KernelMain.k_bus s))) m -> pres I m).
  { intros m Hm1 Hm2 s1 [Hc Hr]. specialize (Hm1 s1 Hc). specialize (Hm2 s1 Hr).
    by destruct (m s1); [split|split|]. }
  assert (Hpanic : forall p, pres I (KernelMain.panic_handler tables panic_text p)).
  { intros p. apply Hboth; [by apply keeps_panic_handler|apply registers_panic_handler]. }
  split; [|split; [|exact Hpanic]].
  2: { intros d h. apply Hboth; [by apply keeps_interrupt|apply registers_interrupt]. }
  assert (Hm : ends_in I (KernelMain.main tables gdt_addr dbg fuel_pci fuel_apic bi) s).
  { enough (Hend : ends_in (memory_confined (buffer_of (Common.graphic_info bi))
        (fb_mem (Console.gfx_fb (KernelMain.k_gfx s))))
        (KernelMain.main tables gdt_addr dbg fuel_pci fuel_apic bi) s /\
      ends_in (registers_confined (bus_log (KernelMain.k_bus s)))
        (KernelMain.main tables gdt_addr dbg fuel_pci fuel_apic bi) s).
    { destruct Hend. unfold ends_in in *. destruct (KernelMain.main _ _ _ _ _ _ s); [split; assumption|split; assumption|exact Logic.I]. }
    split; [apply (keeps_main_rest _ _ Hwf)|].
    - pose proof (init_confined (Common.graphic_info bi) (RgbColor_from_u32 0x28282800) _ Hgi Hfree) as Hi.
      apply ends_in_bind; [|intros [a|e]; [apply pres_ret|apply pres_panic]].
      do 2 (eapply ends_in_zoom; [intros t Ht; exact Ht|]). exact Hi.
    - apply (registers_main tables _ _ _ _ _ bi s). split; [|intros x Hx; congruence].
      exists []. split; [by rewrite app_nil_r|]. intros a v Hin. by apply elem_of_nil in Hin. }
  unfold ends_in, KernelMain.kernel in *.
  destruct (KernelMain.main _ _ _ _ _ _ s) as [[] s'|p s'|]; [exact Hm| |done].
  exact (Hpanic p s' Hm).
Qed.

(** ** Witness: the machine of debug.txt *)

#[local] Existing Instance KernelMain.pc_device.
#[local] Existing Instance Acpi.firmware.
#[local] Existing Instance Gdt.selector_reference.
#[local] Existing Instance PhysMem.memory_type_reference.

Lemma qemu_memory a :
  fb_mem (Console.gfx_fb (KernelMain.k_gfx KernelMain.loaded)) !! a = None.
Proof. apply lookup_empty. Qed.

Lemma qemu_display a : a = 0x7fffffff \/ a = 0x803e8000 ->
  let fb := buffer_of (Common.graphic_info KernelMain.qemu_boot) in
  ~ framebuf_addr fb <= a < framebuf_addr fb + 4 * (width fb * height fb).
Proof. intros Ha. cbn. lia. Qed.

Lemma qemu_registers a v l :
  (forall a v, Store32 a v ∈ writes_of l ->
    exists x, Some Interrupts.qemu_info = Some x /\ register_of x a = true) ->
  Store32 a v ∈ writes_of l ->
  0xfee00000 <= a < 0xfee00400 \/ a = 0xfec00000 \/ a = 0xfec00010.
Proof.
  intros Hl Hin. destruct (Hl a v Hin) as (x & Ex & Hr). injection Ex as <-.
  unfold register_of in Hr. cbn in Hr. lia.
Qed.

Lemma writes_stay_in_buffer_witness : exists s',
  KernelMain.qemu_kernel KernelMain.qemu_boot KernelMain.loaded = Ret tt s' /\
  fb_mem (Console.gfx_fb (KernelMain.k_gfx s')) !! 0x7fffffff = None /\
  fb_mem (Console.gfx_fb (KernelMain.k_gfx s')) !! 0x803e8000 = None /\
  forall a v, Store32 a v ∈ writes_of (bus_log (KernelMain.k_bus s')) ->
    0xfee00000 <= a < 0xfee00400 \/ a = 0xfec00000 \/ a = 0xfec00010.
Proof.
  destruct (KernelMain.kernel_outcome 0x100000 Paging.boot_addrs (fun _ => bytes_of_string "error") 33 1
    (fun _ => bytes_of_string "panicked") ltac:(repeat constructor; lia)
    KernelMain.no_functions KernelMain.pc_8042 Interrupts.qemu_info 1 23 KernelMain.qemu_boot
    _ KernelMain.loaded KernelMain.loaded_fresh KernelMain.pc_machine KernelMain.qemu_boot_ok
    Paging.boot_addrs_ok eq_refl (le_n 1)) as (s' & E & Hb).
  exists s'. split; [exact E|].
  destruct (writes_stay_in_buffer 0x100000 Paging.boot_addrs (fun _ => bytes_of_string "error") 33 1
    (fun _ => bytes_of_string "panicked") KernelMain.qemu_boot KernelMain.loaded
    (KernelMain.df_gi _ (KernelMain.du_fits _ KernelMain.qemu_display_usable))
    (KernelMain.fr_fb _ KernelMain.loaded_fresh)
    (proj2 (proj2 (KernelMain.fr_cells _ KernelMain.loaded_fresh)))) as [Hk _].
  pose proof (ends_in_Ret _ _ _ _ _ Hk E) as [[_ Hm] [(l & El & Hl) _]].
  destruct (KernelMain.cf_acpi _ _ _ _ _ _ _ _ _ (KernelMain.bt_configured _ _ _ _ _ _ _ _ _ _ Hb))
    as (_ & Hi & _).
  rewrite Hi in Hl. cbn [KernelMain.loaded KernelMain.k_bus bus_log app] in El.
  split; [|split]; [rewrite Hm..|].
  - exact (qemu_memory _).
  - exact (qemu_display _ (or_introl eq_refl)).
  - exact (qemu_memory _).
  - exact (qemu_display _ (or_intror eq_refl)).
  - intros a v. rewrite El. exact (qemu_registers a v l Hl).
Defined.
End Confined.
