(* ===== verification/Interleave.v ===== *)
(** The end of [main] with interrupts enabled: each statement after [sti] is a section
    that an interrupt may come before, after or inside of. *)

From S2P Require Import Prelude Machine External Graphic Errors FrameBuffer Console Gdt Paging PhysMem.
From S2P Require Import Common Pci Logger Display Ps2 Apic Acpi Interrupts KernelMain Running.

Module Interleave.
Import Graphic Common Logger Display Interrupts KernelMain Running.

(** * The sections and the steps *)

Section steps.
Context {mutex : Type -> Type} `{SpinMutexLaws mutex} {once : Type -> Type} `{SpinOnce once}
  {arrayvec : Type -> Type} `{ArrayVecApi arrayvec} `{Acpi.AcpiApi} `{Gdt.SelectorApi}
  {MT : Type} `{PhysMem.MemoryTypeApi MT} {D : Type} `{Device D}.
Notation St := (KernelState mutex once arrayvec D).
Implicit Types s : St.
Context (gdt_addr : Z) (tables : Paging.table_addrs) (error_debug : Errors.Error -> list Z)
  (fuel_pci fuel_apic : nat) (panic_text : panic_info -> list Z).

(** [main] up to and including [interrupts::enable()]. *)
Definition before_sti (boot_info : BootInfo MT) : M St unit :=
  expect "frame_buf" (on_fb (FrameBuffer.frame_buf
    (FrameBuffer.FrameBuf_init (graphic_info boot_info) (RgbColor_from_u32 0x28282800)))) ;;
  on_gfx (expect "console" (Console.console
    (Console.Console_init (RgbColor_from_u32 0x3c383600) (RgbColor_from_u32 0xebdbb200)))) ;;
  zoom gdt_part set_gdt_part (Gdt.init gdt_addr) ;;
  zoom paging_part set_paging_part (Paging.init tables) ;;
  init_devices tables error_debug fuel_pci ;;
  rsdp_addr ← match rsdp_addr boot_info with
    | Some p => mret p
    | None =>
        kprintln tables [bytes_of_string "RSDP adderss wan't found. The kernel will panic."] ;;
        panic (ExplicitPanic "explicit panic")
    end;
  kprintln tables [bytes_of_string "rsdp_addr: 0x"; Logger.fmt_hex (PhysPtr_get rsdp_addr)] ;;
  init_acpi tables rsdp_addr ;;
  init_ps2 tables ;;
  init_interrupts tables fuel_apic ;;
  zoom k_bus set_machine (io_write Sti) ;;
  mret tt.

(** What the main program does in one section, whether it holds the console there, and
    what it prints. *)
Record section := mkSection {
  sec_run : M St unit;
  sec_console : bool;
  sec_text : list Z
}.

(** The frame map; and the two statements of the last [kprintln!]. *)
Definition after_sti (boot_info : BootInfo MT) : list section := [
  mkSection (zoom k_mem set_mem (PhysMem.mem_manager (PhysMem.init (memory_map boot_info))))
    false [];
  mkSection (on_display tables (fmt_section [bytes_of_string "It didn't crash."]))
    true (bytes_of_string "It didn't crash.");
  mkSection (on_display tables newline_section) true [Console.LineFeed]].

Definition run_sections (l : list section) : M St unit := for_each l sec_run.

(** The main program with its remaining sections; halted in the panic handler; or lost
    in a panic of the panic handler. *)
Inductive phase : Type :=
  | Going (rest : list section) s
  | Dead s
  | Lost s.

Inductive event : Type :=
  | Ran (text : list Z)
  | Irq (h : handler)
  | IrqInside (h : handler).

(** How a piece of code ends under the panic handler. *)
Inductive ends (m : M St unit) s (next : St -> phase) : phase -> Prop :=
  | ends_returns s' : m s = Ret tt s' -> ends m s next (next s')
  | ends_dead p s1 s2 : m s = Panic p s1 ->
      panic_handler tables panic_text p s1 = Ret tt s2 -> ends m s next (Dead s2)
  | ends_lost p q s1 s2 : m s = Panic p s1 ->
      panic_handler tables panic_text p s1 = Panic q s2 -> ends m s next (Lost s2).

(** A section runs, an interrupt comes between two sections or after the last, or it
    comes inside one that holds the console: the handler then sees the display [G] as the
    section has it at that point, locked, and the section goes on as if undisturbed,
    since it uses nothing but the display. *)
Inductive step : phase -> event -> phase -> Prop :=
  | step_section sec rest s ph :
      ends (sec_run sec) s (Going rest) ph ->
      step (Going (sec :: rest) s) (Ran (sec_text sec)) ph
  | step_irq v d h rest s ph :
      handler_of v = Some h -> ends (interrupt tables d h) s (Going rest) ph ->
      step (Going rest s) (Irq h) ph
  | step_inside v d h G sec rest s ph :
      handler_of v = Some h -> sec_console sec = true -> mutex_held (Console.CONSOLE G) = true ->
      ends (interrupt tables d h) (set_gfx G s)
        (fun s' => Going (sec :: rest) (set_gfx (k_gfx s) s')) ph ->
      step (Going (sec :: rest) s) (IrqInside h) ph.

Inductive trace (ph : phase) : list event -> phase -> Prop :=
  | trace_none : trace ph [] ph
  | trace_next evs ph1 ev ph2 : trace ph evs ph1 -> step ph1 ev ph2 -> trace ph (evs ++ [ev]) ph2.
End steps.

(** * Specification *)

(** What the events put on the screen, the sections among them, and the interrupts. *)
Definition event_text (ev : event) : list Z :=
  match ev with Ran text => text | Irq h => text_of [h] | IrqInside _ => [] end.
Definition shown (evs : list event) : list Z := concat (map event_text evs).
Definition ran (evs : list event) : list (list Z) :=
  omap (fun ev => match ev with Ran text => Some text | _ => None end) evs.
Definition irqs (evs : list event) : nat :=
  length (omap (fun ev => match ev with Ran _ => None | _ => Some tt end) evs).

(** What the sections print, in their order. *)
Definition section_texts : list (list Z) :=
  [[]; bytes_of_string "It didn't crash."; [Console.LineFeed]].

(** The handlers that need the console: those that print, and the one that panics. *)
Definition needs_console (h : handler) : bool :=
  match h with HTimer => false | _ => true end.

Section proofs.
Context {mutex : Type -> Type} `{SpinMutexLaws mutex} {once : Type -> Type}
  `{SpinOnceLaws once} {arrayvec : Type -> Type} `{ArrayVecLaws arrayvec} `{Acpi.AcpiApi}
  `{Gdt.SelectorApi} {MT : Type} `{PhysMem.MemoryTypeApi MT} {D : Type} `{Device D}.
Notation St := (KernelState mutex once arrayvec D).
Implicit Types s : St.
Context (gdt_addr : Z) (tables : Paging.table_addrs) (error_debug : Errors.Error -> list Z)
  (fuel_pci fuel_apic : nat) (panic_text : panic_info -> list Z).
Hypothesis Htext : forall e, Console.is_ascii (panic_text e).

(** From [s1], where interrupts were enabled, after [evs], with [k] sections run: only the
    screen, the frame map, the devices and the log of their accesses changed. *)
Record going (bi : BootInfo MT) (info : Acpi.ApicInfo) s1 (k : nat) evs s : Prop := {
  go_screen : on_screen (display_of bi) (shown evs) (k_gfx s);
  go_rest : exists G b mx, s = set_machine b (set_gfx G (set_mem mx s1));
  go_writes : writes_of (bus_log (k_bus s)) =
    writes_of (bus_log (k_bus s1)) ++ replicate (irqs evs) (acknowledgement info);
  go_mem : match k with O => k_mem s = k_mem s1 | S _ => frames_known bi (k_mem s) end;
  go_ran : ran evs = take k section_texts
}.

(** Where interrupts are enabled. *)
Record enabled (bi : BootInfo MT) (info : Acpi.ApicInfo) s : Prop := {
  en_screen : on_screen (display_of bi) [] (k_gfx s);
  en_paged : paged gdt_addr tables s;
  en_apic : once_get (k_local_apic s) = Some (Apic.LocalApic_new (Acpi.local_apic_base info));
  en_mem : mutex_held (k_mem s) = false /\ mutex_data (k_mem s) = PhysMem.BitmapMemoryManager_new;
  en_map : PhysMem.sorted_from 0 (memory_map bi)
}.

(** * Lemmas *)

(** The sections are [main]'s statements after [sti]. *)
Lemma main_sections bi s :
  main tables gdt_addr error_debug fuel_pci fuel_apic bi s =
  (before_sti gdt_addr tables error_debug fuel_pci fuel_apic bi ;; run_sections (after_sti tables bi)) s.
Proof.
  unfold main, before_sti, run_sections, after_sti. cbn [for_each sec_run].
  do 11 (rewrite bind_assoc; apply bind_ext; intros ? ?).
  change (mret tt ≫= ?k) with (k tt). apply bind_ext. intros ? ?. unfold kprintln.
  apply bind_ext. intros ? ?.
  symmetry. apply bind_ret_unit.
Qed.

Lemma ends_Ret (m : M St unit) s next s' ph :
  m s = Ret tt s' -> ends tables panic_text m s next ph -> ph = next s'.
Proof. intros E [s2 E2|p s2 s3 E2 _|p q s2 s3 E2 _]; congruence. Qed.

Lemma ends_Panic (m : M St unit) s next p s1 ph :
  m s = Panic p s1 -> ends tables panic_text m s next ph ->
  (exists s2, panic_handler tables panic_text p s1 = Ret tt s2 /\ ph = Dead s2) \/
  (exists q s2, panic_handler tables panic_text p s1 = Panic q s2 /\ ph = Lost s2).
Proof.
  intros E [s2 E2|p' s2 s3 E2 E3|p' q s2 s3 E2 E3]; rewrite E in E2; simplify_eq; eauto.
Qed.

Lemma shown_snoc evs ev : shown (evs ++ [ev]) = shown evs ++ event_text ev.
Proof. unfold shown. rewrite map_app, concat_app. cbn [map concat]. by rewrite app_nil_r. Qed.

Lemma ran_snoc evs ev :
  ran (evs ++ [ev]) = ran evs ++ match ev with Ran text => [text] | _ => [] end.
Proof. unfold ran. rewrite omap_app. by destruct ev. Qed.

Lemma irqs_snoc evs ev :
  irqs (evs ++ [ev]) = (irqs evs + match ev with Ran _ => 0 | _ => 1 end)%nat.
Proof. unfold irqs. rewrite omap_app, length_app. by destruct ev. Qed.

Section from_enabled.
Context (bi : BootInfo MT) (info : Acpi.ApicInfo) (s1 : St) (Hen : enabled bi info s1).

Lemma going_start : going bi info s1 0 [] s1.
Proof.
  split; [apply Hen| |by rewrite app_nil_r|done|done].
  exists (k_gfx s1), (k_bus s1), (k_mem s1). by destruct s1.
Qed.

Lemma going_apic k evs s : going bi info s1 k evs s ->
  once_get (k_local_apic s) = Some (Apic.LocalApic_new (Acpi.local_apic_base info)).
Proof. intros [_ (G & b & mx & ->) _ _ _]. apply Hen. Qed.

Lemma going_paged k evs s : going bi info s1 k evs s -> paged gdt_addr tables s.
Proof.
  intros [_ (G & b & mx & ->) Hw _ _].
  eapply paged_acknowledged; [apply Hen|done|exact Hw].
Qed.

Lemma going_snoc_ran k evs s s' G mx text :
  going bi info s1 k evs s -> nth k section_texts [] = text -> (k < 3)%nat ->
  s' = set_gfx G (set_mem mx s) ->
  on_screen (display_of bi) (shown evs ++ text) G -> frames_known bi mx ->
  going bi info s1 (S k) (evs ++ [Ran text]) s'.
Proof.
  intros [_ (G0 & b & mx0 & ->) Hw _ Hr] <- Hk -> HG Hmx.
  split; rewrite ?shown_snoc, ?ran_snoc, ?irqs_snoc, ?Nat.add_0_r, ?Hr; [exact HG| |exact Hw|exact Hmx|].
  - by exists G, b, mx.
  - by destruct k as [|[|[|k]]]; [..|lia].
Qed.

Lemma going_memory evs s (sec := nth 0 (after_sti tables bi) (mkSection (mret tt) false [])) :
  going bi info s1 0 evs s ->
  wp (sec_run sec) (fun _ s' => going bi info s1 1 (evs ++ [Ran (sec_text sec)]) s') s.
Proof.
  intros Hg. pose proof Hg as [Hscr _ _ Hm _].
  destruct Hen as [_ _ _ [Hfree Hnew] Hmap]. rewrite <- Hm in Hfree, Hnew.
  apply wp_memory; [exact Hmap|exact Hfree|exact Hnew|]. intros mx Hmx Hbits.
  eapply (going_snoc_ran 0 evs s _ (k_gfx s) mx); [exact Hg|done|lia|by destruct s| |by split].
  by rewrite app_nil_r.
Qed.

(** A section that prints. *)
Lemma going_print k evs s m text :
  going bi info s1 (S k) evs s -> nth (S k) section_texts [] = text -> (S k < 3)%nat ->
  (forall hist (Q : unit -> St -> Prop), usable (display_of bi) -> paged gdt_addr tables s ->
     Console.gfx_inv (display_of bi) (k_gfx s) hist ->
     (forall G, Console.gfx_inv (display_of bi) G (Console.term_print hist text) ->
        Q tt (set_gfx G s)) -> wp (on_display tables m) Q s) ->
  wp (on_display tables m) (fun _ s' => going bi info s1 (S (S k)) (evs ++ [Ran text]) s') s.
Proof.
  intros Hg Htx Hk Hm. pose proof Hg as [(Hu & hist & Hinv) _ _ Hmem _].
  apply (Hm _ _ Hu (going_paged _ _ _ Hg) Hinv). intros G HG.
  eapply (going_snoc_ran (S k) evs s _ G (k_mem s)); [exact Hg|done|done|by destruct s| |done].
  split; [done|]. exists hist. unfold Console.term_print in *. by rewrite foldl_app.
Qed.

Lemma going_section k evs s sec :
  going bi info s1 k evs s -> after_sti tables bi !! k = Some sec ->
  wp (sec_run sec) (fun _ s' => going bi info s1 (S k) (evs ++ [Ran (sec_text sec)]) s') s.
Proof.
  intros Hg Hk. destruct k as [|[|[|k]]]; [injection Hk as <-..|discriminate Hk].
  - by apply going_memory.
  - apply going_print; [done|done|lia|]. intros hist Q Hu Hp Hinv HQ.
    eapply (wp_fmt_line gdt_addr tables (display_of bi) Hu); [exact Hp|exact Hinv|by apply msg_ascii|].
    cbn [concat]. rewrite app_nil_r. exact HQ.
  - apply going_print; [done|done|lia|]. intros hist Q Hu Hp Hinv HQ.
    eapply (wp_newline gdt_addr tables (display_of bi) Hu); [exact Hp|exact Hinv|exact HQ].
Qed.

(** An interrupt that returns, between two sections and inside of one. *)
Lemma going_irq k evs s d h :
  going bi info s1 k evs s -> h <> HDoubleFault ->
  wp (interrupt tables d h) (fun _ s' => going bi info s1 k (evs ++ [Irq h]) s') s.
Proof.
  intros Hg Hh. pose proof (going_apic _ _ _ Hg) as Hla. pose proof (going_paged _ _ _ Hg) as Hp.
  destruct Hg as [(Hu & hist & Hinv) (G & b & mx & ->) Hw Hm Hr].
  apply (wp_interrupt tables d h (Acpi.local_apic_base info)); [done|exact Hla|].
  apply (wp_line_of gdt_addr tables (display_of bi) hist (shown evs)); [done|exact Hp|done|].
  intros G' HG' b' Hb'.
  split; rewrite ?shown_snoc, ?ran_snoc, ?irqs_snoc, ?app_nil_r;
    [split; [done|]; by exists hist|by exists G', b', mx| |done|done].
  cbn [k_bus set_machine]. rewrite Hb', Hw, <- (assoc_L (++)), Nat.add_1_r. by rewrite replicate_S_end.
Qed.

Lemma going_inside k evs s d G :
  going bi info s1 k evs s ->
  wp (interrupt tables d HTimer) (fun _ s' =>
    going bi info s1 k (evs ++ [IrqInside HTimer]) (set_gfx (k_gfx s) s')) (set_gfx G s).
Proof.
  intros Hg. pose proof (going_apic _ _ _ Hg) as Hla.
  destruct Hg as [Hscr (G0 & b & mx & ->) Hw Hm Hr].
  apply (wp_interrupt tables d HTimer (Acpi.local_apic_base info)); [done|exact Hla|]. apply wp_ret.
  intros b' Hb'.
  split; rewrite ?shown_snoc, ?ran_snoc, ?irqs_snoc, ?app_nil_r;
    [done|by exists G0, b', mx| |done|done].
  cbn [k_bus set_machine set_gfx] in *. rewrite Hb', Hw, <- (assoc_L (++)), Nat.add_1_r.
  by rewrite replicate_S_end.
Qed.
End from_enabled.

(** The handlers that need the console, while it is locked. *)
Lemma irq_inside_lost d h G s :
  needs_console h = true -> mutex_held (Console.CONSOLE G) = true ->
  exists p s2 q s3, interrupt tables d h (set_gfx G s) = Panic p s2 /\
    panic_handler tables panic_text p s2 = Panic q s3 /\ k_gfx s3 = G.
Proof.
  intros Hh Hheld.
  assert (Hp : exists p s2, interrupt tables d h (set_gfx G s) = Panic p s2 /\ k_gfx s2 = G).
  { destruct (decide (h = HDoubleFault)) as [->|Hdf]; [by do 2 eexists|].
    assert (Hline : exists pieces, handler_line h = Some pieces) by (destruct h; try done; eauto).
    destruct Hline as [pieces Hline].
    set (view := view_of tables (set_machine (mkBus d (bus_log (k_bus s))) (set_gfx G s))).
    assert (Hlock : locked_out (H2 := mapped_log view) G) by (intros p; by apply mapped_kprintln_held).
    destruct (handler_held (H2 := mapped_log view) h pieces
      (int_part (set_machine (mkBus d (bus_log (k_bus s))) (set_gfx G s))) Hline Hlock)
      as (i & E & _ & Ei).
    exists (UnwrapFailed "kprintln!"), (set_int_part i
      (set_machine (mkBus d (bus_log (k_bus s))) (set_gfx G s))). split.
    - unfold interrupt. erewrite bind_Ret; [|reflexivity]. unfold zoom.
      cbn [k_bus set_gfx] in *. unfold with_view. subst view. by rewrite E.
    - cbn [k_gfx set_int_part]. by rewrite Ei. }
  destruct Hp as (p & s2 & E2 & Eg).
  destruct (panic_handler_held tables panic_text p s2) as (s3 & E3 & Eg3); [by rewrite Eg|].
  exists p, s2, (UnwrapFailed "kprintln!"), s3. split; [done|]. split; [done|]. congruence.
Qed.
Lemma not_needs h : needs_console h = false -> h = HTimer.
Proof. by destruct h. Qed.

(** Where a trace can lead. *)
Definition reaches (bi : BootInfo MT) info s1 evs (ph : phase) : Prop :=
  match ph with
  | Going rest s => exists k, rest = drop k (after_sti tables bi) /\ going bi info s1 k evs s
  | Dead s => last evs = Some (Irq HDoubleFault) /\
      reported (display_of bi) (panic_text (ExplicitPanic "double fault occurred.")) s
  | Lost s => exists h, last evs = Some (IrqInside h) /\ needs_console h = true /\
      mutex_held (Console.CONSOLE (k_gfx s)) = true
  end.

Lemma trace_reaches bi info s1 evs ph :
  enabled bi info s1 -> trace tables panic_text (Going (after_sti tables bi) s1) evs ph ->
  reaches bi info s1 evs ph.
Proof.
  intros Hen Htr. induction Htr as [|evs ph1 ev ph2 Htr IH Hstep]; [by exists 0%nat; split; [|apply going_start]|].
  destruct Hstep as [sec rest s ph He|v d h rest s ph Hv He|v d h G sec rest s ph Hv Hsec Hheld He];
    destruct IH as (k & Hk & Hg).
  - assert (Hl : after_sti tables bi !! k = Some sec)
      by (rewrite <- (Nat.add_0_r k), <- lookup_drop, <- Hk; done).
    destruct (wp_returns_unit _ _ _ (going_section bi info s1 Hen k evs s sec Hg Hl)) as (s' & E & Hg').
    rewrite (ends_Ret _ _ _ _ _ E He). exists (S k). split; [|exact Hg'].
    by rewrite <- Nat.add_1_r, <- drop_drop, <- Hk.
  - destruct (decide (h = HDoubleFault)) as [->|Hh].
    + destruct (double_fault_step gdt_addr tables panic_text (display_of bi) Htext _ s d (going_paged bi info s1 Hen _ _ _ Hg) (go_screen _ _ _ _ _ _ Hg))
        as (s2 & s3 & E2 & E3 & Hrep).
      destruct (ends_Panic _ _ _ _ _ _ E2 He) as [(s4 & E4 & ->)|(q & s4 & E4 & ->)]; [|congruence].
      split; [apply last_snoc|]. congruence.
    + destruct (wp_returns_unit _ _ _ (going_irq bi info s1 Hen k evs s d h Hg Hh)) as (s' & E & Hg').
      rewrite (ends_Ret _ _ _ _ _ E He). by exists k.
  - destruct (needs_console h) eqn:Hn.
    + destruct (irq_inside_lost d h G s Hn Hheld) as (p & s2 & q & s3 & E2 & E3 & Eg).
      destruct (ends_Panic _ _ _ _ _ _ E2 He) as [(s4 & E4 & ->)|(q' & s4 & E4 & ->)]; [congruence|].
      exists h. split; [apply last_snoc|]. split; [done|]. replace s4 with s3 by congruence. by rewrite Eg.
    + apply not_needs in Hn as ->.
      destruct (wp_returns_unit _ _ _ (going_inside bi info s1 Hen k evs s d G Hg)) as (s' & E & Hg').
      rewrite (ends_Ret _ _ _ _ _ E He). by exists k.
Qed.

(** The kernel goes on: the next section runs, and each interrupt with a gate is taken. *)
Lemma going_progress bi info s1 k evs s rest :
  enabled bi info s1 -> going bi info s1 k evs s -> rest = drop k (after_sti tables bi) ->
  match rest with
  | [] => True
  | sec :: rest' => exists s', step tables panic_text (Going rest s) (Ran (sec_text sec)) (Going rest' s')
  end /\
  forall v h, handler_of v = Some h -> exists ph, step tables panic_text (Going rest s) (Irq h) ph.
Proof.
  intros Hen Hg Hk. split.
  - destruct rest as [|sec rest]; [done|].
    assert (Hl : after_sti tables bi !! k = Some sec)
      by (rewrite <- (Nat.add_0_r k), <- lookup_drop, <- Hk; done).
    destruct (wp_returns_unit _ _ _ (going_section bi info s1 Hen k evs s sec Hg Hl)) as (s' & E & _).
    exists s'. by apply step_section, (ends_returns _ _ _ _ (Going rest)).
  - intros v h Hv. destruct (decide (h = HDoubleFault)) as [->|Hh].
    + destruct (double_fault_step gdt_addr tables panic_text (display_of bi) Htext _ s (bus_dev (k_bus s)) (going_paged bi info s1 Hen _ _ _ Hg) (go_screen _ _ _ _ _ _ Hg))
        as (s2 & s3 & E2 & E3 & _).
      exists (Dead s3). eapply step_irq; [exact Hv|]. by eapply ends_dead.
    + destruct (wp_returns_unit _ _ _ (going_irq bi info s1 Hen k evs s (bus_dev (k_bus s)) h Hg Hh))
        as (s' & E & _).
      exists (Going rest s'). eapply step_irq; [exact Hv|]. by apply (ends_returns _ _ _ _ (Going rest)).
Qed.

(** [main] up to the enabling of interrupts. *)
Lemma before_sti_enables cfg port info k n bi fadt s :
  fresh s -> machine cfg port info k n (bus_dev (k_bus s)) -> boot_ok bi fadt info ->
  Paging.addrs_ok tables -> Pci.DEVICE_CAPACITY < Z.of_nat fuel_pci -> (k <= fuel_apic)%nat ->
  fits_list fuel_pci cfg = true ->
  exists s1, before_sti gdt_addr tables error_debug fuel_pci fuel_apic bi s = Ret tt s1 /\
    enabled bi info s1 /\ configured gdt_addr tables cfg port (port (bus_dev (k_bus s))) fadt info n s1.
Proof.
  intros Hs Hm [Hdu (r & Er & Hr & Htab) Hmap] Haddrs Hfuel Hk Hfit.
  pose proof (buffer_usable _ Hdu) as Hu.
  assert (Hrun : runs (before_sti gdt_addr tables error_debug fuel_pci fuel_apic bi)
    (fun _ s1 => enabled bi info s1 /\
       configured gdt_addr tables cfg port (port (bus_dev (k_bus s))) fadt info n s1)
    (fun _ _ => False) s).
  { unfold before_sti. rewrite Er.
    apply runs_display; [apply Hdu|apply (fr_console _ Hs)|apply (fr_fb _ Hs)|].
    intros G Hinv _ _.
    eapply (runs_setup gdt_addr tables error_debug fuel_pci fuel_apic (display_of bi) Hu); eauto;
      [| |by exists [[]]].
    - intros s1 _ [hist1 Hready] Emem Hcf. apply runs_ret. split; [|done].
      split; [by split; [|exists hist1]| | |rewrite Emem; apply (fr_mem _ Hs)|done].
      + apply (cf_paged _ _ _ _ _ _ _ _ _ Hcf).
      + apply (cf_acpi _ _ _ _ _ _ _ _ _ Hcf).
    - congruence. }
  unfold runs in Hrun. destruct (before_sti _ _ _ _ _ _ s) as [[] s1|e s1|]; [|done..]. eauto.
Qed.

(** The main program goes on: its next section runs, every interrupt with a gate can come
    now; and one that needs the console, inside a section that holds it, ends the
    kernel with a panic in the panic handler. *)
Definition goes_on (rest : list (section (D := D))) s : Prop :=
  match rest with
  | [] => True
  | sec :: rest' =>
      (exists s', step tables panic_text (Going rest s) (Ran (sec_text sec)) (Going rest' s')) /\
      (sec_console sec = true -> forall v h G, handler_of v = Some h -> needs_console h = true ->
        mutex_held (Console.CONSOLE G) = true ->
        exists s', step tables panic_text (Going rest s) (IrqInside h) (Lost s') /\ k_gfx s' = G)
  end /\
  forall v h, handler_of v = Some h -> exists ph, step tables panic_text (Going rest s) (Irq h) ph.

Lemma going_goes_on bi info s1 k evs s rest :
  enabled bi info s1 -> going bi info s1 k evs s -> rest = drop k (after_sti tables bi) -> goes_on rest s.
Proof.
  intros Hen Hg Hk. destruct (going_progress _ _ _ _ _ _ _ Hen Hg Hk) as [Hrun Hirq].
  split; [|exact Hirq]. destruct rest as [|sec rest]; [done|]. split; [exact Hrun|].
  intros Hsec v h G Hv Hn Hheld.
  destruct (irq_inside_lost (bus_dev (k_bus s)) h G s Hn Hheld) as (p & s2 & q & s3 & E2 & E3 & Eg).
  exists s3. split; [|exact Eg]. eapply step_inside; [exact Hv|exact Hsec|exact Hheld|].
  by eapply ends_lost.
Qed.

(** * Property *)

(** C2: [main] enables interrupts before its last three statements, and they may come at
    any point from there on.  It starts as in the first theorem of [KernelMain]: the statics as
    loaded, an 8042 with two ports in whatever state the firmware left it, a display the
    console fits on below 64 GiB.  Between the statements interrupts do no harm: whichever
    came where, the statements have all run, or run next, in their order and
    without a panic, the screen shows what the statements and the handlers printed, in
    the order it happened, each interrupt was acknowledged, and the frame map is the
    firmware's as soon as its statement has run; a double fault ends the kernel with its
    panic on the screen.  Inside the two statements of [kprintln!], which hold the console,
    only the timer does no harm: any other interrupt panics, in its handler and
    then in the panic handler, and nothing is shown any more. *)
Theorem main_with_interrupts cfg port info k n bi fadt s :
  fresh s -> machine cfg port info k n (bus_dev (k_bus s)) -> boot_ok bi fadt info ->
  Paging.addrs_ok tables -> Pci.DEVICE_CAPACITY < Z.of_nat fuel_pci -> (k <= fuel_apic)%nat ->
  fits_list fuel_pci cfg = true ->
  exists s1, before_sti gdt_addr tables error_debug fuel_pci fuel_apic bi s = Ret tt s1 /\
    main tables gdt_addr error_debug fuel_pci fuel_apic bi s = run_sections (after_sti tables bi) s1 /\
    configured gdt_addr tables cfg port (port (bus_dev (k_bus s))) fadt info n s1 /\
    forall evs ph, trace tables panic_text (Going (after_sti tables bi) s1) evs ph ->
      reaches bi info s1 evs ph /\
      match ph with Going rest s2 => goes_on rest s2 | _ => True end.
Proof.
  intros Hs Hm Hb Ha Hp Hk Hfit.
  destruct (before_sti_enables _ _ _ _ _ _ _ _ Hs Hm Hb Ha Hp Hk Hfit) as (s1 & E & Hen & Hcf).
  exists s1. split; [exact E|]. split; [by rewrite main_sections, (bind_Ret _ _ _ _ _ E)|].
  split; [exact Hcf|]. intros evs ph Htr. pose proof (trace_reaches _ _ _ _ _ Hen Htr) as Hr.
  split; [exact Hr|]. destruct ph as [rest s2|s2|s2]; [|done..].
  destruct Hr as (j & Hj & Hg). by eapply going_goes_on.
Qed.
End proofs.

(** ** Witness: keys pressed in the last [kprintln!] of the machine of debug.txt *)

#[local] Existing Instance pc_device.
#[local] Existing Instance Acpi.firmware.
#[local] Existing Instance Gdt.selector_reference.
#[local] Existing Instance PhysMem.memory_type_reference.

(** A key between the two statements prints its message in the middle of the line; one
    inside the first loses the kernel. *)
Definition unlucky : list event := [Ran []; IrqInside HKeyboard].
Definition lucky : list event :=
  [Ran []; Ran (bytes_of_string "It didn't crash."); Irq HKeyboard; Ran [Console.LineFeed]].

Example lucky_shows :
  shown lucky = bytes_of_string "It didn't crash.pressed" ++ [Console.LineFeed; Console.LineFeed].
Proof. reflexivity. Qed.

Lemma main_with_interrupts_witness :
  let text := fun _ : panic_info => bytes_of_string "panicked" in
  exists s1 s2 s3 : KernelState spin_lock option capped pc,
    before_sti 0x100000 Paging.boot_addrs (fun _ => bytes_of_string "error") 33 1 qemu_boot loaded =
      Ret tt s1 /\
    trace Paging.boot_addrs text (Going (after_sti Paging.boot_addrs qemu_boot) s1) lucky (Going [] s2) /\
    on_screen (display_of qemu_boot) (shown lucky) (k_gfx s2) /\
    trace Paging.boot_addrs text (Going (after_sti Paging.boot_addrs qemu_boot) s1) unlucky (Lost s3).
Proof.
  intros text.
  assert (Ht : forall e, Console.is_ascii (text e)) by (intros e; repeat constructor; lia).
  destruct (main_with_interrupts 0x100000 Paging.boot_addrs (fun _ => bytes_of_string "error") 33 1
    text Ht no_functions pc_8042 Interrupts.qemu_info 1 23 qemu_boot _ loaded
    loaded_fresh pc_machine qemu_boot_ok Paging.boot_addrs_ok eq_refl (le_n 1) eq_refl)
    as (s1 & E & _ & _ & Hall).
  destruct (Hall _ _ (trace_none _ _ _)) as [_ [[[s2 Hs2] _] _]].
  pose proof (trace_next _ _ _ _ _ _ _ (trace_none _ _ _) Hs2) as Htr2.
  destruct (Hall _ _ Htr2) as [_ [[[s3 Hs3] Hin] _]].
  destruct (Hin eq_refl 33 HKeyboard (Console.mkGfx (SpinLock true Console.Console_new_empty)
    Console.qemu_state) eq_refl eq_refl eq_refl) as (s4 & Hs4 & _).
  pose proof (trace_next _ _ _ _ _ _ _ Htr2 Hs3) as Htr3.
  destruct (Hall _ _ Htr3) as [_ [_ Hirq]].
  destruct (Hirq 33 HKeyboard eq_refl) as [ph Hs5].
  pose proof (trace_next _ _ _ _ _ _ _ Htr3 Hs5) as Htr5.
  destruct (Hall _ _ Htr5) as [Hr Hgo].
  destruct ph as [rest s5|s5|s5]; [|by destruct Hr|by destruct Hr as (h & Hl & Hn & _)].
  destruct Hr as (k & -> & Hg).
  assert (k = 2%nat) as ->.
  { pose proof (go_ran _ _ _ _ _ _ Hg) as Hran. cbn in Hran. by destruct k as [|[|[|[|k]]]]. }
  destruct Hgo as [[[s6 Hs6] _] _].
  pose proof (trace_next _ _ _ _ _ _ _ Htr5 Hs6) as Htr6.
  destruct (Hall _ _ Htr6) as [(k & _ & Hg6) _].
  exists s1, s6, s4. split; [exact E|]. split; [exact Htr6|].
  split; [exact (go_screen _ _ _ _ _ _ Hg6)|]. exact (trace_next _ _ _ _ _ _ _ Htr2 Hs4).
Defined.
End Interleave.
