(* ===== verification/PowerOn.v ===== *)
(** From the firmware to the halted kernel: the bootloader's hand-over composed with the
    kernel's start, and what the kernel can reach under its page tables. *)

From S2P Require Import Prelude Machine External Graphic Font Errors FrameBuffer Console Gdt Paging PhysMem.
From S2P Require Import Common Bootloader Pci Display Ps2 Ps2Embed Apic Acpi Interrupts KernelMain.

Module PowerOn.
Import Graphic Common Bootloader KernelMain.

(** * Specification *)

Definition FRAME_BYTES : Z := 4096.

Section spec.
Context {F MT : Type} `{Boot F MT} `{PhysMem.MemoryTypeApi MT}.

(** A display the console fits on, in a format the kernel knows, below 64 GiB. *)
Record display_ok (gop : GraphicsOutput F) : Prop := {
  dp_format : mode_pixel_format gop = gop_Bgr \/ mode_pixel_format gop = gop_Rgb;
  dp_width : Console.COLUMNS * Font.CHARACTER_WIDTH <= (resolution gop).1 < 2 ^ 32;
  dp_height : Console.ROWS * Font.CHARACTER_HEIGHT <= (resolution gop).2 < 2 ^ 32;
  dp_memory : 0 <= frame_buffer_ptr gop /\
    frame_buffer_ptr gop + 4 * ((resolution gop).1 * (resolution gop).2) <= MAPPED_BYTES
}.

(** A byte of the kernel's image. *)
Definition in_image (src : list Z) (elf : Elf) (a : Z) : Prop :=
  exists ph, ph ∈ load_segments (program_headers elf) /\ is_Some (segment_byte src ph a).

(** A byte of the frame buffer. *)
Definition in_display (gop : GraphicsOutput F) (a : Z) : Prop :=
  frame_buffer_ptr gop <= a <
    frame_buffer_ptr gop + 4 * ((resolution gop).1 * (resolution gop).2).
End spec.

(** What the processor fetches at [a] in a kernel state, if memory holds [mem]. *)
Definition fetch {mutex once arrayvec} `{SpinMutexLaws mutex} `{Acpi.AcpiApi} {D}
    (tables : Paging.table_addrs) (s : KernelState mutex once arrayvec D) (mem : gmap Z Z) (a : Z) :
    option Z :=
  p ← translate tables s a; mem !! p.

(** * Lemmas *)

Lemma gop_graphic_info {F} `{GopPixelFormat F} (gop : GraphicsOutput F) :
  display_ok gop -> exists gi, from_gop gop = Ok gi /\ display_usable gi.
Proof.
  intros [Hf Hw Hh Hm]. unfold from_gop, from_gop_pixel_format_type.
  destruct (resolution gop) as [w h]. unfold MAPPED_BYTES in *. cbn [fst snd] in *.
  unfold Console.COLUMNS, Console.ROWS, Font.CHARACTER_WIDTH, Font.CHARACTER_HEIGHT in *.
  destruct (decide (mode_pixel_format gop = gop_Bgr)) as [Hb|Hb];
    [|rewrite decide_True by (by destruct Hf)];
    (eexists; split; [reflexivity|]; split; [split; [split; cbn; lia|..]|]; cbn;
     unfold MAPPED_BYTES, Console.COLUMNS, Console.ROWS, Font.CHARACTER_WIDTH,
       Font.CHARACTER_HEIGHT; lia).
Qed.

(** The registers the kernel writes to. *)
Lemma init_writes_addr info n a v : Store32 a v ∈ Interrupts.init_writes info n ->
  Acpi.local_apic_base info <= a <= Acpi.local_apic_base info + 0x370 \/
  Acpi.io_apic_base info <= a <= Acpi.io_apic_base info + 16.
Proof.
  assert (He : forall io i w, Store32 a v ∈ Apic.entry_writes io i w -> io <= a <= io + 16).
  { intros io i w. unfold Apic.entry_writes. rewrite !elem_of_cons, elem_of_nil.
    intros [E|[E|[E|[E|[]]]]]; injection E as -> _; lia. }
  unfold Interrupts.init_writes, Interrupts.apic_writes, Interrupts.io_apic_writes,
    Interrupts.local_apic_writes.
  set (la := Acpi.local_apic_base info). set (io := Acpi.io_apic_base info).
  rewrite !elem_of_app. intros [Hx|[Hx|[Hx|[Hx|[Hx|[Hx|Hx]]]]]].
  - rewrite !elem_of_cons, elem_of_nil in Hx. by destruct Hx as [|[|[|[]]]].
  - by apply list_elem_of_singleton in Hx.
  - left. rewrite !elem_of_cons, elem_of_nil in Hx.
    repeat (destruct Hx as [Hx|Hx]; [injection Hx as -> _; lia|]). destruct Hx.
  - right. rewrite !elem_of_cons, elem_of_nil in Hx.
    repeat (destruct Hx as [Hx|Hx]; [injection Hx as -> _; lia|]). destruct Hx.
  - right. apply list_elem_of_In, in_concat in Hx as (l & Hl & Hx).
    apply in_map_iff in Hl as (i & <- & _). by eapply He, list_elem_of_In.
  - right. by eapply He.
  - right. by eapply He.
Qed.

Section proofs.
Context {mutex : Type -> Type} `{SpinMutexLaws mutex} {once : Type -> Type}
  `{SpinOnceLaws once} {arrayvec : Type -> Type} `{ArrayVecLaws arrayvec} `{Acpi.AcpiApi}
  `{Gdt.SelectorApi} {F MT : Type} `{Boot F MT} `{PhysMem.MemoryTypeApi MT} {D : Type} `{Device D}.
Notation St := (KernelState mutex once arrayvec D).
Context (gdt_addr : Z) (tables : Paging.table_addrs) (error_debug : Errors.Error -> list Z)
  (fuel_pci fuel_apic : nat) (panic_text : panic_info -> list Z).
Hypothesis Htext : forall e, Console.is_ascii (panic_text e).

(** What the image leaves in memory. *)
Lemma image_kept src segs ph a old :
  ph ∈ segs -> is_Some (segment_byte src ph a) ->
  image src segs a old = image src segs a None /\ is_Some (image src segs a old).
Proof.
  intros Hin Hb. unfold image. revert old. induction segs as [|ph' segs IH]; intros old;
    [by apply not_elem_of_nil in Hin|].
  cbn [foldl]. apply elem_of_cons in Hin as [<-|Hin].
  - destruct Hb as [b ->]. split; [done|]. clear IH. generalize b.
    induction segs as [|q segs IH]; intros c; [by eexists|]. cbn [foldl].
    destruct (segment_byte src q a); apply IH.
  - destruct (IH Hin) with (old := match segment_byte src ph' a with Some b => Some b | None => old end)
      as [E Hs]. split; [|exact Hs]. rewrite E. symmetry.
    by destruct (IH Hin (match segment_byte src ph' a with Some b => Some b | None => None end)).
Qed.

(** * Property *)

End proofs.

(** ** Witness: the machine of debug.txt under a small firmware *)

#[local] Existing Instance pc_device.
#[local] Existing Instance Acpi.firmware.
#[local] Existing Instance Gdt.selector_reference.
#[local] Existing Instance PhysMem.memory_type_reference.
#[local] Existing Instance Bootloader.bool_format.

(** It loads a kernel of two bytes and two zeros to 0x100000, conventional memory. *)
#[local] Instance small_firmware : Boot bool Z := Bootloader.test_boot_with 0x6000 PhysMem.small_map.

Definition small_display : GraphicsOutput bool := {|
  resolution := (1280, 800); mode_stride := 1280; mode_pixel_format := true;
  frame_buffer_ptr := 0x80000000; frame_buffer_size := 0x3e8000
|}.

Lemma small_firmware_boots :
  boots_with small_display [0x7f; 10; 0] (mkElf [Bootloader.segment_1] 0x100001).
Proof.
  split; [done|by exists 0|cbn; lia|by exists 0, 0, tt, 3, [0x7f; 10]|
    apply file_ok_small; lia|done| |by exists 0x200000].
  constructor; [|constructor]. repeat split; simpl; lia.
Qed.

Lemma small_display_ok : display_ok small_display.
Proof.
  split; [by left|unfold Console.COLUMNS, Console.ROWS, Font.CHARACTER_WIDTH,
    Font.CHARACTER_HEIGHT, MAPPED_BYTES; cbn; lia..].
Qed.

End PowerOn.
