(* ===== verification/Unmapped.v ===== *)
(** A frame buffer that the kernel's page tables do not reach: the first line that [main] or the
    panic handler prints under them faults. *)

From S2P Require Import Prelude Machine External Simulation Graphic Font Errors FrameBuffer Console.
From S2P Require Import Gdt Paging PhysMem Common Pci PciListing Logger Display Ps2 Apic Acpi Interrupts KernelMain.

Module Unmapped.
Import Graphic FrameBuffer Common Logger Display KernelMain.

(** * The first line on an empty console *)

(** A character with a pixel in the row the proof looks at. *)
Definition visible_char (c : Z) : Prop := exists x, 0 <= x < 8 /\ glyph_bit c x 5 = true.

(** A text without a line feed is one line. *)
Definition one_line : list Z -> Prop := Forall (fun c => c =? Console.LineFeed = false).

Lemma split_one_line s : one_line s -> Console.split_lines s = [s].
Proof. induction 1 as [|c s Hc _ IH]; [done|]. cbn [Console.split_lines]. by rewrite Hc, IH. Qed.

Lemma digits_one_line fuel b v acc : 0 < b -> one_line acc -> one_line (digits fuel b v acc).
Proof.
  intros Hb. revert v acc. induction fuel as [|fuel IH]; intros v acc Hacc; [done|].
  cbn [digits]. assert (Hd : one_line (digit (v mod b) :: acc)).
  { constructor; [|done]. pose proof (Z.mod_pos_bound v b Hb).
    unfold digit, Console.LineFeed. case_match; lia. }
  case_match; [done|by apply IH].
Qed.

Lemma fmt_hex_one_line v : one_line (fmt_hex v).
Proof. apply digits_one_line; [lia|constructor]. Qed.

Section first_line.
Context {mutex : Type -> Type} `{SpinMutexLaws mutex} (v : View) (fb : FrameBuf).
Context (Hwf : fb_wf fb) (Hfits : Console.fits fb).
Implicit Types G : Console.Gfx mutex.

(** Nothing of the frame buffer is mapped. *)
Hypothesis Hunmapped : forall a,
  framebuf_addr fb <= a < framebuf_addr fb + 4 * (width fb * height fb) -> mapped a = false.

(** The console is empty, and its two colours differ on this frame buffer. *)
Record blank G : Prop := {
  bl_inv : Console.gfx_inv fb G [[]];
  bl_colors : color_word fb (Console.fg_color (Console.con_of G).1) <>
    color_word fb (Console.bg_color (Console.con_of G).1)
}.

Lemma wp_fmt_frame pieces G : Console.gfx_inv fb G [[]] -> Forall Console.is_ascii pieces ->
  wp (fmt_section pieces) (fun _ G' =>
    Console.gfx_inv fb G' (Console.term_print [[]] (concat pieces)) /\
    Console.con_frame (Console.con_of G) (Console.con_of G')) G.
Proof.
  intros [Hfree Hinv] Hp. apply Console.wp_console; [done|].
  eapply Console.wp_write_fmt; [done|done|exact Hinv|done|].
  intros p1 Hinv1 Hf. exists tt. split; [done|]. intros G1 Hfree1 <-. split; [by split|exact Hf].
Qed.

(** The pixels of the first cell. *)
Lemma first_cell text x : 0 <= x < 8 ->
  Console.text_pixel text x 5 =
    match text with (c :: _) :: _ => glyph_bit c x 5 | _ => false end.
Proof.
  intros Hx. unfold Console.text_pixel, Font.CHARACTER_WIDTH, Font.CHARACTER_HEIGHT.
  rewrite (Z.div_small x 8), (Z.mod_small x 8) by lia. cbn [Z.to_nat].
  change (5 / 16) with 0. change (5 mod 16) with 5. by destruct text as [|[|c l] text].
Qed.

Lemma first_line_shown c rest : Console.split_lines (c :: rest) = [c :: rest] ->
  exists l ls, Console.screenful (Console.term_print [[]] (c :: rest)) = (c :: l) :: ls.
Proof. intros E. rewrite Console.term_print_fresh, E. by do 2 eexists. Qed.

(** Printing such a line stores something. *)
Lemma first_line_stores pieces c rest G :
  blank G -> Forall Console.is_ascii pieces -> concat pieces = c :: rest -> visible_char c ->
  Console.split_lines (c :: rest) = [c :: rest] ->
  stores (fmt_section pieces) G <> ∅.
Proof.
  intros [Hinv Hcol] Hp Ec (x & Hx & Hbit) Hl Hempty.
  pose proof (wp_fmt_frame pieces G Hinv Hp) as Hw.
  apply wp_returns_unit in Hw as (G' & E & [_ Hinv'] & Hfr).
  pose proof (stores_of_sections (fmt_section pieces) pieces G (or_introl eq_refl)) as Hst.
  rewrite E in Hst. rewrite Hempty in Hst.
  destruct (fmt_section pieces (over ∅ G)) as [[] G2|p G2|]; [|done..].
  destruct Hst as (_ & _ & Hmem). rewrite (left_id_L ∅ (∪)) in Hmem.
  destruct Hinv as [_ [_ Hfb Hs Hr]]. destruct Hinv' as [_ Hfb' Hs' Hr'].
  destruct Hfr as [Hfg Hbg _].
  assert (Hin : inside fb x 5 /\ Console.console_area x 5 = true).
  { unfold Console.fits, inside, Console.console_area, in_rect, Font.CHARACTER_WIDTH, Font.CHARACTER_HEIGHT,
      Console.COLUMNS, Console.ROWS in *. lia. }
  destruct Hin as [Hin Harea].
  rewrite <- Hfb in Hin at 1. specialize (Hr x 5 Hin Harea).
  rewrite Hfb, <- Hfb' in Hin. specialize (Hr' x 5 Hin Harea).
  destruct (first_line_shown c rest Hl) as (l & ls & El). rewrite Ec in Hs'.
  rewrite (Console.shows_text _ _ Hs), first_cell in Hr by lia.
  rewrite (Console.shows_text _ _ Hs'), El, first_cell, Hbit, Hfg in Hr' by lia.
  change (match Console.screenful [[]] with (c0 :: _) :: _ => _ | _ => false end) with false in Hr.
  apply Hcol. cut (Some (color_word fb (Console.fg_color (Console.con_of G).1)) =
    Some (color_word fb (Console.bg_color (Console.con_of G).1))); [congruence|].
  rewrite Hfb in Hr. rewrite Hfb' in Hr'. rewrite <- Hr, <- Hr'.
  unfold pixel_at. rewrite Hfb, Hfb'.
  change (scr_mem (Console.screen_of (Console.con_of G').2)) with (fb_mem (Console.gfx_fb G')).
  by rewrite Hmem.
Qed.

(** So it faults at an address of the frame buffer. *)
Lemma first_line_faults pieces c rest G :
  blank G -> Forall Console.is_ascii pieces -> concat pieces = c :: rest -> visible_char c ->
  Console.split_lines (c :: rest) = [c :: rest] ->
  (exists a, is_Some (stores (fmt_section pieces) G !! a) /\
     framebuf_addr fb <= a < framebuf_addr fb + 4 * (width fb * height fb)) /\
  through v (fmt_section pieces) G = Diverges.
Proof.
  intros Hb Hp Ec Hc Hl. pose proof (first_line_stores pieces c rest G Hb Hp Ec Hc Hl) as Hne.
  assert (Ha : exists a, is_Some (stores (fmt_section pieces) G !! a) /\
    framebuf_addr fb <= a < framebuf_addr fb + 4 * (width fb * height fb)).
  { apply map_choose in Hne as (a & w & Ea). exists a. split; [by eexists|].
    pose proof (keeps_fmt_section fb Hwf ∅ pieces (over ∅ G)) as Hk.
    assert (Hc0 : confined fb ∅ (Console.gfx_fb (over ∅ G))).
    { split; [|done]. intros _. apply (Console.inv_fb _ _ _ (Console.gfx_con _ _ _ (bl_inv _ Hb))). }
    specialize (Hk Hc0). unfold stores in Ea.
    destruct (decide (framebuf_addr fb <= a < framebuf_addr fb + 4 * (width fb * height fb)))
      as [|Hout]; [done|].
    destruct (fmt_section pieces (over ∅ G)) as [[] G2|p G2|]; [..|by rewrite lookup_empty in Ea];
      destruct Hk as [_ Hk]; by rewrite (Hk a Hout), lookup_empty in Ea. }
  split; [exact Ha|]. destruct Ha as (a & [w Ea] & Hm%Hunmapped). unfold through.
  destruct (forallb _ _) eqn:Hall; [|done]. rewrite List.forallb_forall in Hall.
  specialize (Hall (a, w)). cbn [fst] in Hall. rewrite Hall in Hm; [done|].
  by apply list_elem_of_In, elem_of_map_to_list.
Qed.
End first_line.

(** * The kernel *)

Section kernel.
Context {mutex : Type -> Type} `{SpinMutexLaws mutex} {once : Type -> Type}
  `{SpinOnceLaws once} {arrayvec : Type -> Type} `{ArrayVecLaws arrayvec} `{Acpi.AcpiApi}
  `{Gdt.SelectorApi} {MT : Type} `{PhysMem.MemoryTypeApi MT} {D : Type} `{Device D}.
Notation St := (KernelState mutex once arrayvec D).
Implicit Types s : St.
Context (gdt_addr : Z) (tables : Paging.table_addrs) (error_debug : Errors.Error -> list Z)
  (fuel_pci fuel_apic : nat) (panic_text : panic_info -> list Z).

(** [main] up to the first line it prints. *)
Definition before_print (boot_info : BootInfo MT) : M St unit :=
  expect "frame_buf" (on_fb (FrameBuffer.frame_buf
    (FrameBuffer.FrameBuf_init (graphic_info boot_info) (RgbColor_from_u32 0x28282800)))) ;;
  on_gfx (expect "console" (Console.console
    (Console.Console_init (RgbColor_from_u32 0x3c383600) (RgbColor_from_u32 0xebdbb200)))) ;;
  zoom gdt_part set_gdt_part (Gdt.init gdt_addr) ;;
  zoom paging_part set_paging_part (Paging.init tables) ;;
  init_devices tables error_debug fuel_pci.

(** The line it prints then. *)
Definition next_line (boot_info : BootInfo MT) : list (list Z) :=
  match rsdp_addr boot_info with
  | Some p => [bytes_of_string "rsdp_addr: 0x"; fmt_hex (PhysPtr_get p)]
  | None => [bytes_of_string "RSDP adderss wan't found. The kernel will panic."]
  end.

(** Printing [line] stores to an address that the page tables do not map. *)
Definition faults_at s (line : list (list Z)) : Prop := exists a,
  is_Some (stores (fmt_section line) (k_gfx s) !! a) /\ translate tables s a = None.

(** The rest of [main], from that line on. *)
Definition after_print (boot_info : BootInfo MT) : M St unit :=
  rsdp_addr ← match rsdp_addr boot_info with
    | Some p => mret p
    | None =>
        kprintln tables [bytes_of_string "RSDP adderss wan't found. The kernel will panic."] ;;
        panic (ExplicitPanic "explicit panic")
    end;
  kprintln tables [bytes_of_string "rsdp_addr: 0x"; fmt_hex (PhysPtr_get rsdp_addr)] ;;
  init_acpi tables rsdp_addr ;;
  init_ps2 tables ;;
  init_interrupts tables fuel_apic ;;
  zoom k_bus set_machine (io_write Sti) ;;
  zoom k_mem set_mem (PhysMem.mem_manager (PhysMem.init (memory_map boot_info))) ;;
  kprintln tables [bytes_of_string "It didn't crash."].

Lemma main_before_print bi s :
  main tables gdt_addr error_debug fuel_pci fuel_apic bi s =
  (before_print bi ;; after_print bi) s.
Proof.
  unfold main, before_print, after_print.
  do 4 (rewrite bind_assoc; apply bind_ext; intros ? ?). done.
Qed.

(** A state whose page tables are the kernel's, and whose console is empty. *)
Definition ready (bi : BootInfo MT) s : Prop :=
  paged gdt_addr tables s /\ blank (display_of bi) (k_gfx s).

Lemma runs_before_print cfg bi s :
  fresh s -> Pci.config_mechanism cfg (fun _ : D => True) -> display_fits (graphic_info bi) ->
  Paging.addrs_ok tables -> Pci.DEVICE_CAPACITY < Z.of_nat fuel_pci ->
  runs (before_print bi) (fun _ => ready bi)
    (fun p s1 => p = UnwrapFailed "ArrayVec::push" /\ ready bi s1) s.
Proof.
  intros Hs Hpci Hdf Haddrs Hfuel.
  apply runs_display; [exact Hdf|apply (fr_console _ Hs)|apply (fr_fb _ Hs)|].
  intros G Hinv Hfg Hbg.
  assert (Hbl : blank (display_of bi) G).
  { split; [exact Hinv|]. rewrite Hfg, Hbg. unfold color_word, encode, display_of, buffer_of.
    cbn [pixel_writer]. by case_decide. }
  destruct Hs as [_ _ [Hgdt Hgdtl] [Hpg Hpgt] (Hdev & Hdeve & Hdevc) _ _].
  apply (runs_tables gdt_addr tables (fun _ => tt));
    [exact (ports_apart_unit)|exact Haddrs|exact Hgdt|exact Hgdtl|exact Hpg|exact Hpgt|].
  intros g p _ _ Hp _.
  apply (runs_devices tables error_debug fuel_pci cfg (fun _ => tt));
    [exact Hpci|exact ports_apart_unit|exact Hdev|exact Hdeve| | |].
  { cbn [k_devices set_paging_part set_gdt_part set_gfx]. rewrite Hdevc.
    unfold Pci.DEVICE_CAPACITY in *. lia. }
  - intros mx b _ _ _ [Hc _]. split; [|exact Hbl]. by eapply paged_kept; [exact Hp|done|exact Hc].
  - intros mx b _ Hc. split; [done|]. split; [|exact Hbl].
    by eapply paged_kept; [exact Hp|done|exact Hc].
Qed.

Section beyond.
Context (bi : BootInfo MT) (Hdf : display_fits (graphic_info bi)).
Hypothesis Hbeyond : MAPPED_BYTES <= gi_frame_buffer_addr (graphic_info bi).
Hypothesis Hlower : gi_frame_buffer_addr (graphic_info bi) +
  4 * (gi_width (graphic_info bi) * gi_height (graphic_info bi)) <= 2 ^ 48.

Lemma ready_faults line c rest s : ready bi s -> Forall Console.is_ascii line ->
  concat line = c :: rest -> visible_char c -> Console.split_lines (c :: rest) = [c :: rest] ->
  faults_at s line /\ kprintln tables line s = Diverges.
Proof.
  intros [Hp Hb] Hl Ec Hc Hsp.
  assert (Hun : forall a, framebuf_addr (display_of bi) <= a < framebuf_addr (display_of bi) +
      4 * (width (display_of bi) * height (display_of bi)) -> translate tables s a = None).
  { intros a Ha. cbn in Ha. rewrite (paged_translate gdt_addr tables s a Hp)
      by (unfold MAPPED_BYTES in *; lia).
    by replace (a <? MAPPED_BYTES) with false by lia. }
  destruct (first_line_faults (view_of tables s) (display_of bi)) with
    (pieces := line) (c := c) (rest := rest) (G := k_gfx s) as [(a & Ha & Hm) Hthrough];
    [apply buffer_of_wf, Hdf|by split; apply Hdf| |done..|].
  { intros a Ha. unfold mapped, view_of. rewrite Hun by done. by apply bool_decide_eq_false. }
  split.
  - exists a. split; [exact Ha|]. by apply Hun.
  - unfold kprintln, on_display, with_view, on_gfx, zoom, mbind, M_bind. by rewrite Hthrough.
Qed.

(** The lines that come first. *)
Lemma next_line_faults s : ready bi s ->
  faults_at s (next_line bi) /\ kprintln tables (next_line bi) s = Diverges.
Proof.
  intros Hr. unfold next_line. destruct (rsdp_addr bi) as [p|].
  - eapply (ready_faults _ 114); [exact Hr|..].
    + constructor; [by apply Acpi.literal_ascii|]. constructor; [apply fmt_hex_ascii|done].
    + reflexivity.
    + by exists 1.
    + apply split_one_line. repeat (constructor; [done|]). rewrite app_nil_r. apply fmt_hex_one_line.
  - eapply (ready_faults _ 82); [exact Hr|by apply msg_ascii|reflexivity|by exists 1|reflexivity].
Qed.

Lemma panic_line_faults p s : ready bi s ->
  faults_at s [bytes_of_string "[panic]"] /\ panic_handler tables panic_text p s = Diverges.
Proof.
  intros Hr. destruct (ready_faults [bytes_of_string "[panic]"] 91 (bytes_of_string "panic]") s Hr)
    as [Hf Hd]; [by apply msg_ascii|reflexivity|by exists 2|reflexivity|].
  split; [exact Hf|]. unfold panic_handler. by rewrite (bind_Diverges _ _ _ Hd).
Qed.
End beyond.

(** * Property *)

End kernel.

(** ** Witness: the machine of debug.txt with its display at 64 GiB *)

#[local] Existing Instance pc_device.
#[local] Existing Instance Acpi.firmware.
#[local] Existing Instance Gdt.selector_reference.
#[local] Existing Instance PhysMem.memory_type_reference.

Definition high_gi : GraphicInfo := {|
  gi_width := 1280; gi_height := 800; gi_stride := 1280; gi_bytes_per_pixel := 4;
  gi_pixel_format := Bgr; gi_frame_buffer_addr := 0x1000000000; gi_size := 0x3e8000
|}.

Lemma high_gi_fits : display_fits high_gi.
Proof. split; [by split|done..]. Qed.

Definition high_boot : BootInfo Z := mkBootInfo high_gi PhysMem.small_map (Some (mkPhysPtr 0x6000)).

End Unmapped.
