(* ===== verification/Cursor.v ===== *)
(** The mouse cursor (kernel/src/graphic/mouse.rs): drawing its shape into the
    frame buffer, a pixel at a time through the lock. *)

From S2P Require Import Prelude Machine External Graphic Errors FrameBuffer Console Logger.

Module Cursor.
Import Graphic FrameBuffer.

Definition CURSOR_WIDTH : Z := 15.
Definition CURSOR_HEIGHT : Z := 15.

Definition CURSOR_SHAPE_STR : list string := [
  "      @@@      ";
  "    @@...@@    ";
  "   @.......@   ";
  "  @...@@@...@  ";
  " @...@   @...@ ";
  " @..@     @..@ ";
  "@..@       @..@";
  "@..@       @..@";
  "@..@       @..@";
  " @..@     @..@ ";
  " @...@   @...@ ";
  "  @...@@@...@  ";
  "   @.......@   ";
  "    @@...@@    ";
  "      @@@      "
]%string.

(** [row.chars()]: the characters of the shape are ASCII. *)
Definition chars (row : string) : list Z := bytes_of_string row.

Section draw.
Context {mutex : Type -> Type} `{SpinMutex mutex}.
Notation GM := (M (Console.Gfx mutex)).

Definition on_frame_buffer {A} (m : M (FbState mutex) A) : GM A :=
  zoom Console.gfx_fb (fun f G => Console.mkGfx (Console.CONSOLE G) f) m.

Definition fmt_usize (v : Z) : list Z := Logger.digits 20 10 v [].

(** The match on a character of the shape; the result of [write_pixel] is not used. *)
Definition draw_char (x y c : Z) : GM unit :=
  if c =? 32 then mret tt
  else if c =? 46 then
    on_frame_buffer (write_pixel x y (Pixel_from_RgbColor (RgbColor_from_u32 0x689d6a00))) ;;
    mret tt
  else if c =? 64 then
    on_frame_buffer (write_pixel x y (Pixel_from_RgbColor (RgbColor_from_u32 0xfbf1c700))) ;;
    mret tt
  else
    Console.kprintln [bytes_of_string "There is an unexpected character "; [34; c; 34];
      bytes_of_string " in CURSOR_SHAPE_STR"].

Definition draw_row (y : Z) (row : string) : GM unit :=
  for_each (enumerate (chars row)) (fun '(x, c) =>
    (if CURSOR_WIDTH <=? x then
       n ← uadd 64 x 1;
       Console.kprintln [bytes_of_string "CURSOR_WIDTH was defined to be ";
         fmt_usize CURSOR_WIDTH; bytes_of_string " but, CURSOR_SHAPE_STR is ";
         fmt_usize n; bytes_of_string " in width."]
     else mret tt) ;;
    draw_char x y c).

Definition draw_cursor : GM unit :=
  for_each (enumerate CURSOR_SHAPE_STR) (fun '(y, row) =>
    (if CURSOR_HEIGHT <=? y then
       n ← uadd 64 y 1;
       Console.kprintln [bytes_of_string "CURSOR_HEIGHT was defined to be ";
         fmt_usize CURSOR_HEIGHT; bytes_of_string " but, CURSOR_SHAPE_STR is ";
         fmt_usize n; bytes_of_string " in height."]
     else mret tt) ;;
    draw_row y row).
End draw.

(** * Specification: the picture *)

(** The colour of a cell of the shape, where it has one. *)
Definition char_color (c : Z) : option RgbColor :=
  if c =? 46 then Some 0x689d6a00 else if c =? 64 then Some 0xfbf1c700 else None.
Definition cursor_color (x y : Z) : option RgbColor :=
  row ← CURSOR_SHAPE_STR !! Z.to_nat y;
  c ← chars row !! Z.to_nat x;
  char_color c.

(** [s'] is [s] with the colours [f] at the pixels inside, and no byte outside the
    frame buffer changed. *)
Record drawn (s s' : Screen) (f : Z -> Z -> option RgbColor) : Prop := {
  drawn_fb : scr_fb s' = scr_fb s;
  drawn_pixels x y : inside (scr_fb s) x y ->
    pixel_at s' x y = match f x y with
      | Some c => Some (color_word (scr_fb s) c)
      | None => pixel_at s x y
      end;
  drawn_frame a :
    ~ framebuf_addr (scr_fb s) <= a <
        framebuf_addr (scr_fb s) + 4 * (width (scr_fb s) * height (scr_fb s)) ->
    scr_mem s' !! a = scr_mem s !! a
}.

(** * Lemmas *)

Lemma drawn_ext s s' f g :
  (forall x y, 0 <= x -> 0 <= y -> f x y = g x y) -> drawn s s' f -> drawn s s' g.
Proof.
  intros Hfg [Hfb Hpx Hfr]. split; [done| |done].
  intros x y Hin. rewrite <- Hfg by apply Hin. by apply Hpx.
Qed.

Lemma drawn_refl s : drawn s s (fun _ _ => None).
Proof. by split. Qed.

(** A pixel inside or outside: outside nothing is drawn and nothing needs to be. *)
Lemma wp_draw_pixel s0 s f x y c :
  fb_wf (scr_fb s0) -> 0 <= x -> 0 <= y -> drawn s0 s f ->
  wp (FrameBuf_write_pixel x y (Pixel_from_RgbColor c)) (fun _ s' =>
    drawn s0 s' (fun x' y' => if (x' =? x) && (y' =? y) then Some c else f x' y')) s.
Proof.
  intros Hwf Hx Hy [Hfb Hpx Hfr].
  destruct (is_inside_buffer (scr_fb s) x y) eqn:E; unfold is_inside_buffer in E.
  - assert (Hin : inside (scr_fb s) x y) by (unfold inside; lia).
    eapply wp_mono.
    { eapply (painted_write s); [by rewrite Hfb|exact Hin|reflexivity|apply painted_refl]. }
    intros r s' (_ & [Hfb' Hpx' Hfr']). split; [congruence| |].
    + intros x' y' Hin'. rewrite Hpx' by (by rewrite Hfb). rewrite Hpx by done. cbn.
      destruct ((x' =? x) && (y' =? y)); [|done]. by rewrite Hfb.
    + intros a Ha. rewrite Hfr' by (by rewrite Hfb). by apply Hfr.
  - eapply wp_eq; [apply write_pixel_outside; lia|]. split; [done| |done].
    intros x' y' Hin'. rewrite Hpx by done. rewrite <- Hfb in Hin'. unfold inside in Hin'.
    by replace ((x' =? x) && (y' =? y)) with false by lia.
Qed.

(** Every cell of the shape is one of the three the match expects, and inside
    the declared size, so no message is printed. *)
Lemma shape_cells y row x c :
  CURSOR_SHAPE_STR !! y = Some row -> chars row !! x = Some c ->
  (y < 15)%nat /\ (x < 15)%nat /\ (c = 32 \/ c = 46 \/ c = 64).
Proof.
  intros Hrow Hc.
  assert (Hall : Forall (fun row => length (chars row) = 15%nat /\
    Forall (fun c => c = 32 \/ c = 46 \/ c = 64) (chars row)) CURSOR_SHAPE_STR).
  { apply (bool_decide_unpack _). vm_compute. exact I. }
  pose proof (lookup_lt_Some _ _ _ Hrow) as Hy. change (length CURSOR_SHAPE_STR) with 15%nat in Hy.
  destruct (proj1 (Forall_lookup _ _) Hall _ _ Hrow) as [Hlen Hcs].
  pose proof (lookup_lt_Some _ _ _ Hc) as Hx. rewrite Hlen in Hx.
  split; [done|]. split; [done|]. exact (proj1 (Forall_lookup _ _) Hcs _ _ Hc).
Qed.

Section proofs.
Context {mutex : Type -> Type} `{SpinMutexLaws mutex}.
Implicit Types G : Console.Gfx mutex.

Definition screen G : Screen := Console.screen_of (Console.gfx_fb G).

(** The frame buffer is free, holds the drawing [f] over [s0], and the console is
    untouched. *)
Definition draw_inv (s0 : Screen) (c0 : mutex Console.Console) (f : Z -> Z -> option RgbColor) G :
    Prop :=
  Console.fb_free (Console.gfx_fb G) /\ Console.CONSOLE G = c0 /\ drawn s0 (screen G) f.

Lemma wp_draw_char s0 c0 f x y c G (Q : unit -> Console.Gfx mutex -> Prop) :
  fb_wf (scr_fb s0) -> 0 <= x -> 0 <= y -> c = 32 \/ c = 46 \/ c = 64 ->
  draw_inv s0 c0 f G ->
  (forall G', draw_inv s0 c0 (fun x' y' => if (x' =? x) && (y' =? y) then
      match char_color c with Some v => Some v | None => f x' y' end else f x' y') G' -> Q tt G') ->
  wp (draw_char x y c) Q G.
Proof.
  intros Hwf Hx Hy Hc (Hfree & Hcon & Hd) HQ.
  assert (Hdraw : forall col, char_color c = Some col ->
    wp (on_frame_buffer (write_pixel x y (Pixel_from_RgbColor col)) ;; mret tt) Q G).
  { intros col Hcol. wp_step. apply wp_zoom, wp_frame_buf; [done|].
    eapply wp_mono; [by eapply wp_draw_pixel|]. intros r s' Hs' g' Hg' Hgd Hgm.
    apply wp_ret, HQ. split; [done|]. split; [done|]. rewrite Hcol.
    unfold screen, Console.screen_of. cbn [Console.gfx_fb]. rewrite Hgd, Hgm.
    by destruct s'. }
  unfold draw_char. destruct Hc as [-> | [-> | ->]]; simpl Z.eqb; cbv iota;
    [|by apply Hdraw..].
  apply wp_ret, HQ. split; [done|]. split; [done|].
  eapply drawn_ext; [|exact Hd]. intros x' y' _ _. cbn. by destruct ((x' =? x) && (y' =? y)).
Qed.

(** The cells before [(i, j)] in reading order. *)
Definition upto (i j : Z) (x y : Z) : option RgbColor :=
  if (y <? j) || ((y =? j) && (x <? i)) then cursor_color x y else None.

Lemma upto_step i j x y col : 0 <= x -> 0 <= y -> 0 <= i -> 0 <= j ->
  cursor_color i j = col ->
  (if (x =? i) && (y =? j) then match col with Some v => Some v | None => upto i j x y end
   else upto i j x y) = upto (i + 1) j x y.
Proof.
  intros Hx Hy Hi Hj <-. unfold upto.
  destruct (Z.eqb_spec x i) as [->|], (Z.eqb_spec y j) as [->|]; simpl.
  - replace (j <? j) with false by lia. replace (i <? i) with false by lia.
    replace (i <? i + 1) with true by lia. simpl. by destruct (cursor_color i j).
  - by rewrite !orb_false_r.
  - by replace (x <? i + 1) with (x <? i) by lia.
  - done.
Qed.

Lemma upto_row j row x y : 0 <= x -> 0 <= y -> CURSOR_SHAPE_STR !! Z.to_nat j = Some row ->
  upto (Z.of_nat (length (chars row))) j x y = upto 0 (j + 1) x y.
Proof.
  intros Hx Hy Hrow. unfold upto. replace (x <? 0) with false by lia. rewrite andb_false_r.
  destruct (Z.ltb_spec y j).
  - by replace (y <? j + 1) with true by lia.
  - destruct (Z.eqb_spec y j) as [->|]; cbn [orb andb].
    + replace (j <? j + 1) with true by lia. cbn [orb].
      destruct (Z.ltb_spec x (Z.of_nat (length (chars row)))); [done|].
      unfold cursor_color. rewrite Hrow. cbn [mbind option_bind].
      by rewrite lookup_ge_None_2 by lia.
    + by replace (y <? j + 1) with false by lia.
Qed.

Lemma wp_draw_row s0 c0 j row G (Q : unit -> Console.Gfx mutex -> Prop) :
  fb_wf (scr_fb s0) -> 0 <= j -> CURSOR_SHAPE_STR !! Z.to_nat j = Some row ->
  draw_inv s0 c0 (upto 0 j) G ->
  (forall G', draw_inv s0 c0 (upto 0 (j + 1)) G' -> Q tt G') ->
  wp (draw_row j row) Q G.
Proof.
  intros Hwf Hj Hrow HG HQ. unfold draw_row.
  apply (wp_for_enumerate _ _ (fun i G => draw_inv s0 c0 (upto i j) G)); [done| |].
  - intros i c G1 Hi Hc HG1. destruct (shape_cells _ _ _ _ Hrow Hc) as (_ & Hx & Hcs).
    unfold CURSOR_WIDTH. replace (15 <=? i) with false by lia. wp_step. apply wp_ret.
    eapply wp_draw_char; [done..|exact Hcs|exact HG1|]. intros G2 (Hf & Hc2 & Hd).
    split; [done|]. split; [done|]. eapply drawn_ext; [|exact Hd].
    intros x y Hx0 Hy0. apply upto_step; [done..|]. unfold cursor_color.
    rewrite Hrow. simpl. by rewrite Hc.
  - intros G1 (Hf & Hc1 & Hd). apply HQ. split; [done|]. split; [done|].
    eapply drawn_ext; [|exact Hd]. intros x y Hx Hy.
    by apply upto_row.
Qed.

Lemma wp_draw_cursor s0 c0 G (Q : unit -> Console.Gfx mutex -> Prop) :
  fb_wf (scr_fb s0) -> draw_inv s0 c0 (fun _ _ => None) G ->
  (forall G', draw_inv s0 c0 cursor_color G' -> Q tt G') -> wp draw_cursor Q G.
Proof.
  intros Hwf (Hf & Hc & Hd) HQ. unfold draw_cursor.
  apply (wp_for_enumerate _ _ (fun j G => draw_inv s0 c0 (upto 0 j) G)).
  - split; [done|]. split; [done|]. eapply drawn_ext; [|exact Hd].
    intros x y Hx Hy. unfold upto. replace (y <? 0) with false by lia.
    replace (x <? 0) with false by lia. by rewrite andb_false_r.
  - intros j row G1 Hj Hrow HG1.
    pose proof (lookup_lt_Some _ _ _ Hrow) as Hlt.
    change (length CURSOR_SHAPE_STR) with 15%nat in Hlt. unfold CURSOR_HEIGHT.
    replace (15 <=? j) with false by lia. wp_step. apply wp_ret.
    eapply wp_draw_row; [done..|exact HG1|]. done.
  - intros G1 (Hf1 & Hc1 & Hd1). apply HQ. split; [done|]. split; [done|].
    eapply drawn_ext; [|exact Hd1]. intros x y Hx Hy. unfold upto.
    destruct (Z.ltb_spec y (Z.of_nat (length CURSOR_SHAPE_STR))); simpl; [done|].
    replace (x <? 0) with false by lia. rewrite andb_false_r. unfold cursor_color.
    by rewrite lookup_ge_None_2 by lia.
Qed.
End proofs.

(** * Properties *)

Section properties.
Context {mutex : Type -> Type} `{SpinMutexLaws mutex}.
Implicit Types G : Console.Gfx mutex.

(** C40: on every frame buffer, however small, [draw_cursor] paints exactly the cells
    of the shape that are on the screen, in their two colours, leaves every other
    pixel, every byte outside the frame buffer and the console as they were, and prints nothing. *)
Theorem draw_cursor_spec G :
  Console.fb_free (Console.gfx_fb G) -> fb_wf (scr_fb (screen G)) ->
  exists G', draw_cursor G = Ret tt G' /\ Console.CONSOLE G' = Console.CONSOLE G /\
    Console.fb_free (Console.gfx_fb G') /\ drawn (screen G) (screen G') cursor_color.
Proof.
  intros Hfree Hwf. apply wp_returns_unit.
  eapply (wp_draw_cursor (screen G) (Console.CONSOLE G)); [done| |].
  - split; [done|]. split; [done|]. apply drawn_refl.
  - intros G' (H1 & H2 & H3). auto.
Qed.
End properties.

Lemma draw_cursor_spec_witness :
  let G := Console.mkGfx (SpinLock false Console.Console_new_empty)
    (mkFbState (SpinLock false small_fb) ∅) in
  exists G', draw_cursor G = Ret tt G' /\ pixel_at (screen G') 6 0 = Some 0xfbf1c7 /\
    pixel_at (screen G') 0 0 = None.
Proof.
  intros G. destruct (draw_cursor_spec (mutex := spin_lock) G) as (G' & E & _ & _ & Hd);
    [reflexivity|exact small_fb_wf|].
  exists G'. split; [exact E|].
  split; (rewrite (drawn_pixels _ _ _ Hd); [reflexivity|unfold inside; simpl; lia]).
Defined.
End Cursor.
