(* ===== verification/Timer.v ===== *)
(** The tick counter of the timer (kernel/src/timer.rs): its manager and the lock
    around it, and the programming of the local APIC's timer.  The functions it calls
    by names the kernel does not have are parameters. *)

From S2P Require Import Prelude Machine External Apic Interrupts.

Module Timer.
Import Apic.

Definition COUNT_MAX : Z := 0xffffffff.

Record TimerManager : Type := mkTimerManager { tick_count : Z }.
Definition TimerManager_new : TimerManager := mkTimerManager 0.

Definition tick : M TimerManager unit :=
  self ← get_st; t ← uadd 64 (tick_count self) 1; put_st (mkTimerManager t).
Definition TimerManager_current_tick : M TimerManager Z := gets tick_count.

Section global.
Context {mutex : Type -> Type} `{SpinMutex mutex}.

(** [TIMER_MANAGER.lock().method()]. *)
Definition TIMER_MANAGER {A} (m : M TimerManager A) : M (mutex TimerManager) A :=
  with_lock (fun g => g) (fun mx _ => mx) (zoom fst (fun t p => (t, p.2)) m).

Definition local_apic_timer_on_interrupt : M (mutex TimerManager) unit := TIMER_MANAGER tick.
Definition current_tick : M (mutex TimerManager) Z := TIMER_MANAGER TimerManager_current_tick.
End global.

(** * The local APIC timer *)

(** [interrupts::get_local_apic] and two of the register accesses called on its result
    are not in the repository. *)
Class TimerApi (D : Type) := {
  get_local_apic : M (Bus D) LocalApic;
  set_lvt_timer_register : LocalApic -> Z -> M (Bus D) unit;
  get_current_count_register_for_timer : LocalApic -> M (Bus D) Z
}.

Section local_apic_timer.
Context {D : Type} `{Device D} `{!TimerApi D}.
Notation TM := (M (Bus D)).

Definition init_local_apic_timer : TM unit :=
  la ← get_local_apic;
  write_divide_config_register_for_timer la 0xb ;;
  la ← get_local_apic;
  set_lvt_timer_register la (Z.lor (ushl 32 2 16)
    (Interrupts.InterruptVector_as_u8 Interrupts.LocalAPICTimer)) ;;
  la ← get_local_apic;
  write_initial_count_register_for_timer la 0x1000000.

Definition start_local_apic_timer : TM unit :=
  la ← get_local_apic; write_initial_count_register_for_timer la COUNT_MAX.

Definition local_apic_timer_elapsed : TM Z :=
  la ← get_local_apic;
  count ← get_current_count_register_for_timer la;
  usub 32 COUNT_MAX count.

Definition stop_local_apic_timer : TM unit :=
  la ← get_local_apic; write_initial_count_register_for_timer la 0.
End local_apic_timer.

(** What the names say: the registers of one local APIC. *)
Record timer_api_ok {D} `{Device D} `{!TimerApi D} (la : LocalApic) : Prop := {
  ta_apic b : get_local_apic b = Ret la b;
  ta_lvt v b : set_lvt_timer_register la v b = write_lvt_timer_register la v b;
  ta_count b : get_current_count_register_for_timer la b =
    read_current_count_register_for_timer la b
}.

Section properties.
Context {mutex : Type -> Type} `{SpinMutexLaws mutex}.
Implicit Types g : mutex TimerManager.

Lemma wp_timer {A} (m : M TimerManager A) Q g :
  mutex_held g = false ->
  wp m (fun a t => forall g', mutex_held g' = false -> mutex_data g' = t -> Q a g') (mutex_data g) ->
  wp (TIMER_MANAGER m) Q g.
Proof.
  intros Hfree Hm. apply wp_with_guard; [done|]. intros mx Hmx. apply wp_zoom.
  eapply wp_mono; [exact Hm|]. intros a t HQ. apply HQ; simpl; by autorewrite with mutex.
Qed.

(** The counter counts the interrupts, until 64 bits overflow. *)
Theorem timer_counts (n : nat) g :
  mutex_held g = false -> 0 <= tick_count (mutex_data g) ->
  tick_count (mutex_data g) + Z.of_nat n < 2 ^ 64 ->
  exists g', (for_each (replicate n tt) (fun _ => local_apic_timer_on_interrupt) ;; current_tick) g =
    Ret (tick_count (mutex_data g) + Z.of_nat n) g'.
Proof.
  intros Hfree Hpos Hmax.
  assert (Hw : wp (for_each (replicate n tt) (fun _ => local_apic_timer_on_interrupt) ;; current_tick)
    (fun v _ => v = tick_count (mutex_data g) + Z.of_nat n) g).
  { revert g Hfree Hpos Hmax. induction n as [|n IH]; intros g Hfree Hpos Hmax.
    - cbn [replicate for_each]. do 2 wp_step. apply wp_timer; [done|].
      apply wp_gets. intros. lia.
    - cbn [replicate for_each]. wp_step. wp_step. apply wp_timer; [done|]. unfold tick.
      wp_step. wp_step. wp_step. wp_step; [lia|]. wp_step. intros g' Hg' E.
      specialize (IH g' Hg'). rewrite E in IH. cbn [tick_count] in IH.
      specialize (IH ltac:(lia) ltac:(lia)). apply wp_bind_inv in IH. eapply wp_mono; [exact IH|]. cbv beta.
      intros _ g2 H2. eapply wp_mono; [exact H2|]. intros v _ ->. lia. }
  apply wp_returns in Hw as (v & g' & E & ->). eauto.
Qed.

(** An interrupt taken while [current_tick] holds the lock spins for ever. *)
Theorem timer_interrupt_deadlock g :
  mutex_held g = true -> local_apic_timer_on_interrupt g = Diverges.
Proof. intros Hheld. unfold local_apic_timer_on_interrupt, TIMER_MANAGER, with_lock.
  by rewrite with_guard_busy. Qed.
End properties.

Section programming.
Context {D : Type} `{Device D} `{!TimerApi D} (la : LocalApic) (Hapi : timer_api_ok la).

(** The periodic timer: the divider, the entry of vector 65 in periodic mode, and the count
    that starts it, in this order. *)
Theorem init_programs_timer b :
  exists b', init_local_apic_timer b = Ret tt b' /\
    bus_log b' = bus_log b ++ map EvWrite [
      Store32 (la_ptr la + 0x3e0) 0xb; Store32 (la_ptr la + 0x320) 0x20041;
      Store32 (la_ptr la + 0x380) 0x1000000].
Proof.
  destruct Hapi as [Ha Hl _]. apply wp_returns_unit. unfold init_local_apic_timer.
  wp_step. eapply wp_eq; [apply Ha|]. wp_step. apply wp_io_write.
  wp_step. eapply wp_eq; [apply Ha|]. wp_step. eapply wp_eq; [apply Hl|].
  wp_step. eapply wp_eq; [apply Ha|]. apply wp_io_write.
  cbn [bus_log]. by rewrite <- !(assoc_L (++)).
Qed.

(** A measurement never underflows: whatever the count register holds, the elapsed time is
    what is missing from the start value. *)
Theorem elapsed_in_range b :
  exists v b', (start_local_apic_timer ;; local_apic_timer_elapsed) b = Ret v b' /\
    0 <= v <= COUNT_MAX.
Proof.
  destruct Hapi as [Ha _ Hc].
  assert (Hw : wp (start_local_apic_timer ;; local_apic_timer_elapsed)
    (fun v _ => 0 <= v <= COUNT_MAX) b).
  { unfold start_local_apic_timer, local_apic_timer_elapsed.
    wp_step. wp_step. eapply wp_eq; [apply Ha|]. apply wp_io_write.
    wp_step. eapply wp_eq; [apply Ha|]. wp_step. eapply wp_ext; [apply Hc|].
    apply wp_io_read. intros v d Hv _ _. change (read_width _) with 32 in Hv.
    unfold COUNT_MAX. apply wp_checked; lia. }
  apply wp_returns in Hw as (v & b' & E & Hv). eauto.
Qed.
End programming.
End Timer.
